(* ===== verification/_CoqProject ===== *)
-Q . S2P
Prelude.v
RustStd.v
Wire.v
Reader.v
Manager.v
Answers.v
Blocking.v
Seccomp.v
Crypto.v
Config.v
Models.v
Queue.v
Restart.v
Scripts.v
Runners.v
Zygote.v
Setup.v
Jail.v
Http.v
Posix.v
Worker.v
WorkerInv.v
WorkerSpec.v
WorkerInput.v
System.v
Child.v
ChildSpec.v
Pipeline.v
Generations.v
Service.v
Startup.v
UnitTests.v
