(* ===== verification/Prelude.v ===== *)
(** * SandBoxRust: a verification development

    ** The program

    SandBoxRust is an HTTP server that runs untrusted Python and JavaScript in
    a sandbox.  A request passes the API-key extractor, is submitted to a pool
    of workers, and is executed by a language runner: Python code goes to a
    pre-warmed interpreter (the zygote, a long-lived child that forks per
    request and speaks a framed protocol over a socket) or, failing that, to a
    fresh interpreter; JavaScript always goes to a fresh interpreter.  Inside
    the interpreter a shared library chroots, drops privileges and installs a
    seccomp filter before the code runs.  A dead zygote is replaced by a
    single-flight restart.

    ** Files, in dependency order

    - [Prelude]: machine integers as [Z] at their width, bytes, big-endian
      encodings, tactics ([int_lia], [case_all], [len_lia]), hint databases.
    - [RustStd]: the functions of Rust's standard library the sources call on
      strings and integers (UTF-8 validation and lossy decoding, [parse],
      [to_string], [split], [replace], [trim], [lines], ...).  A Rust string
      is its UTF-8 bytes.
    - [Wire]: [encode_frame] and the header inspection of [read_loop]
      (server/src/services/zygote.rs).
    - [Reader]: [read_loop] of the same file: the reassembly buffer, the
      [pending] table, the output cap, the exit path.  [view] is an abstract
      specification of one request seen through its own frames only.
    - [Manager]: any number of concurrent calls of [ZygoteManager::run]
      interleaved with the reader at every access to shared state; [exec]
      performs one event, [reachable] states are those of finite executions.
    - [Answers]: the progress half of [Manager]: where the sender of a waiting
      call is ([heard]), so that no answer is lost; the end of the reader task
      with the calls of [run] going on.
    - [Blocking]: the lock on the write half and the socket behind it: a first
      in, first out line of writers, whose frames the socket takes some bytes at
      a time; [writes_atomic] shows that a write is as good as one step of
      [Manager].
    - [Seccomp]: lib/sandbox_seccomp/src: the six system call tables and
      [init_seccomp] with what it calls, in a monad that records the kernel
      and libseccomp calls and takes their results from an arbitrary world;
      [plan] is the specification, a list of steps, and [policy] the filter
      the comments and the README declare.  Also [apply_landlock].
    - [Crypto]: server/src/crypto.rs with its two inverses, [decrypt] of
      runtime/prescript.py and [_xor] of runtime/pool/zygote_worker.py.
    - [Config]: server/src/config.rs; [readme_rows] is the README's table of
      keys and variables.
    - [Models]: server/src/models.rs.
    - [Queue]: server/src/queue.rs: [submit] calls and workers interleaved at
      every access to the depth counter, the channel and the reply channels.
    - [Restart]: the global slot and the restart gate of server/src/main.rs,
      with the requests of services/python.rs that use them.
    - [Scripts]: the two embedded prescripts and the replacement of their
      holes.
    - [Runners]: services.rs, services/python.rs, services/nodejs.rs; the
      specification ([limits_granted], [bootstrap_values], [process_answer],
      [isolated_command]) is written without the runners' own helpers.
    - [Zygote]: [socketpair], [new], [stop], [drop] of services/zygote.rs,
      over the server's descriptor table.
    - [Setup]: setup/dependencies.rs and setup/env.rs.
    - [Jail]: runtime/script/env.sh, which [Setup] runs, over a class of what
      it asks of the system; the commands run are recorded.
    - [Http]: middleware.rs, handlers.rs and the routes of main.rs; the
      closure submitted by [run_code] is a job of [Queue], so that the
      end-to-end theorem joins [Http], [Runners] and [Queue].
    - [Posix]: the kernel objects the zygote worker uses (pipes, children and
      their wait statuses, its descriptor table, the control socket), the
      calls on them, and the moves of the environment (children and server).
    - [Worker]: [class Zygote] of runtime/pool/zygote_worker.py: the buffers
      and tables, every handler, a turn of the [select] loop; an event is a
      turn or a move of the environment.
    - [WorkerInv]: the worker's invariants and the effect of every handler;
      [inv] for the tables, [req_ok] for one request, [work] as the measure of
      what is left to read of a request.
    - [WorkerSpec]: the theorems on the worker, and its composition with
      [Reader].
    - [WorkerInput]: the worker's input: the frames a turn takes off the socket,
      the children forked for them, the children killed by them.
    - [System]: [Manager] and [Worker] connected by the control socket: frames
      the server writes are accepted in whole or in part, delivered in pieces
      of any size and parsed by the worker; the reader handles the frames the
      worker has sent.  [linked] is the invariant of the two sides.
    - [Child]: [_child_exec] of zygote_worker.py, runtime/prescript.py and
      runtime/prescript.js, from the start of a process to its exit code, over
      the entry points of [Seccomp]; a process is its descriptors and memory
      with the trace of what it did.
    - [ChildSpec]: the theorems on these processes; [entry_acts] is the
      specification of a complete entry into the sandbox.
    - [Pipeline]: the fast Python path end to end: [Runners] above [System]
      above [Child]; [own_script] for the slow path.
    - [Generations]: [Restart] with its managers filled in: the slot, the gate,
      the restart tasks and the fast-path requests over any number of
      [System]s built by [Zygote.new], each with its own [running] flag and
      dropped with its last handle.  [abs] maps it to [Restart].
    - [Service]: [Queue], the job of [Http.run_code_job], [Runners] and
      [Generations] as one system: a client's request enters the fleet from the
      pool worker that runs it.
    - [Startup]: [main] of server/src/main.rs, which puts the components
      together ([main_boots_service]: what it leaves is the initial state of
      [Service]), the worker's [main], the library's identification strings.
    - [UnitTests]: the unit tests of the Rust sources, evaluated on the model
      ([unit_tests_pass]); the test of services.rs that a timeout kills the
      child is shown to be an exact check ([timeout_test_exact]).

    ** How code is modelled

    Sequential code is a function; an early return is a branch, [Result] a sum
    or an option, a panic [None].  Concurrent code is an executable transition
    system: a program counter per task, an event per access to shared state,
    [exec : event -> state -> option state] undefined when the event is not
    enabled, invariants proved by induction on executions.  Python code is a
    state monad with its exceptions ([Worker.M], [Child.P]).  Libraries that are
    not part of the repository are classes with the laws the code relies on:
    [DashIter] (iteration of DashMap), [Libc], [Libseccomp], [Landlock],
    [Base64], [PyBase64], [Rng], [SerdeJson], [Toml], [Mpmc] (the channel),
    [Subtle], [HeaderValue], [Os] (what the kernel chooses), [PyJson],
    [Python] and [Node] (the interpreters, and what the user's code does), [Shell]
    (the commands of the jail script); each
    has an instance used by the witnesses.  The file system, the environment,
    child processes and time are arguments.

    ** What the theorems show

    - The service as a whole (C1): with any number of clients, pool workers,
      restarts and zygotes interleaved, the answer to a Python request is made
      from one execution of that client's own request: the report of the one
      child forked for it, which runs the client's code and no other inside the
      configured sandbox, a manager error, or the outcome of one fresh
      interpreter, whose script runs the preload and that code alone, inside
      the sandbox too.
    - The zygotes of a server's life (C2, C3, C8 to C10): a fast run gets an
      error of the one manager it called or the report of its own child, across
      restarts; no two children of any generations are forked for one request;
      a manager is dropped only when idle and none is left behind; the restarts
      refine the single-flight protocol; a dead zygote is replaced by the next
      request.
    - Manager and worker composed (C4, C11, C12): in every interleaving of
      calls, reader, socket, worker and children, with failing writes and a
      worker that may crash, a call returns a manager error or the report of
      the one child that was forked for its own request; once that child is
      done and its frames are handled the call does return the report; an
      accepted kill order dooms the right child.
    - The protocol and the reader (C5, C29, C31): decoding inverts
      encoding; the reader refines the one-request specification whatever the
      chunking of the stream and the interleaving of requests, and stays within
      its memory bound.
    - The manager (C6, C30, C32), whatever the worker sends: a call returns its
      own output or a manager error; when the connection is lost every call
      registered by then is answered, and one that registers later is not (a
      defect); a call returns when the socket takes what is in line before it,
      and its timeout does not help when the socket does not (a defect).
    - The worker (C7, C20, C24 to C26, C40), whatever the server sends: in
      every interleaving with its children and the server it sends well-formed
      frames that carry exactly the output of each child and close with its
      exit code; a request with a dead child is closed after a bounded number
      of turns; the loop never blocks, its buffer is bounded and nothing leaks.
      Two defects: a descriptor of 1024 or more ends the worker, and a request
      that cannot be started is not answered and holds up the frames behind
      it.
    - The interpreters (C13, C21 to C23): code runs only after a complete entry
      into the sandbox, on all three paths; it is the submitted code, under the
      configured limits; in what the two Python paths differ: one landlock path
      and the exit codes of some ends.
    - The sandbox set-up (C14, C15, C34): it follows its plan and fails closed;
      the loaded filter implements the declared policy but for [O_CREAT], whose
      comparison does not filter.
    - The pool (C16, C33): own answers; when no job panics and all come to an
      end, every call is answered.
    - The runners (C18, C19) and the encryption (C28): one execution per
      request under the configured limits, no injection through JavaScript
      code, code that arrives intact.
    - The server (C17, C27, C35, C36), configuration and set-up (C37, C38): the
      dispatch every client is answered, start-up, authentication, response
      codes against the README's table and where they deviate from it, what the
      environment sets, descriptors of a manager.
    - The jail (C39): for a path and file names without the characters the
      script mistreats, one attempt per file to put it at its own path below
      the jail, and the file there when its copy does not fail.

    Further theorems are proved in the components' files without a number: the
    fast path and requests run once over a single manager, the single-flight
    gate alone, the number of interpreters alive, a frame over the cap that
    fails every request, a failed copy into the jail that is not reported, the
    worker's fast [_xor] equal to the byte loop,
    chunking of the stream, the reader's exit and the end of a call without
    interleaving and blocking, whole frames on the socket, calls stranded by
    panicking jobs, the worker joined with the reader alone, an empty
    table after the last call, the exact queue depth, recovery by a restart,
    the filled Python script, where the jail script writes, a child on its way
    out that is reported as terminated, reply channels, order of the queue, release of
    filter contexts, network calls, landlock, exit codes, the ignored Node
    preload, the silent failure answered as a success, the environment's reach,
    proxies, package listing, the worker's arguments.

    ** Bounds and fuel

    [drain_go] has the length of the buffer as fuel, and every iteration
    consumes a nine-byte header ([drain_unfold] removes the fuel).  [xor_loop]
    has the length of the data, and every iteration consumes a chunk.
    [flush_loop] has the length of the buffer and one, and every turn sends at
    least one byte; [frame_loop] the length of the buffer, as [drain_go].
    [py_chars] has the length of the string.  [decimal] has the number of bits.  [scan], used to read the templates, has
    16, and [render_python] and [render_nodejs] show that nothing is lost.
    Theorems on request ids assume fewer than 2^32 calls, the one on the queue
    depth fewer than 2^64, the widths of the counters.

    ** What is not modelled

    The warm imports of the worker and the interpreters themselves (their behaviours are quantified over); logging and
    durations that only feed it; lock poisoning, whose recovery leaves the
    guarded value as it is; actix-web, tokio and the kernel beyond what the
    interfaces say.  The write half's lock and a socket that is full are in
    [Blocking]; in [Manager] and above a [write_all] is one step, as
    [writes_atomic] allows while no write fails.  [Reader.read_loop] is the
    reader alone; its accesses are interleaved with the calls in [Manager].  A
    job of [Queue] is one step that ends; how long it takes is not modelled.
    In [System], a socket that took a part of a
    frame takes nothing more, request texts fit the worker's frame cap (16 MiB)
    and the server's output cap is at least one read of the worker (64 KiB); the
    server's end stays open, as the worker holds it too (C38).  In
    [Generations], what the children of a killed worker still do is not
    followed, since nobody hears of it, [Drop] is one step with the release of
    the last handle, and a manager's descriptors are left to [Zygote].  In
    [Service], a request is run to its end, as the pool's workers do, also when
    its client is gone.  In [Jail], the listing of [find] is taken as a
    whole before the loop.  In [Service], a slow run reads the
    slot for [get_zygote] when its job ends rather than when it starts, which is
    the same: after start-up the slot never changes between empty and full.  In
    [Worker], the exceptions are those of the
    system calls, of [json.loads] and of [os.waitstatus_to_exitcode]; a lack of
    memory elsewhere is not considered, nor an error of [recv] on the control
    socket other than that nothing is there, which the loop would log and
    ignore.  JSON numbers are integers.

    Not part of the model as a whole: the test clients under tests/ and the
    container and CI descriptions, which hold no program logic; the unit test
    of tokio's split stream, whose subject is that library.  A few lines of the
    sources only declare (imports, module and derive lines, the stub of
    [get_zygote] on other systems, which has no callers). *)

From stdpp Require Export base gmap sets list strings sorting relations.
From Stdlib Require Export ZArith Lia.
From Stdlib Require Export Strings.Byte.

#[global] Open Scope Z_scope.

(** ** Machine integers *)

Definition u8_max : Z := 255.
Definition u16_max : Z := 65535.
Definition u32_max : Z := 4294967295.
Definition u64_max : Z := 18446744073709551615.
Definition i32_max : Z := 2147483647.
Definition i32_min : Z := -2147483648.

(** [usize] is 64 bits wide: the seccomp tables name system calls that only
    the x86_64 table has. *)
Definition usize_max : Z := u64_max.

(** Rust's [as u32]: truncation. *)
Definition wrap_u32 (z : Z) : Z := z mod 4294967296.
Definition wrap_usize (z : Z) : Z := z mod 18446744073709551616.
(** Reinterpretation of 32 bits as a two's complement number. *)
Definition u32_to_i32 (z : Z) : Z := if z <=? i32_max then z else z - 4294967296.
(** Rust's [as u32] on an [i32]. *)
Definition i32_to_u32 (z : Z) : Z := z mod 4294967296.

Definition saturating_add_usize (a b : Z) : Z := Z.min usize_max (a + b).

Definition is_u32 (z : Z) : Prop := 0 <= z <= u32_max.
Definition is_i32 (z : Z) : Prop := i32_min <= z <= i32_max.

(** ** Bytes *)

Abbreviation bytes := (list byte).

#[global] Instance byte_eq_decision : EqDecision byte := Byte.byte_eq_dec.
#[global] Instance byte_countable : Countable byte := inj_countable Byte.to_N Byte.of_N Byte.of_to_N.

Definition byte_to_Z (b : byte) : Z := Z.of_N (Byte.to_N b).
Definition Z_to_byte (z : Z) : byte :=
  match Byte.of_N (Z.to_N (z mod 256)) with Some b => b | None => Byte.x00 end.

(** A Rust [&str] literal: its UTF-8 bytes. *)
Definition str (s : string) : bytes := String.list_byte_of_string s.

(** [Vec::len] and [str::len]. *)
Definition len {A} (l : list A) : Z := Z.of_nat (length l).

(** ** Big-endian integers: [u32::to_be_bytes], [u32::from_be_bytes] *)

Definition u32_to_be_bytes (z : Z) : bytes :=
  [Z_to_byte (Z.shiftr z 24); Z_to_byte (Z.shiftr z 16);
   Z_to_byte (Z.shiftr z 8); Z_to_byte z].

Definition u32_from_be_bytes (b0 b1 b2 b3 : byte) : Z :=
  Z.lor (Z.shiftl (byte_to_Z b0) 24)
    (Z.lor (Z.shiftl (byte_to_Z b1) 16)
      (Z.lor (Z.shiftl (byte_to_Z b2) 8) (byte_to_Z b3))).

Definition i32_from_be_bytes (b0 b1 b2 b3 : byte) : Z :=
  u32_to_i32 (u32_from_be_bytes b0 b1 b2 b3).

Definition i32_to_be_bytes (z : Z) : bytes := u32_to_be_bytes (i32_to_u32 z).

#[global] Arguments byte_to_Z : simpl never.
#[global] Arguments Z_to_byte : simpl never.
#[global] Arguments u32_to_be_bytes : simpl never.
#[global] Arguments u32_from_be_bytes : simpl never.
#[global] Arguments len : simpl never.

(** ** Tactics and hint databases *)

Create HintDb sandbox discriminated.

(** Unfold the machine-integer vocabulary and let [lia] finish. *)
Ltac int_lia :=
  unfold is_u32, is_i32, wrap_u32, wrap_usize, u32_to_i32, i32_to_u32,
    saturating_add_usize, usize_max, u8_max, u16_max, u32_max, u64_max, i32_max, i32_min, len in *;
  simpl in *; lia.

(** Split every [if] and [match] on a boolean or option in the goal. *)
Ltac case_all := repeat (case_match; simplify_eq/=; try done).

(** ** Lemmas: bytes *)

Lemma byte_to_Z_range b : 0 <= byte_to_Z b < 256.
Proof.
  unfold byte_to_Z. pose proof (Byte.to_N_bounded b). lia.
Qed.

Lemma byte_to_Z_inj b1 b2 : byte_to_Z b1 = byte_to_Z b2 -> b1 = b2.
Proof.
  unfold byte_to_Z. intros H%N2Z.inj.
  pose proof (Byte.of_to_N b1) as E1. pose proof (Byte.of_to_N b2) as E2.
  congruence.
Qed.

Lemma byte_to_Z_to_byte z : byte_to_Z (Z_to_byte z) = z mod 256.
Proof.
  unfold byte_to_Z, Z_to_byte.
  pose proof (Z.mod_pos_bound z 256 ltac:(lia)) as Hb.
  destruct (Byte.of_N (Z.to_N (z mod 256))) as [b|] eqn:E.
  - apply Byte.to_of_N in E. rewrite E. lia.
  - apply Byte.of_N_None_iff in E. lia.
Qed.

(** Disjoint bit fields: an [lor] with a shifted high part is a sum. *)
Lemma lor_shiftl_add a b n : 0 <= n -> 0 <= b < 2 ^ n ->
  Z.lor (Z.shiftl a n) b = a * 2 ^ n + b.
Proof.
  intros Hn Hb. rewrite Z.shiftl_mul_pow2 by lia.
  assert (Z.land (a * 2 ^ n) b = 0) as Hl.
  { apply Z.bits_inj'. intros i Hi. rewrite Z.land_spec, Z.bits_0.
    destruct (Z.lt_ge_cases i n).
    - rewrite Z.mul_pow2_bits_low by lia. done.
    - destruct (Z.eq_dec b 0) as [->|]; [rewrite Z.bits_0; apply andb_false_r|].
      rewrite (Z.bits_above_log2 b i); [apply andb_false_r|lia|].
      apply Z.log2_lt_pow2; [lia|]. eapply Z.lt_le_trans; [apply Hb|].
      apply Z.pow_le_mono_r; lia. }
  pose proof (Z.add_lor_land (a * 2 ^ n) b). lia.
Qed.

Lemma u32_from_be_bytes_sum b0 b1 b2 b3 :
  u32_from_be_bytes b0 b1 b2 b3 =
    byte_to_Z b0 * 16777216 + (byte_to_Z b1 * 65536 + (byte_to_Z b2 * 256 + byte_to_Z b3)).
Proof.
  unfold u32_from_be_bytes.
  pose proof (byte_to_Z_range b0). pose proof (byte_to_Z_range b1).
  pose proof (byte_to_Z_range b2). pose proof (byte_to_Z_range b3).
  rewrite (lor_shiftl_add _ _ 8) by (simpl; lia).
  rewrite (lor_shiftl_add _ _ 16) by (simpl; lia).
  rewrite (lor_shiftl_add _ _ 24) by (simpl; lia). simpl. lia.
Qed.

Lemma u32_from_be_bytes_range b0 b1 b2 b3 : is_u32 (u32_from_be_bytes b0 b1 b2 b3).
Proof.
  rewrite u32_from_be_bytes_sum. unfold is_u32, u32_max.
  pose proof (byte_to_Z_range b0). pose proof (byte_to_Z_range b1).
  pose proof (byte_to_Z_range b2). pose proof (byte_to_Z_range b3). lia.
Qed.

Lemma u32_be_bytes_roundtrip z : is_u32 z ->
  u32_from_be_bytes (Z_to_byte (Z.shiftr z 24)) (Z_to_byte (Z.shiftr z 16))
    (Z_to_byte (Z.shiftr z 8)) (Z_to_byte z) = z.
Proof.
  intros Hz. rewrite u32_from_be_bytes_sum, !byte_to_Z_to_byte, !Z.shiftr_div_pow2 by lia.
  unfold is_u32, u32_max in Hz.
  change (2 ^ 24) with 16777216. change (2 ^ 16) with 65536. change (2 ^ 8) with 256.
  Z.div_mod_to_equations. lia.
Qed.

Lemma u32_from_to_be_bytes b0 b1 b2 b3 :
  u32_to_be_bytes (u32_from_be_bytes b0 b1 b2 b3) = [b0; b1; b2; b3].
Proof.
  unfold u32_to_be_bytes. rewrite u32_from_be_bytes_sum.
  pose proof (byte_to_Z_range b0). pose proof (byte_to_Z_range b1).
  pose proof (byte_to_Z_range b2). pose proof (byte_to_Z_range b3).
  repeat f_equal; apply byte_to_Z_inj; rewrite byte_to_Z_to_byte, ?Z.shiftr_div_pow2 by lia;
    change (2 ^ 24) with 16777216; change (2 ^ 16) with 65536; change (2 ^ 8) with 256;
    Z.div_mod_to_equations; lia.
Qed.

Lemma i32_to_u32_range z : is_u32 (i32_to_u32 z).
Proof. unfold is_u32, i32_to_u32, u32_max. pose proof (Z.mod_pos_bound z 4294967296). lia. Qed.

Lemma wrap_u32_small z : is_u32 z -> wrap_u32 z = z.
Proof. unfold is_u32, wrap_u32, u32_max. intros. apply Z.mod_small. lia. Qed.

#[export] Hint Resolve u32_from_be_bytes_range i32_to_u32_range : sandbox.

(** ** Lemmas: lists *)

Lemma len_nonneg {A} (l : list A) : 0 <= len l.
Proof. unfold len. lia. Qed.

Lemma len_app {A} (l k : list A) : len (l ++ k) = len l + len k.
Proof. unfold len. rewrite length_app. lia. Qed.

Lemma len_nil {A} : len (@nil A) = 0.
Proof. done. Qed.

Lemma len_cons {A} (x : A) l : len (x :: l) = 1 + len l.
Proof. unfold len. rewrite length_cons. lia. Qed.

Lemma len_take {A} n (l : list A) : 0 <= n <= len l -> len (take (Z.to_nat n) l) = n.
Proof. unfold len. intros. rewrite length_take. lia. Qed.

Lemma length_to_nat_len {A} (l : list A) : Z.to_nat (len l) = length l.
Proof. unfold len. lia. Qed.

(** A finite set covered by a list is no larger. *)
Lemma size_covered (X : gset nat) (l : list nat) : (forall x, x ∈ X -> x ∈ l) -> (size X <= length l)%nat.
Proof.
  intros Hl. unfold size, set_size. cbn. apply submseteq_length, NoDup_submseteq; [apply NoDup_elements|].
  intros x Hx%elem_of_elements. by apply Hl.
Qed.

Lemma concat_fmap_fmap {A B C} (f : B -> C) (g : A -> list B) l :
  concat ((fun x => f <$> g x) <$> l) = f <$> concat (g <$> l).
Proof.
  induction l as [|x l IH]; [done|]. rewrite !fmap_cons. cbn [concat]. by rewrite IH, fmap_app.
Qed.

Lemma concat_fmap_singleton {A B} (f : A -> B) l : concat ((fun x => [f x]) <$> l) = f <$> l.
Proof. induction l as [|x l IH]; [done|]. rewrite !fmap_cons. cbn. by rewrite IH. Qed.

Lemma Forall2_alter_r {A} (R : A -> A -> Prop) (f : A -> A) (l : list A) (i : nat) :
  (forall x, R x x) -> (forall x, l !! i = Some x -> R x (f x)) -> Forall2 R l (alter f i l).
Proof.
  intros Hr Hf. apply Forall2_same_length_lookup. split; [by rewrite length_alter|].
  intros j x y Hx Hy. destruct (decide (i = j)) as [<-|Hne].
  - rewrite list_lookup_alter_eq, Hx in Hy. simplify_eq/=. auto.
  - rewrite list_lookup_alter_ne in Hy by done. by simplify_eq.
Qed.

Lemma Forall2_refl {A} (R : A -> A -> Prop) (l : list A) : (forall x, R x x) -> Forall2 R l l.
Proof. intros Hr. induction l; auto. Qed.

Create Rewrite HintDb len.
#[export] Hint Rewrite @len_app @len_nil @len_cons : len.

(** Normalise lengths, record that they are non-negative, and call [lia]. *)
Ltac len_lia :=
  autorewrite with len in *;
  repeat match goal with
  | |- context [len ?l] =>
      lazymatch goal with H : 0 <= len l |- _ => fail | _ => pose proof (len_nonneg l) end
  | _ : context [len ?l] |- _ =>
      lazymatch goal with H : 0 <= len l |- _ => fail | _ => pose proof (len_nonneg l) end
  end; lia.

#[export] Hint Resolve len_nonneg : sandbox.
