(* ===== verification/RustStd.v ===== *)
(** * RustStd: the part of Rust's standard library the server relies on

    Rust strings are their UTF-8 bytes ([bytes]).  The functions below are the
    [std] functions called by the sources: [String::from_utf8_lossy],
    [str::parse] at the integer types, [str::split], [str::trim],
    [str::lines], [str::split_once], [str::replace], [slice::join],
    [ToString] on integers.  The lemmas are the facts the components use. *)

From S2P Require Import Prelude.

(** ** UTF-8 *)

Definition in_range (lo hi : Z) (b : byte) : bool := (lo <=? byte_to_Z b) && (byte_to_Z b <=? hi).

Definition is_cont (b : byte) : bool := in_range 128 191 b.

(** Second byte of a three-byte sequence, as [core::str::validations] checks it. *)
Definition ok_second3 (b0 b1 : byte) : bool :=
  if in_range 224 224 b0 then in_range 160 191 b1
  else if in_range 225 236 b0 then in_range 128 191 b1
  else if in_range 237 237 b0 then in_range 128 159 b1
  else in_range 128 191 b1.

(** Second byte of a four-byte sequence. *)
Definition ok_second4 (b0 b1 : byte) : bool :=
  if in_range 240 240 b0 then in_range 144 191 b1
  else if in_range 241 243 b0 then in_range 128 191 b1
  else in_range 128 143 b1.

(** [core::str::utf8_char_width]. *)
Definition utf8_char_width (b : byte) : nat :=
  if in_range 0 127 b then 1
  else if in_range 194 223 b then 2
  else if in_range 224 239 b then 3
  else if in_range 240 244 b then 4
  else 0.

(** U+FFFD REPLACEMENT CHARACTER. *)
Definition replacement : bytes := [Byte.xef; Byte.xbf; Byte.xbd].

(** [String::from_utf8_lossy]: every maximal invalid prefix of a sequence
    becomes one replacement character. *)
Fixpoint from_utf8_lossy (l : bytes) : bytes :=
  match l with
  | [] => []
  | b0 :: l1 =>
    match utf8_char_width b0 with
    | 1%nat => b0 :: from_utf8_lossy l1
    | 2%nat =>
      match l1 with
      | b1 :: l2 => if is_cont b1 then b0 :: b1 :: from_utf8_lossy l2
                    else replacement ++ from_utf8_lossy l1
      | [] => replacement
      end
    | 3%nat =>
      match l1 with
      | b1 :: l2 =>
        if ok_second3 b0 b1 then
          match l2 with
          | b2 :: l3 => if is_cont b2 then b0 :: b1 :: b2 :: from_utf8_lossy l3
                        else replacement ++ from_utf8_lossy l2
          | [] => replacement
          end
        else replacement ++ from_utf8_lossy l1
      | [] => replacement
      end
    | 4%nat =>
      match l1 with
      | b1 :: l2 =>
        if ok_second4 b0 b1 then
          match l2 with
          | b2 :: l3 =>
            if is_cont b2 then
              match l3 with
              | b3 :: l4 => if is_cont b3 then b0 :: b1 :: b2 :: b3 :: from_utf8_lossy l4
                            else replacement ++ from_utf8_lossy l3
              | [] => replacement
              end
            else replacement ++ from_utf8_lossy l2
          | [] => replacement
          end
        else replacement ++ from_utf8_lossy l1
      | [] => replacement
      end
    | _ => replacement ++ from_utf8_lossy l1
    end
  end.

(** [String::from_utf8 l] is [Ok] iff [utf8_valid l]. *)
Fixpoint utf8_valid (l : bytes) : bool :=
  match l with
  | [] => true
  | b0 :: l1 =>
    match utf8_char_width b0, l1 with
    | 1%nat, _ => utf8_valid l1
    | 2%nat, b1 :: l2 => is_cont b1 && utf8_valid l2
    | 3%nat, b1 :: b2 :: l3 => ok_second3 b0 b1 && is_cont b2 && utf8_valid l3
    | 4%nat, b1 :: b2 :: b3 :: l4 => ok_second4 b0 b1 && is_cont b2 && is_cont b3 && utf8_valid l4
    | _, _ => false
    end
  end.

(** ** [str::parse] at integer types *)

Definition digit_value (b : byte) : option Z :=
  if in_range 48 57 b then Some (byte_to_Z b - 48) else None.

(** Digits accumulated with overflow checks at [hi] ([checked_mul], [checked_add]). *)
Fixpoint parse_digits (hi acc : Z) (s : bytes) : option Z :=
  match s with
  | [] => Some acc
  | b :: s' =>
    match digit_value b with
    | Some d => if acc * 10 + d <=? hi then parse_digits hi (acc * 10 + d) s' else None
    | None => None
    end
  end.

(** Digits of a negative number ([checked_mul], [checked_sub]). *)
Fixpoint parse_digits_neg (lo acc : Z) (s : bytes) : option Z :=
  match s with
  | [] => Some acc
  | b :: s' =>
    match digit_value b with
    | Some d => if lo <=? acc * 10 - d then parse_digits_neg lo (acc * 10 - d) s' else None
    | None => None
    end
  end.

Definition byte_plus : byte := Byte.x2b.
Definition byte_minus : byte := Byte.x2d.

(** [FromStr] of an unsigned type with maximum [hi]. *)
Definition parse_unsigned (hi : Z) (s : bytes) : option Z :=
  match s with
  | [] => None
  | [b] => if bool_decide (b = byte_plus) || bool_decide (b = byte_minus) then None
           else parse_digits hi 0 [b]
  | b :: s' => if bool_decide (b = byte_plus) then parse_digits hi 0 s' else parse_digits hi 0 s
  end.

(** [FromStr] of [i32]. *)
Definition parse_i32 (s : bytes) : option Z :=
  match s with
  | [] => None
  | [b] => if bool_decide (b = byte_plus) || bool_decide (b = byte_minus) then None
           else parse_digits i32_max 0 [b]
  | b :: s' =>
    if bool_decide (b = byte_plus) then parse_digits i32_max 0 s'
    else if bool_decide (b = byte_minus) then parse_digits_neg i32_min 0 s'
    else parse_digits i32_max 0 s
  end.

Definition parse_u16 := parse_unsigned u16_max.
Definition parse_u32 := parse_unsigned u32_max.
Definition parse_u64 := parse_unsigned u64_max.
Definition parse_usize := parse_unsigned usize_max.

(** ** Integers to decimal: [ToString] *)

Fixpoint decimal_go (fuel : nat) (z : Z) (acc : bytes) : bytes :=
  match fuel with
  | O => acc
  | S fuel =>
    let acc := Z_to_byte (48 + z mod 10) :: acc in
    if z / 10 =? 0 then acc else decimal_go fuel (z / 10) acc
  end.

(** Decimal digits of a non-negative number; [Z.log2 z + 1] digits suffice. *)
Definition decimal (z : Z) : bytes := decimal_go (S (Z.to_nat (Z.log2 z))) z [].

Definition to_string_unsigned (z : Z) : bytes := decimal z.
Definition to_string_i32 (z : Z) : bytes :=
  if z <? 0 then byte_minus :: decimal (- z) else decimal z.

(** ** Splitting and joining *)

(** [str::split] on an ASCII character. *)
Fixpoint split_on (sep : byte) (s : bytes) : list bytes :=
  match s with
  | [] => [[]]
  | b :: s' =>
    match split_on sep s' with
    | [] => [[b]]
    | piece :: rest => if bool_decide (b = sep) then [] :: piece :: rest else (b :: piece) :: rest
    end
  end.

(** [[String]::join]. *)
Fixpoint join (sep : bytes) (l : list bytes) : bytes :=
  match l with
  | [] => []
  | [s] => s
  | s :: l' => s ++ sep ++ join sep l'
  end.

(** [str::strip_prefix], also used for matching at a position. *)
Fixpoint strip_prefix (p s : bytes) : option bytes :=
  match p, s with
  | [], _ => Some s
  | a :: p', b :: s' => if bool_decide (a = b) then strip_prefix p' s' else None
  | _ :: _, [] => None
  end.

Definition starts_with (p s : bytes) : bool :=
  match strip_prefix p s with Some _ => true | None => false end.

(** [str::replace] with a non-empty pattern: leftmost, non-overlapping. [skip]
    counts the pattern bytes still to be dropped after a match. *)
Fixpoint replace_go (pat rep : bytes) (skip : nat) (s : bytes) : bytes :=
  match s with
  | [] => []
  | b :: s' =>
    match skip with
    | S k => replace_go pat rep k s'
    | O => if starts_with pat s then rep ++ replace_go pat rep (length pat - 1) s'
           else b :: replace_go pat rep O s'
    end
  end.

Definition str_replace (pat rep s : bytes) : bytes := replace_go pat rep O s.

(** [str::split_once]. *)
Fixpoint split_once (pat s : bytes) : option (bytes * bytes) :=
  match strip_prefix pat s with
  | Some rest => Some ([], rest)
  | None =>
    match s with
    | [] => None
    | b :: s' =>
      match split_once pat s' with
      | Some (l, r) => Some (b :: l, r)
      | None => None
      end
    end
  end.

(** ** [str::trim]: Unicode White_Space, on UTF-8 *)

(** One-, two- and three-byte encodings of the White_Space characters. *)
Definition ws1 (b : byte) : bool := in_range 9 13 b || in_range 32 32 b.
Definition ws2 (b0 b1 : byte) : bool :=
  in_range 194 194 b0 && (in_range 133 133 b1 || in_range 160 160 b1).
Definition ws3 (b0 b1 b2 : byte) : bool :=
  (in_range 225 225 b0 && in_range 154 154 b1 && in_range 128 128 b2)
  || (in_range 226 226 b0 && in_range 128 128 b1
      && (in_range 128 138 b2 || in_range 168 169 b2 || in_range 175 175 b2))
  || (in_range 226 226 b0 && in_range 129 129 b1 && in_range 159 159 b2)
  || (in_range 227 227 b0 && in_range 128 128 b1 && in_range 128 128 b2).

Fixpoint trim_start (s : bytes) : bytes :=
  match s with
  | [] => []
  | b0 :: s1 =>
    if ws1 b0 then trim_start s1 else
    match s1 with
    | [] => s
    | b1 :: s2 =>
      if ws2 b0 b1 then trim_start s2 else
      match s2 with
      | [] => s
      | b2 :: s3 => if ws3 b0 b1 b2 then trim_start s3 else s
      end
    end
  end.

(** [trim_end], on the reversed string. *)
Fixpoint trim_end_rev (s : bytes) : bytes :=
  match s with
  | [] => []
  | b0 :: s1 =>
    if ws1 b0 then trim_end_rev s1 else
    match s1 with
    | [] => s
    | b1 :: s2 =>
      if ws2 b1 b0 then trim_end_rev s2 else
      match s2 with
      | [] => s
      | b2 :: s3 => if ws3 b2 b1 b0 then trim_end_rev s3 else s
      end
    end
  end.

Definition trim_end (s : bytes) : bytes := rev (trim_end_rev (rev s)).
Definition trim (s : bytes) : bytes := trim_end (trim_start s).

(** ** [str::lines] *)

Definition byte_lf : byte := Byte.x0a.
Definition byte_cr : byte := Byte.x0d.

Definition strip_cr (s : bytes) : bytes :=
  match rev s with
  | b :: r => if bool_decide (b = byte_cr) then rev r else s
  | [] => s
  end.

(** The pieces before each line feed lose one trailing carriage return; what
    follows the last line feed is a line only when it is not empty. *)
Fixpoint lines_of_pieces (l : list bytes) : list bytes :=
  match l with
  | [] => []
  | [s] => if bool_decide (s = []) then [] else [s]
  | s :: l' => strip_cr s :: lines_of_pieces l'
  end.

Definition lines (s : bytes) : list bytes := lines_of_pieces (split_on byte_lf s).

(** ** Lemmas: UTF-8 *)

#[local] Arguments utf8_char_width : simpl never.
#[local] Arguments ok_second3 : simpl never.
#[local] Arguments ok_second4 : simpl never.
#[local] Arguments is_cont : simpl never.

Lemma list_length_ind {A} (P : list A -> Prop) :
  (forall l, (forall k, (length k < length l)%nat -> P k) -> P l) -> forall l, P l.
Proof.
  intros H l. induction (well_founded_ltof _ (@length A) l) as [l _ IH]. by apply H.
Qed.

Lemma from_utf8_lossy_valid l : utf8_valid l = true -> from_utf8_lossy l = l.
Proof.
  induction l as [l IH] using list_length_ind. destruct l as [|b0 l]; [done|]. simpl.
  destruct (utf8_char_width b0) as [|[|[|[|[|?]]]]] eqn:Hw; try done.
  - intros H. f_equal. apply IH; [simpl; lia|done].
  - destruct l as [|b1 l]; [done|]. intros [H1 H2]%andb_true_iff. rewrite H1.
    do 2 f_equal. apply IH; [simpl; lia|done].
  - destruct l as [|b1 [|b2 l]]; [done..|].
    intros [[H1 H2]%andb_true_iff H3]%andb_true_iff. rewrite H1, H2.
    do 3 f_equal. apply IH; [simpl; lia|done].
  - destruct l as [|b1 [|b2 [|b3 l]]]; [done..|].
    intros [[[H1 H2]%andb_true_iff H3]%andb_true_iff H4]%andb_true_iff. rewrite H1, H2, H3.
    do 4 f_equal. apply IH; [simpl; lia|done].
Qed.

Lemma utf8_valid_replacement l : utf8_valid (replacement ++ l) = utf8_valid l.
Proof. done. Qed.

Lemma utf8_valid_lossy l : utf8_valid (from_utf8_lossy l) = true.
Proof.
  induction l as [l IH] using list_length_ind. destruct l as [|b0 l]; [done|]. cbn [from_utf8_lossy].
  assert (forall k, (length k <= length l)%nat -> utf8_valid (from_utf8_lossy k) = true) as IH'.
  { intros k Hk. apply IH. simpl. lia. }
  destruct (utf8_char_width b0) as [|[|[|[|[|?]]]]] eqn:Hw;
    repeat case_match; subst; rewrite ?utf8_valid_replacement; cbn [utf8_valid];
    rewrite ?Hw; cbn [utf8_valid];
    repeat match goal with H : ?x = true |- context [?x] => rewrite H end;
    cbn [andb]; try done; apply IH'; simpl; lia.
Qed.

(** ** Lemmas: decimal numbers *)

Definition is_digit (b : byte) : bool := in_range 48 57 b.

Lemma digit_byte d : 0 <= d < 10 -> byte_to_Z (Z_to_byte (48 + d)) = 48 + d.
Proof. intros Hd. rewrite byte_to_Z_to_byte. apply Z.mod_small. lia. Qed.

Lemma digit_value_byte d : 0 <= d < 10 -> digit_value (Z_to_byte (48 + d)) = Some d.
Proof.
  intros Hd. unfold digit_value, in_range. rewrite digit_byte by done.
  replace (_ && _) with true by lia. f_equal. lia.
Qed.

Lemma decimal_go_digits fuel z acc :
  Forall (fun b => is_digit b = true) acc -> Forall (fun b => is_digit b = true) (decimal_go fuel z acc).
Proof.
  revert z acc. induction fuel as [|fuel IH]; intros z acc Ha; [done|]. cbn [decimal_go].
  assert (Forall (fun b => is_digit b = true) (Z_to_byte (48 + z mod 10) :: acc)).
  { constructor; [|done]. unfold is_digit, in_range.
    pose proof (Z.mod_pos_bound z 10 ltac:(lia)). rewrite digit_byte by lia. lia. }
  case_match; auto.
Qed.

Lemma decimal_digits z : Forall (fun b => is_digit b = true) (decimal z).
Proof. apply decimal_go_digits. constructor. Qed.

Lemma parse_decimal_go hi fuel z acc : 0 <= z <= hi -> z < 2 ^ Z.of_nat fuel ->
  parse_digits hi 0 (decimal_go fuel z acc) = parse_digits hi z acc.
Proof.
  revert z acc. induction fuel as [|fuel IH]; intros z acc Hz Hf.
  { simpl in Hf. by replace z with 0 by lia. }
  rewrite Nat2Z.inj_succ, Z.pow_succ_r in Hf by lia.
  pose proof (Z.div_mod z 10 ltac:(lia)). pose proof (Z.mod_pos_bound z 10 ltac:(lia)).
  assert (forall a, a * 10 + z mod 10 = z ->
    parse_digits hi a (Z_to_byte (48 + z mod 10) :: acc) = parse_digits hi z acc) as Hstep.
  { intros a Ha. cbn [parse_digits]. rewrite digit_value_byte, Ha by lia.
    by replace (z <=? hi) with true by lia. }
  cbn [decimal_go]. case_match.
  - apply Hstep. lia.
  - rewrite IH by lia. apply Hstep. lia.
Qed.

Lemma decimal_go_nonempty fuel z acc : (fuel <> 0)%nat -> decimal_go fuel z acc <> [].
Proof.
  revert z acc. induction fuel as [|fuel IH]; intros z acc Hf; [done|]. cbn [decimal_go].
  case_match; [done|]. destruct fuel; [done|]. by apply IH.
Qed.

Lemma split_on_app sep s t : sep ∉ s -> split_on sep (s ++ [sep] ++ t) = s :: split_on sep t.
Proof.
  change ([sep] ++ t) with (sep :: t).
  assert (forall t, split_on sep t <> []) as Hne.
  { intros [|b u]; [done|]. cbn. repeat case_match; done. }
  induction s as [|b s IH]; cbn [app]; intros Hn.
  - cbn. destruct (split_on sep t) eqn:E; [by apply Hne in E|]. by rewrite bool_decide_true.
  - rewrite elem_of_cons in Hn. cbn. rewrite IH by tauto. rewrite bool_decide_false by (intros ->; tauto). done.
Qed.

(** Printing then parsing an unsigned number of the type gives it back. *)
Lemma parse_to_string hi z : 0 <= z <= hi -> parse_unsigned hi (to_string_unsigned z) = Some z.
Proof.
  intros Hz. assert (parse_digits hi 0 (decimal z) = Some z) as Hp.
  { unfold decimal. rewrite parse_decimal_go; [done|done|].
    destruct (Z.eq_dec z 0) as [->|]; [done|].
    rewrite Nat2Z.inj_succ, Z2Nat.id by apply Z.log2_nonneg. apply Z.log2_spec. lia. }
  pose proof (decimal_digits z) as Hd. unfold to_string_unsigned, parse_unsigned.
  destruct (decimal z) as [|b l] eqn:E; [by apply decimal_go_nonempty in E|].
  apply Forall_cons in Hd as [Hb _].
  rewrite !bool_decide_false by (intros ->; discriminate Hb). cbn [orb]. by destruct l.
Qed.

Lemma parse_digits_range hi acc s z : 0 <= acc <= hi -> parse_digits hi acc s = Some z -> 0 <= z <= hi.
Proof.
  revert acc. induction s as [|b s IH]; cbn [parse_digits]; intros acc Ha; [by intros [= <-]|].
  unfold digit_value, in_range. pose proof (byte_to_Z_range b).
  destruct (_ && _) eqn:E1; [|done]. destruct (_ <=? hi) eqn:E2; [|done]. apply IH. lia.
Qed.

Lemma parse_unsigned_range hi s z : 0 <= hi -> parse_unsigned hi s = Some z -> 0 <= z <= hi.
Proof.
  intros Hhi. unfold parse_unsigned. repeat case_match; try done; apply parse_digits_range; lia.
Qed.
