(* ===== verification/Wire.v ===== *)
(** * Wire: the frame protocol between the server and the zygote worker

    [server/src/services/zygote.rs], "Wire protocol": a frame is a 9-byte
    header (payload length, message type, request id, the integers big-endian)
    followed by the payload.  [encode_frame] writes one; [parse_frame] is the
    header inspection at the top of [read_loop]'s inner loop. *)

From S2P Require Import Prelude.

(** ** Definitions *)

Definition HEADER_SIZE : Z := 9.
Definition MSG_RUN : byte := Byte.x01.
Definition MSG_KILL : byte := Byte.x02.
Definition MSG_STDOUT : byte := Byte.x03.
Definition MSG_STDERR : byte := Byte.x04.
Definition MSG_DONE : byte := Byte.x05.

Definition encode_frame (msg_type : byte) (req_id : Z) (payload : bytes) : bytes :=
  let plen := wrap_u32 (len payload) in
  u32_to_be_bytes plen ++ [msg_type] ++ u32_to_be_bytes req_id ++ payload.

(** A frame after decoding. *)
Record Frame := mkFrame { f_type : byte; f_req : Z; f_payload : bytes }.

#[global] Instance Frame_eq_dec : EqDecision Frame.
Proof. solve_decision. Defined.

Definition encode (f : Frame) : bytes := encode_frame (f_type f) (f_req f) (f_payload f).

(** What one pass of the inner loop finds at the front of the buffer. *)
Inductive parsed :=
| NeedMore
| Oversized
| Parsed (f : Frame) (rest : bytes).

Definition parse_frame (max_output : Z) (frame_buf : bytes) : parsed :=
  if len frame_buf <? HEADER_SIZE then NeedMore else
  match frame_buf with
  | b0 :: b1 :: b2 :: b3 :: mtype :: i0 :: i1 :: i2 :: i3 :: _ =>
    let plen := u32_from_be_bytes b0 b1 b2 b3 in
    let req_id := u32_from_be_bytes i0 i1 i2 i3 in
    if max_output <? plen then Oversized
    else if len frame_buf <? HEADER_SIZE + plen then NeedMore
    else
      let payload := take (Z.to_nat plen) (drop (Z.to_nat HEADER_SIZE) frame_buf) in
      Parsed (mkFrame mtype req_id payload) (drop (Z.to_nat (HEADER_SIZE + plen)) frame_buf)
  | _ => NeedMore
  end.

(** A frame the protocol can carry past a reader with cap [max_output]. *)
Definition frame_ok (max_output : Z) (f : Frame) : Prop :=
  is_u32 (f_req f) /\ len (f_payload f) <= max_output /\ len (f_payload f) <= u32_max.

(** The exit code a [MSG_DONE] payload carries. *)
Definition done_exit_code (payload : bytes) : Z :=
  match payload with
  | b0 :: b1 :: b2 :: b3 :: _ => i32_from_be_bytes b0 b1 b2 b3
  | _ => -1
  end.

(** ** Lemmas *)

Lemma len_encode f : len (encode f) = HEADER_SIZE + len (f_payload f).
Proof.
  unfold encode, encode_frame, HEADER_SIZE, u32_to_be_bytes. autorewrite with len. lia.
Qed.

Lemma encode_frame_cons t i p :
  exists b0 b1 b2 b3 i0 i1 i2 i3,
    encode_frame t i p = b0 :: b1 :: b2 :: b3 :: t :: i0 :: i1 :: i2 :: i3 :: p
    /\ u32_from_be_bytes b0 b1 b2 b3 = wrap_u32 (len p)
    /\ (is_u32 i -> u32_from_be_bytes i0 i1 i2 i3 = i).
Proof.
  do 8 eexists. split; [reflexivity|]. split.
  - apply u32_be_bytes_roundtrip. unfold wrap_u32, is_u32, u32_max.
    pose proof (Z.mod_pos_bound (len p) 4294967296). lia.
  - intros Hi. by apply u32_be_bytes_roundtrip.
Qed.

(** Decoding inverts encoding, whatever follows the frame in the buffer. *)
Lemma parse_encode max f rest : frame_ok max f ->
  parse_frame max (encode f ++ rest) = Parsed f rest.
Proof.
  intros (Hid & Hmax & Hu32). destruct f as [t i p]. cbn [f_req f_payload] in *.
  destruct (encode_frame_cons t i p) as (b0&b1&b2&b3&i0&i1&i2&i3&E&El&Ei).
  unfold encode, parse_frame. cbn [f_type f_req f_payload]. rewrite E. cbn [app].
  rewrite El, Ei, wrap_u32_small by (try done; pose proof (len_nonneg p); unfold is_u32; lia).
  unfold HEADER_SIZE.
  do 3 (case_match; [len_lia|]).
  replace (Z.to_nat (9 + len p)) with (9 + length p)%nat by (unfold len; lia).
  rewrite length_to_nat_len. change (Z.to_nat 9) with 9%nat. cbn [drop Nat.add].
  by rewrite drop_0, take_app_length, drop_app_length.
Qed.

(** Inversion of a successful parse: the buffer is the frame, then the rest. *)
Lemma parse_frame_Parsed max buf f rest : parse_frame max buf = Parsed f rest ->
  frame_ok max f /\ buf = encode f ++ rest.
Proof.
  unfold parse_frame. case_match eqn:Hlen; [done|].
  do 9 (destruct buf as [|? buf]; [done|]).
  set (plen := u32_from_be_bytes b b0 b1 b2).
  pose proof (u32_from_be_bytes_range b b0 b1 b2) as Hp. fold plen in Hp.
  case_match eqn:Hmax; [done|]. case_match eqn:Hneed; [done|].
  intros [= <- <-]. unfold HEADER_SIZE in *. change (Z.to_nat 9) with 9%nat.
  replace (Z.to_nat (9 + plen)) with (9 + Z.to_nat plen)%nat by (unfold is_u32 in Hp; lia).
  cbn [drop Nat.add]. rewrite drop_0.
  assert (len (take (Z.to_nat plen) buf) = plen) as Htake.
  { apply len_take. autorewrite with len in *. unfold is_u32 in Hp. lia. }
  split.
  - split; [apply u32_from_be_bytes_range|]. simpl. rewrite Htake. unfold is_u32 in Hp. lia.
  - unfold encode, encode_frame. cbn [f_type f_req f_payload]. rewrite Htake, wrap_u32_small by done.
    unfold plen. rewrite !u32_from_to_be_bytes. simpl. by rewrite take_drop.
Qed.

Lemma encode_frame_req_inj t i j p : is_u32 i -> is_u32 j ->
  encode_frame t i p = encode_frame t j p -> i = j.
Proof.
  intros Hi Hj E.
  destruct (encode_frame_cons t i p) as (a0&a1&a2&a3&i0&i1&i2&i3&Ei&_&Hi').
  destruct (encode_frame_cons t j p) as (b0&b1&b2&b3&j0&j1&j2&j3&Ej&_&Hj').
  rewrite <-(Hi' Hi), <-(Hj' Hj). rewrite Ei, Ej in E. by simplify_eq.
Qed.

(** A frame longer than the cap is recognised from its header alone. *)
Lemma parse_oversized max f rest : is_u32 (f_req f) -> max < len (f_payload f) <= u32_max ->
  parse_frame max (encode f ++ rest) = Oversized.
Proof.
  intros Hid Hlen. destruct f as [t i p]. cbn [f_req f_payload] in *.
  destruct (encode_frame_cons t i p) as (b0&b1&b2&b3&i0&i1&i2&i3&E&El&Ei).
  unfold encode, parse_frame. cbn [f_type f_req f_payload]. rewrite E. cbn [app].
  rewrite El, wrap_u32_small by (pose proof (len_nonneg p); unfold is_u32; lia).
  unfold HEADER_SIZE. case_match; [len_lia|]. case_match; [done|lia].
Qed.

(** ** Theorem *)

(** C31. The frame codec: for a frame the protocol can carry, the reader finds
    that frame and leaves the rest exactly when the buffer starts with its
    encoding; a frame over the cap is refused on its header; so the encoding
    is injective and self-delimiting. *)
Theorem wire_roundtrip max f rest buf :
  is_u32 (f_req f) -> len (f_payload f) <= u32_max ->
  (len (f_payload f) <= max -> (parse_frame max buf = Parsed f rest <-> buf = encode f ++ rest))
  /\ (max < len (f_payload f) -> parse_frame max (encode f ++ rest) = Oversized).
Proof.
  intros Hid Hu. split; intros Hm; [|by apply parse_oversized].
  split; [by intros [_ ?]%parse_frame_Parsed|]. intros ->. by apply parse_encode.
Qed.

Lemma wire_roundtrip_witness :
  parse_frame 5 (encode (mkFrame MSG_STDOUT 7 (str "hello")) ++ str "tail")
    = Parsed (mkFrame MSG_STDOUT 7 (str "hello")) (str "tail")
  /\ parse_frame 4 (encode (mkFrame MSG_STDOUT 7 (str "hello")) ++ str "tail") = Oversized.
Proof.
  split.
  - apply (wire_roundtrip 5 (mkFrame MSG_STDOUT 7 (str "hello")) (str "tail")); try reflexivity;
      by vm_compute.
  - apply (wire_roundtrip 4 (mkFrame MSG_STDOUT 7 (str "hello")) (str "tail") []); by vm_compute.
Defined.
