(* ===== verification/Reader.v ===== *)
(** * Reader: the background task of the zygote manager

    [read_loop] of [server/src/services/zygote.rs].  The reader owns the read
    half of the socket and a reassembly buffer; it shares with the callers of
    [ZygoteManager::run] the table [pending] of in-flight requests, the
    [running] flag and the write half.

    A oneshot sender is a channel name.  [sends] is the sequence of
    [Sender::send] calls made and [writes] the sequence of buffers handed to
    [write_all] on the write half (the reader ignores the outcome of both). *)

From S2P Require Import Prelude RustStd Wire.

(** ** Data *)

Abbreviation chan := nat (only parsing).

(** [(stdout, stderr, exit_code)], the value a caller of [run] receives. *)
Abbreviation run_result := (bytes * bytes * Z)%type (only parsing).

Record Pending := mkPending { out : bytes; err : bytes; tx : option chan }.

Record Shared := mkShared {
  pending : gmap Z Pending;
  running : bool;
  writes : list bytes;
  sends : list (chan * run_result)
}.

(** ** Updates of the shared state *)

Definition set_pending (p : gmap Z Pending) (s : Shared) : Shared :=
  mkShared p (running s) (writes s) (sends s).
Definition set_running (b : bool) (s : Shared) : Shared :=
  mkShared (pending s) b (writes s) (sends s).
(** One [write_all] on the write half. *)
Definition write_all (frame : bytes) (s : Shared) : Shared :=
  mkShared (pending s) (running s) (writes s ++ [frame]) (sends s).
(** [if let Some(tx) = tx { let _ = tx.send(r); }] *)
Definition send_opt (tx : option chan) (r : run_result) (s : Shared) : Shared :=
  match tx with
  | Some c => mkShared (pending s) (running s) (writes s) (sends s ++ [(c, r)])
  | None => s
  end.

(** ** Configuration: [max_output_bytes] *)

Definition DEFAULT_MAX_OUTPUT_BYTES : Z := 10 * 1024 * 1024.

(** [env] is the value of [ZYGOTE_MAX_OUTPUT_BYTES], when set. *)
Definition max_output_bytes (env : option bytes) : Z :=
  match env with
  | Some v =>
    match parse_usize v with
    | Some n => if 0 <? n then n else DEFAULT_MAX_OUTPUT_BYTES
    | None => DEFAULT_MAX_OUTPUT_BYTES
    end
  | None => DEFAULT_MAX_OUTPUT_BYTES
  end.

(** ** One frame *)

Definition is_output (mtype : byte) : bool :=
  bool_decide (mtype = MSG_STDOUT) || bool_decide (mtype = MSG_STDERR).

(** The [match mtype] under the [get_mut] guard: the entry afterwards and the
    send it performs. *)
Definition dispatch (f : Frame) (entry : Pending) : Pending * option (chan * run_result) :=
  if bool_decide (f_type f = MSG_STDOUT) then
    (mkPending (out entry ++ f_payload f) (err entry) (tx entry), None)
  else if bool_decide (f_type f = MSG_STDERR) then
    (mkPending (out entry) (err entry ++ f_payload f) (tx entry), None)
  else if bool_decide (f_type f = MSG_DONE) then
    let r := (from_utf8_lossy (out entry), from_utf8_lossy (err entry),
              done_exit_code (f_payload f)) in
    (mkPending (out entry) (err entry) None, (fun c => (c, r)) <$> tx entry)
  else (entry, None).

(** The cap test after the dispatch. *)
Definition over_limit (max_output : Z) (mtype : byte) (entry : Pending) : bool :=
  is_output mtype && (max_output <? saturating_add_usize (len (out entry)) (len (err entry))).

(** [limit_result]: the output and the sender moved out of the guard. *)
Abbreviation limit_result := (bytes * option chan)%type (only parsing).

(** The critical section under the [get_mut] guard. *)
Definition apply_frame (max_output : Z) (f : Frame) (s : Shared) : Shared * option limit_result :=
  match pending s !! f_req f with
  | None => (s, None)
  | Some entry =>
    let '(entry1, snd_opt) := dispatch f entry in
    let s1 := match snd_opt with
              | Some (c, r) => send_opt (Some c) r s
              | None => s
              end in
    if over_limit max_output (f_type f) entry1 then
      (set_pending (<[f_req f := mkPending [] (err entry1) None]> (pending s1)) s1,
       Some (out entry1, tx entry1))
    else (set_pending (<[f_req f := entry1]> (pending s1)) s1, None)
  end.

Definition limit_message (max_output : Z) : bytes :=
  str "output limit exceeded (> " ++ to_string_unsigned max_output ++ str " bytes); process killed".

(** The clean-up after the guard is dropped. *)
Definition finish_limit (max_output : Z) (req_id : Z) (lr : option limit_result) (s : Shared)
    : Shared :=
  match lr with
  | None => s
  | Some (out_bytes, tx) =>
    let s := set_pending (delete req_id (pending s)) s in
    let out := if utf8_valid out_bytes then out_bytes else from_utf8_lossy out_bytes in
    let s := send_opt tx (out, limit_message max_output, -1) s in
    write_all (encode_frame MSG_KILL req_id []) s
  end.

Definition handle_frame (max_output : Z) (f : Frame) (s : Shared) : Shared :=
  let '(s1, lr) := apply_frame max_output f s in
  finish_limit max_output (f_req f) lr s1.

(** ** The loops *)

(** The inner [while]: [Some buf] is the buffer left when it asks for more
    bytes, [None] a [break 'read].  Every iteration consumes a header, so
    [length buf] iterations always suffice ([drain_unfold]). *)
Fixpoint drain_go (fuel : nat) (max_output : Z) (buf : bytes) (s : Shared)
    : option bytes * Shared :=
  match fuel with
  | O => (Some buf, s)
  | S fuel =>
    match parse_frame max_output buf with
    | NeedMore => (Some buf, s)
    | Oversized => (None, s)
    | Parsed f rest => drain_go fuel max_output rest (handle_frame max_output f s)
    end
  end.

Definition drain (max_output : Z) (buf : bytes) (s : Shared) : option bytes * Shared :=
  drain_go (length buf) max_output buf s.

(** DashMap's iteration visits every entry once, in an unspecified order. *)
Class DashIter := {
  dash_iter : gmap Z Pending -> list (Z * Pending);
  dash_iter_perm : forall m, dash_iter m ≡ₚ map_to_list m
}.

(** Visit every entry, take its sender and send [("", msg, -1)]. *)
Definition fail_senders (msg : bytes) (l : list (Z * Pending)) (s : Shared) : Shared :=
  foldl (fun s kp => send_opt (tx (snd kp)) ([], msg, -1) s) s l.

Definition fail_all `{DashIter} (msg : bytes) (s : Shared) : Shared :=
  set_pending ∅ (fail_senders msg (dash_iter (pending s)) s).

(** What follows the outer loop. *)
Definition connection_lost `{DashIter} (s : Shared) : Shared :=
  fail_all (str "zygote connection lost") (set_running false s).

(** What [rd.read] returns: [ReadOk []] is end of file. *)
Inductive read_event :=
| ReadOk (data : bytes)
| ReadErr.

(** The reader over a finite sequence of [read] results: [Some buf] means the
    loop is parked in the next [read] with [buf] buffered, [None] that it has
    returned. *)
Fixpoint read_loop `{DashIter} (max_output : Z) (evs : list read_event) (buf : bytes) (s : Shared)
    : option bytes * Shared :=
  match evs with
  | [] => (Some buf, s)
  | ReadErr :: _ => (None, connection_lost s)
  | ReadOk [] :: _ => (None, connection_lost s)
  | ReadOk data :: evs' =>
    match drain max_output (buf ++ data) s with
    | (None, s') => (None, connection_lost s')
    | (Some buf', s') => read_loop max_output evs' buf' s'
    end
  end.

(** A sequence of frames, handled in order. *)
Definition run_frames (max_output : Z) (fs : list Frame) (s : Shared) : Shared :=
  foldl (fun s f => handle_frame max_output f s) s fs.

(** ** Abstract specification: one request, seen through its own frames *)

(** [v_buf] is the output collected so far ([None] once the request was
    discarded), [v_answer] what its caller was sent, [v_killed] whether its
    process was ordered killed. *)
Record view := mkView {
  v_buf : option (bytes * bytes);
  v_answer : option run_result;
  v_killed : bool
}.

Definition first_answer (a : option run_result) (r : run_result) : option run_result :=
  match a with Some r' => Some r' | None => Some r end.

(** Output within the cap is kept; output beyond it ends the request. *)
Definition view_output (max_output : Z) (o e : bytes) (v : view) : view :=
  if max_output <? len o + len e then
    mkView None (first_answer (v_answer v) (from_utf8_lossy o, limit_message max_output, -1)) true
  else mkView (Some (o, e)) (v_answer v) (v_killed v).

Definition view_step (max_output : Z) (v : view) (f : Frame) : view :=
  match v_buf v with
  | None => v
  | Some (o, e) =>
    if bool_decide (f_type f = MSG_STDOUT) then view_output max_output (o ++ f_payload f) e v
    else if bool_decide (f_type f = MSG_STDERR) then view_output max_output o (e ++ f_payload f) v
    else if bool_decide (f_type f = MSG_DONE) then
      mkView (Some (o, e))
        (first_answer (v_answer v)
           (from_utf8_lossy o, from_utf8_lossy e, done_exit_code (f_payload f)))
        (v_killed v)
    else v
  end.

Definition view_run (max_output : Z) (v : view) (fs : list Frame) : view :=
  foldl (view_step max_output) v fs.

Definition view_init : view := mkView (Some ([], [])) None false.

(** The frames of request [k], the sends to channel [c], the kill orders for [k]. *)
Definition frames_of (k : Z) (fs : list Frame) : list Frame :=
  filter (fun f => f_req f = k) fs.
Definition sent_to (c : chan) (rs : list (chan * run_result)) : list run_result :=
  snd <$> filter (fun x => fst x = c) rs.
Definition sends_to (c : chan) (s : Shared) : list run_result := sent_to c (sends s).
Definition kills_of (k : Z) (s : Shared) : list bytes :=
  filter (fun w => w = encode_frame MSG_KILL k []) (writes s).

(** ** Invariants *)

(** No request buffers more than the cap. *)
Definition cap_ok (max_output : Z) (s : Shared) : Prop :=
  map_Forall (fun _ p => len (out p) + len (err p) <= max_output) (pending s).

(** The sender of [c], if it is in the table, is in the entry of [k]. *)
Definition owns (k : Z) (c : chan) (s : Shared) : Prop :=
  map_Forall (fun k' p => tx p = Some c -> k' = k) (pending s).

(** [s] shows request [k], whose caller waits on [c], in the view [v]. *)
Definition shows (k : Z) (c : chan) (s : Shared) (v : view) : Prop :=
  sends_to c s = option_list (v_answer v)
  /\ kills_of k s = (if v_killed v then [encode_frame MSG_KILL k []] else [])
  /\ match v_buf v with
     | None => pending s !! k = None
     | Some (o, e) =>
       v_killed v = false
       /\ pending s !! k =
          Some (mkPending o e (match v_answer v with None => Some c | Some _ => None end))
     end.

(** ** Lemmas: the loops *)

Lemma parse_frame_shorter max buf f rest :
  parse_frame max buf = Parsed f rest -> (length rest < length buf)%nat.
Proof.
  intros [_ ->]%parse_frame_Parsed. rewrite length_app.
  pose proof (len_encode f) as H. unfold len, HEADER_SIZE in H. lia.
Qed.

Lemma drain_go_enough fuel max buf s : (length buf <= fuel)%nat ->
  drain_go fuel max buf s = drain max buf s.
Proof.
  unfold drain. intros Hf.
  remember (length buf) as n eqn:Hn. revert fuel buf s Hf Hn.
  induction (lt_wf n) as [n _ IH]. intros fuel buf s Hf ->.
  destruct fuel as [|fuel]; [by replace (length buf) with O by lia|].
  destruct buf as [|b buf]; [done|]. cbn [length drain_go].
  destruct (parse_frame max (b :: buf)) as [| |f rest] eqn:Hp; [done..|].
  apply parse_frame_shorter in Hp. cbn [length] in *.
  rewrite (IH (length rest)) by (done || lia).
  symmetry. apply (IH (length rest)); [lia..|done].
Qed.

(** The inner loop without its fuel. *)
Lemma drain_unfold max buf s :
  drain max buf s =
  match parse_frame max buf with
  | NeedMore => (Some buf, s)
  | Oversized => (None, s)
  | Parsed f rest => drain max rest (handle_frame max f s)
  end.
Proof.
  rewrite <-(drain_go_enough (S (length buf))) by lia. cbn [drain_go].
  destruct (parse_frame max buf) as [| |f rest] eqn:Hp; [done..|].
  apply drain_go_enough. apply parse_frame_shorter in Hp. lia.
Qed.

Lemma parse_frame_app max buf c :
  match parse_frame max buf with
  | NeedMore => True
  | Oversized => parse_frame max (buf ++ c) = Oversized
  | Parsed f rest => parse_frame max (buf ++ c) = Parsed f (rest ++ c)
  end.
Proof.
  destruct (parse_frame max buf) as [| |f rest] eqn:Hp; [done| |].
  - revert Hp. unfold parse_frame. case_match eqn:H1; [done|].
    do 9 (destruct buf as [|? buf]; [done|]). cbn [app].
    case_match eqn:H2; [|case_match; done]. intros _.
    case_match eqn:H3; [exfalso; len_lia|done].
  - apply parse_frame_Parsed in Hp as [Hok ->]. rewrite <-app_assoc. by apply parse_encode.
Qed.

(** Induction over the frames at the front of a buffer. *)
Lemma buffer_ind max (P : bytes -> Prop) :
  (forall buf, parse_frame max buf = NeedMore -> P buf) ->
  (forall buf, parse_frame max buf = Oversized -> P buf) ->
  (forall buf f rest, parse_frame max buf = Parsed f rest -> P rest -> P buf) ->
  forall buf, P buf.
Proof.
  intros HN HO HP buf. induction (well_founded_ltof _ (@length byte) buf) as [buf _ IH].
  destruct (parse_frame max buf) as [| |f rest] eqn:Hp; [auto..|].
  eapply HP; [done|]. apply IH. by eapply parse_frame_shorter.
Qed.

Lemma drain_app max buf c s :
  drain max (buf ++ c) s =
  match drain max buf s with
  | (None, s') => (None, s')
  | (Some buf', s') => drain max (buf' ++ c) s'
  end.
Proof.
  revert s. induction buf as [buf Hp|buf Hp|buf f rest Hp IH] using (buffer_ind max); intros s;
    rewrite (drain_unfold max buf), Hp; [done|..];
    pose proof (parse_frame_app max buf c) as Ha; rewrite Hp in Ha;
    rewrite (drain_unfold max (buf ++ c)), Ha; [done|apply IH].
Qed.

Lemma drain_frames max fs buf s : Forall (frame_ok max) fs ->
  drain max (concat (encode <$> fs) ++ buf) s = drain max buf (run_frames max fs s).
Proof.
  intros Hfs. revert s. induction Hfs as [|f fs Hf Hfs IH]; intros s; [done|].
  rewrite fmap_cons. cbn [concat]. rewrite <-app_assoc, drain_unfold, parse_encode by done. apply IH.
Qed.

Lemma read_loop_chunks `{DashIter} max ds buf s : ds <> [] -> Forall (fun d => d <> []) ds ->
  read_loop max (ReadOk <$> ds) buf s =
  match drain max (buf ++ concat ds) s with
  | (None, s') => (None, connection_lost s')
  | (Some buf', s') => (Some buf', s')
  end.
Proof.
  intros Hne Hall. revert buf s. induction Hall as [|d ds Hd Hds IH]; intros buf s; [done|].
  destruct d as [|b d]; [done|]. cbn [fmap list_fmap read_loop concat].
  rewrite app_assoc, (drain_app max (buf ++ b :: d) (concat ds)).
  destruct (drain max (buf ++ b :: d) s) as [[buf'|] s'] eqn:E; [|done].
  destruct ds as [|d' ds].
  - cbn. rewrite app_nil_r.
    assert (drain max buf' s' = (Some buf', s')) as ->; [|done].
    pose proof (drain_app max (buf ++ b :: d) [] s) as Ha. rewrite app_nil_r, E in Ha.
    rewrite app_nil_r in Ha. congruence.
  - by apply IH.
Qed.

(** ** Lemmas: one frame *)

Lemma limit_output_lossy o : (if utf8_valid o then o else from_utf8_lossy o) = from_utf8_lossy o.
Proof. destruct (utf8_valid o) eqn:E; [by rewrite from_utf8_lossy_valid|done]. Qed.

Lemma over_limit_spec max t p : max < usize_max ->
  over_limit max t p = is_output t && (max <? len (out p) + len (err p)).
Proof.
  intros Hm. unfold over_limit, saturating_add_usize. f_equal.
  apply eq_bool_prop_intro. rewrite !Is_true_true, !Z.ltb_lt. lia.
Qed.

(** A frame whose request is not in the table changes nothing. *)
Lemma handle_frame_unknown max f s : pending s !! f_req f = None -> handle_frame max f s = s.
Proof. intros H. unfold handle_frame, apply_frame. by rewrite H. Qed.

(** The three effects of a frame on a request in the table. *)
Lemma handle_frame_known max f s entry entry1 snd_opt :
  pending s !! f_req f = Some entry ->
  dispatch f entry = (entry1, snd_opt) ->
  handle_frame max f s =
    if over_limit max (f_type f) entry1 then
      mkShared (delete (f_req f) (pending s)) (running s)
        (writes s ++ [encode_frame MSG_KILL (f_req f) []])
        (sends s ++ option_list snd_opt
         ++ option_list ((fun c => (c, (from_utf8_lossy (out entry1), limit_message max, -1)))
                         <$> tx entry1))
    else
      mkShared (<[f_req f := entry1]> (pending s)) (running s) (writes s)
        (sends s ++ option_list snd_opt).
Proof.
  intros He Hd. unfold handle_frame, apply_frame. rewrite He, Hd.
  destruct snd_opt as [[c r]|]; destruct (over_limit max (f_type f) entry1);
    unfold finish_limit, set_pending, send_opt, write_all;
    cbn [pending running writes sends out err tx];
    rewrite ?limit_output_lossy; destruct (tx entry1);
    cbn [pending running writes sends option_list fmap option_fmap option_map];
    rewrite ?delete_insert_eq, ?app_nil_r, <-?app_assoc; done.
Qed.

(** A frame only touches the entry of its own request. *)
Lemma handle_frame_other max f s k : f_req f <> k ->
  pending (handle_frame max f s) !! k = pending s !! k.
Proof.
  intros Hk. destruct (pending s !! f_req f) as [entry|] eqn:He.
  - destruct (dispatch f entry) as [e1 so] eqn:Hd. erewrite handle_frame_known by done.
    case_match; cbn [pending]; [by rewrite lookup_delete_ne|by rewrite lookup_insert_ne].
  - by rewrite handle_frame_unknown.
Qed.

(** The dispatch keeps or takes the sender; it sends to that sender only. *)
Lemma dispatch_tx f entry :
  (snd (dispatch f entry) = None /\ tx (fst (dispatch f entry)) = tx entry)
  \/ (exists r, snd (dispatch f entry) = (fun c => (c, r)) <$> tx entry)
     /\ tx (fst (dispatch f entry)) = None.
Proof. unfold dispatch. repeat case_match; simpl; eauto. Qed.

(** Every send of a frame goes to the sender its request's entry held. *)
Lemma handle_frame_sends max f s :
  exists rs, sends (handle_frame max f s) = sends s ++ rs
    /\ Forall (fun x => exists entry, pending s !! f_req f = Some entry /\ tx entry = Some (fst x)) rs
    /\ (length rs <= 1)%nat.
Proof.
  destruct (pending s !! f_req f) as [entry|] eqn:He.
  - destruct (dispatch f entry) as [e1 so] eqn:Hd. erewrite handle_frame_known by done.
    pose proof (dispatch_tx f entry) as Hx. rewrite Hd in Hx. simpl in Hx.
    destruct Hx as [[-> Htx]|[[r ->] Htx]]; rewrite Htx; destruct (tx entry) as [c|] eqn:Ec;
      case_match; cbn [sends]; eexists; (split; [reflexivity|]); simpl; split; eauto;
      repeat constructor; simpl; eauto.
  - rewrite handle_frame_unknown by done. exists []. rewrite app_nil_r. split; [done|]. split; [done|simpl; lia].
Qed.

Lemma owns_handle_frame max k c f s : owns k c s -> owns k c (handle_frame max f s).
Proof.
  intros Ho. destruct (pending s !! f_req f) as [entry|] eqn:He.
  - destruct (dispatch f entry) as [e1 so] eqn:Hd. erewrite handle_frame_known by done.
    pose proof (dispatch_tx f entry) as Hx. rewrite Hd in Hx. simpl in Hx.
    case_match; unfold owns; cbn [pending].
    + by apply map_Forall_delete.
    + apply map_Forall_insert_2; [|done]. intros Hc.
      apply (Ho (f_req f) entry He). destruct Hx as [[_ <-]|[_ Hx]]; congruence.
  - by rewrite handle_frame_unknown.
Qed.

(** ** Lemmas: the simulation *)

Lemma sends_to_eq c s : sends_to c s = sent_to c (sends s).
Proof. done. Qed.

Lemma sent_to_app c l1 l2 : sent_to c (l1 ++ l2) = sent_to c l1 ++ sent_to c l2.
Proof. unfold sent_to. by rewrite filter_app, fmap_app. Qed.

Lemma sent_to_one c r : sent_to c [(c, r)] = [r].
Proof. unfold sent_to. by rewrite filter_cons_True. Qed.

Lemma sent_to_none c rs : Forall (fun x : chan * run_result => fst x <> c) rs -> sent_to c rs = [].
Proof.
  intros H. unfold sent_to. induction H as [|x rs Hx _ IH]; [done|].
  by rewrite filter_cons_False.
Qed.

Lemma kill_frame_other k k' : is_u32 k -> is_u32 k' -> k' <> k ->
  filter (fun w => w = encode_frame MSG_KILL k []) [encode_frame MSG_KILL k' []] = [].
Proof.
  intros Hk Hk' Hne. rewrite filter_cons_False; [done|].
  intros E. apply Hne. by eapply encode_frame_req_inj.
Qed.

Lemma sends_to_other max k c f s : f_req f <> k -> owns k c s ->
  sends_to c (handle_frame max f s) = sends_to c s.
Proof.
  intros Hne Ho. destruct (handle_frame_sends max f s) as (rs & Ers & Hrs & _).
  rewrite !sends_to_eq, Ers, sent_to_app, (sent_to_none c rs), app_nil_r; [done|].
  eapply Forall_impl; [done|]. intros x (entry & He & Htx) Hx. apply Hne.
  apply (Ho _ _ He). congruence.
Qed.

Lemma shows_other max k c s v f : is_u32 k -> is_u32 (f_req f) -> f_req f <> k ->
  owns k c s -> shows k c s v -> shows k c (handle_frame max f s) v.
Proof.
  intros Hk Hf Hne Ho (Hs & Hkill & Hb). split; [|split].
  - by rewrite (sends_to_other _ k).
  - rewrite <-Hkill. unfold kills_of.
    destruct (pending s !! f_req f) as [entry|] eqn:He; [|by rewrite handle_frame_unknown].
    destruct (dispatch f entry) as [e1 so] eqn:Hd. erewrite handle_frame_known by done.
    destruct (over_limit _ _ _); cbn [writes]; [|done].
    by rewrite filter_app, kill_frame_other, app_nil_r.
  - by rewrite handle_frame_other.
Qed.

Lemma kills_of_snoc k s s' : writes s' = writes s ++ [encode_frame MSG_KILL k []] ->
  kills_of k s' = kills_of k s ++ [encode_frame MSG_KILL k []].
Proof. intros E. unfold kills_of. rewrite E, filter_app. f_equal. by rewrite filter_cons_True. Qed.

(** A request's own output frame, kept or over the cap. *)
Lemma shows_output max k c s v f o e e1 :
  max < usize_max -> f_req f = k -> is_output (f_type f) = true ->
  v_buf v = Some (o, e) -> shows k c s v ->
  dispatch f (mkPending o e (match v_answer v with None => Some c | Some _ => None end)) = (e1, None) ->
  tx e1 = (match v_answer v with None => Some c | Some _ => None end) ->
  shows k c (handle_frame max f s) (view_output max (out e1) (err e1) v).
Proof.
  intros Hmax <- Hout Hb (Hs & Hkill & Hp) Hd Htx. rewrite Hb in Hp. destruct Hp as [Hk Hp].
  erewrite handle_frame_known by done. rewrite over_limit_spec, Hout by done.
  unfold view_output. rewrite andb_true_l.
  destruct (max <? len (out e1) + len (err e1)); (split; [|split]); cbn [v_answer v_killed v_buf].
  - rewrite sends_to_eq. cbn [sends option_list app].
    rewrite sent_to_app. rewrite <-sends_to_eq. rewrite Hs, Htx.
    destruct (v_answer v) as [r|]; simpl; [done|]. apply sent_to_one.
  - erewrite kills_of_snoc by reflexivity. by rewrite Hkill, Hk.
  - cbn. apply lookup_delete_eq.
  - unfold sends_to. cbn [sends]. rewrite app_nil_r. done.
  - done.
  - split; [done|]. cbn [pending]. rewrite lookup_insert_eq. rewrite <-Htx. by destruct e1.
Qed.

Lemma shows_own max k c s v f : max < usize_max -> f_req f = k ->
  shows k c s v -> shows k c (handle_frame max f s) (view_step max v f).
Proof.
  intros Hmax Hf Hsh. unfold view_step. destruct (v_buf v) as [[o e]|] eqn:Hb.
  2: { rewrite handle_frame_unknown; [done|]. destruct Hsh as (_&_&Hp). rewrite Hb in Hp. congruence. }
  case_bool_decide as H1; [|case_bool_decide as H2; [|case_bool_decide as H3]].
  - eapply (shows_output max k c s v f o e (mkPending (o ++ f_payload f) e _)); try done.
    + rewrite H1. done.
    + unfold dispatch. by rewrite (bool_decide_true _ H1).
  - eapply (shows_output max k c s v f o e (mkPending o (e ++ f_payload f) _)); try done.
    + rewrite H2. done.
    + unfold dispatch. rewrite (bool_decide_false _ H1), (bool_decide_true _ H2). done.
  - destruct Hsh as (Hs & Hkill & Hp). rewrite Hb in Hp. destruct Hp as [Hk Hp]. subst k.
    erewrite handle_frame_known;
      [|done|unfold dispatch; by rewrite (bool_decide_false _ H1), (bool_decide_false _ H2),
         (bool_decide_true _ H3)].
    unfold over_limit, is_output. rewrite H3. simpl.
    split; [|split; [done|]]; cbn [v_answer v_buf v_killed].
    + rewrite sends_to_eq. cbn [sends]. rewrite sent_to_app. rewrite <-sends_to_eq. rewrite Hs.
      destruct (v_answer v); simpl; [done|]. apply sent_to_one.
    + split; [done|]. cbn [pending]. rewrite lookup_insert_eq. by destruct (v_answer v).
  - destruct Hsh as (Hs & Hkill & Hp). rewrite Hb in Hp. destruct Hp as [Hk Hp]. subst k.
    erewrite handle_frame_known;
      [|done|unfold dispatch; by rewrite (bool_decide_false _ H1), (bool_decide_false _ H2),
         (bool_decide_false _ H3)].
    unfold over_limit, is_output.
    rewrite (bool_decide_false _ H1), (bool_decide_false _ H2). simpl.
    split; [|split; [done|]].
    + unfold sends_to in *. cbn [sends]. by rewrite app_nil_r.
    + rewrite Hb. split; [done|]. cbn [pending]. by rewrite lookup_insert_eq.
Qed.

Lemma shows_run_frames max k c fs s v : max < usize_max -> is_u32 k ->
  Forall (fun f => is_u32 (f_req f)) fs -> owns k c s -> shows k c s v ->
  shows k c (run_frames max fs s) (view_run max v (frames_of k fs)).
Proof.
  intros Hmax Hk Hfs. revert s v. unfold run_frames, view_run, frames_of.
  induction Hfs as [|f fs Hf Hfs IH]; intros s v Ho Hsh; [done|]. simpl.
  destruct (decide (f_req f = k)) as [E|E].
  - rewrite filter_cons_True by done. simpl.
    apply IH; [by apply owns_handle_frame|by apply shows_own].
  - rewrite filter_cons_False by done.
    apply IH; [by apply owns_handle_frame|by apply shows_other].
Qed.

(** ** Lemmas: the cap *)

Lemma cap_ok_handle_frame max f s : max < usize_max ->
  cap_ok max s -> cap_ok max (handle_frame max f s).
Proof.
  intros Hmax Hc. destruct (pending s !! f_req f) as [entry|] eqn:He;
    [|by rewrite handle_frame_unknown].
  pose proof (Hc _ _ He) as Hentry. simpl in Hentry.
  destruct (dispatch f entry) as [e1 so] eqn:Hd. erewrite handle_frame_known by done.
  rewrite over_limit_spec by done. destruct (is_output (f_type f)) eqn:Ho.
  - rewrite andb_true_l. destruct (Z.ltb_spec max (len (out e1) + len (err e1)));
      unfold cap_ok; cbn [pending]; [by apply map_Forall_delete|by apply map_Forall_insert_2].
  - rewrite andb_false_l. apply map_Forall_insert_2; [|done].
    revert Hd Ho. unfold dispatch, is_output.
    repeat case_bool_decide; intros [= <- <-]; done.
Qed.

Lemma parse_NeedMore_short max buf : 0 <= max -> parse_frame max buf = NeedMore ->
  len buf < HEADER_SIZE + max.
Proof.
  intros Hm. unfold parse_frame. destruct (Z.ltb_spec (len buf) HEADER_SIZE); [lia|].
  do 9 (destruct buf as [|? buf]; [unfold HEADER_SIZE in *; autorewrite with len in *; lia|]).
  case_match eqn:H1; [done|]. case_match eqn:H2; [|done]. intros _. lia.
Qed.

Lemma drain_invariant max buf s (P : Shared -> Prop) :
  (forall f s, is_u32 (f_req f) -> P s -> P (handle_frame max f s)) ->
  P s -> P (snd (drain max buf s)).
Proof.
  intros HP. revert s.
  induction buf as [buf Hp|buf Hp|buf f rest Hp IH] using (buffer_ind max); intros s Hs;
    rewrite drain_unfold, Hp; [done..|].
  apply IH, HP; [|done]. by apply parse_frame_Parsed in Hp as [[? _] _].
Qed.

Lemma drain_short max buf s buf' s' : 0 <= max -> drain max buf s = (Some buf', s') ->
  len buf' < HEADER_SIZE + max.
Proof.
  intros Hm. revert s.
  induction buf as [buf Hp|buf Hp|buf f rest Hp IH] using (buffer_ind max); intros s;
    rewrite drain_unfold, Hp; [|done|apply IH].
  intros [= <- <-]. by apply parse_NeedMore_short.
Qed.

(** ** Lemmas: failing every request *)

Lemma fail_senders_eq msg l s :
  fail_senders msg l s =
  mkShared (pending s) (running s) (writes s)
    (sends s ++ omap (fun kp => (fun c => (c, ([], msg, -1))) <$> tx (snd kp)) l).
Proof.
  unfold fail_senders. revert s. induction l as [|[k p] l IH]; intros s; simpl.
  - rewrite app_nil_r. by destruct s.
  - rewrite IH. unfold send_opt. destruct (tx p); cbn [pending running writes sends fmap option_fmap option_map];
      [by rewrite <-app_assoc|done].
Qed.

Lemma fail_all_eq `{DashIter} msg s :
  exists rs, fail_all msg s = mkShared ∅ (running s) (writes s) (sends s ++ rs)
    /\ rs ≡ₚ omap (fun kp => (fun c => (c, ([], msg, -1))) <$> tx (snd kp)) (map_to_list (pending s)).
Proof.
  unfold fail_all. rewrite fail_senders_eq. eexists. split; [reflexivity|].
  by rewrite dash_iter_perm.
Qed.

Lemma connection_lost_eq `{DashIter} s :
  pending (connection_lost s) = ∅ /\ running (connection_lost s) = false
  /\ writes (connection_lost s) = writes s.
Proof.
  unfold connection_lost.
  destruct (fail_all_eq (str "zygote connection lost") (set_running false s)) as (rs & -> & _).
  done.
Qed.

Lemma cap_ok_lost `{DashIter} max s : cap_ok max (connection_lost s).
Proof. unfold cap_ok. rewrite (proj1 (connection_lost_eq _)). apply map_Forall_empty. Qed.

(** A request waiting on [c] is failed exactly once when every request is. *)
Lemma fail_all_sends_to `{DashIter} msg k c s p :
  owns k c s -> pending s !! k = Some p -> tx p = Some c ->
  sends_to c (fail_all msg s) = sends_to c s ++ [([], msg, -1)].
Proof.
  intros Ho Hp Hc. destruct (fail_all_eq msg s) as (rs & -> & Hrs).
  rewrite !sends_to_eq. cbn [sends]. rewrite sent_to_app. f_equal.
  assert (sent_to c rs ≡ₚ [([], msg, -1)]) as Hperm.
  { unfold sent_to. rewrite Hrs. rewrite <-(insert_delete_id _ _ _ Hp).
    rewrite map_to_list_insert by apply lookup_delete_eq. simpl. rewrite Hc. simpl.
    rewrite filter_cons_True by done. simpl.
    match goal with |- _ :: ?l ≡ₚ _ => assert (l = []) as ->; [|done] end.
    apply (sent_to_none c). apply Forall_forall. intros [c' r].
    rewrite list_elem_of_omap. intros ([k' p'] & Hin & Hx). simpl in *.
    intros ->. destruct (tx p') as [c''|] eqn:Ec; [|done]. simplify_eq/=.
    apply elem_of_map_to_list in Hin. apply lookup_delete_Some in Hin as [Hne Hin].
    apply Hne. symmetry. by eapply (Ho k' p'). }
  by apply Permutation_singleton_r in Hperm.
Qed.

(** ** Lemmas: no caller is left without an answer *)

(** Since [base], the caller waiting on [c] is still waiting, or got one answer. *)
Definition served (k : Z) (c : chan) (base : list run_result) (s : Shared) : Prop :=
  (sends_to c s = base /\ owns k c s /\ exists p, pending s !! k = Some p /\ tx p = Some c)
  \/ ((exists r, sends_to c s = base ++ [r]) /\ map_Forall (fun _ p => tx p <> Some c) (pending s)).

Lemma no_sender_handle_frame max c f s :
  map_Forall (fun _ p => tx p <> Some c) (pending s) ->
  map_Forall (fun _ p => tx p <> Some c) (pending (handle_frame max f s)).
Proof.
  intros Hn. destruct (pending s !! f_req f) as [entry|] eqn:He; [|by rewrite handle_frame_unknown].
  destruct (dispatch f entry) as [e1 so] eqn:Hd. erewrite handle_frame_known by done.
  pose proof (dispatch_tx f entry) as Hx. rewrite Hd in Hx. simpl in Hx.
  destruct (over_limit _ _ _); cbn [pending]; [by apply map_Forall_delete|].
  apply map_Forall_insert_2; [|done]. pose proof (Hn _ _ He) as Hc. simpl in Hc.
  destruct Hx as [[_ ->]|[_ ->]]; done.
Qed.

(** Among entries owned by [k], removing or emptying [k] leaves no sender. *)
Lemma owns_no_sender k c s m :
  owns k c s -> (forall k', k' <> k -> m !! k' = pending s !! k') ->
  (forall p, m !! k = Some p -> tx p <> Some c) ->
  map_Forall (fun _ p => tx p <> Some c) (m : gmap Z Pending).
Proof.
  intros Ho Hm Hk k' p Hp Hc. destruct (decide (k' = k)) as [->|Hne]; [by eapply Hk|].
  rewrite Hm in Hp by done. apply Hne. by eapply (Ho k' p).
Qed.

(** A frame of a waiting request leaves it waiting, or answers it for good. *)
Lemma handle_frame_own max f s p c :
  pending s !! f_req f = Some p -> tx p = Some c ->
  (sends (handle_frame max f s) = sends s
   /\ exists e1, pending (handle_frame max f s) !! f_req f = Some e1 /\ tx e1 = Some c)
  \/ (exists r, sends (handle_frame max f s) = sends s ++ [(c, r)])
     /\ (forall e1, pending (handle_frame max f s) !! f_req f = Some e1 -> tx e1 <> Some c).
Proof.
  intros Hp Hc. destruct (dispatch f p) as [e1 so] eqn:Hd. erewrite handle_frame_known by done.
  pose proof (dispatch_tx f p) as Hx. rewrite Hd in Hx. simpl in Hx. rewrite Hc in Hx.
  destruct (over_limit max (f_type f) e1); cbn [pending sends];
    rewrite ?lookup_delete_eq, ?lookup_insert_eq;
    destruct Hx as [[-> Htx]|[[r ->] Htx]]; rewrite ?Htx; simpl; [right|right|left|right].
  - eauto.
  - eauto.
  - rewrite app_nil_r. eauto.
  - split; [eauto|]. intros e [= <-]. congruence.
Qed.

Lemma sends_to_no_sender max c f s : map_Forall (fun _ p => tx p <> Some c) (pending s) ->
  sends_to c (handle_frame max f s) = sends_to c s.
Proof.
  intros Hn. destruct (handle_frame_sends max f s) as (rs & Ers & Hrs & _).
  rewrite !sends_to_eq, Ers, sent_to_app, (sent_to_none c rs), app_nil_r; [done|].
  eapply Forall_impl; [done|]. intros x (entry & He & Htx) Hx. apply (Hn _ _ He). congruence.
Qed.

Lemma served_handle_frame max k c base f s :
  served k c base s -> served k c base (handle_frame max f s).
Proof.
  intros [(Hs & Ho & p & Hp & Hc)|[[r Hs] Hn]].
  - destruct (decide (f_req f = k)) as [<-|E].
    + destruct (handle_frame_own max f s p c Hp Hc) as [[Es He]|[[r Es] He]]; [left|right].
      * rewrite sends_to_eq, Es. split; [done|]. split; [by apply owns_handle_frame|done].
      * rewrite sends_to_eq, Es, sent_to_app, sent_to_one, <-sends_to_eq, Hs.
        split; [eauto|]. eapply owns_no_sender; [done| |done].
        intros k' Hk'. by apply handle_frame_other.
    + left. rewrite (sends_to_other _ k) by done. rewrite handle_frame_other by done.
      split; [done|]. split; [by apply owns_handle_frame|eauto].
  - right. rewrite sends_to_no_sender by done. split; [eauto|]. by apply no_sender_handle_frame.
Qed.

Lemma served_fail_all `{DashIter} k c base msg s : served k c base s ->
  exists r, sends_to c (fail_all msg s) = base ++ [r].
Proof.
  intros [(Hs & Ho & p & Hp & Hc)|[[r Hs] Hn]].
  - rewrite <-Hs. eexists. by eapply fail_all_sends_to.
  - exists r. rewrite <-Hs. destruct (fail_all_eq msg s) as (rs & -> & Hrs).
    rewrite !sends_to_eq. cbn [sends]. rewrite sent_to_app, (sent_to_none c rs), app_nil_r; [done|].
    rewrite Hrs. apply Forall_forall. intros [c' r']. rewrite list_elem_of_omap.
    intros ([k' p'] & Hin & Hx). simpl in *. intros ->. apply elem_of_map_to_list in Hin.
    destruct (tx p') as [c''|] eqn:Ec; simplify_eq/=. by apply (Hn k' p').
Qed.

(** ** Properties *)

(** A concrete iteration order, for the witnesses. *)
Definition dash_map_order : DashIter :=
  {| dash_iter := fun m => map_to_list m; dash_iter_perm := fun m => reflexivity (map_to_list m) |}.

(** C5. Refinement: however the worker's byte stream is cut into reads, and
    whatever other requests' frames are interleaved in it, the reader treats
    request [k] exactly as the one-request specification does on its own
    frames: the caller's channel gets precisely the specified answer, the
    table entry holds precisely the specified output (or is gone), and a kill
    order is written precisely when the output cap was exceeded. *)
Theorem reader_refines_view `{DashIter} max k c fs ds s :
  max < usize_max -> is_u32 k -> Forall (frame_ok max) fs ->
  ds <> [] -> Forall (fun d => d <> []) ds -> concat ds = concat (encode <$> fs) ->
  owns k c s -> pending s !! k = Some (mkPending [] [] (Some c)) ->
  sends_to c s = [] -> kills_of k s = [] ->
  exists s', read_loop max (ReadOk <$> ds) [] s = (Some [], s')
    /\ shows k c s' (view_run max view_init (frames_of k fs)).
Proof.
  intros Hmax Hk Hfs Hne Hds Heq Ho Hp Hs Hkill.
  rewrite read_loop_chunks, Heq by done. simpl app.
  rewrite <-(app_nil_r (concat _)), drain_frames by done.
  eexists. split; [reflexivity|]. apply shows_run_frames; try done.
  eapply Forall_impl; [done|]. by intros f [? _].
Qed.

(** The scenario of the unit test [output_limit_does_not_hang_reader]:
    request 7 exceeds a cap of 100 bytes, request 8 then completes. *)
Definition demo_frames : list Frame :=
  [mkFrame MSG_STDOUT 7 (replicate 60 Byte.x78); mkFrame MSG_STDOUT 7 (replicate 60 Byte.x78);
   mkFrame MSG_STDOUT 8 (str "hello"); mkFrame MSG_DONE 8 (i32_to_be_bytes 1)].
Definition demo_shared : Shared :=
  mkShared (<[7 := mkPending [] [] (Some 0%nat)]> {[8 := mkPending [] [] (Some 1%nat)]}) true [] [].
Definition demo_chunks : list bytes :=
  let bs := concat (encode <$> demo_frames) in [take 5 bs; take 100 (drop 5 bs); drop 105 bs].

Lemma demo_owns k c : (k, c) = (7, 0%nat) \/ (k, c) = (8, 1%nat) -> owns k c demo_shared.
Proof.
  intros Hkc k' p Hp Hc. unfold demo_shared in Hp. cbn [pending] in Hp.
  apply lookup_insert_Some in Hp as [[<- <-]|[Hne Hp]]; [|apply lookup_singleton_Some in Hp as [<- <-]];
    simpl in Hc; destruct Hkc; congruence.
Qed.

Lemma reader_refines_view_witness :
  exists s', read_loop (H := dash_map_order) 100 (ReadOk <$> demo_chunks) [] demo_shared = (Some [], s')
    /\ shows 8 1 s' (mkView (Some (str "hello", [])) (Some (str "hello", [], 1)) false).
Proof.
  apply (reader_refines_view (H := dash_map_order) 100 8 1 demo_frames demo_chunks demo_shared).
  - vm_compute. reflexivity.
  - vm_compute. split; discriminate.
  - repeat constructor; vm_compute; discriminate.
  - discriminate.
  - repeat constructor; vm_compute; discriminate.
  - vm_compute. reflexivity.
  - apply demo_owns. by right.
  - reflexivity.
  - reflexivity.
  - reflexivity.
Defined.

(** The reader does not depend on how the stream is cut: any sequence of
    non-empty reads has the effect of one read of their concatenation, from
    every buffer and shared state, malformed streams included. *)
Theorem read_loop_chunking `{DashIter} max ds buf s :
  ds <> [] -> Forall (fun d => d <> []) ds ->
  read_loop max (ReadOk <$> ds) buf s = read_loop max [ReadOk (concat ds)] buf s.
Proof.
  intros Hne Hds. rewrite read_loop_chunks by done.
  change [ReadOk (concat ds)] with (ReadOk <$> [concat ds]).
  rewrite read_loop_chunks; [simpl; by rewrite app_nil_r|done|].
  constructor; [|done]. destruct Hds as [|d ds Hd _]; [done|]. by destruct d.
Qed.

Lemma read_loop_chunking_witness :
  read_loop (H := dash_map_order) 100 (ReadOk <$> demo_chunks) [] demo_shared
  = read_loop (H := dash_map_order) 100 [ReadOk (concat demo_chunks)] [] demo_shared.
Proof.
  apply (read_loop_chunking (H := dash_map_order) 100 demo_chunks [] demo_shared).
  - discriminate.
  - repeat constructor; vm_compute; discriminate.
Defined.

(** C29. Memory bound: from a state that respects the cap, whatever the worker
    sends, the reader never keeps more than [max_output] bytes of output for
    any request, and the reassembly buffer it parks with is shorter than one
    header plus one maximal payload. *)
Theorem reader_memory_bound `{DashIter} max evs buf s :
  0 <= max < usize_max -> len buf < HEADER_SIZE + max -> cap_ok max s ->
  cap_ok max (snd (read_loop max evs buf s))
  /\ (forall buf', fst (read_loop max evs buf s) = Some buf' -> len buf' < HEADER_SIZE + max).
Proof.
  intros Hm. revert buf s. induction evs as [|[[|b d]|] evs IH]; intros buf s Hb Hc.
  - split; [done|]. by intros ? [= <-].
  - split; [apply cap_ok_lost|done].
  - cbn [read_loop].
    pose proof (drain_invariant max (buf ++ b :: d) s (cap_ok max)
      (fun f s _ => cap_ok_handle_frame max f s (proj2 Hm)) Hc) as Hd.
    destruct (drain max (buf ++ b :: d) s) as [[buf'|] s'] eqn:E.
    + apply IH; [|done]. eapply drain_short; [lia|done].
    + split; [apply cap_ok_lost|done].
  - split; [apply cap_ok_lost|done].
Qed.

Lemma reader_memory_bound_witness :
  cap_ok 100 (snd (read_loop (H := dash_map_order) 100 (ReadOk <$> demo_chunks) [] demo_shared)).
Proof.
  apply (reader_memory_bound (H := dash_map_order) 100 (ReadOk <$> demo_chunks) [] demo_shared).
  - vm_compute. split; [discriminate|reflexivity].
  - vm_compute. reflexivity.
  - intros k p Hp. unfold demo_shared in Hp. cbn [pending] in Hp.
    apply lookup_insert_Some in Hp as [[<- <-]|[_ Hp]];
      [|apply lookup_singleton_Some in Hp as [<- <-]]; vm_compute; discriminate.
Defined.

(** The reader by itself leaves no caller waiting: with a table nobody else
    touches, when it ends (end of file, read error or oversized frame) the table
    is emptied, the manager is marked dead, and every caller whose sender was in
    the table got exactly one answer since.  [Answers.connection_loss_answers]
    has the calls of [run] interleaved with the exit. *)
Theorem reader_exit_answers_all `{DashIter} max evs buf s s' k c p :
  read_loop max evs buf s = (None, s') ->
  owns k c s -> pending s !! k = Some p -> tx p = Some c ->
  pending s' = ∅ /\ running s' = false /\ exists r, sends_to c s' = sends_to c s ++ [r].
Proof.
  intros Hr Ho Hp Hc.
  assert (served k c (sends_to c s) s) as Hsv by (left; eauto).
  generalize dependent (sends_to c s). intros base Hsv. clear Ho Hp Hc.
  enough (exists s0, s' = connection_lost s0 /\ served k c base s0) as (s0 & -> & Hs0).
  { destruct (connection_lost_eq s0) as (? & ? & _). repeat split; [done..|].
    eapply served_fail_all. by destruct Hs0 as [|]; [left|right]. }
  revert buf s Hr Hsv. induction evs as [|[[|b d]|] evs IH]; intros buf s Hr Hsv; simplify_eq/=; eauto.
  pose proof (drain_invariant max (buf ++ b :: d) s (served k c base)
    (fun f s _ => served_handle_frame max k c base f s) Hsv) as Hd.
  destruct (drain max (buf ++ b :: d) s) as [[buf'|] s1]; simplify_eq/=; eauto.
Qed.

(** The stream of [demo_frames], then end of file: request 7 was cut off by
    the cap, request 8 answered by its own [MSG_DONE]. *)
Lemma reader_exit_answers_all_witness :
  exists s', read_loop (H := dash_map_order) 100 ((ReadOk <$> demo_chunks) ++ [ReadOk []]) [] demo_shared
    = (None, s')
  /\ exists r, sends_to 1 s' = sends_to 1 demo_shared ++ [r].
Proof.
  eexists. split; [vm_compute; reflexivity|].
  refine (proj2 (proj2 (reader_exit_answers_all (H := dash_map_order) 100
    ((ReadOk <$> demo_chunks) ++ [ReadOk []]) [] demo_shared _ 8 1
    (mkPending [] [] (Some 1%nat)) _ _ _ _))).
  - vm_compute. reflexivity.
  - apply demo_owns. by right.
  - reflexivity.
  - reflexivity.
Defined.

(** One request's frame can fail all of them: when a single frame is longer
    than the cap, the reader stops, and every other caller with a sender in the
    table is answered "zygote connection lost", whatever its own state.  The
    worker sends output in frames of up to 64 KiB, so with a smaller configured
    cap one chatty request takes the others down, where the documentation of
    the cap says that its request fails. *)
Theorem oversized_frame_fails_everyone `{DashIter} max f s k c p :
  is_u32 (f_req f) -> max < len (f_payload f) <= u32_max ->
  owns k c s -> pending s !! k = Some p -> tx p = Some c ->
  exists s', read_loop max [ReadOk (encode f)] [] s = (None, s')
    /\ running s' = false /\ pending s' = ∅
    /\ sends_to c s' = sends_to c s ++ [([], str "zygote connection lost", -1)].
Proof.
  intros Hid Hlen Ho Hp Hc. exists (connection_lost s).
  destruct (connection_lost_eq s) as (Hpe & Hru & _). split.
  - destruct (encode f) as [|b d] eqn:E.
    { pose proof (len_encode f) as Hl. rewrite E in Hl. pose proof (len_nonneg (f_payload f)).
      unfold HEADER_SIZE, len in Hl. cbn in Hl. unfold len in *. lia. }
    cbn [read_loop]. rewrite app_nil_l, drain_unfold, <-E, <-(app_nil_r (encode f)), parse_oversized by done. done.
  - split; [done|]. split; [done|].
    apply (fail_all_sends_to (str "zygote connection lost") k c (set_running false s) p); done.
Qed.

(** Request 7 prints 101 bytes at once under a cap of 100; request 8 pays. *)
Lemma oversized_frame_fails_everyone_witness :
  exists s', read_loop (H := dash_map_order) 100
      [ReadOk (encode (mkFrame MSG_STDOUT 7 (replicate 101 Byte.x78)))] [] demo_shared = (None, s')
    /\ running s' = false /\ pending s' = ∅
    /\ sends_to 1 s' = sends_to 1 demo_shared ++ [([], str "zygote connection lost", -1)].
Proof.
  apply (oversized_frame_fails_everyone (H := dash_map_order) 100 (mkFrame MSG_STDOUT 7 (replicate 101 Byte.x78))
    demo_shared 8 1 (mkPending [] [] (Some 1%nat))).
  - by vm_compute.
  - by vm_compute.
  - apply demo_owns. by right.
  - reflexivity.
  - reflexivity.
Defined.
