(* ===== verification/Manager.v ===== *)
(** * Manager: concurrent callers of the zygote manager

    [ZygoteManager::run] of [server/src/services/zygote.rs] and the reader
    task, interleaved at every access to the state they share: the [running]
    flag, the [next_id] counter, the [pending] table, the oneshot channels and
    the write half.  A call of [run] is a program counter; [exec] performs one
    event of one participant and is undefined when the event is not enabled,
    so an execution is a list of events.  Call [i] creates one oneshot
    channel, whose name is [i].

    A [write_all] under the lock of the write half is one event; [Blocking] has
    the waiters of the lock and a socket that takes a frame in pieces, and shows
    that this is one event as far as this file can see.

    The request text of call [i] (serialised by serde_json) is a parameter;
    [max] is the output cap the reader was started with. *)

From S2P Require Import Prelude RustStd Wire Reader.

(** ** Data *)

(** Where a call of [run] stands, and the request id it was given. *)
Inductive pc :=
| PcStart                         (* before [running.load] *)
| PcFetch                         (* channel made, before [fetch_add] *)
| PcInsert (id : Z)               (* before [pending.insert] *)
| PcWriteRun (id : Z)             (* before the [MSG_RUN] write *)
| PcWriteFailed (id : Z)          (* the write failed; before [pending.remove] *)
| PcAwait (id : Z)                (* in [timeout(limits.timeout, rx)] *)
| PcGot (id : Z) (r : run_result) (* result received; before [pending.remove] *)
| PcTimedOut (id : Z)             (* before the [MSG_KILL] write *)
| PcKilled (id : Z)               (* before [pending.remove] *)
| PcReturned (r : run_result).

(** Where the reader stands between two accesses to shared state. *)
Inductive rd :=
| RdLoop
| RdLimit (id : Z) (o : bytes) (t : option chan)  (* before [pending.remove] *)
| RdSend (id : Z) (o : bytes) (t : option chan)   (* before the limit error is sent *)
| RdKill (id : Z)                                 (* before the [MSG_KILL] write *)
| RdFail (todo : gset Z)                          (* in the final [iter_mut] loop *)
| RdDone.

(** [ids], [born], [hist] and [issued] are history variables: the id each call
    was given, the number of frames the reader had handled when the call
    registered, those frames, and the number of [fetch_add]s. *)
Record Sys := mkSys {
  sh : Shared;
  next_id : Z;
  calls : gmap nat pc;
  reader : rd;
  ids : gmap nat Z;
  born : gmap nat nat;
  hist : list Frame;
  issued : Z
}.

Inductive event :=
| EvInvoke (i : nat)
| EvCheck (i : nat)
| EvFetch (i : nat)
| EvInsert (i : nat)
| EvWrite (i : nat) (ok : bool)
| EvRecv (i : nat)
| EvTimeout (i : nat)
| EvKill (i : nat)
| EvRemove (i : nat)
| EvFrame (f : Frame)
| EvLimitRemove
| EvLimitSend
| EvLimitKill
| EvClose
| EvFailOne (k : Z)
| EvClear.

Definition res_not_running : run_result := ([], str "zygote worker not running", -1).
Definition res_write_failed : run_result := ([], str "zygote write failed", -1).
Definition res_timeout : run_result := ([], str "Execution timeout", -1).
Definition res_lost : run_result := ([], str "zygote connection lost", -1).

(** ** State updates *)

Definition set_call (i : nat) (p : pc) (s : Sys) : Sys :=
  mkSys (sh s) (next_id s) (<[i := p]> (calls s)) (reader s) (ids s) (born s) (hist s) (issued s).
Definition set_sh (h : Shared) (s : Sys) : Sys :=
  mkSys h (next_id s) (calls s) (reader s) (ids s) (born s) (hist s) (issued s).
Definition set_reader (r : rd) (s : Sys) : Sys :=
  mkSys (sh s) (next_id s) (calls s) r (ids s) (born s) (hist s) (issued s).

Definition remove_pending (id : Z) (h : Shared) : Shared :=
  set_pending (delete id (pending h)) h.

(** ** Steps *)

Section Exec.
Context (payload : nat -> bytes) (max : Z).

(** [self.running.load] and the early return. *)
Definition do_check (i : nat) (s : Sys) : Sys :=
  if running (sh s) then set_call i PcFetch s else set_call i (PcReturned res_not_running) s.

(** [self.next_id.fetch_add(1)]: wraps at 32 bits. *)
Definition do_fetch (i : nat) (s : Sys) : Sys :=
  let id := next_id s in
  mkSys (sh s) (wrap_u32 (id + 1)) (<[i := PcInsert id]> (calls s)) (reader s)
    (<[i := id]> (ids s)) (born s) (hist s) (issued s + 1).

(** [self.pending.insert(req_id, Pending { .. })]. *)
Definition do_insert (i : nat) (id : Z) (s : Sys) : Sys :=
  let h := set_pending (<[id := mkPending [] [] (Some i)]> (pending (sh s))) (sh s) in
  mkSys h (next_id s) (<[i := PcWriteRun id]> (calls s)) (reader s)
    (ids s) (<[i := length (hist s)]> (born s)) (hist s) (issued s).

(** The [MSG_RUN] frame goes to [write_all], which succeeds or fails. *)
Definition do_write (i : nat) (id : Z) (ok : bool) (s : Sys) : Sys :=
  set_call i (if ok then PcAwait id else PcWriteFailed id)
    (set_sh (write_all (encode_frame MSG_RUN id (payload i)) (sh s)) s).

Definition do_kill (i : nat) (id : Z) (s : Sys) : Sys :=
  set_call i (PcKilled id) (set_sh (write_all (encode_frame MSG_KILL id []) (sh s)) s).

(** [self.pending.remove(&req_id)] and the return. *)
Definition do_remove (i : nat) (id : Z) (r : run_result) (s : Sys) : Sys :=
  set_call i (PcReturned r) (set_sh (remove_pending id (sh s)) s).

(** One frame, up to the release of the [get_mut] guard. *)
Definition do_frame (f : Frame) (s : Sys) : Sys :=
  let '(h, lr) := apply_frame max f (sh s) in
  mkSys h (next_id s) (calls s)
    (match lr with Some (o, t) => RdLimit (f_req f) o t | None => RdLoop end)
    (ids s) (born s) (hist s ++ [f]) (issued s).

(** One visit of the final [iter_mut] loop: take the sender of [k] and fail it. *)
Definition fail_one (k : Z) (h : Shared) : Shared :=
  match pending h !! k with
  | None => h
  | Some p =>
    send_opt (tx p) res_lost (set_pending (<[k := mkPending (out p) (err p) None]> (pending h)) h)
  end.

Definition exec (e : event) (s : Sys) : option Sys :=
  match e with
  | EvInvoke i =>
    match calls s !! i with None => Some (set_call i PcStart s) | Some _ => None end
  | EvCheck i =>
    match calls s !! i with Some PcStart => Some (do_check i s) | _ => None end
  | EvFetch i =>
    match calls s !! i with Some PcFetch => Some (do_fetch i s) | _ => None end
  | EvInsert i =>
    match calls s !! i with Some (PcInsert id) => Some (do_insert i id s) | _ => None end
  | EvWrite i ok =>
    match calls s !! i with Some (PcWriteRun id) => Some (do_write i id ok s) | _ => None end
  | EvRecv i =>
    match calls s !! i, sends_to i (sh s) with
    | Some (PcAwait id), r :: _ => Some (set_call i (PcGot id r) s)
    | _, _ => None
    end
  | EvTimeout i =>
    match calls s !! i with Some (PcAwait id) => Some (set_call i (PcTimedOut id) s) | _ => None end
  | EvKill i =>
    match calls s !! i with Some (PcTimedOut id) => Some (do_kill i id s) | _ => None end
  | EvRemove i =>
    match calls s !! i with
    | Some (PcWriteFailed id) => Some (do_remove i id res_write_failed s)
    | Some (PcGot id r) => Some (do_remove i id r s)
    | Some (PcKilled id) => Some (do_remove i id res_timeout s)
    | _ => None
    end
  | EvFrame f =>
    match reader s with
    | RdLoop => if bool_decide (is_u32 (f_req f)) then Some (do_frame f s) else None
    | _ => None
    end
  | EvLimitRemove =>
    match reader s with
    | RdLimit id o t => Some (set_reader (RdSend id o t) (set_sh (remove_pending id (sh s)) s))
    | _ => None
    end
  | EvLimitSend =>
    match reader s with
    | RdSend id o t =>
      let o' := if utf8_valid o then o else from_utf8_lossy o in
      Some (set_reader (RdKill id) (set_sh (send_opt t (o', limit_message max, -1) (sh s)) s))
    | _ => None
    end
  | EvLimitKill =>
    match reader s with
    | RdKill id =>
      Some (set_reader RdLoop (set_sh (write_all (encode_frame MSG_KILL id []) (sh s)) s))
    | _ => None
    end
  | EvClose =>
    match reader s with
    | RdLoop => Some (set_reader (RdFail (dom (pending (sh s)))) (set_sh (set_running false (sh s)) s))
    | _ => None
    end
  | EvFailOne k =>
    match reader s with
    | RdFail todo => Some (set_reader (RdFail (todo ∖ {[k]})) (set_sh (fail_one k (sh s)) s))
    | _ => None
    end
  | EvClear =>
    match reader s with
    | RdFail todo =>
      if bool_decide (todo = ∅) then Some (set_reader RdDone (set_sh (set_pending ∅ (sh s)) s))
      else None
    | _ => None
    end
  end.

Fixpoint execs (es : list event) (s : Sys) : option Sys :=
  match es with
  | [] => Some s
  | e :: es => match exec e s with Some s' => execs es s' | None => None end
  end.

(** [ZygoteManager::new]: running, ids from 1, nothing pending. *)
Definition sys_init : Sys :=
  mkSys (mkShared ∅ true [] []) 1 ∅ RdLoop ∅ ∅ [] 0.

Definition reachable (s : Sys) : Prop := exists es, execs es sys_init = Some s.

End Exec.

(** ** Specification vocabulary *)

(** What request [id] printed in a stretch of the frame history. *)
Definition outs (id : Z) (h : list Frame) : bytes :=
  concat (f_payload <$> filter (fun f => f_req f = id /\ f_type f = MSG_STDOUT) h).
Definition errs (id : Z) (h : list Frame) : bytes :=
  concat (f_payload <$> filter (fun f => f_req f = id /\ f_type f = MSG_STDERR) h).

(** [r] is the outcome of the frames [h] of request [id]: what it printed and
    the exit code of its final [MSG_DONE], or what it printed when its output
    crossed the cap. *)
Definition outcome (max : Z) (id : Z) (h : list Frame) (r : run_result) : Prop :=
  (exists h' pl, h = h' ++ [mkFrame MSG_DONE id pl]
     /\ r = (from_utf8_lossy (outs id h), from_utf8_lossy (errs id h), done_exit_code pl))
  \/ (max < len (outs id h) + len (errs id h)
      /\ r = (from_utf8_lossy (outs id h), limit_message max, -1)).

(** [r] may be sent to call [i]: the loss of the connection, or the outcome of
    the frames received under [i]'s own id since [i] registered. *)
Definition justified (max : Z) (i : nat) (r : run_result) (s : Sys) : Prop :=
  exists id b, ids s !! i = Some id /\ born s !! i = Some b
    /\ (r = res_lost \/ exists h, h `prefix_of` drop b (hist s) /\ outcome max id h r).

(** The entry a call may have in the table. *)
Definition pc_live (p : pc) : option Z :=
  match p with
  | PcWriteRun id | PcWriteFailed id | PcAwait id | PcGot id _ | PcTimedOut id | PcKilled id => Some id
  | _ => None
  end.

Definition is_returned (p : pc) : Prop :=
  match p with PcReturned _ => True | _ => False end.

(** ** Invariant *)

Record ids_ok (s : Sys) : Prop := {
  ids_next : next_id s = wrap_u32 (1 + issued s);
  ids_issued : 0 <= issued s;
  ids_index : forall i id, ids s !! i = Some id ->
    exists n, 0 <= n < issued s /\ id = wrap_u32 (1 + n);
  ids_inj : forall i j id, ids s !! i = Some id -> ids s !! j = Some id -> i = j
}.

Definition call_ok (max : Z) (s : Sys) (i : nat) (p : pc) : Prop :=
  match p with
  | PcStart | PcFetch => ids s !! i = None /\ born s !! i = None
  | PcInsert id => ids s !! i = Some id /\ born s !! i = None
  | PcWriteRun id | PcWriteFailed id | PcAwait id | PcTimedOut id | PcKilled id =>
    ids s !! i = Some id
  | PcGot id r => ids s !! i = Some id /\ justified max i r s
  | PcReturned r => r = res_not_running \/ r = res_write_failed \/ r = res_timeout \/ justified max i r s
  end.

(** The request whose output the reader has moved out of the table. *)
Definition limit_id (r : rd) : option Z :=
  match r with RdLimit id _ _ => Some id | _ => None end.

(** An entry belongs to the live call that registered it, holds its sender or
    none, and buffers exactly what was printed under its id. *)
Definition entry_ok (s : Sys) (id : Z) (p : Pending) : Prop :=
  exists i q b, calls s !! i = Some q /\ pc_live q = Some id
    /\ ids s !! i = Some id /\ born s !! i = Some b /\ (b <= length (hist s))%nat
    /\ (forall c, tx p = Some c -> c = i /\ sends_to i (sh s) = [])
    /\ (limit_id (reader s) <> Some id ->
        out p = outs id (drop b (hist s)) /\ err p = errs id (drop b (hist s))).

(** A sender in the reader's hands is nowhere else, and unused. *)
Definition held_ok (max : Z) (s : Sys) : Prop :=
  match reader s with
  | RdLimit id o (Some c) | RdSend id o (Some c) =>
    justified max c (from_utf8_lossy o, limit_message max, -1) s
    /\ sends_to c (sh s) = []
    /\ map_Forall (fun _ p => tx p <> Some c) (pending (sh s))
  | _ => True
  end.

Record inv (max : Z) (s : Sys) : Prop := {
  inv_ids : ids_ok s;
  inv_fresh : forall i, calls s !! i = None -> ids s !! i = None /\ born s !! i = None;
  inv_born : forall i b, born s !! i = Some b -> (b <= length (hist s))%nat;
  inv_calls : map_Forall (call_ok max s) (calls s);
  inv_pending : map_Forall (entry_ok s) (pending (sh s));
  inv_held : held_ok max s;
  inv_sends : forall c r, (c, r) ∈ sends (sh s) -> justified max c r s;
  inv_once : NoDup (fst <$> sends (sh s))
}.

(** ** Lemmas: outputs *)

Lemma outs_app id h1 h2 : outs id (h1 ++ h2) = outs id h1 ++ outs id h2.
Proof. unfold outs. by rewrite filter_app, fmap_app, concat_app. Qed.
Lemma errs_app id h1 h2 : errs id (h1 ++ h2) = errs id h1 ++ errs id h2.
Proof. unfold errs. by rewrite filter_app, fmap_app, concat_app. Qed.

(** What one frame adds to the output of request [id]. *)
Lemma outs_one id f :
  outs id [f] = if bool_decide (f_req f = id /\ f_type f = MSG_STDOUT) then f_payload f else [].
Proof.
  unfold outs. case_bool_decide; [rewrite filter_cons_True by done|rewrite filter_cons_False by done];
    simpl; by rewrite ?app_nil_r.
Qed.
Lemma errs_one id f :
  errs id [f] = if bool_decide (f_req f = id /\ f_type f = MSG_STDERR) then f_payload f else [].
Proof.
  unfold errs. case_bool_decide; [rewrite filter_cons_True by done|rewrite filter_cons_False by done];
    simpl; by rewrite ?app_nil_r.
Qed.

Lemma sends_to_nil_iff c h : sends_to c h = [] <-> c ∉ (fst <$> sends h).
Proof.
  unfold sends_to, sent_to. split.
  - intros E (x & -> & Hx)%list_elem_of_fmap. apply fmap_nil_inv in E.
    apply (not_elem_of_nil x). rewrite <-E. by apply list_elem_of_filter.
  - intros Hn. apply sent_to_none. apply Forall_forall. intros x Hx <-. apply Hn.
    apply list_elem_of_fmap. eauto.
Qed.

Lemma sends_to_elem c h r : r ∈ sends_to c h <-> (c, r) ∈ sends h.
Proof.
  unfold sends_to, sent_to. rewrite list_elem_of_fmap. split.
  - intros ([c' r'] & -> & Hx). apply list_elem_of_filter in Hx as [E Hx]. simpl in *. by subst.
  - intros Hx. exists (c, r). split; [done|]. by apply list_elem_of_filter.
Qed.

(** ** Lemmas: fresh request ids *)

Lemma wrap_inj a b : 0 <= a < 4294967296 -> 0 <= b < 4294967296 ->
  wrap_u32 (1 + a) = wrap_u32 (1 + b) -> a = b.
Proof. unfold wrap_u32. intros. Z.div_mod_to_equations. lia. Qed.

Lemma ids_ok_fetch s i : ids_ok s -> issued s < 4294967296 -> ids s !! i = None ->
  ids_ok (do_fetch i s).
Proof.
  intros [Hn H0 Hx Hj] Hb Hi. split; cbn [next_id issued ids do_fetch].
  - rewrite Hn. unfold wrap_u32. Z.div_mod_to_equations. lia.
  - lia.
  - intros j id. rewrite lookup_insert_Some. intros [[<- <-]|[Hne Hl]].
    + exists (issued s). split; [lia|done].
    + destruct (Hx _ _ Hl) as (n & ? & ?). exists n. split; [lia|done].
  - intros j k id. rewrite !lookup_insert_Some.
    assert (forall j', ids s !! j' <> Some (next_id s)) as Hfresh.
    { intros j' Hl. destruct (Hx _ _ Hl) as (n & Hn' & E). rewrite Hn in E.
      apply wrap_inj in E; lia. }
    intros [[<- <-]|[Hne Hl]] [[<- E]|[Hne' Hl']]; subst; try done.
    + by apply Hfresh in Hl'.
    + by apply Hfresh in Hl.
    + by eapply Hj.
Qed.

(** ** Lemmas: justification is stable *)

Record grows (s s' : Sys) : Prop := {
  grows_ids : forall i id, ids s !! i = Some id -> ids s' !! i = Some id;
  grows_born : forall i b, born s !! i = Some b -> born s' !! i = Some b;
  grows_hist : hist s `prefix_of` hist s'
}.

Lemma drop_prefix {A} b (l1 l2 : list A) : (b <= length l1)%nat -> l1 `prefix_of` l2 ->
  drop b l1 `prefix_of` drop b l2.
Proof. intros Hb [k ->]. rewrite drop_app_le by done. by eexists. Qed.

Lemma justified_grows max s s' i r :
  (forall i b, born s !! i = Some b -> (b <= length (hist s))%nat) ->
  grows s s' -> justified max i r s -> justified max i r s'.
Proof.
  intros Hb [Hi Hbo Hh] (id & b & Eid & Eb & Hr). exists id, b.
  split; [by apply Hi|]. split; [by apply Hbo|].
  destruct Hr as [->|(h & Hp & Ho)]; [by left|]. right. exists h. split; [|done].
  etrans; [done|]. apply drop_prefix; eauto.
Qed.

(** A call's own record survives changes elsewhere. *)
Lemma call_ok_grows max s s' i p :
  (forall i b, born s !! i = Some b -> (b <= length (hist s))%nat) ->
  grows s s' -> (ids s !! i = None -> ids s' !! i = None) ->
  (born s !! i = None -> born s' !! i = None) ->
  call_ok max s i p -> call_ok max s' i p.
Proof.
  intros Hb Hg Hi Hbo. pose proof (grows_ids _ _ Hg i) as Hid.
  pose proof (fun r => justified_grows max s s' i r Hb Hg) as Hj.
  destruct p; simpl; intuition auto.
Qed.

(** ** Lemmas: the invariant is preserved *)

(** A step of call [i] that only moves its program counter. *)
Lemma inv_set_call max s i q :
  inv max s -> is_Some (calls s !! i) -> call_ok max s i q ->
  (forall p id, calls s !! i = Some p -> pc_live p = Some id ->
     pc_live q = Some id \/ pending (sh s) !! id = None) ->
  inv max (set_call i q s).
Proof.
  intros [Hids Hf Hb Hc Hp Hh Hs Ho] Hi Hq Hlive. split; try done.
  - by destruct Hids.
  - intros j. cbn [calls ids born set_call]. rewrite lookup_insert_None. intros [Hj _]. by apply Hf.
  - apply map_Forall_insert_2; [done|]. done.
  - intros id p Hl. destruct (Hp id p Hl) as (j & pj & b & Hj & Hlj & Hrest).
    destruct (decide (j = i)) as [->|Hne].
    + exists i, q, b. cbn [calls set_call]. rewrite lookup_insert_eq. split; [done|].
      split; [|done]. destruct (Hlive pj id Hj Hlj) as [|Hn]; [done|]. exfalso.
      cbn [sh set_call] in Hl. congruence.
    + exists j, pj, b. cbn [calls set_call]. by rewrite lookup_insert_ne.
Qed.

Lemma inv_invoke max s i : inv max s -> calls s !! i = None -> inv max (set_call i PcStart s).
Proof.
  intros [Hids Hf Hb Hc Hp Hh Hs Ho] Hi. split; try done.
  - by destruct Hids.
  - intros j. cbn [calls ids born set_call]. rewrite lookup_insert_None. intros [Hj _]. by apply Hf.
  - apply map_Forall_insert_2; [|done]. by apply Hf.
  - intros id p Hl. destruct (Hp id p Hl) as (j & pj & b & Hj & Hrest).
    exists j, pj, b. cbn [calls set_call]. rewrite lookup_insert_ne by congruence. done.
Qed.

(** A change of the shared state that leaves the table and the sends alone. *)
Lemma inv_set_sh max s h : pending h = pending (sh s) -> sends h = sends (sh s) ->
  inv max s -> inv max (set_sh h s).
Proof.
  intros Ep Es [Hids Hf Hb Hc Hp Hh Hs Ho].
  assert (forall c, sends_to c h = sends_to c (sh s)) as Est by (intros; by rewrite !sends_to_eq, Es).
  split; cbn [sh set_sh]; rewrite ?Ep, ?Es; try done.
  - by destruct Hids.
  - intros id p Hl. destruct (Hp id p Hl) as (j & pj & b & ? & ? & ? & ? & ? & Htx & ?).
    exists j, pj, b. do 5 (split; [done|]). split; [|done]. cbn [sh set_sh]. by rewrite Est.
  - unfold held_ok in *. cbn [reader set_sh sh]. rewrite Ep.
    destruct (reader s) as [|? ? [c|]|? ? [c|]| | |]; rewrite ?Est; done.
Qed.

(** [pending.remove]. *)
Lemma inv_remove max s id : inv max s -> inv max (set_sh (remove_pending id (sh s)) s).
Proof.
  intros [Hids Hf Hb Hc Hp Hh Hs Ho]. split; try done.
  - by destruct Hids.
  - by apply map_Forall_delete.
  - unfold held_ok in *. cbn [reader set_sh sh].
    destruct (reader s) as [|? ? [c|]|? ? [c|]| | |]; try done;
      (split; [apply Hh|]; split; [apply Hh|]; apply map_Forall_delete; apply Hh).
Qed.

Lemma inv_do_remove max s i p id r :
  inv max s -> calls s !! i = Some p -> pc_live p = Some id -> call_ok max s i (PcReturned r) ->
  inv max (do_remove i id r s).
Proof.
  intros Hinv Hi Hl Hr. apply inv_set_call.
  - by apply inv_remove.
  - by exists p.
  - done.
  - intros p' id'. cbn [calls set_sh sh]. rewrite Hi. intros [= <-]. rewrite Hl. intros [= <-].
    right. apply lookup_delete_eq.
Qed.

Lemma inv_do_fetch max s i : issued s < 4294967296 -> inv max s -> calls s !! i = Some PcFetch ->
  inv max (do_fetch i s).
Proof.
  intros Hb [Hids Hf Hbo Hc Hp Hh Hs Ho] Hi.
  destruct (Hc i _ Hi) as [Hid Hborn]. simpl in Hid, Hborn.
  assert (grows s (do_fetch i s)) as Hg.
  { split; cbn; [|done|done]. intros j id Hj. rewrite lookup_insert_ne; [done|congruence]. }
  split; try done.
  - by apply ids_ok_fetch.
  - intros j. cbn [calls ids born do_fetch]. rewrite lookup_insert_None. intros [Hj Hne].
    rewrite lookup_insert_ne by done. by apply Hf.
  - intros j p. cbn [calls do_fetch]. rewrite lookup_insert_Some. intros [[<- <-]|[Hne Hj]].
    + cbn. by rewrite lookup_insert_eq.
    + apply (call_ok_grows max s); try done; [|by apply Hc].
      intros. cbn. by rewrite lookup_insert_ne.
  - intros id p Hl. destruct (Hp id p Hl) as (j & pj & b & Hj & Hlj & Hid' & Hrest).
    assert (j <> i) as Hne by congruence. exists j, pj, b. cbn.
    rewrite !lookup_insert_ne by congruence. done.
  - unfold held_ok in *. cbn [reader do_fetch sh].
    destruct (reader s) as [|? ? [c|]|? ? [c|]| | |]; try done;
      (split; [eapply justified_grows; [done..|apply Hh]|apply Hh]).
  - intros c r Hcr. eapply justified_grows; [done..|]. by apply Hs.
Qed.

(** Two live calls never share an id. *)
Lemma inv_pending_None max s i id : inv max s -> calls s !! i = Some (PcInsert id) ->
  pending (sh s) !! id = None.
Proof.
  intros [Hids _ _ Hc Hp _ _ _] Hi. destruct (Hc i _ Hi) as [Hid _]. simpl in Hid.
  destruct (pending (sh s) !! id) as [p|] eqn:Hl; [|done].
  destruct (Hp id p Hl) as (j & pj & b & Hj & Hlj & Hid' & _).
  assert (j = i) as -> by (by eapply (ids_inj s Hids)). simplify_eq/=.
Qed.

(** A call that has not registered was sent nothing. *)
Lemma inv_unborn_sends max s i : inv max s -> born s !! i = None -> sends_to i (sh s) = [].
Proof.
  intros [_ _ _ _ _ _ Hs _] Hb. apply sends_to_nil_iff. intros ([c r] & -> & Hx)%list_elem_of_fmap.
  destruct (Hs c r Hx) as (id & b & _ & Eb & _). simpl in *. congruence.
Qed.

Lemma inv_do_insert max s i id : inv max s -> calls s !! i = Some (PcInsert id) ->
  inv max (do_insert i id s).
Proof.
  intros Hinv Hi. pose proof (inv_pending_None _ _ _ _ Hinv Hi) as Hnone.
  pose proof (inv_unborn_sends max s i Hinv) as Hun.
  destruct Hinv as [Hids Hf Hbo Hc Hp Hh Hs Ho].
  destruct (Hc i _ Hi) as [Hid Hborn]. simpl in Hid, Hborn.
  assert (grows s (do_insert i id s)) as Hg.
  { split; cbn; [done| |done]. intros j b Hj. rewrite lookup_insert_ne; [done|congruence]. }
  split; try done.
  - by destruct Hids.
  - intros j. cbn [calls ids born do_insert]. rewrite lookup_insert_None. intros [Hj Hne].
    rewrite lookup_insert_ne by done. by apply Hf.
  - intros j b. cbn. rewrite lookup_insert_Some. intros [[_ <-]|[_ Hj]]; [lia|eauto].
  - intros j p. cbn [calls do_insert]. rewrite lookup_insert_Some. intros [[<- <-]|[Hne Hj]]; [done|].
    apply (call_ok_grows max s); try done; [|by apply Hc].
    intros. cbn. by rewrite lookup_insert_ne.
  - intros id' p. cbn [sh pending do_insert set_pending]. rewrite lookup_insert_Some.
    intros [[<- <-]|[Hne Hl]].
    + exists i, (PcWriteRun id), (length (hist s)). cbn. rewrite !lookup_insert_eq.
      do 4 (split; [done|]). split; [done|]. split.
      * intros c [= <-]. split; [done|]. by apply Hun.
      * intros _. by rewrite drop_all.
    + destruct (Hp id' p Hl) as (j & pj & b & Hj & Hlj & Hid' & Hb' & Hrest).
      assert (j <> i) by congruence. exists j, pj, b. cbn. rewrite !lookup_insert_ne by done. done.
  - unfold held_ok in *. cbn [reader do_insert sh].
    destruct (reader s) as [|? ? [c|]|? ? [c|]| | |]; try done;
      destruct Hh as (Hj & Hsc & Hno); (split; [by eapply justified_grows|]; split; [done|]);
      (apply map_Forall_insert_2; [|done]); intros [= <-];
      destruct Hj as (? & ? & _ & ? & _); congruence.
  - intros c r Hcr. eapply justified_grows; [done..|]. by apply Hs.
Qed.

(** ** Lemmas: the reader's steps preserve the invariant *)

Lemma apply_frame_known max f h entry entry1 so :
  pending h !! f_req f = Some entry -> dispatch f entry = (entry1, so) ->
  apply_frame max f h =
    (mkShared
       (<[f_req f := if over_limit max (f_type f) entry1 then mkPending [] (err entry1) None
                     else entry1]> (pending h))
       (running h) (writes h) (sends h ++ option_list so),
     if over_limit max (f_type f) entry1 then Some (out entry1, tx entry1) else None).
Proof.
  intros He Hd. unfold apply_frame. rewrite He, Hd.
  destruct so as [[c r]|]; destruct (over_limit _ _ _); unfold set_pending; cbn;
    rewrite ?app_nil_r; by destruct h.
Qed.

(** The dispatch appends to the buffers what the frame adds to the history. *)
Lemma dispatch_data max f entry h :
  out entry = outs (f_req f) h -> err entry = errs (f_req f) h ->
  out (fst (dispatch f entry)) = outs (f_req f) (h ++ [f])
  /\ err (fst (dispatch f entry)) = errs (f_req f) (h ++ [f])
  /\ (forall c r, snd (dispatch f entry) = Some (c, r) ->
        tx entry = Some c /\ outcome max (f_req f) (h ++ [f]) r).
Proof.
  intros Ho He. unfold dispatch. rewrite outs_app, errs_app, outs_one, errs_one, Ho, He.
  case_bool_decide as H1; [|case_bool_decide as H2; [|case_bool_decide as H3]].
  - rewrite bool_decide_true, bool_decide_false by (rewrite ?H1; intuition (congruence || discriminate)).
    simpl. rewrite app_nil_r. split_and!; done.
  - rewrite bool_decide_false, bool_decide_true by intuition (congruence || discriminate).
    simpl. rewrite app_nil_r. split_and!; done.
  - rewrite !bool_decide_false by (rewrite ?H3; intuition (congruence || discriminate)). simpl. rewrite !app_nil_r.
    split_and!; [done..|]. intros c r. destruct (tx entry); simpl; [|done]. intros [= <- <-].
    split; [done|]. left. exists h, (f_payload f).
    rewrite outs_app, errs_app, outs_one, errs_one, !bool_decide_false, !app_nil_r
      by (rewrite ?H3; intuition (congruence || discriminate)).
    split; [|done]. destruct f; simpl in *. by subst.
  - rewrite !bool_decide_false by intuition (congruence || discriminate). simpl. rewrite !app_nil_r. split_and!; done.
Qed.

Lemma over_limit_gt max t p : over_limit max t p = true -> max < len (out p) + len (err p).
Proof.
  unfold over_limit, saturating_add_usize. rewrite andb_true_iff, Z.ltb_lt. intros [_ H]. lia.
Qed.

(** A frame of another request does not touch an entry. *)
Lemma entry_ok_other s s' f id p :
  entry_ok s id p -> f_req f <> id ->
  calls s' = calls s -> ids s' = ids s -> born s' = born s -> hist s' = hist s ++ [f] ->
  limit_id (reader s) = None -> (forall c, tx p = Some c -> sends_to c (sh s) = [] -> sends_to c (sh s') = []) ->
  entry_ok s' id p.
Proof.
  intros (i & q & b & Hi & Hl & Hid & Hb & Hle & Htx & Hdata) Hne Ec Ei Eb Eh Hr Hsend.
  exists i, q, b. rewrite Ec, Ei, Eb, Eh, length_app. do 4 (split; [done|]). split; [lia|]. split.
  - intros c Hc. destruct (Htx c Hc) as [-> Hs]. split; [done|]. by apply Hsend.
  - intros _. rewrite Hr in Hdata. destruct (Hdata ltac:(done)) as [-> ->].
    rewrite drop_app_le, outs_app, errs_app, outs_one, errs_one by done.
    rewrite !bool_decide_false, !app_nil_r by intuition (congruence || discriminate). done.
Qed.

Lemma grows_frame s s' f : ids s' = ids s -> born s' = born s -> hist s' = hist s ++ [f] -> grows s s'.
Proof. intros E1 E2 E3. split; rewrite ?E1, ?E2, ?E3; [done..|]. by eexists. Qed.

(** The parts of the invariant a frame of any kind preserves. *)
Lemma inv_frame_frame max s s' f :
  inv max s -> next_id s' = next_id s -> issued s' = issued s -> calls s' = calls s ->
  ids s' = ids s -> born s' = born s -> hist s' = hist s ++ [f] ->
  map_Forall (entry_ok s') (pending (sh s')) -> held_ok max s' ->
  (exists so, sends (sh s') = sends (sh s) ++ option_list so
     /\ forall c r, so = Some (c, r) -> justified max c r s' /\ sends_to c (sh s) = []) ->
  inv max s'.
Proof.
  intros [[Hn H0 Hx Hj] Hf Hbo Hc _ _ Hs Ho] En Eis Ec Ei Eb Eh Hp Hh (so & Es & Hso).
  assert (grows s s') as Hg by by eapply grows_frame.
  split; try done.
  - split; rewrite ?En, ?Eis, ?Ei; done.
  - by rewrite Ec, Ei, Eb.
  - rewrite Eb, Eh, length_app. intros i b Hb. apply Hbo in Hb. lia.
  - rewrite Ec. intros i p Hi. apply (call_ok_grows max s); rewrite ?Ei, ?Eb; try done. by apply Hc.
  - intros c r. rewrite Es, elem_of_app. intros [Hcr|Hcr].
    + eapply justified_grows; [done..|]. by apply Hs.
    + destruct so as [[c' r']|]; [|by apply not_elem_of_nil in Hcr].
      simpl in Hcr. apply list_elem_of_singleton in Hcr as [= -> ->]. by apply Hso.
  - rewrite Es, fmap_app. destruct so as [[c' r']|]; simpl; [|by rewrite app_nil_r].
    apply NoDup_app. split; [done|]. split; [|apply NoDup_singleton].
    intros x Hx' ->%list_elem_of_singleton. destruct (Hso c' r' eq_refl) as [_ Hnil].
    by apply sends_to_nil_iff in Hnil.
Qed.

Lemma inv_frame_unknown max s f : inv max s -> reader s = RdLoop ->
  pending (sh s) !! f_req f = None -> inv max (do_frame max f s).
Proof.
  intros Hinv Hr Hnone. unfold do_frame, apply_frame. rewrite Hnone.
  eapply (inv_frame_frame max s _ f); try done.
  - cbn [sh]. intros id p Hl. eapply (entry_ok_other s); try done; [by apply (inv_pending max s Hinv)| |].
    + congruence.
    + by rewrite Hr.
  - exists None. cbn [sh]. by rewrite app_nil_r.
Qed.

(** A channel's sender is in no entry but the one of the call it belongs to. *)
Lemma inv_tx_owner max s id id' p p' c : inv max s ->
  pending (sh s) !! id = Some p -> pending (sh s) !! id' = Some p' ->
  tx p = Some c -> tx p' = Some c -> id = id'.
Proof.
  intros Hinv Hl Hl' Hc Hc'.
  destruct (inv_pending max s Hinv id p Hl) as (i & q & b & Hi & Hlv & Hid & _ & _ & Htx & _).
  destruct (inv_pending max s Hinv id' p' Hl') as (i' & q' & b' & Hi' & Hlv' & Hid' & _ & _ & Htx' & _).
  destruct (Htx c Hc) as [-> _]. destruct (Htx' i Hc') as [<- _]. congruence.
Qed.

Lemma sends_to_snoc_other c h h' so : sends h' = sends h ++ option_list so ->
  (forall c' r, so = Some (c', r) -> c' <> c) -> sends_to c h' = sends_to c h.
Proof.
  intros E Hso. rewrite !sends_to_eq, E, sent_to_app, (sent_to_none c (option_list so)), app_nil_r;
    [done|]. destruct so as [[c' r]|]; simpl; repeat constructor. by apply (Hso c' r).
Qed.

Lemma inv_frame_known max s f entry : inv max s -> reader s = RdLoop ->
  pending (sh s) !! f_req f = Some entry -> inv max (do_frame max f s).
Proof.
  intros Hinv Hr Hl. pose proof (inv_pending max s Hinv _ _ Hl) as He.
  destruct He as (i & q & b & Hi & Hlv & Hid & Hb & Hle & Htx & Hdata).
  rewrite Hr in Hdata. destruct (Hdata ltac:(done)) as [Hout Herr].
  pose proof (dispatch_data max f entry _ Hout Herr) as (Hout1 & Herr1 & Hsend).
  pose proof (dispatch_tx f entry) as Hdx.
  destruct (dispatch f entry) as [e1 so] eqn:Hd. cbn [fst snd] in *.
  assert (forall c, tx e1 = Some c -> tx entry = Some c /\ so = None) as Htx1.
  { intros c Hc. destruct Hdx as [[-> E]|[_ E]]; [|congruence]. by rewrite <-E. }
  unfold do_frame. rewrite (apply_frame_known max f (sh s) entry e1 so Hl Hd). cbn [fst snd].
  eapply (inv_frame_frame max s _ f); cbn [next_id issued calls ids born hist]; try done.
  - cbn [sh pending]. intros id p. rewrite lookup_insert_Some. intros [[<- <-]|[Hne Hp]].
    + exists i, q, b. cbn [calls ids born hist reader sh]. rewrite length_app, drop_app_le by done.
      do 4 (split; [done|]). split; [lia|].
      destruct (over_limit max (f_type f) e1) eqn:Hov; cbn [limit_id tx out err]; split; try done.
      intros c Hc. destruct (Htx1 c Hc) as [Hc' ->]. destruct (Htx c Hc') as [-> Hnil].
      split; [done|]. rewrite sends_to_eq. cbn [sends option_list]. by rewrite app_nil_r.
    + eapply (entry_ok_other s); cbn [calls ids born hist sh]; try done.
      * by apply (inv_pending max s Hinv).
      * by rewrite Hr.
      * intros c Hc Hnil. erewrite sends_to_snoc_other; [done|reflexivity|].
        intros c' r -> ->. destruct (Hsend c r eq_refl) as [Hc' _]. apply Hne.
        by eapply inv_tx_owner.
  - unfold held_ok. cbn [reader sh].
    destruct (over_limit max (f_type f) e1) eqn:Hov; [|done].
    destruct (tx e1) as [c|]; [|done]. destruct (Htx1 c eq_refl) as [Hc' ->].
    destruct (Htx c Hc') as [-> Hnil]. split; [|split].
    + exists (f_req f), b. cbn [ids born hist]. split; [done|]. split; [done|]. right.
      exists (drop b (hist s) ++ [f]). rewrite drop_app_le by done. split; [done|].
      right. rewrite <-Hout1, <-Herr1. split; [by eapply over_limit_gt|done].
    + rewrite sends_to_eq. cbn [sends option_list]. by rewrite app_nil_r.
    + cbn [pending]. intros id p. rewrite lookup_insert_Some. intros [[<- <-]|[Hne Hp]]; [done|].
      intros Hcp. apply Hne. by eapply inv_tx_owner.
  - exists so. split; [done|]. intros c r ->. destruct (Hsend c r eq_refl) as [Hc Ho].
    destruct (Htx c Hc) as [-> Hnil]. split; [|done].
    exists (f_req f), b. cbn [ids born hist]. split; [done|]. split; [done|]. right.
    eexists. split; [|done]. by rewrite drop_app_le.
Qed.

Lemma inv_do_frame max s f : inv max s -> reader s = RdLoop -> inv max (do_frame max f s).
Proof.
  intros Hinv Hr. destruct (pending (sh s) !! f_req f) eqn:Hl;
    [by eapply inv_frame_known|by apply inv_frame_unknown].
Qed.

(** A step of the reader that only moves its program counter. *)
Lemma inv_set_reader max s r : inv max s ->
  (forall id, limit_id (reader s) = Some id -> pending (sh s) !! id = None) ->
  held_ok max (set_reader r s) -> inv max (set_reader r s).
Proof.
  intros [Hids Hf Hb Hc Hp Hh Hs Ho] Hl Hr. split; try done.
  - by destruct Hids.
  - intros id p Hlk. destruct (Hp id p Hlk) as (i & q & b & ? & ? & ? & ? & ? & ? & Hdata).
    exists i, q, b. do 6 (split; [done|]). intros _. apply Hdata. intros E.
    apply Hl in E. cbn [sh set_reader] in Hlk. congruence.
Qed.

(** A send on a channel nobody else can use. *)
Lemma inv_send max s c r : inv max s -> justified max c r s -> sends_to c (sh s) = [] ->
  map_Forall (fun _ p => tx p <> Some c) (pending (sh s)) ->
  (forall id o, reader s <> RdLimit id o (Some c) /\ reader s <> RdSend id o (Some c)) ->
  inv max (set_sh (send_opt (Some c) r (sh s)) s).
Proof.
  intros [Hids Hf Hb Hc Hp Hh Hs Ho] Hj Hnil Hno Hrd.
  assert (forall c', c' <> c -> sends_to c' (send_opt (Some c) r (sh s)) = sends_to c' (sh s)) as Hoth.
  { intros c' Hne. apply (sends_to_snoc_other c' _ _ (Some (c, r))); [done|]. intros ? ? [= <- <-]. done. }
  split; try done; cbn [sh set_sh].
  - by destruct Hids.
  - intros id p Hl. destruct (Hp id p Hl) as (i & q & b & ? & ? & ? & ? & ? & Htx & ?).
    exists i, q, b. do 5 (split; [done|]). split; [|done]. intros c' Hc'.
    destruct (Htx c' Hc') as [-> Hsn]. split; [done|]. cbn [sh set_sh]. rewrite Hoth; [done|].
    intros ->. by apply (Hno id p Hl).
  - unfold held_ok in *. cbn [reader set_sh sh].
    destruct (reader s) as [|id o [c'|]|id o [c'|]| | |] eqn:Er; try done;
      (split; [apply Hh|]); (split; [rewrite Hoth; [apply Hh|]|apply Hh]);
      intros ->; by destruct (Hrd id o).
  - intros c' r'. cbn [sends send_opt]. rewrite elem_of_app. intros [Hx|Hx]; [by apply Hs|].
    apply list_elem_of_singleton in Hx as [= -> ->]. done.
  - cbn [sends send_opt]. rewrite fmap_app. apply NoDup_app. split; [done|].
    split; [|apply NoDup_singleton]. intros x Hx ->%list_elem_of_singleton.
    by apply sends_to_nil_iff in Hnil.
Qed.

(** Taking the sender out of an entry. *)
Lemma inv_take_tx max s k p : inv max s -> pending (sh s) !! k = Some p ->
  inv max (set_sh (set_pending (<[k := mkPending (out p) (err p) None]> (pending (sh s))) (sh s)) s).
Proof.
  intros [Hids Hf Hb Hc Hp Hh Hs Ho] Hk. split; try done; cbn [sh set_sh].
  - by destruct Hids.
  - intros id p'. cbn [pending set_pending]. rewrite lookup_insert_Some. intros [[<- <-]|[Hne Hl]].
    + destruct (Hp k p Hk) as (i & q & b & ? & ? & ? & ? & ? & ? & ?).
      exists i, q, b. do 5 (split; [done|]). by split.
    + by apply Hp.
  - unfold held_ok in *. cbn [reader set_sh sh pending set_pending].
    destruct (reader s) as [|id o [c'|]|id o [c'|]| | |]; try done;
      (split; [apply Hh|]); (split; [apply Hh|]); apply map_Forall_insert_2; [done|apply Hh|done|apply Hh].
Qed.

Lemma inv_limit_remove max s id o t : inv max s -> reader s = RdLimit id o t ->
  inv max (set_reader (RdSend id o t) (set_sh (remove_pending id (sh s)) s)).
Proof.
  intros Hinv Hr. pose proof (inv_remove max s id Hinv) as Hinv'.
  apply inv_set_reader; [done|..].
  - intros id'. cbn [reader set_sh sh]. rewrite Hr. intros [= <-]. apply lookup_delete_eq.
  - pose proof (inv_held _ _ Hinv') as Hh. unfold held_ok in *.
    cbn [reader set_reader set_sh sh] in *. rewrite Hr in Hh. done.
Qed.

Lemma inv_limit_send max s id o t : inv max s -> reader s = RdSend id o t ->
  inv max (set_reader (RdKill id)
    (set_sh (send_opt t (if utf8_valid o then o else from_utf8_lossy o, limit_message max, -1) (sh s)) s)).
Proof.
  intros Hinv Hr. pose proof (inv_held _ _ Hinv) as Hh. unfold held_ok in Hh. rewrite Hr in Hh.
  assert (inv max (set_reader (RdKill id) s)) as Hinv'.
  { apply inv_set_reader; [done| |done]. by rewrite Hr. }
  destruct t as [c|]; [|by destruct s].
  destruct Hh as (Hj & Hnil & Hno). rewrite limit_output_lossy.
  by apply (inv_send max (set_reader (RdKill id) s)).
Qed.

Lemma inv_fail_one max s k todo : inv max s -> reader s = RdFail todo ->
  inv max (set_reader (RdFail (todo ∖ {[k]})) (set_sh (fail_one k (sh s)) s)).
Proof.
  intros Hinv Hr. set (rd' := RdFail (todo ∖ {[k]})).
  assert (inv max (set_reader rd' s)) as Hinv'.
  { apply inv_set_reader; [done| |done]. by rewrite Hr. }
  unfold fail_one. destruct (pending (sh s) !! k) as [p|] eqn:Hk; [|by destruct s].
  pose proof (inv_take_tx max (set_reader rd' s) k p Hinv' Hk) as Hinv2.
  destruct (tx p) as [c|] eqn:Hc; [|done].
  destruct (inv_pending _ _ Hinv k p Hk) as (i & q & b & _ & _ & Hid & Hb & _ & Htx & _).
  destruct (Htx c Hc) as [-> Hnil].
  apply (inv_send max _ i res_lost Hinv2).
  - exists k, b. split; [done|]. split; [done|]. by left.
  - done.
  - cbn [sh set_sh set_reader pending set_pending]. intros id p'. rewrite lookup_insert_Some.
    intros [[<- <-]|[Hne Hl]]; [done|]. intros Hc'. apply Hne. by eapply (inv_tx_owner max s k id p p' i).
  - done.
Qed.

Lemma inv_clear max s todo : inv max s -> reader s = RdFail todo ->
  inv max (set_reader RdDone (set_sh (set_pending ∅ (sh s)) s)).
Proof.
  intros [Hids Hf Hb Hc Hp Hh Hs Ho] Hr. split; try done.
  by destruct Hids.
Qed.

Lemma inv_init max : inv max sys_init.
Proof.
  constructor; cbn; try done; try (by apply map_Forall_empty); try (by intros; set_solver).
  constructor.
Qed.

(** An event of call [i] other than [fetch_add], from the program counter it starts at. *)
Ltac call_pc Hi :=
  first
  [ by intros p' id'; rewrite Hi; intros [= <-]; try done; intros [= <-]; left
  | by eexists ].

Lemma inv_exec payload max e s s' : issued s < 4294967296 -> inv max s ->
  exec payload max e s = Some s' -> inv max s'.
Proof.
  intros Hb Hinv Hx. pose proof (inv_calls _ _ Hinv) as Hok.
  destruct e as [i|i|i|i|i ok|i|i|i|i|f| | | | |k|]; cbn in Hx.
  - destruct (calls s !! i) eqn:Hi; simplify_eq. by apply inv_invoke.
  - destruct (calls s !! i) as [[]|] eqn:Hi; simplify_eq. apply Hok in Hi as Hc. cbn in Hc.
    unfold do_check. destruct (running (sh s)); apply inv_set_call; try done; try call_pc Hi. by left.
  - destruct (calls s !! i) as [[]|] eqn:Hi; simplify_eq. by apply inv_do_fetch.
  - destruct (calls s !! i) as [[]|] eqn:Hi; simplify_eq. by apply inv_do_insert.
  - destruct (calls s !! i) as [[]|] eqn:Hi; simplify_eq. apply Hok in Hi as Hc. cbn in Hc.
    apply inv_set_call; [by apply inv_set_sh|call_pc Hi|by destruct ok|].
    cbn [calls set_sh sh]. destruct ok; call_pc Hi.
  - destruct (calls s !! i) as [[]|] eqn:Hi; simplify_eq. apply Hok in Hi as Hc. cbn in Hc.
    destruct (sends_to i (sh s)) as [|r rs] eqn:Hs; simplify_eq.
    apply inv_set_call; [done|call_pc Hi| |call_pc Hi]. split; [done|].
    apply (inv_sends _ _ Hinv). apply sends_to_elem. rewrite Hs. apply list_elem_of_here.
  - destruct (calls s !! i) as [[]|] eqn:Hi; simplify_eq. apply Hok in Hi as Hc.
    apply inv_set_call; [done|call_pc Hi|done|call_pc Hi].
  - destruct (calls s !! i) as [[]|] eqn:Hi; simplify_eq. apply Hok in Hi as Hc. cbn in Hc.
    apply inv_set_call; [by apply inv_set_sh|call_pc Hi|done|]. cbn [calls set_sh sh]. call_pc Hi.
  - destruct (calls s !! i) as [[]|] eqn:Hi; simplify_eq; apply Hok in Hi as Hc; cbn in Hc;
      (eapply inv_do_remove; [done..|]); cbn; tauto.
  - destruct (reader s) eqn:Hr; simplify_eq. case_bool_decide; simplify_eq. by apply inv_do_frame.
  - destruct (reader s) eqn:Hr; simplify_eq. by apply inv_limit_remove.
  - destruct (reader s) eqn:Hr; simplify_eq. by apply inv_limit_send.
  - destruct (reader s) eqn:Hr; simplify_eq.
    apply inv_set_reader; [by apply inv_set_sh| |done]. cbn [reader set_sh]. by rewrite Hr.
  - destruct (reader s) eqn:Hr; simplify_eq.
    apply inv_set_reader; [by apply inv_set_sh| |done]. cbn [reader set_sh]. by rewrite Hr.
  - destruct (reader s) eqn:Hr; simplify_eq. by apply inv_fail_one.
  - destruct (reader s) eqn:Hr; simplify_eq. case_bool_decide; simplify_eq. by eapply inv_clear.
Qed.

Lemma issued_mono payload max e s s' : exec payload max e s = Some s' -> issued s <= issued s'.
Proof.
  destruct e; cbn; repeat (case_match; simplify_eq; try done); intros [= <-]; cbn; try lia;
    unfold do_check, do_frame; repeat (case_match; cbn; try lia).
Qed.

Lemma execs_issued payload max es s s' : execs payload max es s = Some s' -> issued s <= issued s'.
Proof.
  revert s. induction es as [|e es IH]; intros s; cbn; [intros [= <-]; lia|].
  destruct (exec payload max e s) as [s1|] eqn:E; [|done].
  intros H%IH. apply issued_mono in E. lia.
Qed.

(** The invariant holds in every state reached with fewer than [2^32] requests
    issued before its last step. *)
Lemma inv_reachable payload max s : reachable payload max s -> issued s <= 4294967295 -> inv max s.
Proof.
  intros [es Hes] Hb. revert Hes. generalize (inv_init max). generalize sys_init.
  induction es as [|e es IH]; intros s0 Hinv; cbn; [by intros [= <-]|].
  destruct (exec payload max e s0) as [s1|] eqn:E; [|done]. intros Hes.
  eapply IH; [|done]. apply execs_issued in Hes. pose proof (issued_mono _ _ _ _ _ E).
  eapply inv_exec; [|done..]. lia.
Qed.

(** ** Termination of a call *)

(** Steps call [i] still has to take, at most. *)
Definition call_rank (p : pc) : nat :=
  match p with
  | PcStart => 7 | PcFetch => 6 | PcInsert _ => 5 | PcWriteRun _ => 4 | PcAwait _ => 3
  | PcTimedOut _ => 2 | PcWriteFailed _ | PcGot _ _ | PcKilled _ => 1 | PcReturned _ => 0
  end.

(** The call that performs an event, if it is one of a call already invoked. *)
Definition event_call (e : event) : option nat :=
  match e with
  | EvCheck i | EvFetch i | EvInsert i | EvWrite i _ | EvRecv i | EvTimeout i | EvKill i | EvRemove i =>
    Some i
  | _ => None
  end.

Lemma exec_rank payload max e s s' i p :
  exec payload max e s = Some s' -> calls s !! i = Some p ->
  exists p', calls s' !! i = Some p' /\ (call_rank p' <= call_rank p)%nat
    /\ (event_call e = Some i -> (call_rank p' < call_rank p)%nat)
    /\ (event_call e <> Some i -> p' = p).
Proof.
  intros Hx Hi.
  destruct e as [j|j|j|j|j ok|j|j|j|j|f| | | | |k|]; cbn in Hx;
    try (destruct (decide (i = j)) as [->|Hne]; [rewrite ?Hi in Hx|]);
    repeat (case_match; simplify_eq/=; try done); cbn;
    unfold do_check, do_frame; repeat (case_match; simplify_eq/=; try done); cbn;
    rewrite ?lookup_insert_eq, ?lookup_insert_ne by done;
    eexists; (split; [done|]); cbn; repeat split; intros; try lia; try done; congruence.
Qed.

Lemma call_enabled payload max s i p : calls s !! i = Some p -> ~ is_returned p ->
  exists e s', event_call e = Some i /\ exec payload max e s = Some s'.
Proof.
  intros Hi Hr. destruct p; cbn in Hr; try tauto;
    [exists (EvCheck i)|exists (EvFetch i)|exists (EvInsert i)|exists (EvWrite i true)
    |exists (EvRemove i)|exists (EvTimeout i)|exists (EvRemove i)|exists (EvKill i)|exists (EvRemove i)];
    cbn; rewrite Hi; eauto.
Qed.

(** ** Properties *)

(** C6. Isolation under concurrency.  Whatever calls, reader steps, worker
    frames and failures are interleaved, as long as fewer than [2^32] requests
    were issued: a call of [run] returns one of the manager's own three errors,
    or the loss of the connection, or exactly the output printed under its own
    request id since it registered, with the exit code of its own [MSG_DONE]
    (or the limit error, when that output exceeded the cap).  Bytes of another
    request never reach it. *)
Theorem run_result_isolated payload max s i r :
  reachable payload max s -> issued s <= u32_max ->
  calls s !! i = Some (PcReturned r) ->
  r = res_not_running \/ r = res_write_failed \/ r = res_timeout \/ justified max i r s.
Proof.
  intros Hr Hb Hi. exact (inv_calls _ _ (inv_reachable payload max s Hr Hb) i _ Hi).
Qed.

(** Two concurrent calls whose output interleaves; the second exceeds the cap
    of 8 bytes. *)
Definition demo_events : list event :=
  [EvInvoke 0; EvInvoke 1; EvCheck 0; EvCheck 1; EvFetch 1; EvFetch 0; EvInsert 0; EvInsert 1;
   EvWrite 1 true; EvWrite 0 true;
   EvFrame (mkFrame MSG_STDOUT 2 (str "hi")); EvFrame (mkFrame MSG_STDOUT 1 (str "secret"));
   EvFrame (mkFrame MSG_STDERR 2 (str "!")); EvFrame (mkFrame MSG_STDOUT 1 (str "secret"));
   EvLimitRemove; EvLimitSend; EvLimitKill;
   EvFrame (mkFrame MSG_DONE 2 (i32_to_be_bytes 3)); EvRecv 0; EvRemove 0; EvTimeout 1; EvKill 1; EvRemove 1].
Definition demo_sys : Sys :=
  match execs (fun _ => str "{}") 8 demo_events sys_init with Some s => s | None => sys_init end.

Lemma demo_sys_reachable : reachable (fun _ => str "{}") 8 demo_sys.
Proof. exists demo_events. vm_compute. reflexivity. Qed.

Lemma run_result_isolated_witness :
  let r := (str "hi", str "!", 3) in
  calls demo_sys !! 0%nat = Some (PcReturned r)
  /\ (r = res_not_running \/ r = res_write_failed \/ r = res_timeout \/ justified 8 0 r demo_sys).
Proof.
  split; [vm_compute; reflexivity|].
  apply (run_result_isolated (fun _ => str "{}") 8 demo_sys 0).
  - apply demo_sys_reachable.
  - vm_compute. discriminate.
  - vm_compute. reflexivity.
Defined.

(** No leak: an entry of the table always belongs to a call that is still
    running, so once every call has returned the table is empty — in
    particular after timeouts, failed writes, and registrations that raced
    with the end of the reader. *)
Theorem manager_no_leak payload max s :
  reachable payload max s -> issued s <= u32_max ->
  map_Forall (fun _ p => is_returned p) (calls s) ->
  pending (sh s) = ∅.
Proof.
  intros Hr Hb Hall. apply map_empty. intros id.
  destruct (pending (sh s) !! id) as [p|] eqn:Hl; [|done].
  destruct (inv_pending _ _ (inv_reachable payload max s Hr Hb) id p Hl)
    as (i & q & b & Hi & Hlv & _).
  apply Hall in Hi. by destruct q.
Qed.

Lemma manager_no_leak_witness : pending (sh demo_sys) = ∅.
Proof.
  apply (manager_no_leak (fun _ => str "{}") 8 demo_sys).
  - apply demo_sys_reachable.
  - vm_compute. discriminate.
  - apply map_Forall_to_list. vm_compute. repeat constructor.
Defined.

(** A oneshot channel is used at most once, and never by two parties: no
    channel is sent to twice, and a sender still in the table belongs to the
    call that registered the entry and has not been used. *)
Theorem oneshot_discipline payload max s :
  reachable payload max s -> issued s <= u32_max ->
  NoDup (fst <$> sends (sh s))
  /\ (forall id p c, pending (sh s) !! id = Some p -> tx p = Some c ->
        ids s !! c = Some id /\ sends_to c (sh s) = []).
Proof.
  intros Hr Hb. pose proof (inv_reachable payload max s Hr Hb) as Hinv.
  split; [apply (inv_once _ _ Hinv)|]. intros id p c Hl Hc.
  destruct (inv_pending _ _ Hinv id p Hl) as (i & q & b & _ & _ & Hid & _ & _ & Htx & _).
  by destruct (Htx c Hc) as [-> Hnil].
Qed.

Lemma oneshot_discipline_witness : NoDup (fst <$> sends (sh demo_sys)).
Proof.
  apply (oneshot_discipline (fun _ => str "{}") 8 demo_sys).
  - apply demo_sys_reachable.
  - vm_compute. discriminate.
Defined.

(** A call of [run] terminates when every [write_all] returns: from any state
    it can return within [call_rank] of its own events (at most 7), waiting for
    nobody else (the timeout arm needs neither reader nor worker), and in any
    execution each of its events strictly lowers that bound while other events
    leave it where it is.  A write is one event here; [Blocking] has the lock
    and the socket it waits for. *)
Theorem run_terminates payload max s i p :
  calls s !! i = Some p ->
  (exists es s' r, Forall (fun e => event_call e = Some i) es /\ (length es <= call_rank p)%nat
     /\ execs payload max es s = Some s' /\ calls s' !! i = Some (PcReturned r))
  /\ (forall e s', exec payload max e s = Some s' ->
        exists p', calls s' !! i = Some p'
          /\ (event_call e = Some i -> (call_rank p' < call_rank p)%nat)
          /\ (event_call e <> Some i -> p' = p)).
Proof.
  intros Hi. split.
  - remember (call_rank p) as n eqn:Hn. revert s p Hi Hn.
    induction (lt_wf n) as [n _ IH]. intros s p Hi Hn.
    destruct (match p with PcReturned _ => true | _ => false end) eqn:Hret.
    + destruct p; try done. exists [], s, r. repeat split; [constructor|cbn; lia|done].
    + destruct (call_enabled payload max s i p Hi) as (e & s1 & He & Hx);
        [intros Hp; by destruct p|].
      destruct (exec_rank payload max e s s1 i p Hx Hi) as (p1 & Hi1 & _ & Hlt & _).
      specialize (Hlt He). subst n.
      destruct (IH _ Hlt s1 p1 Hi1 eq_refl) as (es & s2 & r & Hes & Hlen & Hx2 & Hr).
      exists (e :: es), s2, r. split; [by constructor|]. split; [cbn; lia|]. split; [|done].
      cbn. by rewrite Hx.
  - intros e s' Hx. destruct (exec_rank payload max e s s' i p Hx Hi) as (p' & ? & _ & ? & ?). eauto.
Qed.

Lemma run_terminates_witness :
  exists es s' r, Forall (fun e => event_call e = Some 0%nat) es /\ (length es <= 7)%nat
    /\ execs (fun _ => str "{}") 8 es (set_call 0 PcStart sys_init) = Some s'
    /\ calls s' !! 0%nat = Some (PcReturned r).
Proof.
  refine (proj1 (run_terminates (fun _ => str "{}") 8 (set_call 0 PcStart sys_init) 0 PcStart _)).
  vm_compute. reflexivity.
Defined.
