(* ===== verification/Answers.v ===== *)
(** * Answers: no answer of the zygote manager is lost

    The progress half of [Manager]: as long as the reader task is in its loop,
    the oneshot sender of a call that waits is in the table, or in the reader's
    hands on its way to an error, or was used; and what was sent is the outcome
    of the call's own frames.  So a call whose [MSG_DONE] the reader has handled
    can return its result, whatever happened in between.  When the connection is
    lost, the calls registered by then are answered while the others go on. *)

From S2P Require Import Prelude RustStd Wire Reader Manager.

(** ** Vocabulary *)

(** The reader has not left its loop. *)
Definition is_open (m : Sys) : Prop := match reader m with RdFail _ | RdDone => False | _ => True end.

(** The reader holds the sender of [c]. *)
Definition holds (c : chan) (r : rd) : Prop :=
  match r with RdLimit _ _ (Some c') | RdSend _ _ (Some c') => c' = c | _ => False end.

(** The entry of call [i] is in the table with its sender, and no [MSG_DONE]
    of its id was handled. *)
Definition waiting (i : nat) (id : Z) (b : nat) (m : Sys) : Prop :=
  exists p, pending (sh m) !! id = Some p /\ tx p = Some i
    /\ Forall (fun f => f_req f = id -> f_type f <> MSG_DONE) (drop b (hist m)).

(** [r] is the outcome of the frames received for call [c]. *)
Definition answered (max : Z) (c : chan) (r : run_result) (m : Sys) : Prop :=
  exists id b h, ids m !! c = Some id /\ born m !! c = Some b /\ h `prefix_of` drop b (hist m) /\ outcome max id h r.

(** ** Invariant *)

Record heard (max : Z) (m : Sys) : Prop := {
  hd_sender : forall i p id, calls m !! i = Some p -> pc_live p = Some id ->
    exists b, born m !! i = Some b /\ (waiting i id b m \/ sends_to i (sh m) <> [] \/ holds i (reader m));
  hd_sends : forall c r, (c, r) ∈ sends (sh m) -> answered max c r m;
  hd_limit : forall id o t, reader m = RdLimit id o t ->
    (exists i b, ids m !! i = Some id /\ born m !! i = Some b)
    /\ forall p, pending (sh m) !! id = Some p -> tx p = None
}.

Lemma answered_grows max c r m m' : (forall i b, born m !! i = Some b -> (b <= length (hist m))%nat) ->
  grows m m' -> answered max c r m -> answered max c r m'.
Proof.
  intros Hb [Hi Hbo Hh] (id & b & h & ? & ? & Hp & ?). exists id, b, h. split_and!; auto.
  etrans; [done|]. apply drop_prefix; eauto.
Qed.

Section Preservation.
Context (payload : nat -> bytes) (max : Z).

(** A step that leaves the table, the channels and the history alone. *)
Lemma heard_still m m' : inv max m -> heard max m ->
  pending (sh m') = pending (sh m) -> sends (sh m') = sends (sh m) -> hist m' = hist m -> grows m m' ->
  (forall i, holds i (reader m) -> holds i (reader m')) ->
  (forall id o t, reader m' = RdLimit id o t -> reader m = RdLimit id o t) ->
  (forall i p id, calls m' !! i = Some p -> pc_live p = Some id ->
     exists p0, calls m !! i = Some p0 /\ pc_live p0 = Some id) ->
  heard max m'.
Proof.
  intros Hinv [Hs Ha Hl] Ep Es Eh Hg Hh Hr Hc. split.
  - intros i p id H1 H2. destruct (Hc i p id H1 H2) as (p0 & ? & ?).
    unfold waiting. rewrite Ep, Eh. rewrite !sends_to_eq, Es, <-sends_to_eq.
    destruct (Hs i p0 id) as (b & ? & Hw); [done..|]. exists b. split; [by apply Hg|]. destruct Hw as [|[|]]; auto.
  - rewrite Es. intros c r Hin. eapply answered_grows; [apply Hinv|done|by apply Ha].
  - intros id o t E. apply Hr in E. destruct (Hl id o t E) as [(i & b & ? & ?) Hp]. rewrite Ep. split; [|done].
    exists i, b. split; by apply Hg.
Qed.

Lemma heard_insert m i id : inv max m -> heard max m -> calls m !! i = Some (PcInsert id) -> heard max (do_insert i id m).
Proof.
  intros Hinv [Hs Ha Hl] Hi. destruct (inv_calls _ _ Hinv _ _ Hi) as [Hid Hb].
  assert (grows m (do_insert i id m)) as Hg.
  { split; cbn; [done| |done]. intros j b Hj. rewrite lookup_insert_ne; [done|congruence]. }
  split.
  - intros j p id'. cbn [calls do_insert born reader]. rewrite !lookup_insert_Some.
    intros [[<- <-]|[Hne Hj]] Hp; cbn in Hp; simplify_eq.
    + exists (length (hist m)). rewrite lookup_insert_eq. split; [done|]. left. eexists. cbn.
      rewrite lookup_insert_eq, drop_all. by split_and!.
    + destruct (Hs j p id' Hj Hp) as (b & Hb' & Hw). exists b. rewrite lookup_insert_ne by done. split; [done|].
      destruct Hw as [(e & He & Htx & Hf)|[Hsd|Hh]]; [|auto..]. left. exists e. cbn. rewrite lookup_insert_ne; [done|]. intros ->.
      by rewrite (inv_pending_None _ _ _ _ Hinv Hi) in He.
  - intros c r Hin. eapply answered_grows; [apply Hinv|done|by apply Ha].
  - intros id' o t E. cbn in E. destruct (Hl id' o t E) as [(j & b & Hj & Hbj) Hp].
    assert (j <> i) as Hne by congruence. split.
    + exists j, b. cbn. by rewrite lookup_insert_ne.
    + intros p. cbn. rewrite lookup_insert_Some. intros [[-> _]|[_ ?]]; [|auto].
      destruct Hne. by eapply (ids_inj _ (inv_ids _ _ Hinv)).
Qed.

(** The entry of a live call is under its own id. *)
Lemma live_id m i p id : inv max m -> calls m !! i = Some p -> pc_live p = Some id -> ids m !! i = Some id.
Proof. intros Hinv Hi Hp. pose proof (inv_calls _ _ Hinv _ _ Hi) as Hc. destruct p; cbn in *; simplify_eq; tauto. Qed.

Lemma heard_remove m i p id r : inv max m -> heard max m -> calls m !! i = Some p -> pc_live p = Some id ->
  heard max (do_remove i id r m).
Proof.
  intros Hinv [Hs Ha Hl] Hi Hp. pose proof (live_id _ _ _ _ Hinv Hi Hp) as Hid. split.
  - intros j q id'. cbn [calls set_call do_remove born reader set_sh]. rewrite lookup_insert_Some.
    intros [[<- <-]|[Hne Hj]] Hq; [done|].
    destruct (Hs j q id' Hj Hq) as (b & Hb & Hw). exists b. split; [done|]. destruct Hw as [(e & He & Htx & Hf)|[Hsd|Hh]]; [|auto..].
    left. exists e. cbn. rewrite lookup_delete_ne; [done|]. intros <-. apply Hne.
    eapply (ids_inj _ (inv_ids _ _ Hinv)); [done|]. by eapply live_id.
  - done.
  - intros id' o t E. destruct (Hl id' o t E) as [? Hn]. split; [done|]. intros q. cbn. rewrite lookup_delete_Some.
    intros [_ ?]. eauto.
Qed.

Lemma heard_limit_remove m id o t : heard max m -> reader m = RdLimit id o t ->
  heard max (set_reader (RdSend id o t) (set_sh (remove_pending id (sh m)) m)).
Proof.
  intros [Hs Ha Hl] Hr. destruct (Hl id o t Hr) as [_ Hnone]. split; [|done|done].
  intros i p id' Hi Hp. destruct (Hs i p id' Hi Hp) as (b & Hb & Hw). exists b. split; [done|].
  destruct Hw as [(e & He & Htx & Hf)|[Hsd|Hh]]; [|auto|].
  - left. exists e. cbn. rewrite lookup_delete_ne; [done|]. intros <-. by rewrite (Hnone _ He) in Htx.
  - right. right. by rewrite Hr in Hh.
Qed.

Lemma limit_not_lost o : (o, limit_message max, -1) <> res_lost.
Proof. unfold limit_message, res_lost. intros [=]. Qed.

Lemma heard_limit_send m id o t : inv max m -> heard max m -> reader m = RdSend id o t ->
  heard max (set_reader (RdKill id)
    (set_sh (send_opt t (if utf8_valid o then o else from_utf8_lossy o, limit_message max, -1) (sh m)) m)).
Proof.
  intros Hinv [Hs Ha Hl] Hr. pose proof (inv_held _ _ Hinv) as Hh. unfold held_ok in Hh. rewrite Hr in Hh.
  rewrite limit_output_lossy. split; [| |done].
  - intros i p id' Hi Hp. cbn [sh set_reader set_sh]. destruct (Hs i p id' Hi Hp) as (b & Hb & Hw). exists b. split; [done|].
    destruct Hw as [(e & ? & ? & ?)|[Hsd|Hho]].
    + left. exists e. by destruct t.
    + right. left. destruct t as [c|]; [|done]. rewrite sends_to_eq in *. cbn [sends send_opt]. rewrite sent_to_app.
      intros [E _]%app_nil. done.
    + rewrite Hr in Hho. destruct t as [c|]; cbn in Hho; [|done]. subst c. right. left. rewrite sends_to_eq.
      cbn [sends send_opt]. rewrite sent_to_app. intros [_ E]%app_nil. unfold sent_to in E. by rewrite filter_cons_True in E.
  - intros c r. cbn [sh set_reader set_sh]. destruct t as [c'|]; [|apply Ha]. cbn [send_opt sends].
    rewrite elem_of_app, list_elem_of_singleton. intros [?|[= -> ->]]; [by apply Ha|].
    destruct Hh as [(id' & b & Hid & Hb & [E|(h & ? & ?)]) _]; [by apply limit_not_lost in E|].
    exists id', b, h. by split_and!.
Qed.

(** A call that waits after a frame that is not its [MSG_DONE]. *)
Lemma waiting_snoc i id b m m' f : (b <= length (hist m))%nat -> waiting i id b m -> hist m' = hist m ++ [f] ->
  (f_req f = id -> f_type f <> MSG_DONE) ->
  (exists p, pending (sh m') !! id = Some p /\ tx p = Some i) -> waiting i id b m'.
Proof.
  intros Hb (_ & _ & _ & Hf) Eh Hn (p & ? & ?). exists p. split_and!; try done.
  rewrite Eh, drop_app_le by done. apply Forall_app_2; [done|]. by apply Forall_singleton.
Qed.

Lemma heard_frame_unknown m f : inv max m -> heard max m -> reader m = RdLoop -> pending (sh m) !! f_req f = None ->
  heard max (do_frame max f m).
Proof.
  intros Hinv [Hs Ha _] Hr Hnone. unfold do_frame, apply_frame. rewrite Hnone. split; [| |done].
  - intros i p id Hi Hp. destruct (Hs i p id Hi Hp) as (b & Hb & Hc). exists b. split; [done|].
    destruct Hc as [Hw|[Hsd|Hh]]; [|auto|by rewrite Hr in Hh].
    left. pose proof Hw as (e & He & Htx & _). eapply (waiting_snoc _ _ _ m _ f); [by eapply inv_born|done|done| |by exists e].
    intros <-. congruence.
  - intros c r Hin. eapply answered_grows; [apply Hinv| |by apply Ha]. by eapply grows_frame.
Qed.

Lemma dispatch_done f entry c : f_type f = MSG_DONE -> tx entry = Some c -> is_Some (snd (dispatch f entry)).
Proof. intros Hf Hc. unfold dispatch. rewrite Hf, Hc. cbn. eauto. Qed.

Lemma heard_frame_known m f entry : inv max m -> heard max m -> reader m = RdLoop ->
  pending (sh m) !! f_req f = Some entry -> heard max (do_frame max f m).
Proof.
  intros Hinv [Hs Ha _] Hr Hl. pose proof (inv_pending max m Hinv _ _ Hl) as (i0 & q & b0 & _ & _ & Hid & Hb0 & Hle & Htx & Hdata).
  rewrite Hr in Hdata. destruct (Hdata ltac:(done)) as [Hout Herr].
  pose proof (dispatch_data max f entry _ Hout Herr) as (_ & _ & Hsend). pose proof (dispatch_tx f entry) as Hdx.
  pose proof (dispatch_done f entry) as Hdone.
  destruct (dispatch f entry) as [e1 so] eqn:Hd. cbn [fst snd] in *.
  unfold do_frame. rewrite (apply_frame_known max f (sh m) entry e1 so Hl Hd). split.
  - intros i p id Hi Hp. cbn [sh reader]. destruct (Hs i p id Hi Hp) as (b & Hb & Hc). exists b. split; [done|].
    destruct Hc as [Hw|[Hsd|Hh]]; [| |by rewrite Hr in Hh].
    + pose proof Hw as (e & He & Hte & _). pose proof (inv_born _ _ Hinv _ _ Hb) as Hbl. destruct (decide (f_req f = id)) as [E|Hne].
      * assert (entry = e) as <- by congruence. destruct Hdx as [[-> Et]|[[r Eso] _]].
        -- destruct (over_limit max (f_type f) e1) eqn:Hov; [right; right; cbn; by rewrite Et, Hte|].
           left. eapply (waiting_snoc _ _ _ m _ f); [done|done|done| |].
           ++ intros _ Ef. by destruct (Hdone i Ef Hte).
           ++ exists e1. cbn. rewrite E, lookup_insert_eq. split; [done|congruence].
        -- right. left. rewrite Hte in Eso. rewrite sends_to_eq. cbn [sends]. rewrite sent_to_app, Eso. intros [_ En]%app_nil.
           unfold sent_to in En. change (option_list _) with [(i, r)] in En. by rewrite filter_cons_True in En.
      * left. eapply (waiting_snoc _ _ _ m _ f); [done|done|done|done|]. exists e. cbn. by rewrite lookup_insert_ne.
    + right. left. rewrite sends_to_eq in *. cbn [sends]. rewrite sent_to_app. by intros [? _]%app_nil.
  - intros c r. cbn [sh sends]. rewrite elem_of_app. intros [Hin|Hin].
    + eapply answered_grows; [apply Hinv| |by apply Ha]. by eapply grows_frame.
    + destruct so as [[c' r']|]; [|by apply not_elem_of_nil in Hin]. apply list_elem_of_singleton in Hin as [= -> ->].
      destruct (Hsend c' r' eq_refl) as [Hc Ho]. destruct (Htx c' Hc) as [-> _].
      exists (f_req f), b0. eexists. split_and!; [done..| |done]. cbn. by rewrite drop_app_le.
  - intros id o t. cbn [reader sh ids born pending]. destruct (over_limit max (f_type f) e1); [|done]. intros [= <- <- <-].
    split; [eauto|]. intros p. rewrite lookup_insert_eq. by intros [= <-].
Qed.

Lemma heard_frame m f : inv max m -> heard max m -> reader m = RdLoop -> heard max (do_frame max f m).
Proof.
  intros Hinv Hh Hr. destruct (pending (sh m) !! f_req f) eqn:Hl; [by eapply heard_frame_known|by apply heard_frame_unknown].
Qed.

(** A step of call [i] that moves its program counter. *)
Lemma heard_call m m' i q : inv max m -> heard max m ->
  pending (sh m') = pending (sh m) -> sends (sh m') = sends (sh m) -> hist m' = hist m -> grows m m' ->
  reader m' = reader m -> calls m' = <[i := q]> (calls m) ->
  (forall id, pc_live q = Some id -> exists p, calls m !! i = Some p /\ pc_live p = Some id) -> heard max m'.
Proof.
  intros Hinv Hh Ep Es Eh Hg Er Ec Hq. apply (heard_still m); rewrite ?Er; try done.
  intros j p id. rewrite Ec, lookup_insert_Some. intros [[<- <-]|[_ ?]] ?; [|eauto].
  destruct (Hq id) as (p0 & ? & ?); eauto.
Qed.

Lemma heard_exec e m m' : inv max m -> (is_open m -> heard max m) -> exec payload max e m = Some m' -> is_open m' -> heard max m'.
Proof.
  intros Hinv Hh Hx Ho.
  assert (is_open m) as Hom.
  { destruct e; cbn in Hx; repeat (case_match; simplify_eq/=; try done); unfold is_open in *; cbn in *; unfold do_check in *;
      repeat (case_match; simplify_eq/=; try done). }
  specialize (Hh Hom).
  destruct e as [i|i|i|i|i ok|i|i|i|i|f| | | | |k|]; cbn in Hx.
  - destruct (calls m !! i) eqn:Hi; simplify_eq. by eapply (heard_call m _ i).
  - destruct (calls m !! i) as [[]|] eqn:Hi; simplify_eq. unfold do_check.
    destruct (running (sh m)); by eapply (heard_call m _ i).
  - destruct (calls m !! i) as [[]|] eqn:Hi; simplify_eq. destruct (inv_calls _ _ Hinv _ _ Hi) as [Hn _].
    eapply (heard_call m _ i); try done. split; cbn; [|done|done]. intros j id Hj. rewrite lookup_insert_ne; [done|congruence].
  - destruct (calls m !! i) as [[]|] eqn:Hi; simplify_eq. by apply heard_insert.
  - destruct (calls m !! i) as [[]|] eqn:Hi; simplify_eq. eapply (heard_call m _ i); try done.
    intros id' E. rewrite Hi. destruct ok; cbn in E; simplify_eq; eauto.
  - destruct (calls m !! i) as [[]|] eqn:Hi; simplify_eq. destruct (sends_to i (sh m)); simplify_eq.
    eapply (heard_call m _ i); try done. rewrite Hi. eauto.
  - destruct (calls m !! i) as [[]|] eqn:Hi; simplify_eq. eapply (heard_call m _ i); try done.
    rewrite Hi. eauto.
  - destruct (calls m !! i) as [[]|] eqn:Hi; simplify_eq. eapply (heard_call m _ i); try done.
    rewrite Hi. eauto.
  - destruct (calls m !! i) as [[]|] eqn:Hi; simplify_eq; by eapply heard_remove.
  - destruct (reader m) eqn:Hr; simplify_eq. case_bool_decide; simplify_eq. by apply heard_frame.
  - destruct (reader m) eqn:Hr; simplify_eq. by apply heard_limit_remove.
  - destruct (reader m) eqn:Hr; simplify_eq. by apply heard_limit_send.
  - destruct (reader m) eqn:Hr; simplify_eq. apply (heard_still m); try done; cbn; [by rewrite Hr|eauto].
  - by destruct (reader m); simplify_eq.
  - by destruct (reader m); simplify_eq.
  - destruct (reader m); simplify_eq. by case_bool_decide; simplify_eq.
Qed.

Lemma heard_init : heard max sys_init.
Proof. split; cbn; [|set_solver|done]. intros i p id. by rewrite lookup_empty. Qed.

(** A waiting call whose [MSG_DONE] was handled has been answered, with the
    outcome of its frames. *)
Lemma done_answered m i id pl : heard max m -> reader m = RdLoop -> calls m !! i = Some (PcAwait id) ->
  (forall b, born m !! i = Some b -> mkFrame MSG_DONE id pl ∈ drop b (hist m)) ->
  exists r rs, sends_to i (sh m) = r :: rs /\ answered max i r m.
Proof.
  intros Hh Hr Hi Hin. destruct (hd_sender _ _ Hh i _ id Hi eq_refl) as (b & Hb & [(p & _ & _ & Hf)|[Hs|Hho]]); specialize (Hin b Hb).
  - rewrite Forall_forall in Hf. by destruct (Hf _ Hin eq_refl).
  - destruct (sends_to i (sh m)) as [|r rs] eqn:E; [done|]. exists r, rs. split; [done|]. apply (hd_sends _ _ Hh).
    apply sends_to_elem. rewrite E. left.
  - by rewrite Hr in Hho.
Qed.

End Preservation.

(** ** The end of the reader task

    After the loop the reader fails the entries one by one while the calls go
    on: calls that were registered when it left the loop, and calls that
    register during its exit or after it. *)

Section Exit.
Context (payload : nat -> bytes) (max : Z).

(** An event of a call, its invocation included. *)
Definition of_call (e : event) : bool :=
  match e with
  | EvInvoke _ | EvCheck _ | EvFetch _ | EvInsert _ | EvWrite _ _ | EvRecv _ | EvTimeout _ | EvKill _ | EvRemove _ => true
  | _ => false
  end.

(** A step of a call keeps the reader, the channels and the entry of every
    registered call that has not returned. *)
Lemma call_step_keeps e s s' i id : inv max s -> of_call e = true -> exec payload max e s = Some s' ->
  ids s !! i = Some id ->
  reader s' = reader s /\ sends (sh s') = sends (sh s) /\ ids s' !! i = Some id
  /\ ((exists r, calls s' !! i = Some (PcReturned r))
      \/ forall en, pending (sh s) !! id = Some en -> pending (sh s') !! id = Some en).
Proof.
  intros Hinv He Hx Hid. pose proof (inv_calls _ _ Hinv) as Hc.
  assert (forall j p r, calls s !! j = Some p -> pc_live p = Some r ->
    let s' := do_remove j r in forall v,
      (exists r', calls (s' v s) !! i = Some (PcReturned r'))
      \/ forall en, pending (sh s) !! id = Some en -> pending (sh (s' v s)) !! id = Some en) as Hrem.
  { intros j p k Hj Hp s1 v. destruct (decide (i = j)) as [<-|Hne].
    - left. exists v. cbn. by rewrite lookup_insert_eq.
    - right. intros en Hen. cbn. rewrite lookup_delete_ne; [done|]. intros ->.
      apply Hne. eapply (ids_inj _ (inv_ids _ _ Hinv)); [done|]. by eapply live_id. }
  destruct e as [j|j|j|j|j ok|j|j|j|j|f| | | | |k|]; try done; cbn in Hx.
  - destruct (calls s !! j); simplify_eq. cbn. auto.
  - destruct (calls s !! j) as [[]|]; simplify_eq. unfold do_check. destruct (running (sh s)); cbn; auto.
  - destruct (calls s !! j) as [[]|] eqn:Hj; simplify_eq. destruct (Hc _ _ Hj) as [Hn _]. cbn.
    rewrite lookup_insert_ne by congruence. auto.
  - destruct (calls s !! j) as [[| |k| | | | | | |]|] eqn:Hj; simplify_eq. cbn.
    split; [done|]. split; [done|]. split; [done|]. right. intros en Hen. rewrite lookup_insert_ne; [done|]. intros ->.
    by rewrite (inv_pending_None _ _ _ _ Hinv Hj) in Hen.
  - destruct (calls s !! j) as [[]|]; simplify_eq. cbn. auto.
  - destruct (calls s !! j) as [[]|]; simplify_eq. destruct (sends_to j (sh s)); simplify_eq. cbn. auto.
  - destruct (calls s !! j) as [[]|]; simplify_eq. cbn. auto.
  - destruct (calls s !! j) as [[]|]; simplify_eq. cbn. auto.
  - destruct (calls s !! j) as [[]|] eqn:Hj; simplify_eq; (do 3 (split; [done|])); by eapply Hrem.
Qed.

(** Call [i] has an answer: the loss of the connection, or one of [old]. *)
Definition settled (i : nat) (old : list run_result) (s : Sys) : Prop :=
  exists r, r ∈ sends_to i (sh s) /\ (r = res_lost \/ r ∈ old).

(** The call, registered under [id], has returned or is settled or is still on
    the reader's list. *)
Definition closing (i : nat) (id : Z) (old : list run_result) (s : Sys) : Prop :=
  ids s !! i = Some id
  /\ ((exists r, calls s !! i = Some (PcReturned r)) \/ settled i old s
      \/ exists todo en, reader s = RdFail todo /\ id ∈ todo /\ pending (sh s) !! id = Some en /\ tx en = Some i).

Lemma settled_mono i old s s' : sends (sh s) `prefix_of` sends (sh s') -> settled i old s -> settled i old s'.
Proof.
  intros [k Ek] (r & Hr & Ho). exists r. split; [|done]. apply sends_to_elem. rewrite Ek. apply elem_of_app. left.
  by apply sends_to_elem.
Qed.

Lemma returned_stays e s s' i r : exec payload max e s = Some s' -> calls s !! i = Some (PcReturned r) ->
  calls s' !! i = Some (PcReturned r).
Proof.
  intros Hx Hi. destruct (exec_rank payload max e s s' i _ Hx Hi) as (p' & Hp' & _ & Hlt & Hst).
  rewrite Hp'. f_equal. apply Hst. intros He. specialize (Hlt He). cbn in Hlt. lia.
Qed.

Lemma fail_one_other k id h en : k <> id -> pending h !! id = Some en -> pending (fail_one k h) !! id = Some en.
Proof.
  intros Hne Hen. unfold fail_one. destruct (pending h !! k) as [p|]; [|done].
  destruct (tx p); cbn; by rewrite lookup_insert_ne.
Qed.

Lemma fail_one_sends k h : sends h `prefix_of` sends (fail_one k h).
Proof.
  unfold fail_one. destruct (pending h !! k) as [p|]; [|done]. destruct (tx p); cbn; [by eexists|done].
Qed.

Lemma fail_one_own i k h en : pending h !! k = Some en -> tx en = Some i -> res_lost ∈ sends_to i (fail_one k h).
Proof.
  intros Hen Htx. unfold fail_one. rewrite Hen, Htx. apply sends_to_elem. cbn. apply elem_of_app. right. left.
Qed.

Lemma closing_exec e s s' i id old : inv max s -> ~ is_open s -> closing i id old s -> exec payload max e s = Some s' ->
  ~ is_open s' /\ closing i id old s'.
Proof.
  intros Hinv Hcl [Hid Hst] Hx. destruct (of_call e) eqn:He.
  - destruct (call_step_keeps e s s' i id Hinv He Hx Hid) as (Er & Es & Hid' & Hp).
    split; [by unfold is_open; rewrite Er|]. split; [done|]. destruct Hst as [[r Hr]|[Hs|(todo & en & Hr & Hin & Hen & Htx)]].
    + left. exists r. by eapply returned_stays.
    + right. left. eapply settled_mono; [|done]. by rewrite Es.
    + destruct Hp as [Hp|Hp]; [by left|]. right. right. exists todo, en. rewrite Er. auto.
  - unfold is_open in Hcl. destruct e; try done; cbn in Hx; destruct (reader s) as [| | | |todo|] eqn:Hr; try done.
    + injection Hx as <-. split; [by intros ?|]. split; [done|].
      destruct Hst as [[r Hret]|[Hs|(todo' & en & [= <-] & Hin & Hen & Htx)]].
      * left. by exists r.
      * right. left. eapply settled_mono; [|done]. apply fail_one_sends.
      * right. destruct (decide (k = id)) as [->|Hne].
        -- left. exists res_lost. split; [by eapply fail_one_own|by left].
        -- right. exists (todo ∖ {[k]}), en. split; [done|]. split; [set_solver|]. split; [by apply fail_one_other|done].
    + case_bool_decide as Ht; [|done]. injection Hx as <-. split; [by intros ?|]. split; [done|].
      destruct Hst as [?|[?|(todo' & en & [= <-] & Hin & _)]]; [by left|right; by left|]. set_solver.
Qed.

Lemma closing_execs es s s' i id old : inv max s -> ~ is_open s -> closing i id old s ->
  execs payload max es s = Some s' -> issued s' <= u32_max -> closing i id old s'.
Proof.
  revert s. induction es as [|e es IH]; intros s Hinv Hcl Hc Hx Hb; cbn in Hx; [by injection Hx as <-|].
  destruct (exec payload max e s) as [s1|] eqn:E; [|done].
  destruct (closing_exec e s s1 i id old Hinv Hcl Hc E) as [Hcl1 Hc1]. apply (IH s1); try done.
  eapply inv_exec; [|done..]. apply execs_issued in Hx. apply issued_mono in E. unfold u32_max in Hb. lia.
Qed.

Lemma heard_reachable s : reachable payload max s -> issued s <= u32_max -> is_open s -> heard max s.
Proof.
  intros [es Hes] Hb. revert Hes. generalize (inv_init max) (fun _ : is_open sys_init => heard_init max). generalize sys_init.
  induction es as [|e es IH]; intros s0 Hinv Hh; cbn; [intros [= <-]; exact Hh|].
  destruct (exec payload max e s0) as [s1|] eqn:E; [|done]. intros Hes. apply (IH s1); [| |done].
  - eapply inv_exec; [|done..]. apply execs_issued in Hes. apply issued_mono in E. unfold u32_max in Hb. lia.
  - intros Ho. by eapply heard_exec.
Qed.

Lemma manager_execs_app es1 es2 s :
  execs payload max (es1 ++ es2) s = match execs payload max es1 s with Some s1 => execs payload max es2 s1 | None => None end.
Proof. revert s. induction es1 as [|e es1 IH]; intros s; cbn; [done|]. by destruct (exec payload max e s). Qed.

(** A channel is sent to at most once. *)
Lemma sends_to_single s i r : inv max s -> r ∈ sends_to i (sh s) -> sends_to i (sh s) = [r].
Proof.
  intros Hinv Hr. pose proof (inv_once _ _ Hinv) as Hnd. apply sends_to_elem in Hr.
  rewrite sends_to_eq. apply list_elem_of_split in Hr as (l1 & l2 & E). rewrite E in *.
  rewrite fmap_app, fmap_cons in Hnd. apply NoDup_app in Hnd as (_ & Hd1 & [Hd2 _]%NoDup_cons). cbn [fst] in Hd1, Hd2.
  rewrite sent_to_app, (sent_to_none i l1).
  - unfold sent_to. rewrite filter_cons_True by done. cbn. f_equal. apply (sent_to_none i l2).
    apply Forall_forall. intros x Hx <-. apply Hd2. by apply (list_elem_of_fmap_2 fst).
  - apply Forall_forall. intros x Hx <-. apply (Hd1 x.1); [by apply (list_elem_of_fmap_2 fst)|by left].
Qed.

(** The reader, left alone, ends its exit. *)
Lemma exit_ends (todo : gset Z) s : reader s = RdFail todo ->
  exists es s', Forall (fun e => of_call e = false) es /\ length es = S (size todo)
    /\ execs payload max es s = Some s' /\ reader s' = RdDone.
Proof.
  remember (size todo) as n eqn:Hn. revert todo s Hn. induction n as [|n IH]; intros todo s Hn Hr.
  - assert (todo = ∅) as -> by (apply leibniz_equiv, size_empty_iff; done).
    eexists [EvClear], _. split; [by repeat constructor|]. split; [done|]. cbn. rewrite Hr, bool_decide_true by done. done.
  - destruct (size_pos_elem_of todo) as [k Hk]; [lia|].
    destruct (IH (todo ∖ {[k]}) (set_reader (RdFail (todo ∖ {[k]})) (set_sh (fail_one k (sh s)) s))) as (es & s' & He & Hl & Hx & Hd).
    + rewrite size_difference by set_solver. rewrite size_singleton. lia.
    + done.
    + exists (EvFailOne k :: es), s'. split; [by constructor|]. split; [cbn; lia|]. cbn. by rewrite Hr.
Qed.

(** A call that registers once the reader has ended is never answered. *)
Definition unanswered (i : nat) (s : Sys) : Prop :=
  reader s = RdDone /\ sends_to i (sh s) = []
  /\ exists p, calls s !! i = Some p
     /\ match p with
        | PcInsert _ | PcWriteRun _ | PcWriteFailed _ | PcAwait _ | PcTimedOut _ | PcKilled _ => True
        | PcReturned r => r = res_write_failed \/ r = res_timeout
        | _ => False
        end.

Lemma done_quiet e s s' : reader s = RdDone -> exec payload max e s = Some s' ->
  reader s' = RdDone /\ sends (sh s') = sends (sh s).
Proof.
  intros Hr. destruct e; cbn; rewrite ?Hr; try done; unfold do_check; repeat case_match; try done; by intros [= <-].
Qed.

Lemma unanswered_exec e s s' i : unanswered i s -> exec payload max e s = Some s' -> unanswered i s'.
Proof.
  intros (Hr & Hs & p & Hp & Hok) Hx. destruct (done_quiet e s s' Hr Hx) as [Hr' Es].
  split; [done|]. split; [by rewrite sends_to_eq, Es, <-sends_to_eq|].
  destruct (exec_rank payload max e s s' i p Hx Hp) as (p' & Hp' & _ & _ & Hst).
  destruct (decide (event_call e = Some i)) as [He|Hne]; [|exists p'; by rewrite (Hst Hne) in *].
  exists p'. split; [done|]. clear Hst. revert Hp'.
  destruct e as [j|j|j|j|j ok|j|j|j|j|f| | | | |k|]; try done; injection He as ->; cbn in Hx; rewrite Hp, ?Hs in Hx;
    destruct p; try done; injection Hx as <-; cbn; rewrite lookup_insert_eq; intros [= <-]; try destruct ok; auto.
Qed.

Lemma unanswered_execs es s s' i : unanswered i s -> execs payload max es s = Some s' -> unanswered i s'.
Proof.
  revert s. induction es as [|e es IH]; intros s Hu Hx; cbn in Hx; [by injection Hx as <-|].
  destruct (exec payload max e s) as [s1|] eqn:E; [|done]. apply (IH s1); [by eapply unanswered_exec|done].
Qed.

(** The flag the reader cleared stays cleared. *)
Lemma running_stays e s s' : running (sh s) = false -> exec payload max e s = Some s' -> running (sh s') = false.
Proof.
  intros Hrun. destruct e; cbn; repeat (case_match; simplify_eq/=; try done); intros [= <-]; try done;
    unfold do_check, do_frame, apply_frame, fail_one, send_opt; repeat (case_match; simplify_eq/=; try done).
Qed.

Lemma running_execs es s s' : running (sh s) = false -> execs payload max es s = Some s' -> running (sh s') = false.
Proof.
  revert s. induction es as [|e es IH]; intros s Hr Hx; cbn in Hx; [by injection Hx as <-|].
  destruct (exec payload max e s) as [s1|] eqn:E; [|done]. apply (IH s1); [by eapply running_stays|done].
Qed.

End Exit.

(** ** Theorem *)

(** C30. The loss of the connection. When the reader leaves its loop, with any
    number of calls at any point of [run], it can finish its exit in one step
    per entry of the table and one more, whatever the calls do in between.
    When it has finished, the manager is marked as not running, and every call
    that was registered when it left the loop has returned or has exactly one
    answer in its channel: the one it had been sent before, or the loss of the
    connection. A call that passed the check of [running] but had not yet
    registered is not promised this: one that registers after the end is never
    answered, and returns only when its write fails or its timeout expires. *)
Theorem connection_loss_answers payload max s0 s1 es s :
  reachable payload max s0 -> exec payload max EvClose s0 = Some s1 -> execs payload max es s1 = Some s ->
  issued s <= u32_max ->
  (exists es' s', Forall (fun e => of_call e = false) es' /\ length es' = S (size (pending (sh s0)))
     /\ execs payload max es' s1 = Some s' /\ reader s' = RdDone)
  /\ (reader s = RdDone -> running (sh s) = false
      /\ (forall i p id, calls s0 !! i = Some p -> pc_live p = Some id ->
            (exists r, calls s !! i = Some (PcReturned r))
            \/ exists r, sends_to i (sh s) = [r] /\ (r = res_lost \/ sends_to i (sh s0) = [r]))
      /\ (forall i id es' s' r, calls s !! i = Some (PcInsert id) -> execs payload max es' s = Some s' ->
            calls s' !! i = Some (PcReturned r) -> r = res_write_failed \/ r = res_timeout)).
Proof.
  intros Hreach Hclose Hx Hb. pose proof Hclose as Hc. cbn in Hc. destruct (reader s0) eqn:Hr0; try done. injection Hc as <-.
  set (s1 := set_reader _ _) in *.
  pose proof (execs_issued _ _ _ _ _ Hx) as Hm. change (issued s1) with (issued s0) in Hm.
  assert (inv max s0) as Hinv0 by (apply (inv_reachable payload); [done|unfold u32_max in Hb; lia]).
  assert (inv max s1) as Hinv1 by (eapply inv_exec; [|done|done]; unfold u32_max in Hb; lia).
  assert (inv max s) as Hinv.
  { destruct Hreach as [es0 Hes0]. apply (inv_reachable payload); [|done]. exists (es0 ++ EvClose :: es).
    rewrite manager_execs_app, Hes0. cbn [execs]. by rewrite Hclose. }
  split; [rewrite <-(size_dom (D := gset Z)); by apply exit_ends|]. intros Hd. split; [by apply (running_execs payload max es s1)|]. split.
  - intros i p id Hi Hp. pose proof (live_id payload max _ _ _ _ Hinv0 Hi Hp) as Hid.
    destruct (heard_reachable payload max s0 Hreach ltac:(lia) ltac:(by unfold is_open; rewrite Hr0)) as [Hs _ _].
    assert (closing i id (sends_to i (sh s0)) s1) as Hcl.
    { split; [done|]. right. destruct (Hs i p id Hi Hp) as (b & _ & [(en & Hen & Htx & _)|[Hsd|Hh]]).
      - right. exists (dom (pending (sh s0))), en. split; [done|]. split; [by apply elem_of_dom|done].
      - left. destruct (sends_to i (sh s0)) as [|r rs] eqn:E; [done|]. exists r. split; [|right; left].
        change (sh s1) with (set_running false (sh s0)). rewrite sends_to_eq. cbn [set_running sends].
        rewrite <-sends_to_eq, E. left.
      - by rewrite Hr0 in Hh. }
    destruct (closing_execs payload max es s1 s i id _ Hinv1 ltac:(by intros ?) Hcl Hx Hb) as [_ [Hret|[(r & Hr & Ho)|(? & ? & Hf & _)]]];
      [by left| |congruence].
    right. exists r. split; [by apply (sends_to_single max)|]. destruct Ho as [->|Ho]; [by left|right].
    by apply (sends_to_single max).
  - intros i id es' s' r Hi Hx' Hret.
    destruct (unanswered_execs payload max es' s s' i) as (_ & _ & p & Hp & Hok); [|done|].
    + split; [done|]. split; [|by exists (PcInsert id)]. apply (inv_unborn_sends max); [done|]. apply (inv_calls _ _ Hinv _ _ Hi).
    + rewrite Hret in Hp. by injection Hp as <-.
Qed.

(** Call 0 waits; call 1 has passed the check and registers after the end. *)
Definition loss_before : list event :=
  [EvInvoke 0; EvCheck 0; EvFetch 0; EvInsert 0; EvWrite 0 true; EvInvoke 1; EvCheck 1; EvFetch 1].
Definition loss_state (es : list event) : Sys :=
  match execs (fun _ => str "{}") 8 es sys_init with Some s => s | None => sys_init end.
Definition loss_late : list event := [EvInsert 1; EvWrite 1 true; EvTimeout 1; EvKill 1; EvRemove 1].

Lemma connection_loss_answers_witness :
  (exists r, sends_to 0 (sh (loss_state (loss_before ++ [EvClose; EvFailOne 1; EvClear]))) = [r])
  /\ exists s' r, execs (fun _ => str "{}") 8 loss_late (loss_state (loss_before ++ [EvClose; EvFailOne 1; EvClear])) = Some s'
     /\ calls s' !! 1%nat = Some (PcReturned r) /\ (r = res_write_failed \/ r = res_timeout).
Proof.
  destruct (connection_loss_answers (fun _ => str "{}") 8 (loss_state loss_before)
    (loss_state (loss_before ++ [EvClose])) [EvFailOne 1; EvClear] (loss_state (loss_before ++ [EvClose; EvFailOne 1; EvClear])))
    as [_ W].
  - exists loss_before. vm_compute. reflexivity.
  - vm_compute. reflexivity.
  - vm_compute. reflexivity.
  - vm_compute. discriminate.
  - destruct W as (_ & Wreg & Wlate); [vm_compute; reflexivity|]. split.
    + destruct (Wreg 0%nat (PcAwait 1) 1) as [[r Hr]|(r & Hr & _)].
      * vm_compute. reflexivity.
      * reflexivity.
      * vm_compute in Hr. discriminate Hr.
      * exists r. exact Hr.
    + eexists _, res_timeout. split; [vm_compute; reflexivity|]. split; [vm_compute; reflexivity|].
      apply (Wlate 1%nat 2 loss_late (loss_state (loss_before ++ [EvClose; EvFailOne 1; EvClear] ++ loss_late)));
        vm_compute; reflexivity.
Defined.
