(* ===== verification/Blocking.v ===== *)
(** * Blocking: the lock on the write half and the socket behind it

    [Manager] takes [write_half.lock().await] and [write_all(..).await] of
    [server/src/services/zygote.rs] for one step.  Here they are what they are
    in the code: a fair lock ([tokio::sync::Mutex] queues its waiters first in,
    first out), held while the socket takes the frame some bytes at a time,
    whenever it has room.  A call waits in the line at its [MSG_RUN] and at its
    [MSG_KILL], the reader at its [MSG_KILL]; no timeout runs in these places.

    Every execution of this system is one of [Manager], with the write where
    the lock is released; the frames reach the socket whole and in the order of
    the lock; and a call of [run] returns when the socket takes what is in line
    before it, but not otherwise. *)

From S2P Require Import Prelude RustStd Wire Reader Manager.

(** ** Data *)

Inductive writer := WCall (i : nat) | WReader.

#[global] Instance writer_eq_dec : EqDecision writer.
Proof. solve_decision. Defined.

(** [line] is the queue of the lock: its head holds the lock, with what is left
    of its frame; the others hold their frames.  [wire] is all the socket took. *)
Record Half := mkHalf {
  man : Sys;
  line : list (writer * bytes);
  wire : bytes
}.

Inductive hevent :=
| HStep (e : event)   (* a step of the manager that is not a write *)
| HLock (w : writer)  (* [write_half.lock().await] is called *)
| HTake (n : nat)     (* the socket takes [n] bytes of the holder's frame *)
| HDone               (* [write_all] returns and the guard is dropped *)
| HFail.              (* [write_all] fails and the guard is dropped *)

Definition is_write (e : event) : bool :=
  match e with EvWrite _ _ | EvKill _ | EvLimitKill => true | _ => false end.

Section Half.
Context (payload : nat -> bytes) (max : Z).

(** The frame a writer is about to write. *)
Definition wants (m : Sys) (w : writer) : option bytes :=
  match w with
  | WCall i =>
    match calls m !! i with
    | Some (PcWriteRun id) => Some (encode_frame MSG_RUN id (payload i))
    | Some (PcTimedOut id) => Some (encode_frame MSG_KILL id [])
    | _ => None
    end
  | WReader => match reader m with RdKill id => Some (encode_frame MSG_KILL id []) | _ => None end
  end.

(** What the writer does when [write_all] returns: only [MSG_RUN] looks at the
    result. *)
Definition written (m : Sys) (w : writer) (ok : bool) : option event :=
  match w with
  | WCall i =>
    match calls m !! i with
    | Some (PcWriteRun _) => Some (EvWrite i ok)
    | Some (PcTimedOut _) => Some (EvKill i)
    | _ => None
    end
  | WReader => match reader m with RdKill _ => Some EvLimitKill | _ => None end
  end.

Definition release_lock (ok : bool) (w : writer) (l : list (writer * bytes)) (h : Half) : option Half :=
  e ← written (man h) w ok; m ← exec payload max e (man h); Some (mkHalf m l (wire h)).

Definition hexec (e : hevent) (h : Half) : option Half :=
  match e with
  | HStep e => if is_write e then None else m ← exec payload max e (man h); Some (mkHalf m (line h) (wire h))
  | HLock w =>
    if bool_decide (w ∈ (line h).*1) then None
    else f ← wants (man h) w; Some (mkHalf (man h) (line h ++ [(w, f)]) (wire h))
  | HTake n =>
    match line h with
    | (w, bs) :: l =>
      if bool_decide (1 <= n <= length bs)%nat
      then Some (mkHalf (man h) ((w, drop n bs) :: l) (wire h ++ take n bs)) else None
    | [] => None
    end
  | HDone => match line h with (w, []) :: l => release_lock true w l h | _ => None end
  | HFail => match line h with (w, _) :: l => release_lock false w l h | [] => None end
  end.

Fixpoint hexecs (es : list hevent) (h : Half) : option Half :=
  match es with
  | [] => Some h
  | e :: es => match hexec e h with Some h' => hexecs es h' | None => None end
  end.

Definition half_init : Half := mkHalf sys_init [] [].

Definition hreachable (h : Half) : Prop := exists es, hexecs es half_init = Some h.

(** ** Vocabulary *)

(** The steps the socket makes possible. *)
Definition socket (e : hevent) : bool := match e with HTake _ | HDone | HFail => true | _ => false end.
Definition sockets (es : list hevent) : nat := length (filter (fun e => socket e = true) es).

(** What has to happen before [w] is past its write: the bytes left in front of
    it and its own, and one release each. *)
Fixpoint ahead (w : writer) (l : list (writer * bytes)) : nat :=
  match l with
  | [] => 0
  | (w', bs) :: l => S (length bs) + if bool_decide (w' = w) then 0 else ahead w l
  end.

(** The writer that performs a write event. *)
Definition writer_of (e : event) : option writer :=
  match e with EvWrite i _ | EvKill i => Some (WCall i) | EvLimitKill => Some WReader | _ => None end.

(** ** Lemmas *)

Lemma written_wants m w ok : is_Some (wants m w) ->
  exists e m', written m w ok = Some e /\ writer_of e = Some w /\ exec payload max e m = Some m'
    /\ exists f, wants m w = Some f /\ writes (sh m') = writes (sh m) ++ [f].
Proof.
  intros [f Hf]. destruct w as [i|]; cbn in *.
  - destruct (calls m !! i) as [[]|] eqn:Hi; try done; eexists _, _; (split; [done|]); (split; [done|]);
      cbn; rewrite Hi; (split; [done|]); eexists; split; reflexivity.
  - destruct (reader m) eqn:Hr; try done. eexists _, _. split; [done|]. split; [done|]. cbn. rewrite Hr.
    split; [done|]. eexists. split; reflexivity.
Qed.

Lemma written_inv m w ok e : written m w ok = Some e -> writer_of e = Some w /\ is_Some (wants m w).
Proof. destruct w as [i|]; cbn; repeat case_match; try done; intros [= <-]; eauto. Qed.

(** A call at a write stays there until that write. *)
Lemma call_stable e m m' i : exec payload max e m = Some m' -> is_Some (wants m (WCall i)) ->
  writer_of e <> Some (WCall i) -> calls m' !! i = calls m !! i.
Proof.
  intros Hx [f Hw] Hne. cbn in Hw. destruct (calls m !! i) as [p|] eqn:Hi; [|done].
  destruct (exec_rank payload max e m m' i p Hx Hi) as (p' & Hp' & _ & _ & Hst). rewrite Hp'.
  destruct (decide (event_call e = Some i)) as [He|He]; [|by rewrite Hst].
  destruct e; try done; injection He as ->; cbn in Hx; rewrite Hi in Hx; destruct p; try done; by destruct Hne.
Qed.

(** A writer wants the same frame until its own write. *)
Lemma wants_stable e m m' w f : exec payload max e m = Some m' -> wants m w = Some f -> writer_of e <> Some w ->
  wants m' w = Some f.
Proof.
  intros Hx Hw Hne. destruct w as [i|].
  - unfold wants in *. rewrite (call_stable e m m' i Hx); [done|by exists f|done].
  - cbn in *. destruct (reader m) eqn:Hr; try done.
    assert (reader m' = RdKill id) as ->; [|done].
    destruct e; cbn in Hx; rewrite ?Hr in Hx; try done; unfold do_check in Hx; repeat case_match; simplify_eq/=; try done;
      by destruct Hne.
Qed.

(** No other step writes. *)
Lemma writes_stable e m m' : is_write e = false -> exec payload max e m = Some m' -> writes (sh m') = writes (sh m).
Proof.
  intros He. destruct e; try done; cbn; repeat (case_match; simplify_eq/=; try done); intros [= <-]; try done;
    unfold do_check, do_frame, apply_frame, fail_one, send_opt; repeat (case_match; simplify_eq/=; try done).
Qed.

(** Everybody in line is at a write, once. *)
Record line_ok (h : Half) : Prop := {
  lo_nodup : NoDup (line h).*1;
  lo_wants : Forall (fun '(w, _) => is_Some (wants (man h) w)) (line h)
}.

Lemma wants_all e m m' (l : list (writer * bytes)) : Forall (fun '(w, _) => is_Some (wants m w)) l -> exec payload max e m = Some m' ->
  Forall (fun '(w, _) => writer_of e <> Some w) l -> Forall (fun '(w, _) => is_Some (wants m' w)) l.
Proof.
  intros Hl Hx Hn. induction Hl as [|[w bs] l [f Hf] _ IH]; [done|]. apply Forall_cons in Hn as [Hw Hn].
  constructor; [|by apply IH]. exists f. by eapply wants_stable.
Qed.

Lemma others_in_line w bs (l : list (writer * bytes)) e : NoDup ((w, bs) :: l).*1 -> writer_of e = Some w ->
  Forall (fun '(w', _) => writer_of e <> Some w') l.
Proof.
  intros [Hn _]%NoDup_cons He. apply Forall_forall. intros [w' bs'] Hin E. apply Hn.
  assert (w = w') as -> by congruence. by apply (list_elem_of_fmap_2 fst _ (w', bs')).
Qed.

(** Releasing the lock performs the write of its holder. *)
Lemma release_lock_inv ok w l h h' : release_lock ok w l h = Some h' ->
  exists e, written (man h) w ok = Some e /\ exec payload max e (man h) = Some (man h')
    /\ line h' = l /\ wire h' = wire h.
Proof.
  unfold release_lock. destruct (written (man h) w ok) as [e|]; [|done]. cbn [mbind option_bind].
  destruct (exec payload max e (man h)) as [m|] eqn:E; [|done]. intros [= <-]. by exists e.
Qed.

Lemma line_ok_unlock ok w bs l h h' : line_ok h -> line h = (w, bs) :: l -> release_lock ok w l h = Some h' -> line_ok h'.
Proof.
  intros [Hn Hw] El (e & He & Hx & El' & _)%release_lock_inv. rewrite El in Hn, Hw. apply Forall_cons in Hw as [_ Hw].
  apply written_inv in He as [He _]. split; rewrite El'; [by apply NoDup_cons in Hn as [_ ?]|].
  eapply wants_all; [done|done|]. by eapply others_in_line.
Qed.

Lemma line_ok_exec e h h' : line_ok h -> hexec e h = Some h' -> line_ok h'.
Proof.
  intros Hok Hx. pose proof Hok as [Hn Hw]. destruct e as [e|w|n| |]; cbn in Hx.
  - destruct (is_write e) eqn:He; [done|]. destruct (exec payload max e (man h)) as [m|] eqn:E; [|done].
    injection Hx as <-. split; [done|]. eapply wants_all; [done|done|]. apply Forall_forall. intros [w bs] _. by destruct e.
  - case_bool_decide as Hin; [done|]. destruct (wants (man h) w) as [f|] eqn:E; [|done]. injection Hx as <-.
    split; cbn.
    + rewrite fmap_app. apply NoDup_app. split; [done|]. split; [|apply NoDup_singleton].
      by intros x Hx ->%list_elem_of_singleton.
    + apply Forall_app_2; [done|]. constructor; [by exists f|constructor].
  - destruct (line h) as [|[w bs] l] eqn:El; [done|]. case_bool_decide; [|done]. injection Hx as <-.
    split; cbn; [done|]. apply Forall_cons in Hw as [? ?]. by constructor.
  - destruct (line h) as [|[w [|b bs]] l] eqn:El; try done. by eapply line_ok_unlock.
  - destruct (line h) as [|[w bs] l] eqn:El; [done|]. by eapply line_ok_unlock.
Qed.

Lemma line_ok_execs es h h' : line_ok h -> hexecs es h = Some h' -> line_ok h'.
Proof.
  revert h. induction es as [|e es IH]; intros h Hok Hx; cbn in Hx; [by injection Hx as <-|].
  destruct (hexec e h) as [h1|] eqn:E; [|done]. apply (IH h1); [by eapply line_ok_exec|done].
Qed.

Lemma line_ok_reachable h : hreachable h -> line_ok h.
Proof. intros [es Hx]. eapply line_ok_execs; [|done]. split; cbn; constructor. Qed.

(** A step of this system is a step of the manager, or none. *)
Lemma hexec_man e h h' : hexec e h = Some h' ->
  man h' = man h \/ exists e', exec payload max e' (man h) = Some (man h').
Proof.
  destruct e as [e|w|n| |]; cbn; intros Hx.
  - destruct (is_write e); [done|]. destruct (exec payload max e (man h)) as [m|] eqn:E; [|done]. injection Hx as <-. eauto.
  - case_bool_decide; [done|]. destruct (wants (man h) w); [|done]. injection Hx as <-. by left.
  - destruct (line h) as [|[w bs] l]; [done|]. case_bool_decide; [|done]. injection Hx as <-. by left.
  - destruct (line h) as [|[w [|b bs]] l]; try done. apply release_lock_inv in Hx as (e & _ & ? & _). eauto.
  - destruct (line h) as [|[w bs] l]; [done|]. apply release_lock_inv in Hx as (e & _ & ? & _). eauto.
Qed.

(** ** Lemmas: whole frames *)

(** The socket holds the frames written, and what was taken of the holder's. *)
Definition frames_ok (h : Half) : Prop :=
  exists part, wire h = concat (writes (sh (man h))) ++ part
  /\ match line h with
     | [] => part = []
     | (w, rest) :: l => wants (man h) w = Some (part ++ rest) /\ Forall (fun '(w', f) => wants (man h) w' = Some f) l
     end.

Lemma wants_exact e m m' (l : list (writer * bytes)) : Forall (fun '(w, f) => wants m w = Some f) l ->
  exec payload max e m = Some m' -> Forall (fun '(w, _) => writer_of e <> Some w) l ->
  Forall (fun '(w, f) => wants m' w = Some f) l.
Proof.
  intros Hl Hx Hn. induction Hl as [|[w f] l Hf _ IH]; [done|]. apply Forall_cons in Hn as [Hw Hn].
  constructor; [|by apply IH]. by eapply wants_stable.
Qed.

Lemma frames_ok_done w l h h' : line_ok h -> frames_ok h -> line h = (w, []) :: l -> release_lock true w l h = Some h' ->
  frames_ok h'.
Proof.
  intros [Hn _] (part & Ew & Hl) El (e & He & Hx & El' & Ewire)%release_lock_inv. rewrite El in Hn, Hl.
  destruct Hl as [Hw Hl]. rewrite app_nil_r in Hw.
  destruct (written_wants (man h) w true ltac:(eauto)) as (e' & m' & He' & Hwr & Hx' & f & Hf & Hws).
  assert (e' = e) as -> by congruence. assert (m' = man h') as -> by congruence. assert (f = part) as -> by congruence.
  assert (Forall (fun '(w', f) => wants (man h') w' = Some f) l) as Hl'.
  { eapply wants_exact; [done|done|]. by eapply others_in_line. }
  exists []. rewrite Ewire, El', Ew, Hws, concat_app. cbn [concat]. rewrite !app_nil_r. split; [done|].
  destruct l as [|[w2 f2] l]; [done|]. by apply Forall_cons in Hl' as [? ?].
Qed.

Lemma frames_ok_exec e h h' : e <> HFail -> line_ok h -> frames_ok h -> hexec e h = Some h' -> frames_ok h'.
Proof.
  intros Hf Hok Hfr Hx. pose proof Hfr as (part & Ew & Hl). destruct e as [e|w|n| |]; cbn in Hx; [| | | |done].
  - destruct (is_write e) eqn:He; [done|]. destruct (exec payload max e (man h)) as [m|] eqn:E; [|done].
    injection Hx as <-. exists part. cbn. rewrite (writes_stable e _ _ He E). split; [done|].
    assert (forall w, writer_of e <> Some w) as Hne by (by destruct e).
    destruct (line h) as [|[w rest] l]; [done|]. destruct Hl as [Hw Hl]. split; [by eapply wants_stable|].
    eapply wants_exact; [done|done|]. apply Forall_forall. by intros [].
  - case_bool_decide; [done|]. destruct (wants (man h) w) as [f|] eqn:E; [|done]. injection Hx as <-. exists part. split; [done|].
    cbn. destruct (line h) as [|[w' rest] l]; [by subst part|]. destruct Hl as [Hw Hl]. split; [done|].
    apply Forall_app_2; [done|]. by repeat constructor.
  - destruct (line h) as [|[w bs] l]; [done|]. case_bool_decide; [|done]. injection Hx as <-. destruct Hl as [Hw Hl].
    exists (part ++ take n bs). cbn. rewrite Ew, <-!app_assoc, take_drop. done.
  - destruct (line h) as [|[w [|b bs]] l] eqn:El; try done. by eapply frames_ok_done.
Qed.

Lemma man_execs es h h' : hexecs es h = Some h' -> exists es', execs payload max es' (man h) = Some (man h').
Proof.
  revert h. induction es as [|e es IH]; intros h Hx; cbn in Hx; [injection Hx as <-; by exists []|].
  destruct (hexec e h) as [h1|] eqn:E; [|done]. destruct (IH h1 Hx) as [es' Hes'].
  apply hexec_man in E as [E|[e' E]]; [exists es'; by rewrite <-E|]. exists (e' :: es'). cbn. by rewrite E.
Qed.

(** Writing is as good as one step.  Every execution with the lock and partial
    writes is one of [Manager]; and as long as no write failed, what the socket
    took is the whole frames of the writes that have returned, in the order
    they returned, and then a prefix of the frame of the lock's holder. *)
Theorem writes_atomic es h : hexecs es half_init = Some h ->
  reachable payload max (man h)
  /\ (HFail ∉ es -> exists part, wire h = concat (writes (sh (man h))) ++ part
       /\ match line h with [] => part = [] | (w, rest) :: _ => wants (man h) w = Some (part ++ rest) end).
Proof.
  intros Hx. split; [exact (man_execs es half_init h Hx)|]. intros Hf.
  assert (forall h0, line_ok h0 -> frames_ok h0 -> hexecs es h0 = Some h -> frames_ok h) as Hgen.
  { clear Hx. induction es as [|e es IH]; intros h0 Hok Hfr Hx; cbn in Hx; [by injection Hx as <-|].
    apply not_elem_of_cons in Hf as [He Hf]. destruct (hexec e h0) as [h1|] eqn:E; [|done].
    apply (IH Hf h1); [by eapply line_ok_exec|by eapply frames_ok_exec|done]. }
  destruct (Hgen half_init) as (part & Ew & Hl); [split; constructor|by exists []|done|].
  exists part. split; [done|]. destruct (line h) as [|[w rest] l]; [done|apply Hl].
Qed.

(** ** Lemmas: getting past a write *)

Lemma hexecs_app es1 es2 h :
  hexecs (es1 ++ es2) h = match hexecs es1 h with Some h1 => hexecs es2 h1 | None => None end.
Proof. revert h. induction es1 as [|e es1 IH]; intros h; cbn; [done|]. by destruct (hexec e h). Qed.

Lemma ahead_app w l l' : w ∈ l.*1 -> ahead w (l ++ l') = ahead w l.
Proof.
  induction l as [|[w' bs] l IH]; [by intros ?%elem_of_nil|]. rewrite fmap_cons, elem_of_cons. intros Hw.
  rewrite <-app_comm_cons. cbn [ahead]. case_bool_decide as E; [done|]. rewrite IH; [done|]. naive_solver.
Qed.

Lemma ahead_tail w w' bs l : w <> w' -> (ahead w l < ahead w ((w', bs) :: l))%nat.
Proof. intros Hne. cbn [ahead]. rewrite bool_decide_false by done. lia. Qed.

(** A step in the line: either [w] is still in it, closer to its turn if the
    socket moved, or its write has returned. *)
Lemma ahead_step e h h' w : w ∈ (line h).*1 -> hexec e h = Some h' ->
  (w ∈ (line h').*1 /\ (ahead w (line h') + (if socket e then 1 else 0) <= ahead w (line h))%nat)
  \/ (socket e = true /\ exists ok e', written (man h) w ok = Some e' /\ exec payload max e' (man h) = Some (man h')).
Proof.
  assert (forall ok w' bs l, line h = (w', bs) :: l -> release_lock ok w' l h = Some h' -> w ∈ (line h).*1 ->
    (w ∈ (line h').*1 /\ (ahead w (line h') + 1 <= ahead w (line h))%nat)
    \/ (true = true /\ exists ok e', written (man h) w ok = Some e' /\ exec payload max e' (man h) = Some (man h'))) as Hrel.
  { intros ok w' bs l El (e' & He & Hx & El' & _)%release_lock_inv Hw. rewrite El' in *. rewrite El in *.
    destruct (decide (w = w')) as [->|Hne]; [right; eauto|]. left. rewrite fmap_cons, elem_of_cons in Hw.
    pose proof (ahead_tail w w' bs l Hne). split; [naive_solver|lia]. }
  intros Hw Hx. destruct e as [e|w'|n| |]; cbn [hexec socket] in Hx |- *.
  - destruct (is_write e); [done|]. destruct (exec payload max e (man h)) as [m|]; [|done].
    injection Hx as <-. left. cbn. split; [done|lia].
  - case_bool_decide; [done|]. destruct (wants (man h) w') as [f|]; [|done]. injection Hx as <-. left. cbn [line].
    rewrite ahead_app, fmap_app, elem_of_app by done. split; [by left|lia].
  - destruct (line h) as [|[w' bs] l]; [done|]. case_bool_decide as Hn; [|done]. injection Hx as <-. left. cbn [line].
    split; [done|]. cbn [ahead]. rewrite length_drop. lia.
  - destruct (line h) as [|[w' [|b bs]] l] eqn:El; try done. rewrite <-El in *. by eapply Hrel.
  - destruct (line h) as [|[w' bs] l] eqn:El; [done|]. rewrite <-El in *. by eapply Hrel.
Qed.

Lemma written_rank ok e m m' i p : written m (WCall i) ok = Some e -> exec payload max e m = Some m' ->
  calls m !! i = Some p -> exists p', calls m' !! i = Some p' /\ (call_rank p' < call_rank p)%nat.
Proof.
  intros He Hx Hi. destruct (exec_rank payload max e m m' i p Hx Hi) as (p' & Hp' & _ & Hlt & _).
  exists p'. split; [done|]. apply Hlt. cbn in He. rewrite Hi in He. destruct p; try done; by injection He as <-.
Qed.

(** A call never goes back. *)
Lemma rank_step e h h' i p : hexec e h = Some h' -> calls (man h) !! i = Some p ->
  exists p', calls (man h') !! i = Some p' /\ (call_rank p' <= call_rank p)%nat.
Proof.
  intros [->|[e' Hx]]%hexec_man Hi; [eauto|].
  destruct (exec_rank payload max e' _ _ i p Hx Hi) as (p' & Hp' & Hle & _). eauto.
Qed.

Lemma rank_execs es h h' i p : hexecs es h = Some h' -> calls (man h) !! i = Some p ->
  exists p', calls (man h') !! i = Some p' /\ (call_rank p' <= call_rank p)%nat
    /\ (WCall i ∈ (line h).*1 -> (ahead (WCall i) (line h) <= sockets es)%nat -> (call_rank p' < call_rank p)%nat).
Proof.
  revert h p. induction es as [|e es IH]; intros h p Hx Hi; cbn in Hx.
  - injection Hx as <-. exists p. split; [done|]. split; [done|]. intros Hw Ha. exfalso. revert Hw Ha. unfold sockets. cbn.
    destruct (line h) as [|[w bs] l]; [by intros ?%elem_of_nil|]. cbn [ahead]. lia.
  - destruct (hexec e h) as [h1|] eqn:E; [|done]. destruct (rank_step e h h1 i p E Hi) as (p1 & Hp1 & Hle).
    destruct (IH h1 p1 Hx Hp1) as (p' & Hp' & Hle' & Hlt). exists p'. split; [done|]. split; [lia|]. intros Hw Ha.
    destruct (ahead_step e h h1 (WCall i) Hw E) as [[Hw1 Ha1]|(_ & ok & e' & He' & Hx')].
    + enough (call_rank p' < call_rank p1)%nat by lia. apply Hlt; [done|]. revert Ha. unfold sockets. rewrite filter_cons.
      destruct (socket e); cbn [length]; case_decide; cbn [length]; try done; lia.
    + destruct (written_rank ok e' _ _ i p He' Hx' Hi) as (p1' & Hp1' & Hlt1). assert (p1' = p1) as -> by congruence. lia.
Qed.

(** The socket can always serve the line. *)
Lemma past_write i h p : line_ok h -> WCall i ∈ (line h).*1 -> calls (man h) !! i = Some p ->
  exists es h' p', Forall (fun e => socket e = true) es /\ hexecs es h = Some h' /\ line_ok h'
    /\ calls (man h') !! i = Some p' /\ (call_rank p' < call_rank p)%nat.
Proof.
  remember (ahead (WCall i) (line h)) as n eqn:Hn. revert h p Hn. induction (lt_wf n) as [n _ IH]. intros h p Hn Hok Hw Hi.
  assert (exists e h1, socket e = true /\ hexec e h = Some h1) as (e & h1 & He & Hx).
  { destruct (line h) as [|[w [|b bs]] l] eqn:El; [by apply elem_of_nil in Hw| |].
    - exists HDone. cbn. rewrite El. unfold release_lock. pose proof (lo_wants h Hok) as Hall. rewrite El in Hall.
      apply Forall_cons in Hall as [Hf _]. destruct (written_wants (man h) w true Hf) as (e & m & -> & _ & Hx & _).
      cbn [mbind option_bind]. rewrite Hx. eauto.
    - exists (HTake 1). cbn. rewrite El, bool_decide_true by (cbn; lia). eauto. }
  pose proof (line_ok_exec e h h1 Hok Hx) as Hok1. destruct (rank_step e h h1 i p Hx Hi) as (p1 & Hp1 & Hle).
  destruct (ahead_step e h h1 (WCall i) Hw Hx) as [[Hw1 Ha]|(_ & ok & e' & He' & Hx')].
  - rewrite He in Ha. destruct (IH (ahead (WCall i) (line h1)) ltac:(lia) h1 p1 eq_refl Hok1 Hw1 Hp1)
      as (es & h' & p' & Hes & Hxs & Hok' & Hp' & Hlt).
    exists (e :: es), h', p'. split; [by constructor|]. cbn. rewrite Hx. split; [done|]. split; [done|]. split; [done|]. lia.
  - destruct (written_rank ok e' _ _ i p He' Hx' Hi) as (p' & Hp' & Hlt). exists [e], h1, p'.
    split; [by repeat constructor|]. cbn. by rewrite Hx.
Qed.

(** The call's own steps, apart from its writes. *)
Definition own (i : nat) (e : hevent) : bool :=
  match e with
  | HStep e => bool_decide (event_call e = Some i)
  | HLock w => bool_decide (w = WCall i)
  | _ => false
  end.

(** A call that has not returned and is not in line can move by itself. *)
Lemma own_step i h p : line_ok h -> WCall i ∉ (line h).*1 -> calls (man h) !! i = Some p -> ~ is_returned p ->
  exists e h1, own i e = true /\ hexec e h = Some h1
    /\ exists p1, calls (man h1) !! i = Some p1 /\ ((call_rank p1 < call_rank p)%nat \/ p1 = p /\ WCall i ∈ (line h1).*1).
Proof.
  intros Hok Hn Hi Hr. destruct (wants (man h) (WCall i)) as [f|] eqn:Hf.
  - exists (HLock (WCall i)), (mkHalf (man h) (line h ++ [(WCall i, f)]) (wire h)). cbn.
    rewrite bool_decide_true, bool_decide_false by done. cbn in Hf. rewrite Hf. split; [done|]. split; [done|].
    exists p. split; [done|]. right. split; [done|]. rewrite fmap_app. apply elem_of_app. right. left.
  - destruct (call_enabled payload max (man h) i p Hi Hr) as (e & m & He & Hx).
    exists (HStep e), (mkHalf m (line h) (wire h)). cbn. rewrite bool_decide_true by done. split; [done|].
    assert (is_write e = false) as ->.
    { cbn in Hf. rewrite Hi in Hf. destruct e; try done; injection He as ->; cbn in Hx; rewrite Hi in Hx; by destruct p. }
    rewrite Hx. split; [done|]. destruct (exec_rank payload max e _ m i p Hx Hi) as (p1 & Hp1 & _ & Hlt & _).
    exists p1. split; [done|]. left. by apply Hlt.
Qed.

Lemma can_return i h p : line_ok h -> calls (man h) !! i = Some p ->
  exists es h' r, Forall (fun e => own i e || socket e = true) es /\ hexecs es h = Some h'
    /\ calls (man h') !! i = Some (PcReturned r).
Proof.
  remember (call_rank p) as n eqn:Hn. revert h p Hn. induction (lt_wf n) as [n _ IH]. intros h p -> Hok Hi.
  assert (forall h p0, line_ok h -> WCall i ∈ (line h).*1 -> calls (man h) !! i = Some p0 -> (call_rank p0 <= call_rank p)%nat ->
    exists es h' r, Forall (fun e => own i e || socket e = true) es /\ hexecs es h = Some h'
      /\ calls (man h') !! i = Some (PcReturned r)) as Hline.
  { clear h Hok Hi. intros h p0 Hok Hw Hi Hle.
    destruct (past_write i h p0 Hok Hw Hi) as (es & h1 & p1 & Hes & Hx & Hok1 & Hp1 & Hlt).
    destruct (IH (call_rank p1) ltac:(lia) h1 p1 eq_refl Hok1 Hp1) as (es2 & h' & r & Hes2 & Hx2 & Hr).
    exists (es ++ es2), h', r. rewrite hexecs_app, Hx. split; [|done]. apply Forall_app_2; [|done].
    eapply Forall_impl; [exact Hes|]. intros e He. cbv beta in *. by rewrite He, orb_true_r. }
  destruct (decide (WCall i ∈ (line h).*1)) as [Hw|Hw]; [by apply (Hline h p)|].
  destruct (match p with PcReturned _ => true | _ => false end) eqn:Hret; [destruct p; try done; by exists [], h, r|].
  destruct (own_step i h p Hok Hw Hi) as (e & h1 & He & Hx & p1 & Hp1 & Hc); [intros Hq; by destruct p|].
  pose proof (line_ok_exec e h h1 Hok Hx) as Hok1.
  assert (exists es h' r, Forall (fun e => own i e || socket e = true) es /\ hexecs es h1 = Some h'
      /\ calls (man h') !! i = Some (PcReturned r)) as (es & h' & r & Hes & Hxs & Hr).
  { destruct Hc as [Hlt|[-> Hw1]]; [by apply (IH (call_rank p1) Hlt h1 p1)|by apply (Hline h1 p)]. }
  exists (e :: es), h', r. split; [constructor; [by rewrite He|done]|]. split; [|done]. cbn. by rewrite Hx.
Qed.

(** Neither taking bytes nor failing. *)
Definition socket_stuck (e : hevent) : bool := match e with HTake _ | HFail => false | _ => true end.

Lemma stuck_step e h h' i w b bs l : socket_stuck e = true -> line h = (w, b :: bs) :: l ->
  is_Some (wants (man h) (WCall i)) -> hexec e h = Some h' ->
  (exists l', line h' = (w, b :: bs) :: l') /\ calls (man h') !! i = calls (man h) !! i.
Proof.
  intros He El Hw Hx. destruct e as [e|w'|n| |]; try done; cbn in Hx.
  - destruct (is_write e) eqn:Hwr; [done|]. destruct (exec payload max e (man h)) as [m|] eqn:E; [|done].
    injection Hx as <-. cbn. split; [by eexists|]. eapply call_stable; [done..|]. by destruct e.
  - case_bool_decide; [done|]. destruct (wants (man h) w'); [|done]. injection Hx as <-. cbn. rewrite El. split; [by eexists|done].
  - by rewrite El in Hx.
Qed.

Lemma stuck_execs es h h' i w b bs l : Forall (fun e => socket_stuck e = true) es -> line h = (w, b :: bs) :: l ->
  is_Some (wants (man h) (WCall i)) -> hexecs es h = Some h' -> calls (man h') !! i = calls (man h) !! i.
Proof.
  revert h l. induction es as [|e es IH]; intros h l Hes El Hw Hx; cbn in Hx; [by injection Hx as <-|].
  apply Forall_cons in Hes as [He Hes]. destruct (hexec e h) as [h1|] eqn:E; [|done].
  destruct (stuck_step e h h1 i w b bs l He El Hw E) as [[l' El'] Ec]. rewrite <-Ec. eapply (IH h1 l'); try done.
  unfold wants in *. by rewrite Ec.
Qed.

(** C32. When a call of [run] returns, with the lock and the socket it waits for.
    A call never goes back, and once in line for the lock it is past its write
    when the socket has made as many steps (bytes taken, writes returned) as
    are in front of it, whatever else happens. From any point it can return by
    its own steps and the socket's alone, without the worker or the reader: its
    timeout sees to that once its request is written. But the timeout covers
    nothing else: as long as the socket takes no byte of the frame the lock's
    holder is writing, and does not fail, every call that is to write stays
    where it is, whatever timers expire and whatever else happens. *)
Theorem run_returns h i p : hreachable h -> calls (man h) !! i = Some p ->
  (forall es h', hexecs es h = Some h' ->
     exists p', calls (man h') !! i = Some p' /\ (call_rank p' <= call_rank p)%nat
     /\ (WCall i ∈ (line h).*1 -> (ahead (WCall i) (line h) <= sockets es)%nat -> (call_rank p' < call_rank p)%nat))
  /\ (exists es h' r, Forall (fun e => own i e || socket e = true) es /\ hexecs es h = Some h'
        /\ calls (man h') !! i = Some (PcReturned r))
  /\ (forall w b bs l, line h = (w, b :: bs) :: l -> is_Some (wants (man h) (WCall i)) ->
        forall es h', Forall (fun e => socket_stuck e = true) es -> hexecs es h = Some h' ->
        calls (man h') !! i = Some p).
Proof.
  intros Hr Hi. pose proof (line_ok_reachable h Hr) as Hok. split; [|split].
  - intros es h' Hx. by apply (rank_execs es h h').
  - by apply (can_return i h p).
  - intros w b bs l El Hw es h' Hes Hx. by rewrite (stuck_execs es h h' i w b bs l Hes El Hw Hx).
Qed.

End Half.

(** ** Witnesses *)

(** Call 0 holds the lock with three bytes taken; call 1 has been given an id,
    is registered and in line behind it. *)
Definition half_events : list hevent :=
  (HStep <$> [EvInvoke 0; EvInvoke 1; EvCheck 0; EvCheck 1; EvFetch 0; EvFetch 1; EvInsert 0; EvInsert 1])
  ++ [HLock (WCall 0); HLock (WCall 1); HTake 3].
Definition half_demo : Half :=
  match hexecs (fun _ => str "{}") 8 half_events half_init with Some h => h | None => half_init end.

Lemma run_returns_witness :
  ahead (WCall 1) (line half_demo) = 21%nat
  /\ (exists es h' r, Forall (fun e => own 1 e || socket e = true) es /\ hexecs (fun _ => str "{}") 8 es half_demo = Some h'
       /\ calls (man h') !! 1%nat = Some (PcReturned r))
  /\ (forall es h', Forall (fun e => socket_stuck e = true) es -> hexecs (fun _ => str "{}") 8 es half_demo = Some h' ->
       calls (man h') !! 1%nat = Some (PcWriteRun 2)).
Proof.
  split; [vm_compute; reflexivity|].
  destruct (run_returns (fun _ => str "{}") 8 half_demo 1 (PcWriteRun 2)) as (_ & We & Ws).
  - exists half_events. vm_compute. reflexivity.
  - vm_compute. reflexivity.
  - split; [exact We|]. intros es h'.
    destruct (line half_demo) as [|[w [|b bs]] l] eqn:El; try (vm_compute in El; discriminate El).
    apply (Ws w b bs l eq_refl). vm_compute. by eexists.
Defined.

Lemma writes_atomic_witness :
  exists part, wire half_demo = concat (writes (sh (man half_demo))) ++ part /\ length part = 3%nat.
Proof.
  destruct (writes_atomic (fun _ => str "{}") 8 half_events half_demo) as [_ W]; [vm_compute; reflexivity|].
  destruct W as (part & Hw & _); [unfold half_events; cbn; intros Hin; repeat (apply elem_of_cons in Hin as [?|Hin]; [done|]); by apply elem_of_nil in Hin|].
  exists part. split; [exact Hw|].
  assert (concat (writes (sh (man half_demo))) = []) as E by (vm_compute; reflexivity).
  rewrite E in Hw. cbn [app] in Hw. rewrite <-Hw. vm_compute. reflexivity.
Defined.
