(* ===== verification/Seccomp.v ===== *)
(** * Seccomp: the in-process sandbox

    [lib/sandbox_seccomp/src]: the system-call tables, the choice of the allowed
    calls, the installation of the seccomp filter, the privilege and memory
    set-up around it ([init_seccomp]), and the Landlock entry points.

    Calls into libc and libseccomp are the events of a trace; what each returns
    is an oracle [world] over the calls already made, so every theorem holds for
    every behaviour of the kernel.  The system-call numbers and flag values of
    the libc crate, the meaning of a loaded filter (libseccomp and the kernel)
    and the Landlock crate are interfaces with their documented laws. *)

From S2P Require Import Prelude RustStd.

(** ** System-call tables *)

Inductive sysname :=
| SYS_read | SYS_write | SYS_openat | SYS_close | SYS_newfstatat | SYS_statx | SYS_fstat |
SYS_lseek | SYS_getdents64 | SYS_fcntl | SYS_pread64 | SYS_readv | SYS_writev | SYS_rt_sigreturn
| SYS_rt_sigaction | SYS_rt_sigprocmask | SYS_sigaltstack | SYS_ioctl | SYS_futex |
SYS_set_tid_address | SYS_sched_getaffinity | SYS_mmap | SYS_brk | SYS_mprotect | SYS_munmap |
SYS_mremap | SYS_madvise | SYS_getuid | SYS_getpid | SYS_getppid | SYS_gettid | SYS_exit |
SYS_exit_group | SYS_sched_yield | SYS_set_robust_list | SYS_get_robust_list | SYS_rseq |
SYS_clock_gettime | SYS_gettimeofday | SYS_time | SYS_nanosleep | SYS_clock_nanosleep |
SYS_epoll_create1 | SYS_epoll_ctl | SYS_pselect6 | SYS_eventfd2 | SYS_pipe2 | SYS_getrandom |
SYS_getcwd | SYS_uname | SYS_clone | SYS_clone3 | SYS_mkdirat | SYS_mkdir | SYS_tgkill |
SYS_prlimit64 | SYS_socket | SYS_connect | SYS_bind | SYS_listen | SYS_accept | SYS_sendto |
SYS_recvfrom | SYS_getsockname | SYS_recvmsg | SYS_getpeername | SYS_setsockopt | SYS_ppoll |
SYS_sendmsg | SYS_sendmmsg | SYS_getsockopt | SYS_fstatfs | SYS_poll | SYS_epoll_pwait |
SYS_open | SYS_readlink | SYS_dup3 | SYS_fsync.

#[global] Instance sysname_eq_dec : EqDecision sysname.
Proof. solve_decision. Defined.

(** The tables of one build feature of the library. *)
Record Feature := mkFeature {
  ALLOW_SYSCALLS : list sysname;
  ALLOW_ERROR_SYSCALLS : list sysname;
  ALLOW_NETWORK_SYSCALLS : list sysname
}.

Module Python.
Definition ALLOW_SYSCALLS : list sysname :=
  [
   SYS_read; SYS_write; SYS_openat; SYS_close; SYS_newfstatat; SYS_statx; SYS_fstat; SYS_lseek;
   SYS_getdents64; SYS_fcntl; SYS_pread64; SYS_readv; SYS_writev; SYS_rt_sigreturn;
   SYS_rt_sigaction; SYS_rt_sigprocmask; SYS_sigaltstack; SYS_ioctl; SYS_futex;
   SYS_set_tid_address; SYS_sched_getaffinity; SYS_mmap; SYS_brk; SYS_mprotect; SYS_munmap;
   SYS_mremap; SYS_madvise; SYS_getuid; SYS_getpid; SYS_getppid; SYS_gettid; SYS_exit;
   SYS_exit_group; SYS_sched_yield; SYS_set_robust_list; SYS_get_robust_list; SYS_rseq;
   SYS_clock_gettime; SYS_gettimeofday; SYS_time; SYS_nanosleep; SYS_clock_nanosleep;
   SYS_epoll_create1; SYS_epoll_ctl; SYS_pselect6; SYS_eventfd2; SYS_pipe2; SYS_getrandom;
   SYS_getcwd; SYS_uname
  ].

Definition ALLOW_ERROR_SYSCALLS : list sysname :=
  [
   SYS_clone; SYS_clone3; SYS_mkdirat; SYS_mkdir; SYS_tgkill; SYS_prlimit64
  ].

Definition ALLOW_NETWORK_SYSCALLS : list sysname :=
  [
   SYS_socket; SYS_connect; SYS_bind; SYS_listen; SYS_accept; SYS_sendto; SYS_recvfrom;
   SYS_getsockname; SYS_recvmsg; SYS_getpeername; SYS_setsockopt; SYS_ppoll; SYS_sendmsg;
   SYS_sendmmsg; SYS_getsockopt; SYS_fstatfs; SYS_poll; SYS_epoll_pwait
  ].
End Python.

Module Nodejs.
Definition ALLOW_SYSCALLS : list sysname :=
  [
   SYS_open; SYS_write; SYS_close; SYS_read; SYS_openat; SYS_newfstatat; SYS_statx; SYS_lseek;
   SYS_fstat; SYS_readlink; SYS_dup3; SYS_fcntl; SYS_fsync; SYS_mprotect; SYS_mmap; SYS_munmap;
   SYS_mremap; SYS_brk; SYS_madvise; SYS_rt_sigaction; SYS_rt_sigprocmask; SYS_sigaltstack;
   SYS_rt_sigreturn; SYS_ioctl; SYS_futex; SYS_sched_yield; SYS_set_robust_list; SYS_rseq;
   SYS_getuid; SYS_getpid; SYS_gettid; SYS_exit; SYS_exit_group; SYS_sched_getaffinity;
   SYS_clock_gettime; SYS_gettimeofday; SYS_nanosleep; SYS_time; SYS_epoll_ctl; SYS_epoll_pwait;
   SYS_eventfd2
  ].

Definition ALLOW_ERROR_SYSCALLS : list sysname :=
  [
   SYS_clone; SYS_clone3; SYS_tgkill
  ].

Definition ALLOW_NETWORK_SYSCALLS : list sysname :=
  [
   SYS_socket; SYS_connect; SYS_bind; SYS_listen; SYS_accept; SYS_sendto; SYS_recvfrom;
   SYS_getsockname; SYS_recvmsg; SYS_getpeername; SYS_setsockopt; SYS_ppoll; SYS_uname;
   SYS_sendmsg; SYS_getsockopt; SYS_fcntl; SYS_fstatfs
  ].
End Nodejs.

Definition python3 : Feature :=
  mkFeature Python.ALLOW_SYSCALLS Python.ALLOW_ERROR_SYSCALLS Python.ALLOW_NETWORK_SYSCALLS.
Definition nodejs : Feature :=
  mkFeature Nodejs.ALLOW_SYSCALLS Nodejs.ALLOW_ERROR_SYSCALLS Nodejs.ALLOW_NETWORK_SYSCALLS.

(** ** Interfaces *)

(** The constants of the libc crate: distinct, non-negative [i32] numbers. *)
Class Libc := {
  SYS : sysname -> Z;
  O_CREAT : Z;
  EPERM : Z;
  SYS_inj : forall a b, SYS a = SYS b -> a = b;
  SYS_range : forall a, 0 <= SYS a <= i32_max;
  O_CREAT_bit : 0 < O_CREAT
}.

Inductive scmp_action :=
| SCMP_ACT_KILL_PROCESS
| SCMP_ACT_ALLOW
| SCMP_ACT_ERRNO (errno : Z).

Inductive scmp_compare :=
| SCMP_CMP_NE
| SCMP_CMP_EQ
| SCMP_CMP_MASKED_EQ.

Record scmp_arg_cmp := mkCmp { cmp_arg : nat; cmp_op : scmp_compare; datum_a : Z; datum_b : Z }.

(** A rule added to a filter context. *)
Record rule := mkRule { r_action : scmp_action; r_syscall : Z; r_cmps : list scmp_arg_cmp }.

#[global] Instance scmp_action_eq_dec : EqDecision scmp_action.
Proof. solve_decision. Defined.
#[global] Instance scmp_compare_eq_dec : EqDecision scmp_compare.
Proof. solve_decision. Defined.
#[global] Instance scmp_arg_cmp_eq_dec : EqDecision scmp_arg_cmp.
Proof. solve_decision. Defined.
#[global] Instance rule_eq_dec : EqDecision rule.
Proof. solve_decision. Defined.

(** libseccomp, as its manual documents it: the comparison operators (for
    [SCMP_CMP_MASKED_EQ] the first datum is the mask and the second the value,
    as in [SCMP_CMP(arg, SCMP_CMP_MASKED_EQ, mask, datum)]), the default action
    when no rule matches, and the action of the matching rules when they agree. *)
Class Libseccomp := {
  cmp_holds : scmp_arg_cmp -> Z -> bool;
  filter_action : scmp_action -> list rule -> Z -> list Z -> scmp_action;
  cmp_holds_eq : forall i a b v, cmp_holds (mkCmp i SCMP_CMP_EQ a b) v = (v =? a);
  cmp_holds_ne : forall i a b v, cmp_holds (mkCmp i SCMP_CMP_NE a b) v = negb (v =? a);
  cmp_holds_masked : forall i a b v,
    cmp_holds (mkCmp i SCMP_CMP_MASKED_EQ a b) v = (Z.land v a =? Z.land b a);
  filter_default : forall d rs sc args,
    Forall (fun r => r_syscall r = sc ->
              forallb (fun c => cmp_holds c (nth (cmp_arg c) args 0)) (r_cmps r) = false) rs ->
    filter_action d rs sc args = d;
  filter_matched : forall d rs sc args a r,
    r ∈ rs -> r_syscall r = sc ->
    forallb (fun c => cmp_holds c (nth (cmp_arg c) args 0)) (r_cmps r) = true ->
    Forall (fun r => r_syscall r = sc ->
              forallb (fun c => cmp_holds c (nth (cmp_arg c) args 0)) (r_cmps r) = true ->
              r_action r = a) rs ->
    filter_action d rs sc args = a
}.

(** ** Kernel calls: a state and error monad over the trace of calls *)

Inductive kcall :=
| KSetrlimitAS (max_as : Z)
| KChroot (path : bytes)
| KChdir (path : bytes)
| KPrctlNoNewPrivs
| KPrctlNotDumpable
| KSetgroupsEmpty
| KSetgid (gid : Z)
| KSetuid (uid : Z)
| KSeccompInit (default : scmp_action)
| KRuleAdd (r : rule)
| KSeccompLoad
| KSeccompRelease.

#[global] Instance kcall_eq_dec : EqDecision kcall.
Proof. solve_decision. Defined.

(** [inr code] is [Err(code)]. *)
Definition K (A : Type) : Type := list kcall -> (A + Z) * list kcall.

#[global] Instance K_ret : MRet K := fun A x tr => (inl x, tr).
#[global] Instance K_bind : MBind K := fun A B f m tr =>
  match m tr with
  | (inl x, tr') => f x tr'
  | (inr code, tr') => (inr code, tr')
  end.
Definition fail_with {A} (code : Z) : K A := fun tr => (inr code, tr).

(** [for &x in xs { body }]. *)
Fixpoint for_each {A} (body : A -> K unit) (xs : list A) : K unit :=
  match xs with
  | [] => mret tt
  | x :: xs => body x ≫= fun _ => for_each body xs
  end.

Section Kernel.
Context (world : list kcall -> kcall -> Z).

(** A call: its result is what the world answers after the calls so far. *)
Definition call (k : kcall) : K Z := fun tr => (inl (world tr k), tr ++ [k]).

(** [if k() != 0 { return Err(code); }] *)
Definition check (k : kcall) (code : Z) : K unit :=
  rc ← call k; if rc =? 0 then mret tt else fail_with code.

Definition setup_root : K unit :=
  check (KChroot (str ".")) (-1) ≫= fun _ => check (KChdir (str "/")) (-2).

Definition set_no_new_privs : K unit :=
  check KPrctlNoNewPrivs (-3) ≫= fun _ => check KPrctlNotDumpable (-12).

Definition drop_privileges (uid gid : Z) : K unit :=
  check KSetgroupsEmpty (-10) ≫= fun _ =>
  check (KSetgid gid) (-4) ≫= fun _ =>
  check (KSetuid uid) (-5).

Definition set_memory_limit (max_as_bytes : Z) : K unit :=
  if max_as_bytes =? 0 then mret tt else check (KSetrlimitAS max_as_bytes) (-11).

(** [if seccomp_rule_add(..) != 0 { seccomp_release(ctx); return Err(code); }];
    also the checked [seccomp_load]. *)
Definition check_ctx (k : kcall) (code : Z) : K unit :=
  rc ← call k;
  if rc =? 0 then mret tt else call KSeccompRelease ≫= fun _ => fail_with code.

Context `{Libc}.

Definition FIONBIO : Z := 21537.

(** [get_allowed_syscalls]; [env] is the value of [ALLOWED_SYSCALLS]. *)
Definition get_allowed_syscalls (ft : Feature) (env : option bytes) (enable_network : bool)
    : list Z * list Z :=
  let allowed_not_kill := SYS <$> ALLOW_ERROR_SYSCALLS ft in
  let from_env :=
    match env with
    | Some v => if bool_decide (v = []) then [] else omap parse_i32 (split_on Byte.x2c v)
    | None => []
    end in
  let allowed :=
    if bool_decide (from_env = []) then
      (SYS <$> ALLOW_SYSCALLS ft)
      ++ (if enable_network then SYS <$> ALLOW_NETWORK_SYSCALLS ft else [])
    else from_env in
  (allowed, allowed_not_kill).

(** The body of the loop over the allowed calls. *)
Definition allow_syscall (sc : Z) : K unit :=
  if sc =? SYS SYS_openat then
    check_ctx (KRuleAdd (mkRule SCMP_ACT_ALLOW sc [mkCmp 2 SCMP_CMP_MASKED_EQ 0 O_CREAT])) (-7)
  else if sc =? SYS SYS_open then
    check_ctx (KRuleAdd (mkRule SCMP_ACT_ALLOW sc [mkCmp 1 SCMP_CMP_MASKED_EQ 0 O_CREAT])) (-7)
  else if sc =? SYS SYS_ioctl then
    check_ctx (KRuleAdd (mkRule SCMP_ACT_ALLOW sc [mkCmp 1 SCMP_CMP_EQ FIONBIO 0])) (-7) ≫= fun _ =>
    check_ctx (KRuleAdd (mkRule (SCMP_ACT_ERRNO EPERM) sc [mkCmp 1 SCMP_CMP_NE FIONBIO 0])) (-7)
  else check_ctx (KRuleAdd (mkRule SCMP_ACT_ALLOW sc [])) (-7).

Definition install_seccomp (ft : Feature) (env : option bytes) (enable_network : bool) : K unit :=
  ctx ← call (KSeccompInit SCMP_ACT_KILL_PROCESS);
  if ctx =? 0 then fail_with (-6) else
  let '(allowed_syscalls, allowed_not_kill_syscalls) := get_allowed_syscalls ft env enable_network in
  for_each allow_syscall allowed_syscalls ≫= fun _ =>
  for_each (fun sc => check_ctx (KRuleAdd (mkRule (SCMP_ACT_ERRNO EPERM) sc [])) (-8))
    allowed_not_kill_syscalls ≫= fun _ =>
  check_ctx KSeccompLoad (-9) ≫= fun _ =>
  call KSeccompRelease ≫= fun _ => mret tt.

(** The exported entry point: the status code, and the calls made. *)
Definition init_seccomp_k (ft : Feature) (env : option bytes)
    (uid gid enable_network max_as_bytes privilege : Z) : K unit :=
  set_memory_limit max_as_bytes ≫= fun _ =>
  (if negb (privilege =? 0) then setup_root else mret tt) ≫= fun _ =>
  set_no_new_privs ≫= fun _ =>
  (if negb (privilege =? 0) then drop_privileges uid gid else mret tt) ≫= fun _ =>
  install_seccomp ft env (negb (enable_network =? 0)).

Definition init_seccomp (ft : Feature) (env : option bytes)
    (uid gid enable_network max_as_bytes privilege : Z) : Z * list kcall :=
  match init_seccomp_k ft env uid gid enable_network max_as_bytes privilege [] with
  | (inl _, tr) => (0, tr)
  | (inr code, tr) => (code, tr)
  end.

End Kernel.

(** ** Landlock *)

Inductive ruleset_status := FullyEnforced | PartiallyEnforced | NotEnforced.

(** The landlock crate's builder chain, from the list of paths to the status
    ([None] when a stage of the chain fails). *)
Class Landlock := { restrict_self : list bytes -> option ruleset_status }.

(** [paths] is the C array: [None] a null pointer, [Some l] the strings before
    the terminating null. *)
Definition apply_landlock `{Landlock} (paths : option (list bytes)) : Z :=
  match paths with
  | None => -20
  | Some l =>
    let path_strs := filter (fun p => utf8_valid p = true) l in
    if bool_decide (path_strs = []) then -20 else
    match restrict_self path_strs with
    | Some FullyEnforced | Some PartiallyEnforced => 0
    | Some NotEnforced => -23
    | None => -21
    end
  end.

(** The array [[lib_path, NULL]]: a null [lib_path] terminates it at once. *)
Definition apply_landlock_one `{Landlock} (lib_path : option bytes) : Z :=
  apply_landlock (Some (option_list lib_path)).

(** ** Specification: the set-up as a plan *)

(** A step: the call, whether its result is a success, the code returned when
    it is not, and the calls made before returning it. *)
Record step := mkStep {
  st_call : kcall;
  st_ok : Z -> bool;
  st_code : Z;
  st_cleanup : list kcall
}.

Definition zero_ok (rc : Z) : bool := rc =? 0.
Definition nonnull (p : Z) : bool := negb (p =? 0).

Definition plain (k : kcall) (code : Z) : step := mkStep k zero_ok code [].
Definition guarded (k : kcall) (code : Z) : step := mkStep k zero_ok code [KSeccompRelease].

(** The rules of the filter. *)
Definition allow_rules `{Libc} (sc : Z) : list rule :=
  if sc =? SYS SYS_openat then [mkRule SCMP_ACT_ALLOW sc [mkCmp 2 SCMP_CMP_MASKED_EQ 0 O_CREAT]]
  else if sc =? SYS SYS_open then [mkRule SCMP_ACT_ALLOW sc [mkCmp 1 SCMP_CMP_MASKED_EQ 0 O_CREAT]]
  else if sc =? SYS SYS_ioctl then
    [mkRule SCMP_ACT_ALLOW sc [mkCmp 1 SCMP_CMP_EQ FIONBIO 0];
     mkRule (SCMP_ACT_ERRNO EPERM) sc [mkCmp 1 SCMP_CMP_NE FIONBIO 0]]
  else [mkRule SCMP_ACT_ALLOW sc []].

Definition error_rule `{Libc} (sc : Z) : rule := mkRule (SCMP_ACT_ERRNO EPERM) sc [].

Definition filter_rules `{Libc} (ft : Feature) (env : option bytes) (net : bool) : list rule :=
  let '(allowed, errors) := get_allowed_syscalls ft env net in
  concat (allow_rules <$> allowed) ++ (error_rule <$> errors).

(** The rule additions, and the load. *)
Definition rule_steps `{Libc} (ft : Feature) (env : option bytes) (net : bool) : list step :=
  let '(allowed, errors) := get_allowed_syscalls ft env net in
  ((fun r => guarded (KRuleAdd r) (-7)) <$> concat (allow_rules <$> allowed))
  ++ ((fun sc => guarded (KRuleAdd (error_rule sc)) (-8)) <$> errors)
  ++ [guarded KSeccompLoad (-9)].

Definition init_step : step := mkStep (KSeccompInit SCMP_ACT_KILL_PROCESS) nonnull (-6) [].
Definition release_step : step := mkStep KSeccompRelease (fun _ => true) 0 [].

(** What precedes the filter: limits, root, privileges. *)
Definition setup_steps (uid gid max_as privilege : Z) : list step :=
  (if max_as =? 0 then [] else [plain (KSetrlimitAS max_as) (-11)])
  ++ (if privilege =? 0 then [] else [plain (KChroot (str ".")) (-1); plain (KChdir (str "/")) (-2)])
  ++ [plain KPrctlNoNewPrivs (-3); plain KPrctlNotDumpable (-12)]
  ++ (if privilege =? 0 then []
      else [plain KSetgroupsEmpty (-10); plain (KSetgid gid) (-4); plain (KSetuid uid) (-5)]).

Definition plan `{Libc} (ft : Feature) (env : option bytes) (uid gid net max_as privilege : Z)
    : list step :=
  setup_steps uid gid max_as privilege
  ++ [init_step] ++ rule_steps ft env (negb (net =? 0)) ++ [release_step].

(** Every step succeeds when run in order from the trace [tr]. *)
Fixpoint all_ok (world : list kcall -> kcall -> Z) (tr : list kcall) (l : list step) : Prop :=
  match l with
  | [] => True
  | st :: l => st_ok st (world tr (st_call st)) = true /\ all_ok world (tr ++ [st_call st]) l
  end.

(** The first step of [l] that fails, from the trace [tr], is [st], after [pre]. *)
Definition fails_at (world : list kcall -> kcall -> Z) (tr : list kcall) (l : list step)
    (pre : list step) (st : step) : Prop :=
  (exists post, l = pre ++ st :: post) /\ all_ok world tr pre
  /\ st_ok st (world (tr ++ (st_call <$> pre)) (st_call st)) = false.

Definition run_step (world : list kcall -> kcall -> Z) (st : step) : K unit :=
  rc ← call world (st_call st);
  if st_ok st rc then mret tt
  else for_each (fun k => call world k ≫= fun _ => mret tt) (st_cleanup st) ≫= fun _ =>
       fail_with (st_code st).

Definition run_plan (world : list kcall -> kcall -> Z) (l : list step) : K unit :=
  for_each (run_step world) l.

#[global] Arguments get_allowed_syscalls : simpl never.
#[global] Arguments filter_rules : simpl never.
#[global] Arguments rule_steps : simpl never.
#[global] Arguments setup_steps : simpl never.

(** ** Lemmas: plans *)

Lemma K_bind_eq {A B} (m : K A) (f : A -> K B) tr :
  (m ≫= f) tr = match m tr with
                | (inl x, tr') => f x tr'
                | (inr code, tr') => (inr code, tr')
                end.
Proof. done. Qed.

Lemma for_each_app {A} (body : A -> K unit) l1 l2 tr :
  for_each body (l1 ++ l2) tr = (for_each body l1 ≫= fun _ => for_each body l2) tr.
Proof.
  revert tr. induction l1 as [|x l1 IH]; intros tr; [done|].
  cbn. unfold mbind, K_bind in *. destruct (body x tr) as [[u|c] tr']; [|done]. apply IH.
Qed.

Lemma for_each_ext {A B} (f : A -> K unit) (g : B -> K unit) (h : A -> list B) l tr :
  (forall x tr, f x tr = for_each g (h x) tr) ->
  for_each f l tr = for_each g (concat (h <$> l)) tr.
Proof.
  intros Hf. revert tr. induction l as [|x l IH]; intros tr; [done|].
  rewrite fmap_cons. cbn [concat]. rewrite for_each_app. cbn.
  unfold mbind, K_bind. rewrite Hf. destruct (for_each g (h x) tr) as [[u|c] tr']; [|done]. apply IH.
Qed.

Lemma run_plan_app world l1 l2 tr :
  run_plan world (l1 ++ l2) tr = (run_plan world l1 ≫= fun _ => run_plan world l2) tr.
Proof. apply for_each_app. Qed.

Lemma for_each_call world ks tr :
  for_each (fun k => call world k ≫= fun _ => mret tt) ks tr = (inl tt, tr ++ ks).
Proof.
  revert tr. induction ks as [|k ks IH]; intros tr; [by rewrite app_nil_r|].
  cbn. unfold mbind, K_bind. cbn. rewrite IH, <-app_assoc. done.
Qed.

Lemma run_step_eq world st tr :
  run_step world st tr =
  if st_ok st (world tr (st_call st)) then (inl tt, tr ++ [st_call st])
  else (inr (st_code st), tr ++ st_call st :: st_cleanup st).
Proof.
  unfold run_step. rewrite K_bind_eq. cbn [call]. destruct (st_ok st _); [done|].
  rewrite K_bind_eq, for_each_call. cbn. by rewrite <-app_assoc.
Qed.

(** A plan runs to its end, or stops at its first failing step. *)
Lemma run_plan_spec world l tr :
  (run_plan world l tr = (inl tt, tr ++ (st_call <$> l)) /\ all_ok world tr l)
  \/ exists pre st, fails_at world tr l pre st
     /\ run_plan world l tr
        = (inr (st_code st), tr ++ (st_call <$> pre) ++ st_call st :: st_cleanup st).
Proof.
  revert tr. induction l as [|st l IH]; intros tr.
  - left. cbn. by rewrite app_nil_r.
  - unfold run_plan in *. cbn [for_each]. rewrite K_bind_eq, run_step_eq.
    destruct (st_ok st (world tr (st_call st))) eqn:Hok.
    + destruct (IH (tr ++ [st_call st])) as [[-> Hall]|(pre & st' & ((post & ->) & Hpre & Hf) & ->)].
      * left. rewrite <-app_assoc. done.
      * right. exists (st :: pre), st'. split.
        -- split; [by exists post|]. split; [done|]. cbn. by rewrite <-app_assoc in Hf.
        -- cbn. by rewrite <-app_assoc.
    + right. exists [], st. split; [|done]. split; [by exists l|]. split; [done|].
      cbn. by rewrite app_nil_r.
Qed.

(** ** Lemmas: the code implements its plan *)

Section Implements.
Context (world : list kcall -> kcall -> Z).

(** The program [m] performs the plan [l], from every trace. *)
Definition implements (m : K unit) (l : list step) : Prop :=
  forall tr, m tr = run_plan world l tr.

Lemma implements_ret : implements (mret tt) [].
Proof. done. Qed.

Lemma implements_check k code : implements (check world k code) [plain k code].
Proof.
  intros tr. unfold run_plan. cbn [for_each]. rewrite K_bind_eq, run_step_eq. unfold check.
  rewrite K_bind_eq. cbn. unfold zero_ok. by destruct (world tr k =? 0).
Qed.

Lemma implements_check_ctx k code : implements (check_ctx world k code) [guarded k code].
Proof.
  intros tr. unfold run_plan. cbn [for_each]. rewrite K_bind_eq, run_step_eq. unfold check_ctx.
  rewrite K_bind_eq. cbn. unfold zero_ok. destruct (world tr k =? 0); [done|].
  rewrite K_bind_eq. cbn. by rewrite <-app_assoc.
Qed.

Lemma implements_bind m m' l l' : implements m l -> implements m' l' ->
  implements (m ≫= fun _ => m') (l ++ l').
Proof.
  intros Hm Hm' tr. rewrite run_plan_app, !K_bind_eq, Hm.
  destruct (run_plan world l tr) as [[[]|c] tr']; [apply Hm'|done].
Qed.

Lemma implements_for_each {A} (f : A -> K unit) (h : A -> list step) xs :
  (forall x, implements (f x) (h x)) -> implements (for_each f xs) (concat (h <$> xs)).
Proof. intros Hf tr. by apply for_each_ext. Qed.

Lemma implements_if (b : bool) m m' l l' : implements m l -> implements m' l' ->
  implements (if b then m else m') (if b then l else l').
Proof. by destruct b. Qed.

Context `{Libc}.

Lemma implements_allow_syscall sc :
  implements (allow_syscall world sc) ((fun r => guarded (KRuleAdd r) (-7)) <$> allow_rules sc).
Proof.
  unfold allow_syscall, allow_rules.
  repeat (case_match; [|]); cbn [fmap list_fmap]; try apply implements_check_ctx.
  apply (implements_bind _ _ [_] [_]); apply implements_check_ctx.
Qed.

Lemma implements_release :
  implements (call world KSeccompRelease ≫= fun _ => mret tt) [release_step].
Proof. done. Qed.

(** The body of [install_seccomp] once the context is known not to be null. *)
Lemma implements_rules ft env net :
  let '(allowed, errors) := get_allowed_syscalls ft env net in
  implements
    (for_each (allow_syscall world) allowed ≫= fun _ =>
     for_each (fun sc => check_ctx world (KRuleAdd (mkRule (SCMP_ACT_ERRNO EPERM) sc [])) (-8)) errors
       ≫= fun _ =>
     check_ctx world KSeccompLoad (-9) ≫= fun _ =>
     call world KSeccompRelease ≫= fun _ => mret tt)
    (rule_steps ft env net ++ [release_step]).
Proof.
  unfold rule_steps. destruct (get_allowed_syscalls ft env net) as [allowed errors].
  rewrite <-!app_assoc, <-(concat_fmap_fmap (fun r => guarded (KRuleAdd r) (-7))),
    <-(concat_fmap_singleton (fun sc => guarded (KRuleAdd (error_rule sc)) (-8))).
  apply implements_bind; [apply implements_for_each, implements_allow_syscall|].
  apply implements_bind; [apply implements_for_each; intros; apply implements_check_ctx|].
  apply implements_bind; [apply implements_check_ctx|apply implements_release].
Qed.

Lemma implements_install ft env net :
  implements (install_seccomp world ft env net) ([init_step] ++ rule_steps ft env net ++ [release_step]).
Proof.
  intros tr. rewrite (run_plan_app world [init_step]). unfold install_seccomp.
  rewrite !K_bind_eq. cbn [call]. unfold run_plan at 1. cbn [for_each].
  rewrite K_bind_eq, run_step_eq. cbn [st_ok st_call init_step st_code st_cleanup]. unfold nonnull.
  destruct (world tr _ =? 0); [done|]. cbn [negb].
  pose proof (implements_rules ft env net) as Hr.
  destruct (get_allowed_syscalls ft env net) as [allowed errors]. apply Hr.
Qed.

Lemma implements_init ft env uid gid net max_as privilege :
  implements (init_seccomp_k world ft env uid gid net max_as privilege)
    (plan ft env uid gid net max_as privilege).
Proof.
  unfold init_seccomp_k, plan, setup_steps. rewrite <-!app_assoc.
  apply implements_bind; [apply implements_if; [apply implements_ret|apply implements_check]|].
  destruct (privilege =? 0); cbn [negb].
  - apply (implements_bind _ _ [] _); [apply implements_ret|].
    apply implements_bind; [apply (implements_bind _ _ [_] [_]); apply implements_check|].
    apply (implements_bind _ _ [] _); [apply implements_ret|apply implements_install].
  - apply implements_bind; [apply (implements_bind _ _ [_] [_]); apply implements_check|].
    apply implements_bind; [apply (implements_bind _ _ [_] [_]); apply implements_check|].
    apply implements_bind; [|apply implements_install].
    apply (implements_bind _ _ [_] [_; _]); [apply implements_check|].
    apply (implements_bind _ _ [_] [_]); apply implements_check.
Qed.

End Implements.

(** The entry point in terms of its plan. *)
Lemma init_seccomp_plan world `{Libc} ft env uid gid net max_as privilege :
  let l := plan ft env uid gid net max_as privilege in
  (init_seccomp world ft env uid gid net max_as privilege = (0, st_call <$> l) /\ all_ok world [] l)
  \/ exists pre st, fails_at world [] l pre st
     /\ init_seccomp world ft env uid gid net max_as privilege
        = (st_code st, (st_call <$> pre) ++ st_call st :: st_cleanup st).
Proof.
  intros l. unfold init_seccomp.
  pose proof (implements_init world ft env uid gid net max_as privilege []) as Hi. fold l in Hi.
  rewrite Hi.
  destruct (run_plan_spec world l []) as [[E Hall]|(pre & st & Hf & E)]; rewrite E; [by left|].
  right. by exists pre, st.
Qed.

(** Every step that can fail returns a negative code. *)
Lemma plan_codes `{Libc} ft env uid gid net max_as privilege :
  Forall (fun st => st_code st < 0 \/ st = release_step) (plan ft env uid gid net max_as privilege).
Proof.
  unfold plan, setup_steps, rule_steps.
  destruct (get_allowed_syscalls ft env (negb (net =? 0))) as [allowed errors].
  rewrite !Forall_app, !Forall_fmap.
  split_and!; try (repeat constructor; cbn; lia);
    repeat (case_match; repeat constructor; cbn; try lia);
    try (apply Forall_forall; intros; left; cbn; lia).
Qed.

(** ** Lemmas: the filter *)

Section Filter.
Context `{Libc, Libseccomp}.

(** The environment gives no system call of its own. *)
Definition env_empty (env : option bytes) : Prop :=
  match env with
  | Some v => v = [] \/ omap parse_i32 (split_on Byte.x2c v) = []
  | None => True
  end.

Definition rule_matches (sc : Z) (args : list Z) (r : rule) : Prop :=
  r_syscall r = sc /\ forallb (fun c => cmp_holds c (nth (cmp_arg c) args 0)) (r_cmps r) = true.

(** What the calls of a process under the built-in tables should meet. *)
Definition allowed_names (ft : Feature) (net : bool) : list sysname :=
  ALLOW_SYSCALLS ft ++ (if net then ALLOW_NETWORK_SYSCALLS ft else []).



Lemma get_allowed_default ft env net : env_empty env ->
  get_allowed_syscalls ft env net = (SYS <$> allowed_names ft net, SYS <$> ALLOW_ERROR_SYSCALLS ft).
Proof.
  intros He. unfold get_allowed_syscalls, allowed_names. rewrite fmap_app.
  assert ((if net then SYS <$> ALLOW_NETWORK_SYSCALLS ft else []) =
          SYS <$> (if net then ALLOW_NETWORK_SYSCALLS ft else [])) as -> by (by destruct net).
  destruct env as [v|]; [|done]. destruct He as [->|E]; [done|].
  rewrite E. by destruct (bool_decide (v = [])).
Qed.

(** The two tables of a feature do not overlap. *)
Definition tables_disjoint (ft : Feature) : Prop :=
  forall s net, s ∈ allowed_names ft net -> s ∉ ALLOW_ERROR_SYSCALLS ft.

Lemma tables_disjoint_dec ft :
  forallb (fun s => negb (bool_decide (s ∈ ALLOW_ERROR_SYSCALLS ft)))
    (ALLOW_SYSCALLS ft ++ ALLOW_NETWORK_SYSCALLS ft) = true -> tables_disjoint ft.
Proof.
  rewrite forallb_forall. intros Hf s net Hs Herr.
  assert (s ∈ ALLOW_SYSCALLS ft ++ ALLOW_NETWORK_SYSCALLS ft) as Hin.
  { unfold allowed_names in Hs. destruct net; [done|]. rewrite app_nil_r in Hs.
    apply elem_of_app. by left. }
  apply list_elem_of_In, Hf in Hin. by rewrite bool_decide_true in Hin.
Qed.

Lemma python3_disjoint : tables_disjoint python3.
Proof. apply tables_disjoint_dec. vm_compute. reflexivity. Qed.
Lemma nodejs_disjoint : tables_disjoint nodejs.
Proof. apply tables_disjoint_dec. vm_compute. reflexivity. Qed.

(** A masked comparison with an empty mask holds of every argument. *)
Lemma cmp_zero_mask i v x : cmp_holds (mkCmp i SCMP_CMP_MASKED_EQ 0 v) x = true.
Proof. by rewrite cmp_holds_masked, !Z.land_0_r. Qed.

Lemma allow_rules_syscall sc r : r ∈ allow_rules sc -> r_syscall r = sc.
Proof.
  unfold allow_rules. repeat case_match; intros Hr;
    repeat (apply elem_of_cons in Hr as [->|Hr]; [done|]); by apply not_elem_of_nil in Hr.
Qed.

Lemma SYS_eqb a b : (SYS a =? SYS b) = bool_decide (a = b).
Proof.
  case_bool_decide as E; [subst; apply Z.eqb_refl|]. apply Z.eqb_neq. intros Hs. by apply E, SYS_inj.
Qed.

(** The action of every rule of an allowed call that matches. *)
Definition allowed_action (sc : Z) (args : list Z) : scmp_action :=
  if sc =? SYS SYS_ioctl then
    if nth 1 args 0 =? FIONBIO then SCMP_ACT_ALLOW else SCMP_ACT_ERRNO EPERM
  else SCMP_ACT_ALLOW.

(** What the rules as written do with a call: [policy] less its clause on
    [O_CREAT]. *)
Definition installed (ft : Feature) (net : bool) (sc : Z) (args : list Z) : scmp_action :=
  if bool_decide (sc ∈ SYS <$> allowed_names ft net) then allowed_action sc args
  else if bool_decide (sc ∈ SYS <$> ALLOW_ERROR_SYSCALLS ft) then SCMP_ACT_ERRNO EPERM
  else SCMP_ACT_KILL_PROCESS.




Lemma allowed_action_ALLOW s args : s <> SYS_ioctl -> allowed_action (SYS s) args = SCMP_ACT_ALLOW.
Proof. intros Hs. unfold allowed_action. by rewrite SYS_eqb, bool_decide_false. Qed.

Lemma allow_rules_action sc args r :
  r ∈ allow_rules sc -> rule_matches sc args r -> r_action r = allowed_action sc args.
Proof.
  unfold allow_rules, rule_matches. intros Hr [_ Hm].
  destruct (sc =? SYS SYS_openat) eqn:E1; [|destruct (sc =? SYS SYS_open) eqn:E2;
    [|destruct (sc =? SYS SYS_ioctl) eqn:E3]].
  - apply list_elem_of_singleton in Hr as ->. apply Z.eqb_eq in E1 as ->.
    by rewrite allowed_action_ALLOW.
  - apply list_elem_of_singleton in Hr as ->. apply Z.eqb_eq in E2 as ->.
    by rewrite allowed_action_ALLOW.
  - unfold allowed_action. rewrite E3. apply elem_of_cons in Hr as [->|Hr%list_elem_of_singleton]; subst; cbn in Hm |- *;
      rewrite ?cmp_holds_eq, ?cmp_holds_ne, andb_true_r in Hm; [by rewrite Hm|].
    apply negb_true_iff in Hm. by rewrite Hm.
  - apply list_elem_of_singleton in Hr as ->. unfold allowed_action. by rewrite E3.
Qed.

Lemma allow_rules_match sc args : exists r, r ∈ allow_rules sc /\ rule_matches sc args r.
Proof.
  unfold allow_rules, rule_matches. repeat case_match;
    try (eexists; split; [apply list_elem_of_here|]; cbn; rewrite ?cmp_zero_mask; done).
  destruct (nth 1 args 0 =? FIONBIO) eqn:E.
  - eexists. split; [apply list_elem_of_here|]. cbn. by rewrite cmp_holds_eq, E.
  - eexists. split; [apply list_elem_of_further, list_elem_of_here|]. cbn. by rewrite cmp_holds_ne, E.
Qed.

Lemma elem_of_filter_rules ft env net r : env_empty env ->
  r ∈ filter_rules ft env net <->
  (exists s, s ∈ allowed_names ft net /\ r ∈ allow_rules (SYS s))
  \/ (exists s, s ∈ ALLOW_ERROR_SYSCALLS ft /\ r = error_rule (SYS s)).
Proof.
  intros He. unfold filter_rules. rewrite get_allowed_default by done.
  rewrite elem_of_app, list_elem_of_In, in_concat. split.
  - intros [(l & Hl%list_elem_of_In & Hr%list_elem_of_In)|Hr].
    + left. apply list_elem_of_fmap in Hl as (sc & -> & (s & -> & Hs)%list_elem_of_fmap). eauto.
    + right. apply list_elem_of_fmap in Hr as (sc & -> & (s & -> & Hs)%list_elem_of_fmap). eauto.
  - intros [(s & Hs & Hr)|(s & Hs & ->)]; [left|right].
    + exists (allow_rules (SYS s)). split; apply list_elem_of_In; [|done].
      apply list_elem_of_fmap. exists (SYS s). split; [done|]. by apply list_elem_of_fmap_2.
    + apply list_elem_of_fmap. exists (SYS s). split; [done|]. by apply list_elem_of_fmap_2.
Qed.

Lemma elem_of_SYS s (l : list sysname) : SYS s ∈ SYS <$> l <-> s ∈ l.
Proof.
  split; [|by apply list_elem_of_fmap_2]. intros (s' & E & Hs)%list_elem_of_fmap.
  by apply SYS_inj in E as ->.
Qed.

Lemma filter_installed ft env net sc args : tables_disjoint ft -> env_empty env ->
  filter_action SCMP_ACT_KILL_PROCESS (filter_rules ft env net) sc args = installed ft net sc args.
Proof.
  intros Hd He. unfold installed. case_bool_decide as Ha; [|case_bool_decide as Hb].
  - apply list_elem_of_fmap in Ha as (s & -> & Hs).
    destruct (allow_rules_match (SYS s) args) as (r & Hr & Hsc & Hm).
    eapply (filter_matched _ _ _ _ _ r); [apply elem_of_filter_rules; eauto|done|done|].
    apply Forall_forall. intros r' Hr' Hsc' Hm'.
    apply elem_of_filter_rules in Hr' as [(s' & Hs' & Hr')|(s' & Hs' & ->)]; [| |done].
    + apply allow_rules_action; [|done].
      by rewrite (allow_rules_syscall _ _ Hr') in Hsc'; rewrite Hsc' in Hr'.
    + cbn in Hsc'. apply SYS_inj in Hsc' as ->. by apply Hd in Hs.
  - apply list_elem_of_fmap in Hb as (s & -> & Hs).
    eapply (filter_matched _ _ _ _ _ (error_rule (SYS s))); [apply elem_of_filter_rules; eauto|done|done|].
    apply Forall_forall. intros r' Hr' Hsc' Hm'.
    apply elem_of_filter_rules in Hr' as [(s' & Hs' & Hr')|(s' & Hs' & ->)]; [| done|done].
    exfalso. apply Ha. rewrite <-Hsc', (allow_rules_syscall _ _ Hr'). by apply list_elem_of_fmap_2.
  - apply filter_default. apply Forall_forall. intros r' Hr' Hsc'. exfalso.
    apply elem_of_filter_rules in Hr' as [(s' & Hs' & Hr')|(s' & Hs' & ->)]; [| |done].
    + apply Ha. rewrite <-Hsc', (allow_rules_syscall _ _ Hr'). by apply list_elem_of_fmap_2.
    + apply Hb. rewrite <-Hsc'. by apply (list_elem_of_fmap_2 SYS).
Qed.

End Filter.

(** ** Lemmas: success and release *)

Lemma all_ok_app world tr l1 l2 :
  all_ok world tr (l1 ++ l2) <-> all_ok world tr l1 /\ all_ok world (tr ++ (st_call <$> l1)) l2.
Proof.
  revert tr. induction l1 as [|st l1 IH]; intros tr; cbn.
  - rewrite app_nil_r. tauto.
  - rewrite IH, <-app_assoc. cbn. tauto.
Qed.

Definition releases (tr : list kcall) : nat := length (filter (fun k => k = KSeccompRelease) tr).
Definition inits (tr : list kcall) : nat :=
  length (filter (fun k => k = KSeccompInit SCMP_ACT_KILL_PROCESS) tr).

Lemma releases_app a b : releases (a ++ b) = (releases a + releases b)%nat.
Proof. unfold releases. by rewrite filter_app, length_app. Qed.
Lemma inits_app a b : inits (a ++ b) = (inits a + inits b)%nat.
Proof. unfold inits. by rewrite filter_app, length_app. Qed.

(** A step that neither creates nor releases the context. *)
Definition neutral (k : kcall) : Prop :=
  k <> KSeccompRelease /\ k <> KSeccompInit SCMP_ACT_KILL_PROCESS.

Lemma neutral_counts (l : list kcall) : Forall neutral l -> releases l = O /\ inits l = O.
Proof.
  induction 1 as [|k l [Hr Hi] _ [IH1 IH2]]; [done|]. unfold releases, inits in *.
  by rewrite !filter_cons_False.
Qed.

Lemma neutral_setup uid gid max_as privilege :
  Forall (fun st => neutral (st_call st) /\ st_cleanup st = [] /\ st_code st <> -6)
    (setup_steps uid gid max_as privilege).
Proof. unfold setup_steps. repeat case_match; repeat constructor; done. Qed.

Lemma neutral_rules `{Libc} ft env net :
  Forall (fun st => neutral (st_call st) /\ st_cleanup st = [KSeccompRelease] /\ st_code st <> -6)
    (rule_steps ft env net).
Proof.
  unfold rule_steps. destruct (get_allowed_syscalls ft env net) as [allowed errors].
  rewrite !Forall_app, !Forall_fmap. split_and!.
  - apply Forall_forall. done.
  - apply Forall_forall. done.
  - repeat constructor; done.
Qed.

Lemma neutral_calls (l : list step) Q : Forall (fun st => neutral (st_call st) /\ Q st) l ->
  releases (st_call <$> l) = O /\ inits (st_call <$> l) = O.
Proof. intros Hl. apply neutral_counts, Forall_fmap. eapply Forall_impl; [done|]. by intros st []. Qed.

(** A context that was created is released once, on every path. *)
Lemma run_plan_releases `{Libc} world ft env uid gid net max_as privilege :
  match run_plan world (plan ft env uid gid net max_as privilege) [] with
  | (inl _, tr) => releases tr = inits tr /\ inits tr = 1%nat
  | (inr code, tr) => releases tr = if code =? -6 then O else inits tr
  end.
Proof.
  unfold plan. rewrite run_plan_app, K_bind_eq.
  pose proof (neutral_setup uid gid max_as privilege) as Hset.
  destruct (run_plan_spec world (setup_steps uid gid max_as privilege) [])
    as [[-> _]|(pre & st & ((post & E) & _) & ->)].
  2: { rewrite E, Forall_app, Forall_cons in Hset. destruct Hset as (Hpre & (Hst & Hcl & Hcode) & _).
       destruct (neutral_calls _ _ Hpre) as [Hr Hi]. destruct (neutral_counts [st_call st]) as [Hr' Hi'];
         [by apply Forall_singleton|].
       rewrite Hcl. cbn [app]. rewrite releases_app, inits_app, Hr, Hi, Hr', Hi'. by case_match. }
  destruct (neutral_calls _ _ Hset) as [Hr Hi]. rewrite app_nil_l. cbv beta iota.
  rewrite run_plan_app, K_bind_eq. unfold run_plan at 1. cbn [for_each].
  rewrite K_bind_eq, run_step_eq. cbn [st_ok st_call init_step st_code st_cleanup].
  destruct (nonnull _); [|by rewrite releases_app, Hr]. unfold mret, K_ret. cbv beta iota.
  rewrite run_plan_app, K_bind_eq. pose proof (neutral_rules ft env (negb (net =? 0))) as Hrul.
  destruct (run_plan_spec world (rule_steps ft env (negb (net =? 0)))
    ((st_call <$> setup_steps uid gid max_as privilege) ++ [KSeccompInit SCMP_ACT_KILL_PROCESS]))
    as [[-> _]|(pre & st & ((post & E) & _) & ->)].
  - destruct (neutral_calls _ _ Hrul) as [Hr2 Hi2]. unfold run_plan. cbn [for_each].
    rewrite K_bind_eq, run_step_eq. cbn.
    rewrite !releases_app, !inits_app, Hr, Hi, Hr2, Hi2. done.
  - rewrite E, Forall_app, Forall_cons in Hrul. destruct Hrul as (Hpre & (Hst & Hcl & Hcode) & _).
    destruct (neutral_calls _ _ Hpre) as [Hr2 Hi2]. destruct (neutral_counts [st_call st]) as [Hr' Hi'];
      [by apply Forall_singleton|].
    rewrite Hcl. change (st_call st :: [KSeccompRelease]) with ([st_call st] ++ [KSeccompRelease]).
    rewrite !releases_app, !inits_app, Hr, Hi, Hr2, Hi2, Hr', Hi'.
    apply Z.eqb_neq in Hcode. by rewrite Hcode.
Qed.

(** In a plan that succeeded, every call succeeded. *)
Lemma all_ok_at world tr l pre k post : all_ok world tr l -> st_call <$> l = pre ++ k :: post ->
  exists st, st ∈ l /\ st_call st = k /\ st_ok st (world (tr ++ pre) k) = true.
Proof.
  intros Hall (l1 & l2 & -> & E2 & ->)%fmap_app_inv.
  destruct l2 as [|st l2]; [done|]. cbn in E2. injection E2 as Ek Ep. subst.
  apply all_ok_app in Hall as [_ [Hok _]]. exists st.
  split; [apply elem_of_app; right; apply list_elem_of_here|done].
Qed.

Lemma plan_zero_ok `{Libc} ft env uid gid net max_as privilege :
  Forall (fun st => st_ok st = zero_ok \/ st = init_step \/ st = release_step)
    (plan ft env uid gid net max_as privilege).
Proof.
  unfold plan, setup_steps, rule_steps.
  destruct (get_allowed_syscalls ft env (negb (net =? 0))) as [allowed errors].
  rewrite !Forall_app, !Forall_fmap.
  split_and!; try (apply Forall_forall; intros; by left); repeat case_match; repeat constructor;
    (by left) || (by right; left) || (by right; right).
Qed.

Lemma plan_calls_privileged `{Libc} ft env uid gid net max_as privilege : privilege <> 0 ->
  st_call <$> plan ft env uid gid net max_as privilege =
  (if max_as =? 0 then [] else [KSetrlimitAS max_as])
  ++ [KChroot (str "."); KChdir (str "/"); KPrctlNoNewPrivs; KPrctlNotDumpable;
      KSetgroupsEmpty; KSetgid gid; KSetuid uid; KSeccompInit SCMP_ACT_KILL_PROCESS]
  ++ (KRuleAdd <$> filter_rules ft env (negb (net =? 0))) ++ [KSeccompLoad; KSeccompRelease].
Proof.
  intros Hp. unfold plan, setup_steps, rule_steps, filter_rules.
  destruct (get_allowed_syscalls ft env (negb (net =? 0))) as [allowed errors].
  apply Z.eqb_neq in Hp. rewrite Hp, !fmap_app, <-!app_assoc, <-!list_fmap_compose.
  by destruct (max_as =? 0).
Qed.

(** The rules a run added to its filter. *)
Definition rules_added (tr : list kcall) : list rule :=
  omap (fun k => match k with KRuleAdd r => Some r | _ => None end) tr.

Lemma plan_calls `{Libc} ft env uid gid net max_as privilege :
  st_call <$> plan ft env uid gid net max_as privilege =
  (st_call <$> setup_steps uid gid max_as privilege) ++ [KSeccompInit SCMP_ACT_KILL_PROCESS]
  ++ (KRuleAdd <$> filter_rules ft env (negb (net =? 0))) ++ [KSeccompLoad; KSeccompRelease].
Proof.
  unfold plan, rule_steps, filter_rules.
  destruct (get_allowed_syscalls ft env (negb (net =? 0))) as [allowed errors].
  by rewrite !fmap_app, <-!app_assoc, <-!list_fmap_compose.
Qed.

Lemma rules_added_rules rs : rules_added (KRuleAdd <$> rs) = rs.
Proof. induction rs as [|r rs IH]; [done|]. cbn. by f_equal. Qed.

(** A set-up that reports success made every call of its plan. *)
Lemma init_seccomp_success world `{Libc} ft env uid gid net max_as privilege tr :
  init_seccomp world ft env uid gid net max_as privilege = (0, tr) ->
  tr = st_call <$> plan ft env uid gid net max_as privilege
  /\ all_ok world [] (plan ft env uid gid net max_as privilege).
Proof.
  intros E. destruct (init_seccomp_plan world ft env uid gid net max_as privilege)
    as [[E' Hall]|(pre & st & Hf & E')]; rewrite E in E'; [by simplify_eq|].
  exfalso. destruct Hf as ((post & El) & _ & Hbad).
  pose proof (plan_codes ft env uid gid net max_as privilege) as Hc.
  rewrite El, Forall_app, Forall_cons in Hc. destruct Hc as (_ & [Hneg| ->] & _); [|done].
  simplify_eq. lia.
Qed.

(** Its filter is the one of the tables, and it was loaded. *)
Lemma rules_added_success world `{Libc} ft env uid gid net max_as privilege tr :
  init_seccomp world ft env uid gid net max_as privilege = (0, tr) ->
  rules_added tr = filter_rules ft env (negb (net =? 0)) /\ KSeccompLoad ∈ tr.
Proof.
  intros [-> _]%init_seccomp_success. rewrite plan_calls. split.
  - unfold rules_added. rewrite !omap_app. fold (rules_added (KRuleAdd <$> filter_rules ft env (negb (net =? 0)))).
    rewrite rules_added_rules.
    assert (omap (fun k => match k with KRuleAdd r => Some r | _ => None end)
      (st_call <$> setup_steps uid gid max_as privilege) = []) as ->.
    { unfold setup_steps. by destruct (max_as =? 0), (privilege =? 0). }
    cbn. by rewrite app_nil_r.
  - rewrite !elem_of_app. do 3 right. left.
Qed.

(** ** Concrete interfaces, for the witnesses *)

(** The x86_64 Linux numbers. *)
Definition sys_x86_64 (s : sysname) : Z :=
  match s with
    | SYS_read => 0
    | SYS_write => 1
    | SYS_openat => 257
    | SYS_close => 3
    | SYS_newfstatat => 262
    | SYS_statx => 332
    | SYS_fstat => 5
    | SYS_lseek => 8
    | SYS_getdents64 => 217
    | SYS_fcntl => 72
    | SYS_pread64 => 17
    | SYS_readv => 19
    | SYS_writev => 20
    | SYS_rt_sigreturn => 15
    | SYS_rt_sigaction => 13
    | SYS_rt_sigprocmask => 14
    | SYS_sigaltstack => 131
    | SYS_ioctl => 16
    | SYS_futex => 202
    | SYS_set_tid_address => 218
    | SYS_sched_getaffinity => 204
    | SYS_mmap => 9
    | SYS_brk => 12
    | SYS_mprotect => 10
    | SYS_munmap => 11
    | SYS_mremap => 25
    | SYS_madvise => 28
    | SYS_getuid => 102
    | SYS_getpid => 39
    | SYS_getppid => 110
    | SYS_gettid => 186
    | SYS_exit => 60
    | SYS_exit_group => 231
    | SYS_sched_yield => 24
    | SYS_set_robust_list => 273
    | SYS_get_robust_list => 274
    | SYS_rseq => 334
    | SYS_clock_gettime => 228
    | SYS_gettimeofday => 96
    | SYS_time => 201
    | SYS_nanosleep => 35
    | SYS_clock_nanosleep => 230
    | SYS_epoll_create1 => 291
    | SYS_epoll_ctl => 233
    | SYS_pselect6 => 270
    | SYS_eventfd2 => 290
    | SYS_pipe2 => 293
    | SYS_getrandom => 318
    | SYS_getcwd => 79
    | SYS_uname => 63
    | SYS_clone => 56
    | SYS_clone3 => 435
    | SYS_mkdirat => 258
    | SYS_mkdir => 83
    | SYS_tgkill => 234
    | SYS_prlimit64 => 302
    | SYS_socket => 41
    | SYS_connect => 42
    | SYS_bind => 49
    | SYS_listen => 50
    | SYS_accept => 43
    | SYS_sendto => 44
    | SYS_recvfrom => 45
    | SYS_getsockname => 51
    | SYS_recvmsg => 47
    | SYS_getpeername => 52
    | SYS_setsockopt => 54
    | SYS_ppoll => 271
    | SYS_sendmsg => 46
    | SYS_sendmmsg => 307
    | SYS_getsockopt => 55
    | SYS_fstatfs => 138
    | SYS_poll => 7
    | SYS_epoll_pwait => 281
    | SYS_open => 2
    | SYS_readlink => 89
    | SYS_dup3 => 292
    | SYS_fsync => 74
  end.

Definition all_sysnames : list sysname :=
  [
   SYS_read; SYS_write; SYS_openat; SYS_close; SYS_newfstatat; SYS_statx; SYS_fstat; SYS_lseek;
   SYS_getdents64; SYS_fcntl; SYS_pread64; SYS_readv; SYS_writev; SYS_rt_sigreturn;
   SYS_rt_sigaction; SYS_rt_sigprocmask; SYS_sigaltstack; SYS_ioctl; SYS_futex;
   SYS_set_tid_address; SYS_sched_getaffinity; SYS_mmap; SYS_brk; SYS_mprotect; SYS_munmap;
   SYS_mremap; SYS_madvise; SYS_getuid; SYS_getpid; SYS_getppid; SYS_gettid; SYS_exit;
   SYS_exit_group; SYS_sched_yield; SYS_set_robust_list; SYS_get_robust_list; SYS_rseq;
   SYS_clock_gettime; SYS_gettimeofday; SYS_time; SYS_nanosleep; SYS_clock_nanosleep;
   SYS_epoll_create1; SYS_epoll_ctl; SYS_pselect6; SYS_eventfd2; SYS_pipe2; SYS_getrandom;
   SYS_getcwd; SYS_uname; SYS_clone; SYS_clone3; SYS_mkdirat; SYS_mkdir; SYS_tgkill;
   SYS_prlimit64; SYS_socket; SYS_connect; SYS_bind; SYS_listen; SYS_accept; SYS_sendto;
   SYS_recvfrom; SYS_getsockname; SYS_recvmsg; SYS_getpeername; SYS_setsockopt; SYS_ppoll;
   SYS_sendmsg; SYS_sendmmsg; SYS_getsockopt; SYS_fstatfs; SYS_poll; SYS_epoll_pwait; SYS_open;
   SYS_readlink; SYS_dup3; SYS_fsync
  ].

Lemma all_sysnames_complete s : s ∈ all_sysnames.
Proof. apply (bool_decide_unpack _). destruct s; vm_compute; exact I. Qed.

Lemma sys_x86_64_inj a b : sys_x86_64 a = sys_x86_64 b -> a = b.
Proof.
  assert (forallb (fun a => forallb (fun b => negb (sys_x86_64 a =? sys_x86_64 b) || bool_decide (a = b))
    all_sysnames) all_sysnames = true) as Hall by (vm_compute; reflexivity).
  rewrite forallb_forall in Hall. specialize (Hall a (proj1 (list_elem_of_In _ _) (all_sysnames_complete a))).
  rewrite forallb_forall in Hall. specialize (Hall b (proj1 (list_elem_of_In _ _) (all_sysnames_complete b))).
  intros E. rewrite E, Z.eqb_refl in Hall. by apply bool_decide_eq_true in Hall.
Qed.

Definition libc_x86_64 : Libc := {|
  SYS := sys_x86_64; O_CREAT := 64; EPERM := 1;
  SYS_inj := sys_x86_64_inj;
  SYS_range := fun a => ltac:(destruct a; vm_compute; split; discriminate);
  O_CREAT_bit := ltac:(vm_compute; reflexivity)
|}.

(** A filter in which the first matching rule decides. *)
Definition demo_cmp_holds (c : scmp_arg_cmp) (v : Z) : bool :=
  match cmp_op c with
  | SCMP_CMP_EQ => v =? datum_a c
  | SCMP_CMP_NE => negb (v =? datum_a c)
  | SCMP_CMP_MASKED_EQ => Z.land v (datum_a c) =? Z.land (datum_b c) (datum_a c)
  end.

Fixpoint demo_filter (d : scmp_action) (rs : list rule) (sc : Z) (args : list Z) : scmp_action :=
  match rs with
  | [] => d
  | r :: rs =>
    if (r_syscall r =? sc)
       && forallb (fun c => demo_cmp_holds c (nth (cmp_arg c) args 0)) (r_cmps r)
    then r_action r else demo_filter d rs sc args
  end.

Definition libseccomp_demo : Libseccomp.
Proof.
  refine {| cmp_holds := demo_cmp_holds; filter_action := demo_filter |}; try done.
  - intros d rs sc args Hall. induction Hall as [|r rs Hr _ IH]; [done|]. cbn.
    destruct (Z.eqb_spec (r_syscall r) sc) as [E|]; [|done]. by rewrite (Hr E).
  - intros d rs sc args a r Hin Hsc Hm Hall. induction rs as [|r' rs IH]; [by apply not_elem_of_nil in Hin|].
    apply Forall_cons in Hall as [Hr' Hall]. cbn.
    destruct (Z.eqb_spec (r_syscall r') sc) as [E|E]; cbn.
    + case_match eqn:Hm'; [by apply Hr'|]. apply elem_of_cons in Hin as [->|Hin]; [congruence|by apply IH].
    + apply elem_of_cons in Hin as [->|Hin]; [congruence|by apply IH].
Defined.

(** ** Properties *)

(** C14. The sandbox set-up follows its plan on every behaviour of the kernel:
    either every call of the plan is made, in order, and succeeds, and the
    status is 0; or the status is the negative code of the first call that
    fails, and nothing is called after it but the release of a filter context
    already created. *)
Theorem init_seccomp_follows_plan world `{Libc} ft env uid gid net max_as privilege :
  let l := plan ft env uid gid net max_as privilege in
  (init_seccomp world ft env uid gid net max_as privilege = (0, st_call <$> l) /\ all_ok world [] l)
  \/ exists pre st, fails_at world [] l pre st /\ st_code st < 0
     /\ init_seccomp world ft env uid gid net max_as privilege
        = (st_code st, (st_call <$> pre) ++ st_call st :: st_cleanup st).
Proof.
  intros l. destruct (init_seccomp_plan world ft env uid gid net max_as privilege)
    as [Hok|(pre & st & Hf & E)]; [by left|]. right. exists pre, st. split; [done|]. split; [|done].
  destruct Hf as ((post & El) & _ & Hbad).
  pose proof (plan_codes ft env uid gid net max_as privilege) as Hc. fold l in El, Hc.
  rewrite El, Forall_app, Forall_cons in Hc. destruct Hc as (_ & [Hneg| ->] & _); [done|]. by cbn in Hbad.
Qed.

(** Fail-closed: a privileged set-up that reports success has changed
    root, forbidden new privileges, dropped groups, gid and uid, in this
    order and each successfully, and only then loaded a filter made of exactly
    the rules of the tables. *)
Theorem privileged_success_established world `{Libc} ft env uid gid net max_as privilege tr :
  init_seccomp world ft env uid gid net max_as privilege = (0, tr) -> privilege <> 0 ->
  tr = (if max_as =? 0 then [] else [KSetrlimitAS max_as])
       ++ [KChroot (str "."); KChdir (str "/"); KPrctlNoNewPrivs; KPrctlNotDumpable;
           KSetgroupsEmpty; KSetgid gid; KSetuid uid; KSeccompInit SCMP_ACT_KILL_PROCESS]
       ++ (KRuleAdd <$> filter_rules ft env (negb (net =? 0))) ++ [KSeccompLoad; KSeccompRelease]
  /\ forall pre k post, tr = pre ++ k :: post ->
       k <> KSeccompInit SCMP_ACT_KILL_PROCESS -> k <> KSeccompRelease -> world pre k = 0.
Proof.
  intros [-> Hall]%init_seccomp_success Hp.
  split; [by apply plan_calls_privileged|]. intros pre k post Ek Hi Hr.
  destruct (all_ok_at _ _ _ _ _ _ Hall Ek) as (st & Hst & <- & Hok). rewrite app_nil_l in Hok.
  pose proof (plan_zero_ok ft env uid gid net max_as privilege) as Hz.
  rewrite Forall_forall in Hz. destruct (Hz st Hst) as [Hz'|[->| ->]]; [|done|done].
  rewrite Hz' in Hok. unfold zero_ok in Hok. lia.
Qed.

Lemma privileged_success_established_witness :
  exists tr, init_seccomp (fun _ k => match k with KSeccompInit _ => 1 | _ => 0 end)
    (H := libc_x86_64) python3 None 65537 65537 0 268435456 1 = (0, tr)
  /\ KSeccompLoad ∈ tr /\ KSetuid 65537 ∈ tr.
Proof.
  eexists. split; [vm_compute; reflexivity|].
  match goal with |- _ ∈ ?tr /\ _ => set (t := tr) end.
  assert (Ht := proj1 (privileged_success_established
    (fun _ k => match k with KSeccompInit _ => 1 | _ => 0 end) (H := libc_x86_64)
    python3 None 65537 65537 0 268435456 1 t eq_refl ltac:(discriminate))).
  rewrite Ht. split; apply (bool_decide_unpack _); vm_compute; exact I.
Defined.

(** A filter context that was created is released exactly once, on the
    success path and on every error path; when none was created none is
    released. *)
Theorem seccomp_context_released world `{Libc} ft env uid gid net max_as privilege :
  let '(code, tr) := init_seccomp world ft env uid gid net max_as privilege in
  releases tr = if code =? -6 then O else inits tr.
Proof.
  unfold init_seccomp.
  pose proof (implements_init world ft env uid gid net max_as privilege []) as Hi. rewrite Hi.
  pose proof (run_plan_releases world ft env uid gid net max_as privilege) as Hr.
  destruct (run_plan world _ []) as [[u|code] tr]; [|done]. cbn. apply Hr.
Qed.


(** A kernel on which every call succeeds. *)
Definition kernel_ok (tr : list kcall) (k : kcall) : Z := match k with KSeccompInit _ => 1 | _ => 0 end.


(** Network calls need the network: after a successful set-up with the
    network disabled, every call of the network table that is not also in the
    base table kills the process. *)
Theorem network_disabled_kills world `{Libc, Libseccomp} ft env uid gid max_as privilege tr s args :
  ft = python3 \/ ft = nodejs -> env_empty env ->
  init_seccomp world ft env uid gid 0 max_as privilege = (0, tr) ->
  s ∈ ALLOW_NETWORK_SYSCALLS ft -> s ∉ ALLOW_SYSCALLS ft ->
  filter_action SCMP_ACT_KILL_PROCESS (rules_added tr) (SYS s) args = SCMP_ACT_KILL_PROCESS.
Proof.
  intros Hft He [Hr _]%rules_added_success Hs Hb. rewrite Hr.
  assert (tables_disjoint ft) as Hd by (destruct Hft as [->| ->]; [apply python3_disjoint|apply nodejs_disjoint]).
  rewrite filter_installed by done. unfold installed.
  rewrite !bool_decide_false; [done|..]; rewrite elem_of_SYS.
  - apply (Hd s true). unfold allowed_names. apply elem_of_app. by right.
  - unfold allowed_names. by rewrite app_nil_r.
Qed.

(** [socket] under Python's filter. *)
Lemma network_disabled_kills_witness :
  exists tr, init_seccomp kernel_ok (H := libc_x86_64) python3 None 65537 65537 0 268435456 1 = (0, tr)
  /\ filter_action (Libseccomp := libseccomp_demo) SCMP_ACT_KILL_PROCESS (rules_added tr) 41 [2; 1; 0; 0; 0; 0]
     = SCMP_ACT_KILL_PROCESS.
Proof.
  eexists. split; [vm_compute; reflexivity|].
  match goal with |- filter_action _ (rules_added ?tr) _ _ = _ => set (t := tr) end.
  apply (network_disabled_kills kernel_ok (H := libc_x86_64) (H0 := libseccomp_demo) python3 None
    65537 65537 268435456 1 t SYS_socket).
  - by left.
  - done.
  - vm_compute. reflexivity.
  - apply (bool_decide_unpack _). vm_compute. exact I.
  - apply (bool_decide_unpack _). vm_compute. exact I.
Defined.

(** C34. File creation is not filtered: the comparison installed for [openat]
    and [open] has mask 0 (the mask and the value are swapped with respect to
    [SCMP_CMP_MASKED_EQ]), so it holds of every flags argument, and a call with
    [O_CREAT] set is allowed like any other. *)
Theorem creation_flag_not_filtered world `{Libc, Libseccomp} ft env uid gid net max_as privilege tr s args :
  (ft = python3 /\ s = SYS_openat) \/ (ft = nodejs /\ (s = SYS_openat \/ s = SYS_open)) ->
  env_empty env ->
  init_seccomp world ft env uid gid net max_as privilege = (0, tr) ->
  filter_action SCMP_ACT_KILL_PROCESS (rules_added tr) (SYS s) args = SCMP_ACT_ALLOW.
Proof.
  intros Hs He [Hr _]%rules_added_success. rewrite Hr, filter_installed; [|destruct Hs as [[-> _]|[-> _]];
    [apply python3_disjoint|apply nodejs_disjoint]|done].
  unfold installed. rewrite bool_decide_true.
  - apply (allowed_action_ALLOW s args). intros ->. by destruct Hs as [[_ ?]|[_ [?|?]]].
  - apply elem_of_SYS. unfold allowed_names. apply elem_of_app. left.
    destruct Hs as [[-> ->]|[-> [->| ->]]]; apply (bool_decide_unpack _); vm_compute; exact I.
Qed.

(** [openat(AT_FDCWD, path, O_RDWR | O_CREAT)]: the flags are 0o102. *)
Lemma creation_flag_not_filtered_witness :
  exists tr, init_seccomp kernel_ok (H := libc_x86_64) python3 None 65537 65537 1 0 0 = (0, tr)
  /\ filter_action (Libseccomp := libseccomp_demo) SCMP_ACT_KILL_PROCESS (rules_added tr) 257 [-100; 0; 66; 0; 0; 0]
     = SCMP_ACT_ALLOW.
Proof.
  eexists. split; [vm_compute; reflexivity|].
  match goal with |- filter_action _ (rules_added ?tr) _ _ = _ => set (t := tr) end.
  apply (creation_flag_not_filtered kernel_ok (H := libc_x86_64) (H0 := libseccomp_demo) python3 None
    65537 65537 1 0 0 t SYS_openat).
  - left. done.
  - done.
  - vm_compute. reflexivity.
Defined.

(** Landlock reports success only when a ruleset restricted to exactly the
    given UTF-8 paths is at least partially enforced, and never for an empty
    list of paths. *)
Theorem apply_landlock_success `{Landlock} paths :
  apply_landlock paths = 0 <->
  exists l, paths = Some l /\ filter (fun p => utf8_valid p = true) l <> []
    /\ (restrict_self (filter (fun p => utf8_valid p = true) l) = Some FullyEnforced
        \/ restrict_self (filter (fun p => utf8_valid p = true) l) = Some PartiallyEnforced).
Proof.
  unfold apply_landlock. split.
  - destruct paths as [l|]; [|done]. case_bool_decide as Hne; [done|]. intros Hs.
    exists l. split; [done|]. split; [done|]. repeat case_match; simplify_eq; auto.
  - intros (l & -> & Hne & Hs). rewrite bool_decide_false by done. by destruct Hs as [->| ->].
Qed.
