(* ===== verification/Crypto.v ===== *)
(** * Crypto: encryption of the code in transit

    [server/src/crypto.rs] on the Rust side and its two counterparts in the
    interpreters: [decrypt] of [runtime/prescript.py] (the slow path) and [_xor]
    of [runtime/pool/zygote_worker.py] (the zygote path, chunked big-integer
    arithmetic).  The base64 engine is an interface with the laws of RFC 4648
    that the program relies on; random bytes are a parameter. *)

From S2P Require Import Prelude RustStd.

(** ** Interfaces *)

(** The standard base64 alphabet and its padding character. *)
Definition b64_char (b : byte) : bool :=
  in_range 65 90 b || in_range 97 122 b || in_range 48 57 b
  || in_range 43 43 b || in_range 47 47 b || in_range 61 61 b.

(** [base64::engine::general_purpose::STANDARD]; a failed decoding carries the
    [Display] text of its error. *)
Class Base64 := {
  b64_encode : bytes -> bytes;
  b64_decode : bytes -> bytes + bytes;
  b64_decode_encode : forall d, b64_decode (b64_encode d) = inl d;
  b64_encode_chars : forall d, Forall (fun b => b64_char b = true) (b64_encode d);
  b64_encode_nonempty : forall d, d <> [] -> b64_encode d <> []
}.

(** Python's [base64.b64decode], on what the server's engine produces: it raises
    unless [py_b64_valid], and then returns [py_b64decode]. *)
Class PyBase64 `{Base64} := {
  py_b64_valid : bytes -> bool;
  py_b64decode : bytes -> bytes;
  py_b64_valid_encode : forall d, py_b64_valid (b64_encode d) = true;
  py_b64decode_encode : forall d, py_b64decode (b64_encode d) = d
}.

(** The draws of [rand::rng] for one request: as many bytes as asked for. *)
Class Rng := {
  fill_bytes : nat -> bytes;
  fill_bytes_length : forall n, length (fill_bytes n) = n
}.

(** ** crypto.rs *)

Definition byte_xor (a b : byte) : byte := Z_to_byte (Z.lxor (byte_to_Z a) (byte_to_Z b)).

(** [key[i % key.len()]] for the [i]-th byte. *)
Definition key_at (key : bytes) (i : nat) : byte := nth (i mod length key) key Byte.x00.

Definition xor_stream (key code : bytes) : bytes := imap (fun i b => byte_xor b (key_at key i)) code.

(** [None] is the panic of [i % 0] on the first byte under an empty key. *)
Definition encrypt_code `{Base64} (code key : bytes) : option bytes :=
  match code, key with
  | _ :: _, [] => None
  | _, _ => Some (b64_encode (xor_stream key code))
  end.

(** [rng.fill_bytes] on a vector of [length] bytes. *)
Definition generate_key `{Rng} (length : nat) : bytes := fill_bytes length.

(** ** prescript.py *)

(** [decrypt]: the loop [code[i] = code[i] ^ key[i % key_len]]; [None] is the
    ZeroDivisionError under an empty key. *)
Fixpoint decrypt_loop (key : bytes) (i : nat) (code : bytes) : bytes :=
  match code with
  | [] => []
  | b :: code => byte_xor b (key_at key i) :: decrypt_loop key (S i) code
  end.

Definition decrypt (code key : bytes) : option bytes :=
  match code, key with
  | _ :: _, [] => None
  | _, _ => Some (decrypt_loop key 0 code)
  end.

(** ** zygote_worker.py *)

(** [int.from_bytes(l, "big")] *)
Fixpoint int_from_bytes (l : bytes) : Z :=
  match l with
  | [] => 0
  | b :: l => byte_to_Z b * 2 ^ (8 * Z.of_nat (length l)) + int_from_bytes l
  end.

(** [z.to_bytes(n, "big")] for [z < 256 ** n] *)
Fixpoint int_to_bytes (n : nat) (z : Z) : bytes :=
  match n with
  | O => []
  | S n => Z_to_byte (z / 2 ^ (8 * Z.of_nat n)) :: int_to_bytes n (z mod 2 ^ (8 * Z.of_nat n))
  end.

(** [key * n] *)
Definition bytes_repeat (key : bytes) (n : nat) : bytes := concat (repeat key n).

Definition keystream (key : bytes) (seg_len : nat) : bytes :=
  bytes_repeat key (seg_len / length key) ++ take (seg_len mod length key) key.

(** [max(kl, (65536 // kl) * kl)] *)
Definition xor_chunk_size (kl : nat) : nat :=
  Z.to_nat (Z.max (Z.of_nat kl) ((65536 / Z.of_nat kl) * Z.of_nat kl)).

(** The [while i < n] loop, [data] being [mv[i:]]. *)
Fixpoint xor_loop (fuel : nat) (key : bytes) (chunk : nat) (data : bytes) : bytes :=
  match fuel, data with
  | _, [] => []
  | O, _ => []
  | S fuel, _ =>
    let seg := take chunk data in
    let seg_len := length seg in
    int_to_bytes seg_len (Z.lxor (int_from_bytes seg) (int_from_bytes (keystream key seg_len)))
    ++ xor_loop fuel key chunk (drop chunk data)
  end.

(** [_xor]; [None] is the ZeroDivisionError of [65536 // 0]. *)
Definition py_xor (data key : bytes) : option bytes :=
  match data, key with
  | [], _ => Some []
  | _, [] => None
  | _, _ => Some (xor_loop (length data) key (xor_chunk_size (length key)) data)
  end.

(** ** Lemmas: xor *)

Lemma lxor_bound a b n : 0 <= n -> 0 <= a < 2 ^ n -> 0 <= b < 2 ^ n -> 0 <= Z.lxor a b < 2 ^ n.
Proof.
  intros Hn Ha Hb.
  assert (Z.lxor a b mod 2 ^ n = Z.lxor a b) as <-.
  { rewrite <-(Z.mod_small a (2 ^ n)) at 2 by lia. rewrite <-(Z.mod_small b (2 ^ n)) at 2 by lia.
    rewrite <-!Z.land_ones by lia. apply Z.bits_inj'. intros i Hi.
    rewrite Z.land_spec, !Z.lxor_spec, !Z.land_spec.
    by destruct (Z.testbit a i), (Z.testbit b i), (Z.testbit (Z.ones n) i). }
  apply Z.mod_pos_bound. lia.
Qed.

(** Exclusive or acts on the two halves of a number separately. *)
Lemma lxor_split x y r s n : 0 <= n -> 0 <= r < 2 ^ n -> 0 <= s < 2 ^ n ->
  Z.lxor (x * 2 ^ n + r) (y * 2 ^ n + s) = Z.lxor x y * 2 ^ n + Z.lxor r s.
Proof.
  intros Hn Hr Hs. rewrite <-!lor_shiftl_add by (done || by apply lxor_bound).
  apply Z.bits_inj'. intros i Hi. rewrite !Z.lxor_spec, !Z.lor_spec, !Z.lxor_spec.
  rewrite !Z.shiftl_spec, Z.lxor_spec by done.
  destruct (Z.lt_ge_cases i n).
  - by rewrite !(Z.testbit_neg_r _ (i - n)) by lia.
  - assert (forall z, 0 <= z < 2 ^ n -> Z.testbit z i = false) as Hz.
    { intros z Hz. destruct (Z.eq_dec z 0) as [->|]; [apply Z.bits_0|].
      apply Z.bits_above_log2; [lia|]. apply Z.log2_lt_pow2; [lia|].
      eapply Z.lt_le_trans; [apply Hz|]. apply Z.pow_le_mono_r; lia. }
    rewrite (Hz r Hr), (Hz s Hs), !orb_false_r. done.
Qed.

Lemma byte_xor_Z a b : byte_to_Z (byte_xor a b) = Z.lxor (byte_to_Z a) (byte_to_Z b).
Proof.
  unfold byte_xor. rewrite byte_to_Z_to_byte. apply Z.mod_small.
  apply (lxor_bound _ _ 8); [lia|apply byte_to_Z_range..].
Qed.

Lemma byte_xor_involutive a b : byte_xor (byte_xor a b) b = a.
Proof.
  apply byte_to_Z_inj. by rewrite !byte_xor_Z, Z.lxor_assoc, Z.lxor_nilpotent, Z.lxor_0_r.
Qed.

Lemma int_from_bytes_bound l : 0 <= int_from_bytes l < 2 ^ (8 * Z.of_nat (length l)).
Proof.
  induction l as [|b l IH]; [done|]. cbn [int_from_bytes length].
  replace (8 * Z.of_nat (S (length l))) with (8 + 8 * Z.of_nat (length l)) by lia.
  rewrite Z.pow_add_r by lia. pose proof (byte_to_Z_range b). nia.
Qed.

(** The big-integer exclusive or of two byte strings is the bytewise one. *)
Lemma int_xor_bytes a b : length a = length b ->
  int_to_bytes (length a) (Z.lxor (int_from_bytes a) (int_from_bytes b)) = zip_with byte_xor a b.
Proof.
  revert b. induction a as [|x a IH]; intros [|y b] Hl; try done. injection Hl as Hl.
  cbn [length int_to_bytes int_from_bytes zip_with].
  pose proof (int_from_bytes_bound a) as Ha. pose proof (int_from_bytes_bound b) as Hb.
  rewrite <-Hl in Hb |- *. assert (0 <= 8 * Z.of_nat (length a)) as Hn by lia.
  rewrite (lxor_split _ _ _ _ _ Hn Ha Hb).
  pose proof (lxor_bound _ _ _ Hn Ha Hb) as Hx.
  set (p := 2 ^ (8 * Z.of_nat (length a))) in *.
  rewrite Z.div_add_l, (Z.div_small (Z.lxor _ _) p), Z.add_0_r by lia.
  rewrite Z.add_comm, Z_mod_plus_full, (Z.mod_small (Z.lxor _ _) p) by lia.
  by rewrite IH.
Qed.

(** ** Lemmas: the key stream *)

(** The key bytes used from position [i] on. *)
Definition stream (key : bytes) (i n : nat) : bytes := key_at key <$> seq i n.

Lemma length_stream key i n : length (stream key i n) = n.
Proof. unfold stream. by rewrite length_fmap, length_seq. Qed.

Lemma stream_app key i n m : stream key i (n + m) = stream key i n ++ stream key (i + n) m.
Proof. unfold stream. by rewrite seq_app, fmap_app. Qed.

Lemma stream_shift key i n : key <> [] -> stream key (i + length key) n = stream key i n.
Proof.
  intros Hk. assert (length key <> 0)%nat by (by destruct key).
  unfold stream. revert i. induction n as [|n IH]; intros i; [done|].
  cbn [seq]. rewrite !fmap_cons. f_equal; [|apply (IH (S i))].
  unfold key_at. f_equal. rewrite <-(Nat.mul_1_l (length key)) at 1. apply Nat.Div0.mod_add.
Qed.

Lemma stream_shift_mul key q n : key <> [] -> stream key (q * length key) n = stream key 0 n.
Proof.
  intros Hk. induction q as [|q IH]; [done|].
  replace (S q * length key)%nat with (q * length key + length key)%nat by lia.
  by rewrite stream_shift.
Qed.

Lemma stream_take key n : (n <= length key)%nat -> stream key 0 n = take n key.
Proof.
  intros Hn. apply list_eq. intros i. unfold stream. rewrite list_lookup_fmap.
  destruct (decide (i < n)%nat) as [Hi|Hi].
  - rewrite lookup_seq_lt, lookup_take_lt by done. cbn. unfold key_at.
    rewrite Nat.mod_small by lia.
    destruct (lookup_lt_is_Some_2 key i) as [b Hb]; [lia|]. rewrite Hb. f_equal.
    by apply nth_lookup_Some.
  - rewrite lookup_seq_ge, lookup_take_ge by lia. done.
Qed.

Lemma stream_repeat key n : key <> [] -> stream key 0 (n * length key) = bytes_repeat key n.
Proof.
  intros Hk. unfold bytes_repeat. induction n as [|n IH]; [done|].
  cbn [repeat concat Nat.mul]. rewrite stream_app, Nat.add_0_l.
  rewrite <-(Nat.add_0_l (length key)) at 2. rewrite stream_shift, IH by done.
  by rewrite stream_take, firstn_all by lia.
Qed.

Lemma keystream_stream key n : key <> [] -> keystream key n = stream key 0 n.
Proof.
  intros Hk. unfold keystream. assert (length key <> 0)%nat by (by destruct key).
  rewrite (Nat.div_mod_eq n (length key)) at 3.
  rewrite (Nat.mul_comm (length key)), stream_app, stream_repeat by done. f_equal.
  rewrite Nat.add_0_l, stream_shift_mul by done. symmetry. apply stream_take.
  pose proof (Nat.mod_upper_bound n (length key)). lia.
Qed.

(** ** Lemmas: the three implementations agree *)

Lemma xor_zip key i code :
  imap (fun j b => byte_xor b (key_at key (i + j)%nat)) code
  = zip_with byte_xor code (stream key i (length code)).
Proof.
  revert i. induction code as [|b code IH]; intros i; [done|]. unfold stream in *. cbn.
  rewrite Nat.add_0_r. f_equal. rewrite <-IH. apply imap_ext. intros j x _. cbn.
  by rewrite Nat.add_succ_r.
Qed.

Lemma xor_stream_zip key code : xor_stream key code = zip_with byte_xor code (stream key 0 (length code)).
Proof. apply (xor_zip key 0). Qed.

Lemma decrypt_loop_zip key i code :
  decrypt_loop key i code = zip_with byte_xor code (stream key i (length code)).
Proof. revert i. induction code as [|b code IH]; intros i; [done|]. cbn. by rewrite IH. Qed.

Lemma xor_stream_involutive key code : xor_stream key (xor_stream key code) = code.
Proof.
  unfold xor_stream. apply list_eq. intros i. rewrite !list_lookup_imap.
  destruct (code !! i); cbn; [|done]. by rewrite byte_xor_involutive.
Qed.

Lemma xor_chunk_size_aligned kl : (0 < kl)%nat ->
  exists q, (0 < q)%nat /\ xor_chunk_size kl = (q * kl)%nat.
Proof.
  intros Hkl. unfold xor_chunk_size. set (q := 65536 / Z.of_nat kl).
  assert (0 <= q) by (apply Z.div_pos; lia).
  destruct (Z.le_gt_cases q 1) as [Hq|Hq].
  - exists 1%nat. split; [lia|]. rewrite Z.max_l by nia. lia.
  - exists (Z.to_nat q). split; [lia|]. rewrite Z.max_r by nia. nia.
Qed.

Lemma xor_loop_zip fuel key q data : key <> [] -> (0 < q)%nat -> (length data <= fuel)%nat ->
  xor_loop fuel key (q * length key) data = zip_with byte_xor data (stream key 0 (length data)).
Proof.
  intros Hk Hq. assert (length key <> 0)%nat by (by destruct key). revert data.
  induction fuel as [|fuel IH]; intros data Hf; [by destruct data; [|simpl in Hf; lia]|].
  destruct data as [|b data]; [done|]. cbn [xor_loop]. set (d := b :: data) in *.
  set (c := (q * length key)%nat). assert (0 < c)%nat by (unfold c; nia).
  rewrite keystream_stream, int_xor_bytes by (done || by rewrite length_stream).
  rewrite IH by (rewrite length_drop; unfold d in *; cbn [length] in *; lia).
  trans (zip_with byte_xor (take c d ++ drop c d)
           (stream key 0 (length (take c d) + length (drop c d)))).
  2: { by rewrite <-length_app, take_drop. }
  rewrite stream_app, Nat.add_0_l, zip_with_app by (by rewrite length_stream). f_equal.
  destruct (Nat.le_gt_cases (length d) c) as [Hle|Hgt]; [by rewrite drop_ge|].
  rewrite length_take_le by lia. unfold c. by rewrite stream_shift_mul.
Qed.

Lemma py_xor_zip data key : key <> [] ->
  py_xor data key = Some (zip_with byte_xor data (stream key 0 (length data))).
Proof.
  intros Hk. destruct data as [|b data]; [done|]. unfold py_xor. destruct key as [|k key]; [done|].
  destruct (xor_chunk_size_aligned (length (k :: key))) as (q & Hq & ->); [simpl; lia|].
  by rewrite xor_loop_zip.
Qed.

Lemma decrypt_zip data key : key <> [] ->
  decrypt data key = Some (zip_with byte_xor data (stream key 0 (length data))).
Proof.
  intros Hk. destruct data as [|b data]; [done|]. unfold decrypt. destruct key as [|k key]; [done|].
  by rewrite decrypt_loop_zip.
Qed.

(** ** A reference base64 engine (RFC 4648), an instance of the interfaces *)

Module Rfc4648.

Definition alphabet : bytes :=
  str "ABCDEFGHIJKLMNOPQRSTUVWXYZabcdefghijklmnopqrstuvwxyz0123456789+/".

Definition chr (v : Z) : byte := nth (Z.to_nat v) alphabet Byte.x00.

Definition val (b : byte) : option Z :=
  let z := byte_to_Z b in
  if in_range 65 90 b then Some (z - 65)
  else if in_range 97 122 b then Some (z - 71)
  else if in_range 48 57 b then Some (z + 4)
  else if in_range 43 43 b then Some 62
  else if in_range 47 47 b then Some 63
  else None.

Definition pad : byte := Byte.x3d.

Fixpoint encode (d : bytes) : bytes :=
  match d with
  | [] => []
  | [b0] => let n := byte_to_Z b0 in [chr (n / 4); chr (n mod 4 * 16); pad; pad]
  | [b0; b1] =>
    let n := byte_to_Z b0 * 256 + byte_to_Z b1 in
    [chr (n / 1024); chr (n / 16 mod 64); chr (n mod 16 * 4); pad]
  | b0 :: b1 :: b2 :: d =>
    let n := byte_to_Z b0 * 65536 + byte_to_Z b1 * 256 + byte_to_Z b2 in
    chr (n / 262144) :: chr (n / 4096 mod 64) :: chr (n / 64 mod 64) :: chr (n mod 64) :: encode d
  end.

Definition invalid : bytes := str "invalid base64".

(** Strict decoding: padding is required and the unused bits are zero. *)
Fixpoint decode (s : bytes) : bytes + bytes :=
  match s with
  | [] => inl []
  | c0 :: c1 :: c2 :: c3 :: s =>
    match val c0, val c1, val c2, val c3 with
    | Some v0, Some v1, Some v2, Some v3 =>
      match decode s with
      | inl d =>
        let n := v0 * 262144 + v1 * 4096 + v2 * 64 + v3 in
        inl (Z_to_byte (n / 65536) :: Z_to_byte (n / 256) :: Z_to_byte n :: d)
      | inr e => inr e
      end
    | Some v0, Some v1, Some v2, None =>
      if bool_decide (c3 = pad) && bool_decide (s = []) && (v2 mod 4 =? 0) then
        let n := v0 * 1024 + v1 * 16 + v2 / 4 in inl [Z_to_byte (n / 256); Z_to_byte n]
      else inr invalid
    | Some v0, Some v1, None, None =>
      if bool_decide (c2 = pad) && bool_decide (c3 = pad) && bool_decide (s = []) && (v1 mod 16 =? 0)
      then inl [Z_to_byte (v0 * 4 + v1 / 16)] else inr invalid
    | _, _, _, _ => inr invalid
    end
  | _ => inr invalid
  end.

Definition all_sextets : list Z := Z.of_nat <$> seq 0 64.

Lemma sextet_elem v : 0 <= v < 64 -> v ∈ all_sextets.
Proof.
  intros Hv. apply list_elem_of_fmap. exists (Z.to_nat v). split; [lia|].
  apply elem_of_seq. lia.
Qed.

Lemma chr_table :
  Forall (fun v => val (chr v) = Some v /\ b64_char (chr v) = true) all_sextets.
Proof. apply (bool_decide_unpack _). by vm_compute. Qed.

Lemma chr_spec v : 0 <= v < 64 -> val (chr v) = Some v /\ b64_char (chr v) = true.
Proof.
  intros Hv%sextet_elem. pose proof chr_table as H. rewrite Forall_forall in H. by apply H.
Qed.

Lemma val_chr v : 0 <= v < 64 -> val (chr v) = Some v.
Proof. apply chr_spec. Qed.

Lemma val_pad : val pad = None.
Proof. done. Qed.

Lemma Z_to_byte_eq z b : z mod 256 = byte_to_Z b -> Z_to_byte z = b.
Proof. intros H. apply byte_to_Z_inj. by rewrite byte_to_Z_to_byte. Qed.

#[local] Arguments chr : simpl never.
#[local] Arguments val : simpl never.

(** Induction three bytes at a time. *)
Lemma bytes_ind3 (P : bytes -> Prop) :
  P [] -> (forall a, P [a]) -> (forall a b, P [a; b]) ->
  (forall a b c l, P l -> P (a :: b :: c :: l)) -> forall l, P l.
Proof.
  intros H0 H1 H2 H3 l. induction l as [l IH] using list_length_ind.
  destruct l as [|a [|b [|c l]]]; [done..|]. apply H3, IH. simpl. lia.
Qed.

Ltac sextets :=
  repeat match goal with
  | |- context [byte_to_Z ?b] =>
    lazymatch goal with
    | H : 0 <= byte_to_Z b < 256 |- _ => fail
    | _ => pose proof (byte_to_Z_range b)
    end
  end.

(** [lia] with quotients and remainders. *)
Ltac dm_lia := Z.to_euclidean_division_equations; lia.

Lemma decode_encode d : decode (encode d) = inl d.
Proof.
  induction d as [|b0|b0 b1|b0 b1 b2 d IH] using bytes_ind3; [done|..]; cbn [encode decode]; sextets.
  - rewrite !val_chr, val_pad by dm_lia. rewrite !bool_decide_true by done.
    replace (byte_to_Z b0 mod 4 * 16 mod 16 =? 0) with true by dm_lia. cbn [andb].
    do 2 f_equal. apply Z_to_byte_eq. dm_lia.
  - rewrite !val_chr, val_pad by dm_lia. rewrite !bool_decide_true by done.
    set (n := byte_to_Z b0 * 256 + byte_to_Z b1).
    replace (n mod 16 * 4 mod 4 =? 0) with true by dm_lia. cbn [andb].
    f_equal. f_equal; [|f_equal]; apply Z_to_byte_eq; dm_lia.
  - rewrite !val_chr by dm_lia. rewrite IH.
    set (n := byte_to_Z b0 * 65536 + byte_to_Z b1 * 256 + byte_to_Z b2).
    replace (n / 262144 * 262144 + n / 4096 mod 64 * 4096 + n / 64 mod 64 * 64 + n mod 64) with n by dm_lia.
    f_equal. f_equal; [|f_equal; [|f_equal]]; apply Z_to_byte_eq; dm_lia.
Qed.

Lemma encode_chars d : Forall (fun b => b64_char b = true) (encode d).
Proof.
  induction d as [|b0|b0 b1|b0 b1 b2 d IH] using bytes_ind3; [by constructor|..]; cbn [encode]; sextets;
    repeat (constructor; [first [done | apply chr_spec; dm_lia]|]); first [done | by constructor].
Qed.

Lemma encode_nonempty d : d <> [] -> encode d <> [].
Proof. by destruct d as [|b0 [|b1 [|b2 d]]]. Qed.

Definition base64 : Base64 :=
  {| b64_encode := encode; b64_decode := decode;
     b64_decode_encode := decode_encode; b64_encode_chars := encode_chars;
     b64_encode_nonempty := encode_nonempty |}.

Definition lenient (s : bytes) : bytes := match decode s with inl d => d | inr _ => [] end.

Lemma lenient_encode d : lenient (encode d) = d.
Proof. unfold lenient. by rewrite decode_encode. Qed.

Definition valid (s : bytes) : bool := match decode s with inl _ => true | inr _ => false end.

Lemma valid_encode d : valid (encode d) = true.
Proof. unfold valid. by rewrite decode_encode. Qed.

Definition py_base64 : @PyBase64 base64 := @Build_PyBase64 base64 valid lenient valid_encode lenient_encode.

End Rfc4648.

(** ** Theorems *)

(** The chunked big-integer [_xor] of the zygote worker computes, for every
    input and key, exactly what the byte-by-byte [decrypt] of the prescript
    computes: same bytes on success, and both divide by zero on exactly the
    same inputs (a non-empty text under an empty key). *)
Theorem worker_xor_is_prescript_decrypt data key : py_xor data key = decrypt data key.
Proof.
  destruct key as [|k key]; [by destruct data|]. by rewrite py_xor_zip, decrypt_zip.
Qed.

(** C28. Code in transit arrives intact on both paths: under a non-empty key
    [encrypt_code] succeeds, and both interpreters recover the original bytes
    from the base64 texts of the code and of the key. *)
Theorem code_transit_roundtrip `{PyBase64} code key :
  key <> [] ->
  exists enc, encrypt_code code key = Some enc
    /\ decrypt (py_b64decode enc) (py_b64decode (b64_encode key)) = Some code
    /\ py_xor (py_b64decode enc) (py_b64decode (b64_encode key)) = Some code.
Proof.
  intros Hk. exists (b64_encode (xor_stream key code)). split.
  { unfold encrypt_code. by destruct code, key. }
  rewrite !py_b64decode_encode, decrypt_zip, py_xor_zip, <-xor_stream_zip, xor_stream_involutive by done.
  done.
Qed.

Lemma code_transit_roundtrip_witness :
  @encrypt_code Rfc4648.base64 (str "hello world") (str "k3y") = Some (str "A1YVB1xZHFwLB1c=")
  /\ exists enc, @encrypt_code Rfc4648.base64 (str "hello world") (str "k3y") = Some enc
    /\ decrypt (@py_b64decode _ Rfc4648.py_base64 enc)
         (@py_b64decode _ Rfc4648.py_base64 (@b64_encode Rfc4648.base64 (str "k3y"))) = Some (str "hello world")
    /\ py_xor (@py_b64decode _ Rfc4648.py_base64 enc)
         (@py_b64decode _ Rfc4648.py_base64 (@b64_encode Rfc4648.base64 (str "k3y"))) = Some (str "hello world").
Proof.
  split; [by vm_compute|].
  apply (@code_transit_roundtrip Rfc4648.base64 Rfc4648.py_base64 (str "hello world") (str "k3y")).
  by vm_compute.
Defined.
