(* ===== verification/Config.v ===== *)
(** * Config: the server's configuration

    [server/src/config.rs]: the configuration records, the defaults given in
    the [serde] attributes, the environment overrides and [Config::load].  The
    TOML library is a parameter: [Toml] yields the fields a document holds,
    each already of its Rust type, or an error; which fields are required and
    what the others default to is the program's and is modelled here. *)

From S2P Require Import Prelude RustStd.

(** ** Data *)

Record AppConfig := { port : Z; debug : bool; app_key : bytes }.

Record ProxyConfig := { socks5 : bytes; http : bytes; https : bytes }.

Record Config := {
  app : AppConfig;
  max_workers : Z;
  worker_timeout : Z;
  enable_network : bool;
  enable_preload : bool;
  privilege : bool;
  python_zygote : bool;
  python_zygote_preload_modules : list bytes;
  python_path : bytes;
  nodejs_path : bytes;
  python_lib_paths : list bytes;
  nodejs_lib_paths : list bytes;
  sandbox_user : bytes;
  sandbox_uid : Z;
  sandbox_gid : Z;
  python_max_as_bytes : Z;
  nodejs_max_as_bytes : Z;
  nodejs_max_old_space_mb : Z;
  proxy : ProxyConfig
}.

(** ** Proxy variables *)

Definition is_empty {A} (l : list A) : bool := match l with [] => true | _ => false end.

Definition non_empty (s : bytes) : option bytes := if is_empty s then None else Some s.

Definition socks5_option (p : ProxyConfig) : option bytes := non_empty (socks5 p).
Definition http_option (p : ProxyConfig) : option bytes := non_empty (http p).
Definition https_option (p : ProxyConfig) : option bytes := non_empty (https p).

Definition proxy_env_vars (p : ProxyConfig) : list (bytes * bytes) :=
  match socks5_option p with
  | Some s => [(str "HTTPS_PROXY", s); (str "HTTP_PROXY", s)]
  | None =>
    match https_option p with Some h => [(str "HTTPS_PROXY", h)] | None => [] end
    ++ match http_option p with Some h => [(str "HTTP_PROXY", h)] | None => [] end
  end.

(** ** Defaults *)

Definition default_max_workers : Z := 4.
Definition default_worker_timeout : Z := 30.
Definition default_true : bool := true.
Definition default_python_path : bytes := str "/usr/local/bin/python3".
Definition default_nodejs_path : bytes := str "/usr/bin/node".
Definition default_zygote_modules : list bytes :=
  str <$> ["json"; "re"; "math"; "datetime"; "collections"; "itertools"; "functools"; "base64";
           "hashlib"; "random"; "decimal"; "string"; "orjson"]%string.
Definition default_sandbox_uid : Z := 65537.
Definition default_sandbox_gid : Z := 65537.
Definition default_python_max_as_bytes : Z := 256 * 1024 * 1024.
Definition default_nodejs_max_as_bytes : Z := 512 * 1024 * 1024.
Definition default_nodejs_max_old_space_mb : Z := 256.
Definition default_python_lib_paths : list bytes :=
  str <$> ["/usr/local/lib/python3.12"; "/usr/lib/python3"; "/usr/lib/x86_64-linux-gnu";
           "/etc/ssl/certs/ca-certificates.crt"; "/etc/nsswitch.conf"; "/etc/hosts";
           "/etc/resolv.conf"; "/etc/localtime"]%string.
Definition default_nodejs_lib_paths : list bytes :=
  str <$> ["/etc/ssl/certs/ca-certificates.crt"; "/etc/nsswitch.conf"; "/etc/resolv.conf";
           "/etc/hosts"]%string.

(** ** Deserialisation *)

(** The fields present in a document, each of its Rust type. *)
Record Document := {
  d_app : option (option Z * option bool * option bytes);
  d_max_workers : option Z;
  d_worker_timeout : option Z;
  d_enable_network : option bool;
  d_enable_preload : option bool;
  d_privilege : option bool;
  d_python_zygote : option bool;
  d_python_zygote_preload_modules : option (list bytes);
  d_python_path : option bytes;
  d_nodejs_path : option bytes;
  d_python_lib_paths : option (list bytes);
  d_nodejs_lib_paths : option (list bytes);
  d_sandbox_user : option bytes;
  d_sandbox_uid : option Z;
  d_sandbox_gid : option Z;
  d_python_max_as_bytes : option Z;
  d_nodejs_max_as_bytes : option Z;
  d_nodejs_max_old_space_mb : option Z;
  d_proxy : option (option bytes * option bytes * option bytes)
}.

Definition opt {A} (d : A) (o : option A) : A := match o with Some a => a | None => d end.

(** [port] and [key] have no [serde(default)]: they are required. *)
Definition app_of (a : option Z * option bool * option bytes) : option AppConfig :=
  match a with
  | (Some p, d, Some k) => Some {| port := p; debug := opt false d; app_key := k |}
  | _ => None
  end.

Definition proxy_of (p : option (option bytes * option bytes * option bytes)) : ProxyConfig :=
  match p with
  | Some (s, h, hs) => {| socks5 := opt [] s; http := opt [] h; https := opt [] hs |}
  | None => {| socks5 := []; http := []; https := [] |}
  end.

Definition config_of (d : Document) : option Config :=
  a ← d_app d; a ← app_of a;
  Some {|
    app := a;
    max_workers := opt default_max_workers (d_max_workers d);
    worker_timeout := opt default_worker_timeout (d_worker_timeout d);
    enable_network := opt default_true (d_enable_network d);
    enable_preload := opt false (d_enable_preload d);
    privilege := opt default_true (d_privilege d);
    python_zygote := opt false (d_python_zygote d);
    python_zygote_preload_modules := opt default_zygote_modules (d_python_zygote_preload_modules d);
    python_path := opt default_python_path (d_python_path d);
    nodejs_path := opt default_nodejs_path (d_nodejs_path d);
    python_lib_paths := opt default_python_lib_paths (d_python_lib_paths d);
    nodejs_lib_paths := opt default_nodejs_lib_paths (d_nodejs_lib_paths d);
    sandbox_user := opt [] (d_sandbox_user d);
    sandbox_uid := opt default_sandbox_uid (d_sandbox_uid d);
    sandbox_gid := opt default_sandbox_gid (d_sandbox_gid d);
    python_max_as_bytes := opt default_python_max_as_bytes (d_python_max_as_bytes d);
    nodejs_max_as_bytes := opt default_nodejs_max_as_bytes (d_nodejs_max_as_bytes d);
    nodejs_max_old_space_mb := opt default_nodejs_max_old_space_mb (d_nodejs_max_old_space_mb d);
    proxy := proxy_of (d_proxy d)
  |}.

(** The width of every integer field, which [serde] enforces when it
    deserialises one. *)
Definition fits (hi : Z) (o : option Z) : Prop := forall z, o = Some z -> 0 <= z <= hi.

Record document_wf (d : Document) : Prop := {
  wf_port : forall p b k, d_app d = Some (p, b, k) -> fits u16_max p;
  wf_max_workers : fits usize_max (d_max_workers d);
  wf_worker_timeout : fits u64_max (d_worker_timeout d);
  wf_sandbox_uid : fits u32_max (d_sandbox_uid d);
  wf_sandbox_gid : fits u32_max (d_sandbox_gid d);
  wf_python_max_as : fits u64_max (d_python_max_as_bytes d);
  wf_nodejs_max_as : fits u64_max (d_nodejs_max_as_bytes d);
  wf_old_space : fits u32_max (d_nodejs_max_old_space_mb d)
}.

(** [toml::from_str], up to the choice of the struct's fields. *)
Class Toml := {
  toml_document : bytes -> option Document;
  toml_document_wf : forall s d, toml_document s = Some d -> document_wf d
}.

Definition toml_from_str `{Toml} (content : bytes) : option Config :=
  d ← toml_document content; config_of d.

(** ** Environment overrides *)

(** [std::env::var]: [None] when the variable is unset or not Unicode. *)
Abbreviation Env := (bytes -> option bytes).

Definition env_var (env : Env) (name : string) : option bytes := env (str name).

(** [if let Ok(v) = var(name) { if let Ok(n) = v.parse() { field = n } }] *)
Definition over_parsed (parse : bytes -> option Z) (env : Env) (name : string) (old : Z) : Z :=
  match env_var env name with
  | Some v => match parse v with Some n => n | None => old end
  | None => old
  end.

Definition over_string (env : Env) (name : string) (old : bytes) : bytes :=
  match env_var env name with Some v => v | None => old end.

Definition truthy (v : bytes) : bool :=
  bool_decide (v = str "1") || bool_decide (v = str "true") || bool_decide (v = str "yes").

Definition over_flag (env : Env) (name : string) (old : bool) : bool :=
  match env_var env name with Some v => truthy v | None => old end.

Definition comma : byte := Byte.x2c.

Definition over_paths (env : Env) (name : string) (old : list bytes) : list bytes :=
  match env_var env name with Some v => trim <$> split_on comma v | None => old end.

Definition override_with_env (env : Env) (c : Config) : Config := {|
  app := {|
    port := over_parsed parse_u16 env "SANDBOX_PORT" (port (app c));
    debug := debug (app c);
    app_key := over_string env "SANDBOX_API_KEY" (app_key (app c))
  |};
  max_workers := over_parsed parse_usize env "MAX_WORKERS" (max_workers c);
  worker_timeout := over_parsed parse_u64 env "WORKER_TIMEOUT" (worker_timeout c);
  enable_network := over_flag env "ENABLE_NETWORK" (enable_network c);
  enable_preload := over_flag env "ENABLE_PRELOAD" (enable_preload c);
  privilege := over_flag env "PRIVILEGE" (privilege c);
  python_zygote := over_flag env "PYTHON_ZYGOTE" (python_zygote c);
  python_zygote_preload_modules := python_zygote_preload_modules c;
  python_path := over_string env "PYTHON_PATH" (python_path c);
  nodejs_path := over_string env "NODEJS_PATH" (nodejs_path c);
  python_lib_paths := over_paths env "PYTHON_LIB_PATH" (python_lib_paths c);
  nodejs_lib_paths := over_paths env "NODEJS_LIB_PATH" (nodejs_lib_paths c);
  sandbox_user := sandbox_user c;
  sandbox_uid := sandbox_uid c;
  sandbox_gid := sandbox_gid c;
  python_max_as_bytes := over_parsed parse_u64 env "PYTHON_MAX_AS_BYTES" (python_max_as_bytes c);
  nodejs_max_as_bytes := over_parsed parse_u64 env "NODEJS_MAX_AS_BYTES" (nodejs_max_as_bytes c);
  nodejs_max_old_space_mb :=
    over_parsed parse_u32 env "NODE_MAX_OLD_SPACE_MB"
      (over_parsed parse_u32 env "NODEJS_MAX_OLD_SPACE_MB" (nodejs_max_old_space_mb c));
  proxy := {|
    socks5 := over_string env "SOCKS5_PROXY" (socks5 (proxy c));
    http := over_string env "HTTP_PROXY" (http (proxy c));
    https := over_string env "HTTPS_PROXY" (https (proxy c))
  |}
|}.

Inductive LoadError := ReadFailed | ParseFailed.

(** [Config::load]; [file] is what [fs::read_to_string] yields. *)
Definition load `{Toml} (file : option bytes) (env : Env) : Config + LoadError :=
  match file with
  | None => inr ReadFailed
  | Some content =>
    match toml_from_str content with
    | None => inr ParseFailed
    | Some cfg => inl (override_with_env env cfg)
    end
  end.

(** ** Invariant: every integer field fits its Rust type *)

Record config_wf (c : Config) : Prop := {
  cw_port : 0 <= port (app c) <= u16_max;
  cw_max_workers : 0 <= max_workers c <= usize_max;
  cw_worker_timeout : 0 <= worker_timeout c <= u64_max;
  cw_sandbox_uid : 0 <= sandbox_uid c <= u32_max;
  cw_sandbox_gid : 0 <= sandbox_gid c <= u32_max;
  cw_python_max_as : 0 <= python_max_as_bytes c <= u64_max;
  cw_nodejs_max_as : 0 <= nodejs_max_as_bytes c <= u64_max;
  cw_old_space : 0 <= nodejs_max_old_space_mb c <= u32_max
}.

Lemma over_parsed_range hi env name old : 0 <= hi -> 0 <= old <= hi ->
  0 <= over_parsed (parse_unsigned hi) env name old <= hi.
Proof.
  intros Hhi Ho. unfold over_parsed. repeat case_match; try done. by eapply parse_unsigned_range.
Qed.

Lemma over_parsed_decimal hi env name old z : 0 <= z <= hi ->
  env_var env name = Some (to_string_unsigned z) -> over_parsed (parse_unsigned hi) env name old = z.
Proof. intros Hz He. unfold over_parsed. by rewrite He, parse_to_string. Qed.

Lemma opt_fits hi d o : 0 <= d <= hi -> fits hi o -> 0 <= opt d o <= hi.
Proof. intros Hd Ho. destruct o; simpl; auto. Qed.

Lemma config_of_wf d c : document_wf d -> config_of d = Some c -> config_wf c.
Proof.
  intros Hd. unfold config_of. destruct (d_app d) as [[[p b] k]|] eqn:Ea; [|done]. cbn.
  destruct p as [p|]; [|done]. destruct k as [k|]; [|done]. intros [= <-].
  pose proof (wf_port d Hd _ _ _ Ea p eq_refl).
  split; cbn; try (apply opt_fits; [|apply Hd]); done.
Qed.

Lemma override_wf env c : config_wf c -> config_wf (override_with_env env c).
Proof. 
  intros []. split; cbn [override_with_env port app max_workers worker_timeout sandbox_uid sandbox_gid
    python_max_as_bytes nodejs_max_as_bytes nodejs_max_old_space_mb];
    repeat apply over_parsed_range; try done.
Qed.

(** What [serde] checks of the file the overrides keep. *)
Lemma load_wf `{Toml} file env c : load file env = inl c -> config_wf c.
Proof.
  unfold load, toml_from_str. destruct file as [s|]; [|done].
  destruct (toml_document s) as [d|] eqn:Ed; [|done]. cbn [mbind option_bind].
  destruct (config_of d) as [c0|] eqn:Ec; [|done]. intros [= <-].
  apply override_wf. eapply config_of_wf; [|done]. by eapply toml_document_wf.
Qed.

(** ** The documented variables

    The README's table of configuration keys: for each key the variables that
    set it, the texts that write a value, the texts Rust's [parse] refuses at
    the key's type, and when two configurations agree on the key. *)

Record Row := mkRow {
  row_names : list string;
  row_writes : Config -> bytes -> Prop;
  row_refused : bytes -> Prop;
  row_agree : Config -> Config -> Prop
}.

Definition number_row (names : list string) (hi : Z) (f : Config -> Z) : Row :=
  mkRow names (fun c v => v = to_string_unsigned (f c)) (fun v => parse_unsigned hi v = None) (fun a b => f a = f b).
Definition text_row (name : string) (f : Config -> bytes) : Row :=
  mkRow [name] (fun c v => v = f c) (fun _ => False) (fun a b => f a = f b).
Definition flag_row (name : string) (f : Config -> bool) : Row :=
  mkRow [name] (fun c v => f c = true <-> v ∈ [str "1"; str "true"; str "yes"]) (fun _ => False) (fun a b => f a = f b).
Definition list_row (name : string) (f : Config -> list bytes) : Row :=
  mkRow [name] (fun c v => v = join (str ",") (f c)) (fun _ => False) (fun a b => f a = f b).

Definition readme_rows : list Row :=
  [number_row ["SANDBOX_PORT"] u16_max (fun c => port (app c));
   text_row "SANDBOX_API_KEY" (fun c => app_key (app c));
   number_row ["MAX_WORKERS"] usize_max max_workers;
   number_row ["WORKER_TIMEOUT"] u64_max worker_timeout;
   flag_row "ENABLE_NETWORK" enable_network;
   flag_row "ENABLE_PRELOAD" enable_preload;
   flag_row "PRIVILEGE" privilege;
   flag_row "PYTHON_ZYGOTE" python_zygote;
   text_row "PYTHON_PATH" python_path;
   text_row "NODEJS_PATH" nodejs_path;
   number_row ["PYTHON_MAX_AS_BYTES"] u64_max python_max_as_bytes;
   number_row ["NODEJS_MAX_AS_BYTES"] u64_max nodejs_max_as_bytes;
   list_row "PYTHON_LIB_PATH" python_lib_paths;
   list_row "NODEJS_LIB_PATH" nodejs_lib_paths;
   text_row "SOCKS5_PROXY" (fun c => socks5 (proxy c));
   text_row "HTTP_PROXY" (fun c => http (proxy c));
   text_row "HTTPS_PROXY" (fun c => https (proxy c));
   number_row ["NODE_MAX_OLD_SPACE_MB"; "NODEJS_MAX_OLD_SPACE_MB"] u32_max nodejs_max_old_space_mb]%string.

(** A list the variables can write: not empty, no comma or outer blank. *)
Definition writable (l : list bytes) : Prop :=
  l <> [] /\ Forall (fun s => comma ∉ s /\ trim s = s) l.

(** The variables of a row that are set write the value of [c], or are refused. *)
Definition row_set (env : Env) (c : Config) (r : Row) : Prop :=
  forall n v, n ∈ row_names r -> env_var env n = Some v -> row_writes r c v \/ row_refused r v.

Lemma row_unset env c r : Forall (fun n => env_var env n = None) (row_names r) -> row_set env c r.
Proof. rewrite Forall_forall. intros Hn n v Hin Hv. by rewrite Hn in Hv. Qed.

Lemma row_one env c n w f a :
  (forall v, env_var env n = Some v -> w c v \/ f v) -> row_set env c (mkRow [n] w f a).
Proof. intros Hv m v ->%list_elem_of_singleton. apply Hv. Qed.

(** The row of [c'] is that of [c] when a variable writes it, else that of [c0]. *)
Definition row_read (env : Env) (c c0 c' : Config) (r : Row) : Prop :=
  ((exists n v, n ∈ row_names r /\ env_var env n = Some v /\ row_writes r c v) -> row_agree r c' c)
  /\ ((forall n v, n ∈ row_names r -> env_var env n = Some v -> row_refused r v) -> row_agree r c' c0).

Lemma split_join l : l <> [] -> Forall (fun s => comma ∉ s) l -> split_on comma (join (str ",") l) = l.
Proof.
  intros Hne Hl. induction Hl as [|s l Hs Hl IH]; [done|]. destruct l as [|s' l].
  - clear -Hs. cbn [join]. induction s as [|b s IH]; [done|]. apply not_elem_of_cons in Hs as [Hb Hs]. cbn.
    rewrite (IH Hs). by rewrite bool_decide_false by congruence.
  - cbn [join]. change (str ",") with [comma] in *. rewrite split_on_app by done. f_equal. by apply IH.
Qed.

Section Rows.
Context (env : Env) (c c0 c' : Config).

Lemma number_row_read n hi f : 0 <= f c <= hi -> f c' = over_parsed (parse_unsigned hi) env n (f c0) ->
  row_read env c c0 c' (number_row [n] hi f).
Proof.
  intros Hf E. split; cbn [number_row row_names row_writes row_refused row_agree].
  - intros (m & v & ->%list_elem_of_singleton & Hv & ->). rewrite E. by apply over_parsed_decimal.
  - intros Hr. rewrite E. unfold over_parsed. destruct (env_var env n) as [v|] eqn:Hv; [|done].
    by rewrite (Hr n v (proj2 (list_elem_of_singleton _ _) eq_refl) Hv).
Qed.

(** The first of two names wins, unless it is refused. *)
Lemma number_row_read_2 n m hi f : 0 <= f c <= hi ->
  f c' = over_parsed (parse_unsigned hi) env n (over_parsed (parse_unsigned hi) env m (f c0)) ->
  row_set env c (number_row [n; m] hi f) -> row_read env c c0 c' (number_row [n; m] hi f).
Proof.
  intros Hf E Hs. unfold row_set, row_read in *. cbn [number_row row_names row_writes row_refused row_agree] in *. rewrite E.
  pose proof (parse_to_string hi (f c) Hf) as Hp.
  assert (n ∈ [n; m] /\ m ∈ [n; m]) as [Hn Hm] by (rewrite !elem_of_cons; tauto).
  pose proof (fun v => Hs n v Hn) as Hsn. pose proof (fun v => Hs m v Hm) as Hsm. unfold over_parsed. split.
  - intros (k & v & [->| ->%list_elem_of_singleton]%elem_of_cons & Hv & ->); rewrite Hv, Hp; [done|].
    destruct (env_var env n) as [w|]; [|done]. by destruct (Hsn w eq_refl) as [-> | ->]; rewrite ?Hp.
  - intros Hr. pose proof (fun v => Hr n v Hn) as Hrn. pose proof (fun v => Hr m v Hm) as Hrm.
    destruct (env_var env n) as [w|]; [rewrite (Hrn w eq_refl)|];
      (destruct (env_var env m) as [u|]; [by rewrite (Hrm u eq_refl)|done]).
Qed.

(** A row with one name and no text refused, from what a set variable reads as. *)
Lemma single_row_read n (r : Row) : row_names r = [n] ->
  (forall v, env_var env n = Some v -> row_writes r c v -> row_agree r c' c) ->
  (env_var env n = None -> row_agree r c' c0) -> (forall v, ~ row_refused r v) -> row_read env c c0 c' r.
Proof.
  intros Hn Hw H0 Hf. unfold row_read. rewrite Hn. split.
  - intros (m & v & ->%list_elem_of_singleton & Hv & Hwr). eauto.
  - intros Hr. apply H0. destruct (env_var env n) as [v|] eqn:E; [|done].
    destruct (Hf v). apply (Hr n); [by apply list_elem_of_singleton|done].
Qed.

Lemma text_row_read n f : f c' = over_string env n (f c0) -> row_read env c c0 c' (text_row n f).
Proof.
  intros E. apply (single_row_read n); [done| | |by intros ? ?]; unfold over_string in E; cbn [text_row row_agree row_writes].
  - intros v Hv ->. by rewrite Hv in E.
  - intros Hv. by rewrite Hv in E.
Qed.

Lemma truthy_iff v : truthy v = true <-> v ∈ [str "1"; str "true"; str "yes"].
Proof. unfold truthy. rewrite !orb_true_iff, !bool_decide_eq_true, !elem_of_cons, elem_of_nil. tauto. Qed.

Lemma flag_row_read n f : f c' = over_flag env n (f c0) -> row_read env c c0 c' (flag_row n f).
Proof.
  intros E. apply (single_row_read n); [done| | |by intros ? ?]; unfold over_flag in E; cbn [flag_row row_agree row_writes].
  - intros v Hv. rewrite Hv in E. rewrite E, <-truthy_iff. intros Hw.
    destruct (truthy v), (f c); naive_solver.
  - intros Hv. by rewrite Hv in E.
Qed.

Lemma list_row_read n f : writable (f c) -> f c' = over_paths env n (f c0) -> row_read env c c0 c' (list_row n f).
Proof.
  intros [Hne Hl] E. apply (single_row_read n); [done| | |by intros ? ?]; unfold over_paths in E; cbn [list_row row_agree row_writes].
  - intros v Hv ->. rewrite Hv in E. rewrite E, split_join; [|done|].
    + clear -Hl. induction Hl as [|s l [_ Hs] _ IH]; [done|]. cbn. by rewrite Hs, IH.
    + eapply Forall_impl; [exact Hl|]. by intros ? [].
  - intros Hv. by rewrite Hv in E.
Qed.

End Rows.

Lemma rows_read env c c0 : config_wf c -> writable (python_lib_paths c) -> writable (nodejs_lib_paths c) ->
  Forall (row_set env c) readme_rows -> Forall (row_read env c c0 (override_with_env env c0)) readme_rows.
Proof.
  intros [] Hp Hn Hs. unfold readme_rows in *.
  repeat (apply Forall_cons in Hs as [Hrow Hs]; constructor;
    [first [by apply number_row_read_2|by apply number_row_read|by apply text_row_read|by apply flag_row_read|by apply list_row_read]|clear Hrow]).
  constructor.
Qed.

(** ** The variables [override_with_env] reads *)

Definition env_names : list string :=
  ["SANDBOX_PORT"; "MAX_WORKERS"; "WORKER_TIMEOUT"; "SANDBOX_API_KEY"; "PYTHON_PATH"; "NODEJS_PATH";
   "ENABLE_NETWORK"; "ENABLE_PRELOAD"; "PRIVILEGE"; "PYTHON_ZYGOTE"; "PYTHON_LIB_PATH"; "NODEJS_LIB_PATH";
   "PYTHON_MAX_AS_BYTES"; "NODEJS_MAX_AS_BYTES"; "NODEJS_MAX_OLD_SPACE_MB"; "NODE_MAX_OLD_SPACE_MB";
   "SOCKS5_PROXY"; "HTTP_PROXY"; "HTTPS_PROXY"]%string.

Lemma over_parsed_idemp parse env name old :
  over_parsed parse env name (over_parsed parse env name old) = over_parsed parse env name old.
Proof. unfold over_parsed. by repeat case_match. Qed.

Lemma over_parsed_absorb parse env n1 n2 old :
  over_parsed parse env n1 (over_parsed parse env n2 (over_parsed parse env n1 (over_parsed parse env n2 old)))
  = over_parsed parse env n1 (over_parsed parse env n2 old).
Proof. unfold over_parsed. by repeat case_match. Qed.

Lemma over_string_idemp env name old :
  over_string env name (over_string env name old) = over_string env name old.
Proof. unfold over_string. by repeat case_match. Qed.

Lemma over_flag_idemp env name old : over_flag env name (over_flag env name old) = over_flag env name old.
Proof. unfold over_flag. by repeat case_match. Qed.

Lemma over_paths_idemp env name old :
  over_paths env name (over_paths env name old) = over_paths env name old.
Proof. unfold over_paths. by repeat case_match. Qed.

Create Rewrite HintDb config.
#[export] Hint Rewrite over_parsed_absorb over_parsed_idemp over_string_idemp over_flag_idemp over_paths_idemp
  : config.

Lemma override_idemp env c :
  override_with_env env (override_with_env env c) = override_with_env env c.
Proof. unfold override_with_env. cbn. by autorewrite with config. Qed.

(** ** A concrete document, for the witnesses *)

Module Shipped.

(** The fields of [runtime/config.toml]. *)
Definition document : Document := {|
  d_app := Some (Some 8194, Some false, Some (str "sandbox"));
  d_max_workers := Some 4; d_worker_timeout := Some 15;
  d_enable_network := Some true; d_enable_preload := Some false;
  d_privilege := Some true; d_python_zygote := Some true;
  d_python_zygote_preload_modules := None;
  d_python_path := Some (str "/usr/local/bin/python3"); d_nodejs_path := Some (str "/usr/bin/node");
  d_python_lib_paths := None; d_nodejs_lib_paths := None;
  d_sandbox_user := Some (str "sandbox"); d_sandbox_uid := Some 65537; d_sandbox_gid := Some 65537;
  d_python_max_as_bytes := Some 268435456; d_nodejs_max_as_bytes := Some 536870912;
  d_nodejs_max_old_space_mb := Some 256;
  d_proxy := Some (Some [], Some [], Some [])
|}.

Lemma document_ok : document_wf document.
Proof. split; cbn; intros; simplify_eq; unfold fits; intros; simplify_eq; done. Qed.

(** A parser that knows this one document. *)
Definition parse (s : bytes) : option Document :=
  if bool_decide (s = str "config.toml") then Some document else None.

Lemma parse_wf s d : parse s = Some d -> document_wf d.
Proof. unfold parse. case_match; [|done]. intros [= <-]. apply document_ok. Qed.

Definition toml : Toml := {| toml_document := parse; toml_document_wf := parse_wf |}.

Definition config : Config := {|
  app := {| port := 8194; debug := false; app_key := str "sandbox" |};
  max_workers := 4; worker_timeout := 15;
  enable_network := true; enable_preload := false; privilege := true; python_zygote := true;
  python_zygote_preload_modules := default_zygote_modules;
  python_path := str "/usr/local/bin/python3"; nodejs_path := str "/usr/bin/node";
  python_lib_paths := default_python_lib_paths; nodejs_lib_paths := default_nodejs_lib_paths;
  sandbox_user := str "sandbox"; sandbox_uid := 65537; sandbox_gid := 65537;
  python_max_as_bytes := 268435456; nodejs_max_as_bytes := 536870912; nodejs_max_old_space_mb := 256;
  proxy := {| socks5 := []; http := []; https := [] |}
|}.

Example config_of_document : config_of document = Some config.
Proof. reflexivity. Qed.

End Shipped.

(** ** Theorems *)

(** C37. The environment sets what the README's table says it sets. Take any
    configuration [c] whose numbers fit their types and whose path lists a
    variable can hold, and any choice of the table's variables that write the
    values of [c] (several at once, the others unset or, for a number, refused
    by its type). Loading a file then gives the value of [c] for exactly the
    keys a variable writes and the file's for all others; the sandbox's
    identity, the debug flag and the preload modules are always the file's.
    A file that cannot be read or parsed is an error, whatever the environment. *)
Theorem load_roundtrip `{Toml} file env c : config_wf c ->
  writable (python_lib_paths c) -> writable (nodejs_lib_paths c) -> Forall (row_set env c) readme_rows ->
  match file with
  | None => load file env = inr ReadFailed
  | Some content =>
    match toml_document content ≫= config_of with
    | None => load file env = inr ParseFailed
    | Some c0 => exists c', load file env = inl c' /\ Forall (row_read env c c0 c') readme_rows
        /\ sandbox_uid c' = sandbox_uid c0 /\ sandbox_gid c' = sandbox_gid c0 /\ sandbox_user c' = sandbox_user c0
        /\ debug (app c') = debug (app c0)
        /\ python_zygote_preload_modules c' = python_zygote_preload_modules c0
    end
  end.
Proof.
  intros Hc Hp Hn Hs. unfold load, toml_from_str. destruct file as [content|]; [|done].
  destruct (toml_document content ≫= config_of) as [c0|]; [|done].
  eexists. split; [done|]. split; [by apply rows_read|done].
Qed.

(** A port out of range is refused, the workers and a path list are written. *)
Definition env_example : Env := fun n =>
  if bool_decide (n = str "SANDBOX_PORT") then Some (str "65536")
  else if bool_decide (n = str "MAX_WORKERS") then Some (str "16")
  else if bool_decide (n = str "NODEJS_LIB_PATH") then Some (str "/etc/hosts,/lib") else None.

Definition env_target : Config := override_with_env env_example Shipped.config.

Lemma load_roundtrip_witness :
  exists c', @load Shipped.toml (Some (str "config.toml")) env_example = inl c'
    /\ Forall (row_read env_example env_target Shipped.config c') readme_rows.
Proof.
  destruct (@load_roundtrip Shipped.toml (Some (str "config.toml")) env_example env_target) as (c' & Hl & Hr & _).
  - apply override_wf. by apply (config_of_wf Shipped.document), Shipped.config_of_document; apply Shipped.document_ok.
  - split; [by vm_compute|]. apply (bool_decide_unpack _). by vm_compute.
  - split; [by vm_compute|]. apply (bool_decide_unpack _). by vm_compute.
  - unfold readme_rows. repeat (apply Forall_cons; split); [..|constructor];
      first [by apply row_unset; repeat constructor|apply row_one; intros v [= <-]].
    + right. by vm_compute.
    + left. by vm_compute.
    + left. by vm_compute.
  - exists c'. split; [exact Hl|exact Hr].
Defined.

(** The environment can only reach the configuration through the nineteen
    documented variables; the sandbox's user and group, the debug flag and the
    preload modules are out of its reach, and applying the overrides twice is
    applying them once. *)
Theorem override_reach env env' c :
  Forall (fun n => env (str n) = env' (str n)) env_names ->
  override_with_env env c = override_with_env env' c
  /\ override_with_env env (override_with_env env' c) = override_with_env env c
  /\ sandbox_uid (override_with_env env c) = sandbox_uid c
  /\ sandbox_gid (override_with_env env c) = sandbox_gid c
  /\ sandbox_user (override_with_env env c) = sandbox_user c
  /\ python_zygote_preload_modules (override_with_env env c) = python_zygote_preload_modules c.
Proof.
  intros He. assert (override_with_env env c = override_with_env env' c) as Heq.
  { unfold env_names in He. rewrite !Forall_cons in He.
    unfold override_with_env, over_parsed, over_string, over_flag, over_paths, env_var.
    repeat match type of He with _ /\ _ => destruct He as [-> He] end. done. }
  split; [done|]. split; [by rewrite <-Heq, override_idemp|]. done.
Qed.

Lemma override_reach_witness :
  override_with_env (fun n => if bool_decide (n = str "SANDBOX_GID") then Some (str "0") else None)
    Shipped.config = override_with_env (fun _ => None) Shipped.config
  /\ sandbox_gid (override_with_env
       (fun n => if bool_decide (n = str "SANDBOX_GID") then Some (str "0") else None) Shipped.config) = 65537.
Proof.
  destruct (override_reach (fun n => if bool_decide (n = str "SANDBOX_GID") then Some (str "0") else None)
    (fun _ => None) Shipped.config) as (E & _ & _ & G & _).
  - by repeat constructor.
  - split; [exact E|]. rewrite G. by vm_compute.
Defined.

(** The proxy variables handed to a child: the SOCKS5 proxy, when
    configured, is used for both schemes; otherwise each scheme has its own
    proxy; a variable is never set twice and never set to the empty string. *)
Theorem proxy_env_vars_spec p :
  NoDup (proxy_env_vars p).*1
  /\ (forall k v, (k, v) ∈ proxy_env_vars p <->
       v <> [] /\
       ((k = str "HTTPS_PROXY" /\ v = (if is_empty (socks5 p) then https p else socks5 p))
        \/ (k = str "HTTP_PROXY" /\ v = (if is_empty (socks5 p) then http p else socks5 p)))).
Proof.
  unfold proxy_env_vars, socks5_option, http_option, https_option, non_empty.
  assert (str "HTTPS_PROXY" <> str "HTTP_PROXY") as Hne by (by intros E; vm_compute in E).
  revert Hne. generalize (str "HTTPS_PROXY") (str "HTTP_PROXY"). intros k1 k2 Hne.
  destruct (socks5 p) as [|a s], (https p) as [|b h], (http p) as [|c h']; cbn;
    (split; [repeat (apply NoDup_cons; split; [rewrite ?list_elem_of_singleton, ?elem_of_nil; tauto|]);
             constructor|]);
    intros k v; rewrite ?elem_of_cons, ?elem_of_nil;
    (split; [intros; destruct_or?; simplify_eq; auto|]); intros [? [[-> ->]|[-> ->]]]; auto; done.
Qed.
