(* ===== verification/Models.v ===== *)
(** * Models: the data exchanged with clients

    [server/src/models.rs].  JSON values are those of [serde_json::Value];
    [Serialize] of the program's own structs is what the derive attributes
    state: an object with the fields in declaration order. *)

From S2P Require Import Prelude RustStd.

Inductive Json :=
| JNull
| JBool (b : bool)
| JNumber (z : Z)
| JString (s : bytes)
| JArray (l : list Json)
| JObject (fields : list (bytes * Json)).

Record RunnerOptions := { opt_enable_network : bool }.

Definition RunnerOptions_default : RunnerOptions := {| opt_enable_network := false |}.

Record RunCodeRequest := {
  language : bytes;
  code : bytes;
  preload : bytes;
  options : RunnerOptions
}.

(** The fields of the request body, before [serde(default)]. *)
Record RunCodeBody := {
  b_language : option bytes;
  b_code : option bytes;
  b_preload : option bytes;
  b_options : option (option bool)
}.

(** [Deserialize]: [language] and [code] are required. *)
Definition request_of (b : RunCodeBody) : option RunCodeRequest :=
  match b_language b, b_code b with
  | Some l, Some c => Some {|
      language := l; code := c;
      preload := match b_preload b with Some p => p | None => [] end;
      options := match b_options b with
        | Some o => {| opt_enable_network := match o with Some n => n | None => false end |}
        | None => RunnerOptions_default
        end |}
  | _, _ => None
  end.

Record ApiResponse := { r_code : Z; r_message : bytes; r_data : option Json }.

Record RunCodeData := { d_stdout : bytes; d_stderr : bytes }.

Record Dependency := { dep_name : bytes; dep_version : bytes }.

Definition field (name : string) (v : Json) : bytes * Json := (str name, v).

Definition RunCodeData_json (d : RunCodeData) : Json :=
  JObject [field "stdout" (JString (d_stdout d)); field "stderr" (JString (d_stderr d))].

Definition Dependency_json (d : Dependency) : Json :=
  JObject [field "name" (JString (dep_name d)); field "version" (JString (dep_version d))].

Definition ApiResponse_json (r : ApiResponse) : Json :=
  JObject [field "code" (JNumber (r_code r)); field "message" (JString (r_message r));
           field "data" (match r_data r with Some d => d | None => JNull end)].

Definition success (data : Json) : ApiResponse :=
  {| r_code := 0; r_message := str "success"; r_data := Some data |}.

Definition error (code : Z) (message : bytes) : ApiResponse :=
  {| r_code := code; r_message := message; r_data := None |}.
