(* ===== verification/Queue.v ===== *)
(** * Queue: the worker pool

    [server/src/queue.rs]: any number of concurrent [submit] calls and the
    [max_workers] worker tasks, interleaved at every access to the depth
    counter, the MPMC channel and the oneshot channels.  The MPMC channel is a
    library: [Mpmc] states what it promises (unbounded, first in first out).
    A job is a function of what the outside world does to it; [None] is a
    panic, which ends the worker's task and drops the reply channel.
    [enqueued_at] and the durations only feed the log and are left out. *)

From S2P Require Import Prelude RustStd Models.

(** ** Interface: an unbounded MPMC channel *)

Class Mpmc := {
  channel : Type -> Type;
  unbounded : forall {A}, channel A;
  push : forall {A}, A -> channel A -> channel A;
  pop : forall {A}, channel A -> option (A * channel A);
  (** the messages inside, oldest first *)
  queued : forall {A}, channel A -> list A;
  queued_unbounded : forall A, queued (unbounded (A := A)) = [];
  queued_push : forall A (x : A) c, queued (push x c) = queued c ++ [x];
  pop_spec : forall A (c : channel A),
    match pop c with
    | Some (x, c') => queued c = x :: queued c'
    | None => queued c = []
    end
}.

(** A list is such a channel. *)
Definition list_mpmc : Mpmc := {|
  channel := list; unbounded := fun A => []; push := fun A x c => c ++ [x];
  pop := fun A c => match c with [] => None | x :: c => Some (x, c) end;
  queued := fun A c => c;
  queued_unbounded := fun A => eq_refl; queued_push := fun A x c => eq_refl;
  pop_spec := fun A c => match c with [] => eq_refl | x :: c => eq_refl end
|}.

Section Queue.
Context {World : Type} `{Mpmc}.

(** ** Data *)

Definition Job : Type := World -> option ApiResponse.

(** [respond] is the sending half of the oneshot channel of call [m_call]. *)
Record QueueMessage := { m_call : nat; m_job : Job; m_language : bytes }.

Inductive worker :=
| WIdle                                  (* in [rx.recv().await] *)
| WGot (m : QueueMessage)                (* before [fetch_sub] *)
| WRunning (m : QueueMessage)            (* in [(msg.job)().await] *)
| WReply (m : QueueMessage) (r : ApiResponse)  (* before [respond.send] *)
| WDead.                                 (* the task ended by a panic *)

Inductive submit_pc :=
| SubCounted (m : QueueMessage)  (* after [fetch_add], before [try_send] *)
| SubRefused                     (* [try_send] failed; before [fetch_sub] *)
| SubAwait                       (* in [rx.await] *)
| SubReturned (r : ApiResponse)
| SubDropped.                    (* the caller dropped the future at [rx.await] *)

(** A oneshot channel, as its receiver sees it. *)
Inductive oneshot := Open | Sent (r : ApiResponse) | SenderDropped.

(** [sent], [started] and [ran] are history variables: the calls whose message
    entered the channel, those whose message a worker took out, and those whose
    job was run, with the world it met. *)
Record Pool := mkPool {
  chan : channel QueueMessage;
  queue_depth : Z;
  workers : list worker;
  submits : gmap nat submit_pc;
  slots : gmap nat oneshot;
  jobs : gmap nat Job;
  sent : list nat;
  started : list nat;
  ran : list (nat * World)
}.

Definition err_unavailable : ApiResponse := error 500 (str "worker pool unavailable").
Definition err_shut_down : ApiResponse := error 500 (str "worker shut down").

(** [QueueController::start] *)
Definition start (max_workers : nat) : Pool :=
  mkPool unbounded 0 (repeat WIdle max_workers) ∅ ∅ ∅ [] [] [].

(** Some worker still holds a receiver. *)
Definition alive (w : worker) : bool := match w with WDead => false | _ => true end.
Definition is_open (s : Pool) : bool := existsb alive (workers s).

(** [AtomicUsize::fetch_add] and [fetch_sub] wrap. *)
Definition depth_add (d : Z) : Z := wrap_usize (d + 1).
Definition depth_sub (d : Z) : Z := wrap_usize (d - 1).

Definition set_submit (i : nat) (p : submit_pc) (s : Pool) : Pool :=
  mkPool (chan s) (queue_depth s) (workers s) (<[i := p]> (submits s)) (slots s) (jobs s) (sent s) (started s) (ran s).
Definition set_worker (w : nat) (x : worker) (s : Pool) : Pool :=
  mkPool (chan s) (queue_depth s) (<[w := x]> (workers s)) (submits s) (slots s) (jobs s) (sent s) (started s) (ran s).
Definition set_depth (d : Z) (s : Pool) : Pool :=
  mkPool (chan s) d (workers s) (submits s) (slots s) (jobs s) (sent s) (started s) (ran s).
Definition set_slot (i : nat) (o : oneshot) (s : Pool) : Pool :=
  mkPool (chan s) (queue_depth s) (workers s) (submits s) (<[i := o]> (slots s)) (jobs s) (sent s) (started s) (ran s).

(** ** [submit] *)

(** The oneshot channel is made and the depth counted. *)
Definition do_submit (i : nat) (lang : bytes) (f : Job) (s : Pool) : Pool :=
  mkPool (chan s) (depth_add (queue_depth s)) (workers s)
    (<[i := SubCounted {| m_call := i; m_job := f; m_language := lang |}]> (submits s))
    (<[i := Open]> (slots s)) (<[i := f]> (jobs s)) (sent s) (started s) (ran s).

(** [try_send]: fails when every receiver is gone; the message, and with it
    the reply channel, is then dropped. *)
Definition do_send (i : nat) (m : QueueMessage) (s : Pool) : Pool :=
  if is_open s then
    mkPool (push m (chan s)) (queue_depth s) (workers s) (<[i := SubAwait]> (submits s))
      (slots s) (jobs s) (sent s ++ [i]) (started s) (ran s)
  else set_submit i SubRefused (set_slot i SenderDropped s).

Definition do_refuse (i : nat) (s : Pool) : Pool :=
  set_submit i (SubReturned err_unavailable) (set_depth (depth_sub (queue_depth s)) s).

(** ** A worker's loop *)

Definition do_recv (w : nat) (m : QueueMessage) (c : channel QueueMessage) (s : Pool) : Pool :=
  mkPool c (queue_depth s) (<[w := WGot m]> (workers s)) (submits s) (slots s) (jobs s)
    (sent s) (started s ++ [m_call m]) (ran s).

Definition do_sub (w : nat) (m : QueueMessage) (s : Pool) : Pool :=
  set_worker w (WRunning m) (set_depth (depth_sub (queue_depth s)) s).

Definition note_run (i : nat) (x : World) (s : Pool) : Pool :=
  mkPool (chan s) (queue_depth s) (workers s) (submits s) (slots s) (jobs s) (sent s) (started s)
    (ran s ++ [(i, x)]).

Definition do_run (w : nat) (m : QueueMessage) (x : World) (s : Pool) : Pool :=
  let s := note_run (m_call m) x s in
  match m_job m x with
  | Some r => set_worker w (WReply m r) s
  | None => set_worker w WDead (set_slot (m_call m) SenderDropped s)
  end.

Definition do_reply (w : nat) (m : QueueMessage) (r : ApiResponse) (s : Pool) : Pool :=
  set_worker w WIdle (set_slot (m_call m) (Sent r) s).

(** ** Executions *)

Inductive event :=
| EvSubmit (i : nat) (lang : bytes) (f : Job)
| EvSend (i : nat)
| EvRefuse (i : nat)
| EvReceive (i : nat)
| EvDrop (i : nat)
| EvRecv (w : nat)
| EvSub (w : nat)
| EvRun (w : nat) (x : World)
| EvReply (w : nat).

Definition exec (e : event) (s : Pool) : option Pool :=
  match e with
  | EvSubmit i lang f => match submits s !! i with None => Some (do_submit i lang f s) | Some _ => None end
  | EvSend i => match submits s !! i with Some (SubCounted m) => Some (do_send i m s) | _ => None end
  | EvRefuse i => match submits s !! i with Some SubRefused => Some (do_refuse i s) | _ => None end
  | EvReceive i =>
    match submits s !! i, slots s !! i with
    | Some SubAwait, Some (Sent r) => Some (set_submit i (SubReturned r) s)
    | Some SubAwait, Some SenderDropped => Some (set_submit i (SubReturned err_shut_down) s)
    | _, _ => None
    end
  | EvDrop i => match submits s !! i with Some SubAwait => Some (set_submit i SubDropped s) | _ => None end
  | EvRecv w =>
    match workers s !! w, pop (chan s) with
    | Some WIdle, Some (m, c) => Some (do_recv w m c s)
    | _, _ => None
    end
  | EvSub w => match workers s !! w with Some (WGot m) => Some (do_sub w m s) | _ => None end
  | EvRun w x => match workers s !! w with Some (WRunning m) => Some (do_run w m x s) | _ => None end
  | EvReply w => match workers s !! w with Some (WReply m r) => Some (do_reply w m r s) | _ => None end
  end.

Fixpoint execs (es : list event) (s : Pool) : option Pool :=
  match es with
  | [] => Some s
  | e :: es => match exec e s with Some s' => execs es s' | None => None end
  end.

Definition reachable (n : nat) (s : Pool) : Prop := exists es, execs es (start n) = Some s.

(** ** Specification vocabulary *)

(** Calls counted whose message is not yet in the channel. *)
Definition in_transit (p : submit_pc) : bool :=
  match p with SubCounted _ | SubRefused => true | _ => false end.

(** Messages taken by a worker that has not yet counted them out. *)
Definition got (w : worker) : list nat := match w with WGot m => [m_call m] | _ => [] end.

(** The call a worker holds the reply channel of. *)
Definition held (w : worker) : list nat :=
  match w with WGot m | WRunning m | WReply m _ => [m_call m] | _ => [] end.

Definition transit_calls (s : Pool) : list nat :=
  (map_to_list (filter (fun kv => in_transit kv.2 = true) (submits s))).*1.

Definition queued_calls (s : Pool) : list nat := m_call <$> queued (chan s).
Definition got_calls (s : Pool) : list nat := concat (got <$> workers s).
Definition held_calls (s : Pool) : list nat := concat (held <$> workers s).

(** The calls the depth counter counts. *)
Definition counted (s : Pool) : list nat := transit_calls s ++ queued_calls s ++ got_calls s.

(** Past [try_send] with success. *)
Definition past_send (p : submit_pc) : Prop :=
  match p with SubAwait | SubReturned _ | SubDropped => True | _ => False end.

(** [r] is what the job of call [i] produced when it ran. *)
Definition own_result (s : Pool) (i : nat) (r : ApiResponse) : Prop :=
  exists f x, jobs s !! i = Some f /\ (i, x) ∈ ran s /\ f x = Some r.
Definition own_panic (s : Pool) (i : nat) : Prop :=
  exists f x, jobs s !! i = Some f /\ (i, x) ∈ ran s /\ f x = None.

(** ** Invariant *)

(** The depth counter counts, modulo its width, the calls in [counted]. *)
Definition depth_ok (s : Pool) : Prop := queue_depth s = wrap_usize (len (counted s)).

(** First in, first out, each message once. *)
Record fifo_ok (s : Pool) : Prop := {
  ff_sent : sent s = started s ++ queued_calls s;
  ff_nodup : NoDup (sent s);
  ff_past : forall i, i ∈ sent s -> exists p, submits s !! i = Some p /\ past_send p
}.

(** Whoever may still be answered: a call that waits on an open channel has
    its message in exactly one of the places [W]. *)
Record replies_ok (W : list nat) (sub : gmap nat submit_pc) (sl : gmap nat oneshot) : Prop := {
  rp_nodup : NoDup W;
  rp_open : forall i, i ∈ W ->
    (sub !! i = Some SubAwait \/ sub !! i = Some SubDropped) /\ sl !! i = Some Open;
  rp_await : forall i, sub !! i = Some SubAwait -> sl !! i = Some Open -> i ∈ W;
  rp_slot : forall i, sub !! i = Some SubAwait -> is_Some (sl !! i)
}.

Definition reply_ok (s : Pool) : Prop :=
  replies_ok (queued_calls s ++ held_calls s) (submits s) (slots s).

Definition message_ok (s : Pool) (m : QueueMessage) : Prop := jobs s !! m_call m = Some (m_job m).

Definition worker_ok (s : Pool) (w : worker) : Prop :=
  match w with
  | WGot m | WRunning m => message_ok s m
  | WReply m r => message_ok s m /\ own_result s (m_call m) r
  | _ => True
  end.

Definition submit_ok (s : Pool) (i : nat) (p : submit_pc) : Prop :=
  match p with
  | SubCounted m => m_call m = i /\ message_ok s m /\ slots s !! i = Some Open
  | SubRefused => is_open s = false
  | SubAwait => slots s !! i = Some SenderDropped -> own_panic s i
  | SubReturned r => own_result s i r \/ (r = err_shut_down /\ own_panic s i)
                     \/ (r = err_unavailable /\ is_open s = false)
  | SubDropped => True
  end.

(** Where answers come from. *)
Record origin_ok (s : Pool) : Prop := {
  og_fresh : forall i, submits s !! i = None -> jobs s !! i = None;
  og_queued : Forall (message_ok s) (queued (chan s));
  og_workers : Forall (worker_ok s) (workers s);
  og_submits : map_Forall (submit_ok s) (submits s);
  og_slots : forall i r, slots s !! i = Some (Sent r) -> own_result s i r
}.

Record inv (n : nat) (s : Pool) : Prop := {
  inv_workers : length (workers s) = n;
  inv_depth : depth_ok s;
  inv_fifo : fifo_ok s;
  inv_reply : reply_ok s;
  inv_origin : origin_ok s
}.

(** ** Lemmas: moving one worker, one call *)

(** Changing one worker changes its own share of a concatenation only. *)
Lemma concat_worker {B} (g : worker -> list B) ws w x y :
  ws !! w = Some x ->
  exists R, concat (g <$> ws) ≡ₚ g x ++ R /\ concat (g <$> <[w := y]> ws) ≡ₚ g y ++ R.
Proof.
  intros Hw. exists (concat (g <$> take w ws) ++ concat (g <$> drop (S w) ws)).
  assert (w < length ws)%nat by (by eapply lookup_lt_Some).
  rewrite insert_take_drop by done. rewrite <-(take_drop_middle ws w x Hw) at 1.
  rewrite !fmap_app, !fmap_cons, !concat_app. cbn [concat].
  split; rewrite (Permutation_app_comm (concat _)), <-app_assoc; apply Permutation_app_head, Permutation_app_comm.
Qed.

Definition transit_of (i : nat) (o : option submit_pc) : list nat :=
  match o with Some p => if in_transit p then [i] else [] | None => [] end.

Definition keys_transit (m : gmap nat submit_pc) : list nat :=
  (map_to_list (filter (fun kv => in_transit kv.2 = true) m)).*1.

Lemma keys_transit_insert_fresh m i p : m !! i = None ->
  keys_transit (<[i := p]> m) ≡ₚ transit_of i (Some p) ++ keys_transit m.
Proof.
  intros Hi. unfold keys_transit, transit_of. destruct (in_transit p) eqn:E.
  - rewrite map_filter_insert_True by done. rewrite map_to_list_insert; [done|].
    apply map_lookup_filter_None. by left.
  - rewrite map_filter_insert_False by (cbn; congruence).
    by rewrite delete_id.
Qed.

Lemma keys_transit_insert m i q :
  exists R, keys_transit m ≡ₚ transit_of i (m !! i) ++ R
    /\ keys_transit (<[i := q]> m) ≡ₚ transit_of i (Some q) ++ R.
Proof.
  exists (keys_transit (delete i m)). split.
  - destruct (m !! i) as [p|] eqn:Ei.
    + rewrite <-(insert_delete_id m i p Ei) at 1. apply keys_transit_insert_fresh, lookup_delete_eq.
    + cbn. by rewrite delete_id.
  - rewrite <-insert_delete_eq. apply keys_transit_insert_fresh, lookup_delete_eq.
Qed.

Lemma len_transit m i q :
  len (keys_transit (<[i := q]> m))
  = len (keys_transit m) - len (transit_of i (m !! i)) + len (transit_of i (Some q)).
Proof.
  destruct (keys_transit_insert m i q) as (R & E1 & E2). unfold len.
  rewrite E1, E2, !length_app. lia.
Qed.

Lemma len_worker {B} (g : worker -> list B) ws w x y : ws !! w = Some x ->
  len (concat (g <$> <[w := y]> ws)) = len (concat (g <$> ws)) - len (g x) + len (g y).
Proof.
  intros Hw. destruct (concat_worker g ws w x y Hw) as (R & E1 & E2). unfold len.
  rewrite E1, E2, !length_app. lia.
Qed.

Lemma len_counted s :
  len (counted s) = len (keys_transit (submits s)) + len (queued (chan s)) + len (concat (got <$> workers s)).
Proof.
  unfold counted, transit_calls, queued_calls, got_calls. rewrite !len_app. unfold len at 2.
  rewrite length_fmap. fold (len (queued (chan s))). unfold keys_transit. lia.
Qed.

Lemma depth_add_wrap n : depth_add (wrap_usize n) = wrap_usize (n + 1).
Proof. unfold depth_add, wrap_usize. apply Z.add_mod_idemp_l. lia. Qed.

Lemma depth_sub_wrap n : depth_sub (wrap_usize n) = wrap_usize (n - 1).
Proof. unfold depth_sub, wrap_usize. apply Zminus_mod_idemp_l. Qed.

Lemma pop_Some (c c' : channel QueueMessage) m : pop c = Some (m, c') -> queued c = m :: queued c'.
Proof. intros E. pose proof (pop_spec _ c) as Hp. by rewrite E in Hp. Qed.

(** Take an enabled event apart. *)
Ltac event_cases Hx :=
  repeat match type of Hx with
  | context [match submits ?s !! ?i with _ => _ end] => destruct (submits s !! i) as [[]|] eqn:?; try discriminate Hx
  | context [match slots ?s !! ?i with _ => _ end] => destruct (slots s !! i) as [[]|] eqn:?; try discriminate Hx
  | context [match workers ?s !! ?w with _ => _ end] => destruct (workers s !! w) as [[]|] eqn:?; try discriminate Hx
  | context [match pop ?c with _ => _ end] => destruct (pop c) as [[]|] eqn:?; try discriminate Hx
  end; injection Hx as <-.

Lemma depth_ok_exec e s s' : depth_ok s -> exec e s = Some s' -> depth_ok s'.
Proof.
  unfold depth_ok. rewrite !len_counted. intros Hd Hx.
  destruct e; cbn [exec] in Hx; event_cases Hx;
    unfold do_submit, do_send, do_refuse, do_recv, do_sub, do_run, do_reply;
    repeat case_match; cbn [note_run set_submit set_worker set_depth set_slot chan queue_depth workers submits slots];
    rewrite ?len_transit, ?Hd, ?depth_add_wrap, ?depth_sub_wrap;
    try (erewrite len_worker by done); rewrite ?queued_push, ?len_app;
    try (erewrite pop_Some by done);
    repeat match goal with E : submits _ !! _ = _ |- _ => rewrite E; clear E end;
    f_equal; unfold len; cbn; lia.
Qed.

Lemma past_insert (m : gmap nat submit_pc) (l : list nat) i q :
  (forall j, j ∈ l -> exists p, m !! j = Some p /\ past_send p) -> (past_send q \/ i ∉ l) ->
  forall j, j ∈ l -> exists p, <[i := q]> m !! j = Some p /\ past_send p.
Proof.
  intros Hp Hq j Hj. destruct (decide (i = j)) as [->|].
  - rewrite lookup_insert_eq. destruct Hq; [eauto|done].
  - rewrite lookup_insert_ne by done. eauto.
Qed.

Lemma not_past s i : fifo_ok s -> (forall p, submits s !! i = Some p -> ~ past_send p) -> i ∉ sent s.
Proof. intros [_ _ Hp] Hi Hin. destruct (Hp i Hin) as (p & E & Hp'). by apply (Hi p E). Qed.

Lemma fifo_ok_exec e s s' : origin_ok s -> fifo_ok s -> exec e s = Some s' -> fifo_ok s'.
Proof.
  intros Ho Hf Hx. pose proof Hf as [Hs Hn Hp].
  assert (forall i, (forall p, submits s !! i = Some p -> ~ past_send p) -> i ∉ sent s) as Hnot
    by (intros i; by apply not_past).
  destruct e; cbn [exec] in Hx; event_cases Hx;
    unfold do_submit, do_send, do_refuse, do_recv, do_sub, do_run, do_reply;
    repeat case_match; split; unfold queued_calls in *;
    cbn [note_run set_submit set_worker set_depth set_slot chan queue_depth workers submits slots sent started];
    rewrite ?queued_push, ?fmap_app, ?app_assoc, <-?Hs; try done;
    try (apply past_insert; [done|]; first [by left | right; apply Hnot; naive_solver]).
  - destruct (map_Forall_lookup_1 _ _ _ _ (og_submits s Ho) Heqo) as (E & _). by rewrite <-E.
  - apply NoDup_app. split; [done|]. split; [|by apply NoDup_singleton].
    intros j Hj ->%list_elem_of_singleton. revert Hj. apply Hnot. naive_solver.
  - intros j [Hj| ->%list_elem_of_singleton]%elem_of_app; [|rewrite lookup_insert_eq; by eexists].
    revert j Hj. apply past_insert; [done|by left].
  - rewrite Hs. erewrite pop_Some by done. by rewrite fmap_cons, <-app_assoc.
Qed.

#[local] Instance replies_ok_proper : Proper ((≡ₚ) ==> eq ==> eq ==> iff) replies_ok.
Proof.
  assert (forall W W' sub sl, W ≡ₚ W' -> replies_ok W sub sl -> replies_ok W' sub sl) as Himp.
  { intros W W' sub sl HW []. split; try done; setoid_rewrite <-HW; done. }
  intros W W' HW ? sub -> ? sl ->. split; apply Himp; by rewrite HW.
Qed.

(** Lookups in a map changed at one key. *)
Ltac at_key i :=
  let j := fresh "j" in
  intros j; destruct (decide (j = i)) as [->|?];
  rewrite ?lookup_insert_eq, ?(lookup_insert_ne _ i j) by done.

Lemma replies_other W sub sl i q :
  replies_ok W sub sl -> i ∉ W -> q <> SubAwait -> replies_ok W (<[i := q]> sub) sl.
Proof. intros [Hn Ho Ha Hs] Hi Hq. split; [done|..]; at_key i; try done; naive_solver. Qed.

Lemma replies_slot W sub sl i o :
  replies_ok W sub sl -> i ∉ W -> sub !! i <> Some SubAwait -> replies_ok W sub (<[i := o]> sl).
Proof. intros [Hn Ho Ha Hs] Hi Hq. split; [done|..]; at_key i; try done; naive_solver. Qed.

Lemma replies_sent W sub sl i :
  replies_ok W sub sl -> i ∉ W -> sl !! i = Some Open -> replies_ok (i :: W) (<[i := SubAwait]> sub) sl.
Proof.
  intros [Hn Ho Ha Hs] Hi Hq. split; [by constructor|..]; at_key i; rewrite ?elem_of_cons; try done; naive_solver.
Qed.

Lemma replies_dropped W sub sl i :
  replies_ok W sub sl -> sub !! i = Some SubAwait -> replies_ok W (<[i := SubDropped]> sub) sl.
Proof. intros [Hn Ho Ha Hs] Hi. split; [done|..]; at_key i; try done; naive_solver. Qed.

Lemma replies_answered W sub sl i o :
  replies_ok (i :: W) sub sl -> o <> Open -> replies_ok W sub (<[i := o]> sl).
Proof.
  intros [Hn Ho Ha Hs] Hq. apply NoDup_cons in Hn as [Hi Hn]. split; [done|..]; at_key i; try done.
  - intros Hj. apply Ho. by right.
  - naive_solver.
  - intros E1 E2. destruct (elem_of_cons W j i) as [Hc _]. destruct Hc; [eauto|done|done].
  - eauto.
Qed.

Lemma replies_not_in W sub sl i :
  replies_ok W sub sl -> sub !! i <> Some SubAwait -> sub !! i <> Some SubDropped -> i ∉ W.
Proof. intros [Hn Ho Ha Hs] H1 H2 Hi. destruct (Ho i Hi) as [[?|?] _]; done. Qed.

Lemma reply_ok_worker s w x y :
  workers s !! w = Some x -> held x = held y -> reply_ok s -> reply_ok (set_worker w y s).
Proof.
  intros Hw Hh. unfold reply_ok, held_calls, queued_calls. cbn [set_worker chan workers submits slots].
  destruct (concat_worker held (workers s) w x y Hw) as (R & E1 & E2). by rewrite E1, E2, Hh.
Qed.

Lemma reply_ok_recv s w m c :
  workers s !! w = Some WIdle -> pop (chan s) = Some (m, c) -> reply_ok s -> reply_ok (do_recv w m c s).
Proof.
  intros Hw Hp. unfold reply_ok, held_calls, queued_calls. cbn [do_recv chan workers submits slots].
  destruct (concat_worker held (workers s) w WIdle (WGot m) Hw) as (R & E1 & E2).
  rewrite E1, E2, (pop_Some _ _ _ Hp). cbn [held app fmap list_fmap]. by rewrite <-Permutation_middle.
Qed.

(** A worker lets go of the reply channel it holds. *)
Lemma reply_ok_answer s w x y i o :
  workers s !! w = Some x -> held x = [i] -> held y = [] -> o <> Open ->
  reply_ok s -> reply_ok (set_worker w y (set_slot i o s)).
Proof.
  intros Hw Hx Hy Ho. unfold reply_ok, held_calls, queued_calls.
  cbn [set_worker set_slot chan workers submits slots].
  destruct (concat_worker held (workers s) w x y Hw) as (R & E1 & E2). rewrite E1, E2, Hx, Hy.
  cbn [app]. rewrite <-Permutation_middle. intros Hr. by apply replies_answered.
Qed.

Lemma reply_ok_send s i m :
  submits s !! i = Some (SubCounted m) -> m_call m = i -> slots s !! i = Some Open ->
  reply_ok s -> reply_ok (do_send i m s).
Proof.
  intros Hi Hm Hsl Hr. assert (i ∉ queued_calls s ++ held_calls s) as Hni
    by (eapply replies_not_in; [done|congruence..]).
  unfold do_send. destruct (is_open s); unfold reply_ok, held_calls, queued_calls in *;
    cbn [set_submit set_slot chan workers submits slots].
  - rewrite queued_push, fmap_app. cbn [fmap list_fmap]. rewrite Hm, <-app_assoc. cbn [app].
    rewrite <-Permutation_middle. by apply replies_sent.
  - apply replies_other; [|done..]. apply replies_slot; [done|done|congruence].
Qed.

Lemma reply_ok_exec e s s' : origin_ok s -> reply_ok s -> exec e s = Some s' -> reply_ok s'.
Proof.
  intros Hg Hr Hx. pose proof Hr as Hr'. unfold reply_ok in Hr'.
  destruct e; cbn [exec] in Hx; event_cases Hx.
  - assert (i ∉ queued_calls s ++ held_calls s) by (eapply replies_not_in; [done|congruence..]).
    apply replies_other; [|done..]. apply replies_slot; [done|done|congruence].
  - destruct (map_Forall_lookup_1 _ _ _ _ (og_submits s Hg) Heqo) as (E & _ & Hs). by apply reply_ok_send.
  - apply replies_other; [done| |done]. eapply replies_not_in; [done|congruence..].
  - apply replies_other; [done| |done]. intros Hi. destruct (rp_open _ _ _ Hr' i Hi). congruence.
  - apply replies_other; [done| |done]. intros Hi. destruct (rp_open _ _ _ Hr' i Hi). congruence.
  - by apply replies_dropped.
  - by apply reply_ok_recv.
  - by eapply reply_ok_worker.
  - unfold do_run. cbv zeta. case_match; [by eapply (reply_ok_worker (note_run _ _ s))|
      by eapply (reply_ok_answer (note_run _ _ s))].
  - by eapply reply_ok_answer.
Qed.

(** *** Origin of the answers *)

(** [own_result] and [own_panic] only depend on histories, which only grow. *)
Definition grows (s s' : Pool) : Prop :=
  (forall i f, jobs s !! i = Some f -> jobs s' !! i = Some f) /\ (forall p, p ∈ ran s -> p ∈ ran s').

Lemma own_mono s s' i : grows s s' ->
  (forall r, own_result s i r -> own_result s' i r) /\ (own_panic s i -> own_panic s' i).
Proof.
  intros [Hj Hr]. split.
  - intros r (f & x & Hf & Hx & E). exists f, x. auto.
  - intros (f & x & Hf & Hx & E). exists f, x. auto.
Qed.

Lemma origin_mono s s' : grows s s' ->
  (forall w, worker_ok s w -> worker_ok s' w) /\ (forall m, message_ok s m -> message_ok s' m).
Proof.
  intros Hg. assert (forall m, message_ok s m -> message_ok s' m) as Hm by (intros m; apply Hg).
  split; [|done]. intros [|m|m|m r|]; cbn; try done; [by apply Hm..|].
  intros [? ?]. split; [by apply Hm|]. by apply (own_mono s s' (m_call m)).
Qed.

Lemma is_open_alive s w x : workers s !! w = Some x -> alive x = true -> is_open s = true.
Proof.
  intros Hw Ha. apply existsb_exists. exists x. split; [|done].
  by apply list_elem_of_In, (list_elem_of_lookup_2 _ w).
Qed.

Lemma submit_ok_mono s s' i p :
  grows s s' ->
  (is_open s = false -> is_open s' = false) -> slots s' !! i = slots s !! i ->
  submit_ok s i p -> submit_ok s' i p.
Proof.
  intros Hj Ho Hs. destruct (own_mono s s' i Hj) as [Hr Hp].
  destruct (origin_mono s s' Hj) as [_ Hm].
  destruct p; cbn; rewrite ?Hs; try done; try naive_solver.
Qed.

Lemma origin_set_submit s i p : origin_ok s -> submit_ok s i p -> origin_ok (set_submit i p s).
Proof.
  intros [Hf Hq Hw Hs Hl] Hp. split; cbn [set_submit chan workers submits slots]; try done.
  - at_key i; [done|apply Hf].
  - apply map_Forall_insert_2; done.
Qed.

Lemma origin_set_depth s d : origin_ok s -> origin_ok (set_depth d s).
Proof. by intros []. Qed.

Lemma origin_set_slot s i o :
  origin_ok s -> o <> Open ->
  (forall r, o = Sent r -> own_result s i r) ->
  (o = SenderDropped -> submits s !! i = Some SubAwait -> own_panic s i) ->
  (forall m, submits s !! i <> Some (SubCounted m)) ->
  origin_ok (set_slot i o s).
Proof.
  intros [Hf Hq Hw Hs Hl] Ho Hr Hd Hc. split; cbn [set_slot chan workers submits slots]; try done.
  - intros j p Hj. pose proof (Hs j p Hj) as Hok. destruct (decide (j = i)) as [->|Hne].
    + destruct p; cbn in *; try done; [by apply Hc in Hj|].
      rewrite lookup_insert_eq. intros [= ->]. auto.
    + apply (submit_ok_mono s); [done|done| |done]. cbn [set_slot slots]. by rewrite lookup_insert_ne.
  - at_key i; [intros r [= ->]; by apply Hr|apply Hl].
Qed.

Lemma origin_note_run s i x : origin_ok s -> origin_ok (note_run i x s).
Proof.
  intros [Hf Hq Hw Hs Hl]. assert (grows s (note_run i x s)) as Hg.
  { split; [done|]. intros p Hp. apply elem_of_app. by left. }
  destruct (origin_mono s _ Hg) as [Hwm Hmm]. split; cbn [note_run chan workers submits slots].
  - done.
  - by eapply Forall_impl.
  - by eapply Forall_impl.
  - intros j p Hj. apply (submit_ok_mono s); try done. by apply Hs.
  - intros j r Hr. apply (own_mono s _ j Hg). by apply Hl.
Qed.

Lemma origin_set_worker s w x y :
  origin_ok s -> workers s !! w = Some x -> alive x = true -> worker_ok s y -> origin_ok (set_worker w y s).
Proof.
  intros [Hf Hq Hw Hs Hl] Hx Ha Hy. split; cbn [set_worker chan workers submits slots]; try done.
  - by apply Forall_insert.
  - intros j p Hj. apply (submit_ok_mono s); try done; [|by apply Hs].
    by rewrite (is_open_alive s w x).
Qed.

Lemma origin_submit s i lang f : origin_ok s -> submits s !! i = None -> origin_ok (do_submit i lang f s).
Proof.
  intros [Hf Hq Hw Hs Hl] Hi.
  assert (grows s (do_submit i lang f s)) as Hj.
  { split; [|done]. intros j g Hj. cbn. rewrite lookup_insert_ne; [done|]. intros ->. by rewrite (Hf j Hi) in Hj. }
  destruct (origin_mono s _ Hj) as [Hwm Hmm].
  split; cbn [do_submit chan workers submits slots].
  - cbn. at_key i; [done|apply Hf].
  - by eapply Forall_impl.
  - by eapply Forall_impl.
  - intros j p. destruct (decide (j = i)) as [->|Hne].
    + rewrite lookup_insert_eq. intros [= <-]. cbn. unfold message_ok. cbn. by rewrite !lookup_insert_eq.
    + rewrite lookup_insert_ne by done. intros Hp. apply (submit_ok_mono s); try done; [|by apply Hs].
      cbn. by rewrite lookup_insert_ne.
  - at_key i; [done|]. intros r Hr. apply (own_mono s _ j Hj). by apply Hl.
Qed.

Lemma origin_send s i m : origin_ok s -> submits s !! i = Some (SubCounted m) -> origin_ok (do_send i m s).
Proof.
  intros Hg Hi. pose proof Hg as [Hf Hq Hw Hs Hl].
  destruct (Hs i _ Hi) as (Hm & Hok & Hsl). unfold do_send. destruct (is_open s) eqn:Ho.
  - split; cbn [chan workers submits slots]; try done.
    + cbn. at_key i; [done|apply Hf].
    + rewrite queued_push. apply Forall_app. by split; [|constructor].
    + apply map_Forall_insert_2; [|done]. cbn. by rewrite Hsl.
  - split; cbn [set_submit set_slot chan workers submits slots]; try done.
    + cbn. at_key i; [done|apply Hf].
    + intros j p. destruct (decide (j = i)) as [->|Hne].
      * rewrite lookup_insert_eq. by intros [= <-].
      * rewrite lookup_insert_ne by done. intros Hp. apply (submit_ok_mono s); try done; [|by apply Hs].
        cbn. by rewrite lookup_insert_ne.
    + at_key i; [done|apply Hl].
Qed.

Lemma origin_recv s w m c :
  origin_ok s -> workers s !! w = Some WIdle -> pop (chan s) = Some (m, c) -> origin_ok (do_recv w m c s).
Proof.
  intros [Hf Hq Hw Hs Hl] Hx Hp. rewrite (pop_Some _ _ _ Hp) in Hq. apply Forall_cons in Hq as [Hm Hq].
  split; cbn [do_recv chan workers submits slots]; try done.
  - by apply Forall_insert.
  - intros j p Hj. apply (submit_ok_mono s); try done; [|by apply Hs].
    by rewrite (is_open_alive s w WIdle).
Qed.

Lemma held_not_counted s w x i m :
  reply_ok s -> workers s !! w = Some x -> held x = [i] -> submits s !! i <> Some (SubCounted m).
Proof.
  intros Hr Hw Hx E. destruct (concat_worker held _ w x x Hw) as (R & E1 & _).
  destruct (rp_open _ _ _ Hr i) as [[?|?] _]; [|congruence..].
  unfold held_calls. rewrite E1, Hx. set_solver.
Qed.

Lemma origin_ok_exec e s s' : reply_ok s -> origin_ok s -> exec e s = Some s' -> origin_ok s'.
Proof.
  intros Hr Hg Hx. pose proof (og_submits s Hg) as Hsub. pose proof (og_workers s Hg) as Hwk.
  rewrite Forall_lookup in Hwk.
  destruct e; cbn [exec] in Hx; event_cases Hx.
  - by apply origin_submit.
  - by apply origin_send.
  - apply origin_set_submit; [by apply origin_set_depth|]. right. right. split; [done|].
    apply (Hsub i _ Heqo).
  - apply origin_set_submit; [done|]. left. by apply (og_slots s Hg).
  - apply origin_set_submit; [done|]. right. left. split; [done|]. by apply (Hsub i _ Heqo).
  - by apply origin_set_submit.
  - by apply origin_recv.
  - eapply origin_set_worker; [by apply origin_set_depth|done|done|]. apply (Hwk _ _ Heqo).
  - pose proof (Hwk _ _ Heqo) as Hm. cbn in Hm. pose proof (origin_note_run s (m_call m) x Hg) as Hg'.
    assert ((m_call m, x) ∈ ran (note_run (m_call m) x s)) as Hin by (apply elem_of_app; right; left).
    unfold do_run. cbv zeta. destruct (m_job m x) eqn:Ex.
    + eapply origin_set_worker; [done..|]. split; [done|]. by exists (m_job m), x.
    + eapply origin_set_worker; [apply origin_set_slot|..]; try done.
      * intros _ _. by exists (m_job m), x.
      * intros ?. by eapply held_not_counted.
  - destruct (Hwk _ _ Heqo) as [Hm Ho]. eapply origin_set_worker; [apply origin_set_slot|..]; try done.
    + by intros ? [= <-].
    + intros ?. by eapply held_not_counted.
Qed.

#[local] Hint Resolve depth_ok_exec fifo_ok_exec reply_ok_exec origin_ok_exec : sandbox.

Lemma pool_inv_exec n e s s' : inv n s -> exec e s = Some s' -> inv n s'.
Proof.
  intros [Hn Hd Hf Hr Hg] Hx. split; eauto with sandbox.
  rewrite <-Hn. destruct e; cbn [exec] in Hx; event_cases Hx;
      unfold do_send, do_run; repeat case_match; cbn; by rewrite ?length_insert.
Qed.

Lemma concat_idle {B} (g : worker -> list B) n : g WIdle = [] -> concat (g <$> repeat WIdle n) = [].
Proof. intros Hg. induction n as [|n IH]; [done|]. cbn. by rewrite Hg. Qed.

Lemma inv_start n : inv n (start n).
Proof.
  split; cbn.
  - apply repeat_length.
  - unfold depth_ok. rewrite len_counted. cbn. rewrite queued_unbounded, concat_idle by done. done.
  - split; unfold queued_calls; cbn; rewrite ?queued_unbounded; [done|constructor|].
    by intros i ?%elem_of_nil.
  - unfold reply_ok, queued_calls, held_calls. cbn. rewrite queued_unbounded, concat_idle by done.
    split; [constructor|..]; intros i; [by intros ?%elem_of_nil|done..].
  - split; cbn; try done; [by rewrite queued_unbounded|]. apply Forall_forall. by intros w ->%list_elem_of_In%repeat_spec.
Qed.

Lemma pool_inv_reachable n s : reachable n s -> inv n s.
Proof.
  intros [es Hes]. revert Hes. generalize (inv_start n). generalize (start n).
  induction es as [|e es IH]; cbn; intros s0 Hi Hx; [congruence|].
  destruct (exec e s0) as [s1|] eqn:E; [|done]. eapply IH; [|done]. by eapply pool_inv_exec.
Qed.

(** ** The calls the depth counts are distinct *)

Lemma transit_lookup s i : i ∈ transit_calls s ->
  exists p, submits s !! i = Some p /\ in_transit p = true.
Proof.
  unfold transit_calls. intros ([j p] & -> & Hj)%list_elem_of_fmap.
  apply elem_of_map_to_list, map_lookup_filter_Some in Hj as [? ?]. eauto.
Qed.

Lemma got_sublist ws : concat (got <$> ws) `sublist_of` concat (held <$> ws).
Proof.
  induction ws as [|w ws IH]; [constructor|]. cbn [fmap list_fmap concat]. apply sublist_app; [|done].
  destruct w; cbn; try done; apply sublist_nil_l.
Qed.

Lemma queued_got_sublist s : queued_calls s ++ got_calls s `sublist_of` queued_calls s ++ held_calls s.
Proof. apply sublist_app; [done|apply got_sublist]. Qed.

Lemma counted_nodup s : reply_ok s -> NoDup (counted s).
Proof.
  intros Hr. unfold counted. apply NoDup_app. split; [|split].
  - apply NoDup_fst_map_to_list.
  - intros i (p & Hp & Ht)%transit_lookup Hin.
    assert (i ∈ queued_calls s ++ held_calls s) as Hin' by (by eapply elem_of_sublist, queued_got_sublist).
    destruct (rp_open _ _ _ Hr i Hin') as [[?|?] _]; simplify_eq; done.
  - eapply sublist_NoDup; [apply Hr|apply queued_got_sublist].
Qed.

Lemma counted_dom s : reply_ok s -> forall i, i ∈ counted s -> i ∈ dom (submits s).
Proof.
  intros Hr i [Hi|Hi]%elem_of_app; apply elem_of_dom.
  - apply transit_lookup in Hi as (p & -> & _). done.
  - assert (i ∈ queued_calls s ++ held_calls s) as Hin by (by eapply elem_of_sublist, queued_got_sublist).
    destruct (rp_open _ _ _ Hr i Hin) as [[-> | ->] _]; done.
Qed.

Lemma counted_bound s : reply_ok s -> (length (counted s) <= size (submits s))%nat.
Proof.
  intros Hr. rewrite <-size_dom. rewrite <-(size_list_to_set (C := gset nat) (counted s)) by (by apply counted_nodup).
  apply subseteq_size. intros i Hi%elem_of_list_to_set. by apply counted_dom.
Qed.

(** ** Progress: what is left to do in a pool *)

Definition submit_work (p : submit_pc) : nat :=
  match p with SubCounted _ => 8 | SubRefused => 1 | SubAwait => 1 | SubReturned _ | SubDropped => 0 end.
Definition worker_work (w : worker) : nat :=
  match w with WGot _ => 4 | WRunning _ => 3 | WReply _ _ => 2 | WIdle => 1 | WDead => 0 end.
Definition work (s : Pool) : nat :=
  map_fold (fun _ p n => submit_work p + n)%nat 0%nat (submits s)
  + 5 * length (queued (chan s)) + sum_list_with worker_work (workers s).

Definition is_submit (e : event) : bool := match e with EvSubmit _ _ _ => true | _ => false end.

Lemma fold_work_insert (m : gmap nat submit_pc) i p q : m !! i = Some p ->
  (map_fold (fun _ p n => submit_work p + n) 0 (<[i := q]> m) + submit_work p
   = map_fold (fun _ p n => submit_work p + n) 0 m + submit_work q)%nat.
Proof.
  intros Hi. rewrite <-(insert_delete_id m i p Hi) at 2. rewrite <-insert_delete_eq.
  assert (delete i m !! i = None) by apply lookup_delete_eq.
  rewrite !map_fold_insert_L by (done || (intros; cbn; lia)). cbn. lia.
Qed.

Lemma sum_work_insert ws w x y : ws !! w = Some x ->
  (sum_list_with worker_work (<[w := y]> ws) + worker_work x = sum_list_with worker_work ws + worker_work y)%nat.
Proof.
  intros Hw. rewrite insert_take_drop by (by eapply lookup_lt_Some).
  rewrite <-(take_drop_middle ws w x Hw) at 3. rewrite !sum_list_with_app. cbn [sum_list_with]. lia.
Qed.

Lemma work_decreases e s s' : is_submit e = false -> exec e s = Some s' -> (work s' < work s)%nat.
Proof.
  intros He Hx. unfold work.
  destruct e; try done; cbn [exec] in Hx; event_cases Hx;
    unfold do_submit, do_send, do_refuse, do_recv, do_sub, do_run, do_reply; repeat case_match;
    cbn [note_run set_submit set_worker set_depth set_slot chan queue_depth workers submits slots];
    repeat match goal with
    | E : submits s !! ?i = Some ?p |- context [<[?i := ?q]> (submits s)] =>
      pose proof (fold_work_insert (submits s) i p q E); clear E
    | E : workers s !! ?w = Some ?x |- context [<[?w := ?y]> (workers s)] =>
      pose proof (sum_work_insert (workers s) w x y E); clear E
    | E : pop (chan s) = Some (?m, ?c) |- _ => rewrite (pop_Some _ _ _ E); clear E
    end; rewrite ?queued_push, ?length_app; cbn [submit_work worker_work length] in *; lia.
Qed.

(** Nothing but new calls can happen. *)
Definition quiescent (s : Pool) : Prop :=
  forall e, is_submit e = false -> exec e s = None.

Definition answered (p : submit_pc) : Prop :=
  match p with SubReturned _ | SubDropped => True | _ => False end.

Lemma quiescent_workers s (x0 : World) w x :
  quiescent s -> workers s !! w = Some x -> x = WIdle \/ x = WDead.
Proof.
  intros Hq Hw. destruct x as [|m|m|m r|]; [by left| | | |by right]; exfalso.
  - specialize (Hq (EvSub w) eq_refl). cbn in Hq. by rewrite Hw in Hq.
  - specialize (Hq (EvRun w x0) eq_refl). cbn in Hq. by rewrite Hw in Hq.
  - specialize (Hq (EvReply w) eq_refl). cbn in Hq. by rewrite Hw in Hq.
Qed.

Lemma quiescent_held s (x0 : World) : quiescent s -> held_calls s = [].
Proof.
  intros Hq. unfold held_calls. apply concat_nil_Forall, Forall_fmap, Forall_lookup. intros w x Hw.
  by destruct (quiescent_workers s x0 w x Hq Hw) as [-> | ->].
Qed.

Lemma quiescent_queue s (x0 : World) : quiescent s -> is_open s = true -> queued (chan s) = [].
Proof.
  intros Hq (x & Hx & Ha)%existsb_exists. apply list_elem_of_In, list_elem_of_lookup_1 in Hx as [w Hw].
  destruct (quiescent_workers s x0 w x Hq Hw) as [-> | ->]; [|done].
  specialize (Hq (EvRecv w) eq_refl). cbn in Hq. rewrite Hw in Hq.
  pose proof (pop_spec _ (chan s)) as Hp. by destruct (pop (chan s)) as [[]|].
Qed.

Lemma quiescent_answered n s (x0 : World) :
  inv n s -> quiescent s -> is_open s = true -> map_Forall (fun _ p => answered p) (submits s).
Proof.
  intros Hi Hq Ho i p Hp. destruct p as [m| | |r|]; try done; exfalso.
  - specialize (Hq (EvSend i) eq_refl). cbn in Hq. by rewrite Hp in Hq.
  - specialize (Hq (EvRefuse i) eq_refl). cbn in Hq. by rewrite Hp in Hq.
  - pose proof (inv_reply n s Hi) as Hr. pose proof (Hq (EvReceive i) eq_refl) as He. cbn in He.
    rewrite Hp in He. destruct (rp_slot _ _ _ Hr i Hp) as [o Hs]. rewrite Hs in He.
    destruct o; try done. pose proof (rp_await _ _ _ Hr i Hp Hs) as Hin.
    unfold queued_calls in Hin. rewrite (quiescent_queue s x0), (quiescent_held s x0) in Hin by done.
    by apply elem_of_nil in Hin.
Qed.

Lemma transit_answered s : map_Forall (fun _ p => answered p) (submits s) -> transit_calls s = [].
Proof.
  intros Ha. destruct (transit_calls s) as [|i l] eqn:E; [done|].
  destruct (transit_lookup s i) as (p & Hp & Ht); [rewrite E; left|].
  pose proof (Ha i p Hp). by destruct p.
Qed.

Lemma execs_work es s s' : Forall (fun e => is_submit e = false) es -> execs es s = Some s' ->
  (length es + work s' <= work s)%nat.
Proof.
  revert s. induction es as [|e es IH]; cbn [execs length]; intros s Hes Hx; [simplify_eq; lia|].
  apply Forall_cons in Hes as [He Hes]. destruct (exec e s) as [s1|] eqn:E; [|done].
  pose proof (work_decreases e s s1 He E). pose proof (IH s1 Hes Hx). lia.
Qed.

(** *** Pools whose jobs never panic *)

Definition safe_job (f : Job) : Prop := forall x, f x <> None.
Definition safe_event (e : event) : Prop := match e with EvSubmit _ _ f => safe_job f | _ => True end.

(** No worker is dead and every job is safe. *)
Definition healthy (s : Pool) : Prop :=
  Forall (fun w => alive w = true) (workers s) /\ map_Forall (fun _ f => safe_job f) (jobs s).

Lemma healthy_exec n e s s' : inv n s -> safe_event e -> healthy s -> exec e s = Some s' -> healthy s'.
Proof.
  intros Hi He [Hw Hj] Hx. pose proof (og_workers s (inv_origin n s Hi)) as Hwk. rewrite Forall_lookup in Hwk.
  destruct e; cbn [exec] in Hx; event_cases Hx;
    unfold do_submit, do_send, do_refuse, do_recv, do_sub, do_run, do_reply; repeat case_match; split;
    cbn [note_run set_submit set_worker set_depth set_slot chan queue_depth workers submits slots jobs];
    try done; try (by apply Forall_insert).
  - by apply map_Forall_insert_2.
  - exfalso. apply (Hj (m_call m) (m_job m) (Hwk _ _ Heqo) x). done.
Qed.

Lemma healthy_execs n es s : Forall safe_event es -> execs es (start n) = Some s -> healthy s.
Proof.
  assert (forall s0, inv n s0 -> healthy s0 -> Forall safe_event es -> execs es s0 = Some s -> healthy s) as Hgen.
  { induction es as [|e es IH]; cbn; intros s0 Hi Hh Hes Hx; [congruence|].
    apply Forall_cons in Hes as [He Hes]. destruct (exec e s0) as [s1|] eqn:E; [|done].
    eapply IH; [by eapply pool_inv_exec|by eapply healthy_exec|done|done]. }
  apply Hgen; [apply inv_start|]. split; cbn; [|done].
  apply Forall_forall. by intros w ->%list_elem_of_In%repeat_spec.
Qed.

Lemma healthy_open n s : inv n s -> healthy s -> (0 < n)%nat -> is_open s = true.
Proof.
  intros Hi [Hw _] Hn. rewrite <-(inv_workers n s Hi) in Hn. destruct (workers s) as [|w ws] eqn:E; [cbn in Hn; lia|].
  apply Forall_cons in Hw as [Hw _]. apply (is_open_alive s 0 w); [by rewrite E|done].
Qed.

(** In a pool of safe jobs, an answer is the result of the call's own job. *)
Lemma healthy_answer n es s i r :
  (0 < n)%nat -> Forall safe_event es -> execs es (start n) = Some s ->
  submits s !! i = Some (SubReturned r) -> own_result s i r.
Proof.
  intros Hn Hes Hx Hr. pose proof (healthy_execs n es s Hes Hx) as Hh.
  assert (inv n s) as Hi by (apply pool_inv_reachable; by exists es).
  destruct (og_submits s (inv_origin n s Hi) i _ Hr) as [|[(_ & f & x & Hf & _ & Hp)|[_ Ho]]]; [done|..].
  - destruct Hh as [_ Hj]. by destruct (Hj i f Hf x).
  - by rewrite (healthy_open n s) in Ho.
Qed.

Lemma pool_execs_app es1 es2 s :
  execs (es1 ++ es2) s = match execs es1 s with Some s1 => execs es2 s1 | None => None end.
Proof. revert s. induction es1 as [|e es1 IH]; intros s; [done|]. cbn. by destruct (exec e s). Qed.

(** Only a new call adds a call. *)
Lemma execs_calls es s s' : Forall (fun e => is_submit e = false) es -> execs es s = Some s' ->
  dom (submits s') = dom (submits s).
Proof.
  revert s. induction es as [|e es IH]; cbn [execs]; intros s Hes Hx; [by simplify_eq|].
  apply Forall_cons in Hes as [He Hes]. destruct (exec e s) as [s1|] eqn:E; [|done].
  rewrite (IH s1 Hes Hx). clear IH Hx.
  destruct e; try done; cbn [exec] in E; event_cases E;
    unfold do_submit, do_send, do_refuse, do_recv, do_sub, do_run, do_reply; repeat case_match;
    cbn [note_run set_submit set_worker set_depth set_slot submits]; try done;
    rewrite dom_insert_L; apply subseteq_union_1_L, singleton_subseteq_l, elem_of_dom; by eexists.
Qed.

(** A call waiting for a pool without workers. *)
Definition stranded (i : nat) (s : Pool) : Prop :=
  is_open s = false
  /\ ((submits s !! i = Some SubAwait /\ slots s !! i = Some Open) \/ submits s !! i = Some SubDropped).

Lemma stranded_exec e i s s' : stranded i s -> exec e s = Some s' -> stranded i s'.
Proof.
  intros [Ho Hp] Hx.
  assert (forall w x, workers s !! w = Some x -> x = WDead) as Hdead.
  { intros w x Hw. destruct x; try done; by rewrite (is_open_alive s w _ Hw) in Ho. }
  destruct e as [j lang f|j|j|j|j|w|w|w x|w]; cbn [exec] in Hx; event_cases Hx;
    try (match goal with E : workers s !! _ = Some _ |- _ => by apply Hdead in E end);
    unfold do_submit, do_send, do_refuse; rewrite ?Ho; (split; [done|]);
    cbn [set_submit set_depth set_slot submits slots];
    (destruct (decide (i = j)) as [<-|Hij];
      [rewrite ?lookup_insert_eq; naive_solver congruence|rewrite !lookup_insert_ne by congruence; done]).
Qed.

(** Every job was submitted. *)
Lemma jobs_submitted es s0 s i f : execs es s0 = Some s -> jobs s !! i = Some f ->
  jobs s0 !! i = Some f \/ exists lang, EvSubmit i lang f ∈ es.
Proof.
  revert s0. induction es as [|e es IH]; cbn [execs]; intros s0 Hx Hf; [left; congruence|].
  destruct (exec e s0) as [s1|] eqn:E; [|done].
  destruct (IH s1 Hx Hf) as [Hj|[lang Hin]]; [|right; exists lang; by right].
  destruct e; cbn [exec] in E; event_cases E; revert Hj;
    unfold do_submit, do_send, do_refuse, do_recv, do_sub, do_run, do_reply; repeat case_match;
    cbn [note_run set_submit set_worker set_depth set_slot jobs]; auto.
  intros [[-> ->]|[_ Hj]]%lookup_insert_Some; [right; eexists; by left|by left].
Qed.

Definition is_running (w : worker) : bool := match w with WRunning _ => true | _ => false end.

(** ** Theorems *)

(** The depth reported by the health endpoint is exact in every reachable
    state: it is the number of calls counted in and not yet handed to a job,
    each counted once, so it never underflows; and it is zero again whenever
    nothing is left to do in a pool that still has a worker. *)
Theorem queue_depth_exact n s (x0 : World) :
  reachable n s -> Z.of_nat (size (submits s)) <= usize_max ->
  queue_depth s = len (counted s) /\ NoDup (counted s)
  /\ (quiescent s -> is_open s = true -> queue_depth s = 0).
Proof.
  intros Hr%pool_inv_reachable Hb. pose proof (inv_reply n s Hr) as Hrep.
  assert (queue_depth s = len (counted s)) as Hd.
  { rewrite (inv_depth n s Hr). apply Z.mod_small. pose proof (counted_bound s Hrep). int_lia. }
  split; [done|]. split; [by apply counted_nodup|]. intros Hq Ho. rewrite Hd. unfold counted, queued_calls, got_calls.
  rewrite transit_answered, (quiescent_queue s x0) by (done || by eapply quiescent_answered).
  assert (got_calls s = []) as Hg; [|unfold got_calls in Hg; by rewrite Hg].
  apply sublist_nil_r. rewrite <-(quiescent_held s x0 Hq). apply got_sublist.
Qed.

(** Jobs start in the order their messages entered the channel, each at
    most once, and at most [n] of them run at the same time. *)
Theorem queue_fifo_once n s :
  reachable n s ->
  sent s = started s ++ queued_calls s /\ NoDup (sent s)
  /\ (length (filter (fun w => is_running w = true) (workers s)) <= n)%nat.
Proof.
  intros [Hn _ [Hs Hd _] _ _]%pool_inv_reachable. split; [done|]. split; [done|].
  rewrite <-Hn. apply length_filter.
Qed.

(** C16. What [submit] returns was produced by the very job it was given; the
    only other answers are the 500 errors: "worker shut down" when that job
    panicked, and "worker pool unavailable" when no worker is left. *)
Theorem queue_answers_own_job n s i r :
  reachable n s -> submits s !! i = Some (SubReturned r) ->
  own_result s i r \/ (r = err_shut_down /\ own_panic s i)
  \/ (r = err_unavailable /\ is_open s = false).
Proof. intros [_ _ _ _ Hg]%pool_inv_reachable Hi. apply (og_submits s Hg i _ Hi). Qed.

(** C33. Every call is answered by its own job, in a pool with at least one
    worker whose jobs do not panic and come to an end. In any execution of it,
    at most [work s] more steps can follow without a new call; and when these
    have run out, every call made so far was either abandoned by its caller
    while it waited or has returned the result of its own job. *)
Theorem queue_progress n es s (x0 : World) :
  (0 < n)%nat -> Forall safe_event es -> execs es (start n) = Some s ->
  forall es' s', Forall (fun e => is_submit e = false) es' -> execs es' s = Some s' ->
    (length es' + work s' <= work s)%nat
    /\ (quiescent s' -> dom (submits s') = dom (submits s)
        /\ map_Forall (fun i p => p = SubDropped \/ exists r, p = SubReturned r /\ own_result s' i r) (submits s')).
Proof.
  intros Hn Hes Hx es' s' Hes' Hx'. split; [by apply execs_work|]. intros Hq.
  assert (execs (es ++ es') (start n) = Some s') as Hx2 by (by rewrite pool_execs_app, Hx).
  assert (Forall safe_event (es ++ es')) as Hsafe.
  { apply Forall_app. split; [done|]. eapply Forall_impl; [exact Hes'|]. by intros []. }
  assert (inv n s') as Hi by (apply pool_inv_reachable; by exists (es ++ es')).
  split; [by eapply execs_calls|]. intros i p Hp.
  pose proof (quiescent_answered n s' x0 Hi Hq (healthy_open n s' Hi (healthy_execs n _ s' Hsafe Hx2) Hn) i p Hp) as Ha.
  destruct p as [| | |r|]; try done; [right|by left]. exists r. split; [done|]. by eapply healthy_answer.
Qed.

(** A pool whose workers have all panicked strands the calls it has queued: no
    later event answers a call that waits with its channel still open, and it
    stays until its caller gives it up. *)
Theorem queue_stranded s es s' i :
  is_open s = false -> submits s !! i = Some SubAwait -> slots s !! i = Some Open ->
  execs es s = Some s' ->
  (submits s' !! i = Some SubAwait /\ slots s' !! i = Some Open) \/ submits s' !! i = Some SubDropped.
Proof.
  intros Ho Hp Hs. assert (stranded i s) as Hst by (split; auto). clear Ho Hp Hs. revert s Hst.
  induction es as [|e es IH]; cbn [execs]; intros s0 Hst Hx.
  - injection Hx as <-. by destruct Hst.
  - destruct (exec e s0) as [s1|] eqn:E; [|done]. by apply (IH s1); [eapply stranded_exec|].
Qed.

End Queue.

(** ** Witnesses: one worker, two calls *)

Module Demo.

Definition job (b : bool) : Job (World := bool) :=
  fun x => if x then Some (success (JBool b)) else None.

(** Call 0 is answered; call 1 is in the channel. *)
Definition trace : list event :=
  [EvSubmit 0 (str "python3") (job true); EvSubmit 1 (str "javascript") (job false); EvSend 1; EvSend 0;
   EvRecv 0; EvSub 0; EvRun 0 true; EvReply 0; EvReceive 1].

Definition state : Pool :=
  match execs (H := list_mpmc) trace (start 1) with Some s => s | None => start 1 end.

(** Two calls whose jobs cannot panic, and what is left to do for them. *)
Definition safe_trace : list (event (World := bool)) :=
  [EvSubmit 0 (str "python3") (fun x => Some (success (JBool x))); EvSubmit 1 (str "python3") (fun _ => Some err_shut_down);
   EvSend 1; EvSend 0; EvRecv 0].
Definition safe_state : Pool :=
  match execs (H := list_mpmc) safe_trace (start 1) with Some s => s | None => start 1 end.
Definition rest : list (event (World := bool)) :=
  [EvSub 0; EvRun 0 true; EvReply 0; EvReceive 1; EvRecv 0; EvSub 0; EvRun 0 true; EvReply 0; EvReceive 0].

(** Call 1 panics in the only worker while call 0 is queued. *)
Definition dead_trace : list event :=
  [EvSubmit 0 (str "python3") (job true); EvSubmit 1 (str "javascript") (job false); EvSend 1; EvSend 0;
   EvRecv 0; EvSub 0; EvRun 0 false].
Definition dead_state : Pool :=
  match execs (H := list_mpmc) dead_trace (start 1) with Some s => s | None => start 1 end.

Lemma pool_state_reachable : reachable (H := list_mpmc) 1 state.
Proof.
  exists trace. unfold state. destruct (execs trace (start 1)) eqn:E; [done|]. vm_compute in E. discriminate E.
Qed.

End Demo.

Lemma queue_depth_exact_witness :
  queue_depth (H := list_mpmc) Demo.state = 1 /\ counted (H := list_mpmc) Demo.state = [0%nat]
  /\ queue_depth (H := list_mpmc) Demo.state = len (counted (H := list_mpmc) Demo.state).
Proof.
  split; [by vm_compute|]. split; [by vm_compute|].
  apply (queue_depth_exact (H := list_mpmc) 1 Demo.state true).
  - apply Demo.pool_state_reachable.
  - by vm_compute.
Defined.

Lemma queue_fifo_once_witness :
  sent (H := list_mpmc) Demo.state = [1%nat; 0%nat] /\ started (H := list_mpmc) Demo.state = [1%nat]
  /\ NoDup (sent (H := list_mpmc) Demo.state).
Proof.
  split; [by vm_compute|]. split; [by vm_compute|].
  apply (queue_fifo_once (H := list_mpmc) 1 Demo.state), Demo.pool_state_reachable.
Defined.

Lemma queue_answers_own_job_witness :
  own_result (H := list_mpmc) Demo.state 1 (success (JBool false))
  \/ (success (JBool false) = err_shut_down /\ own_panic (H := list_mpmc) Demo.state 1)
  \/ (success (JBool false) = err_unavailable /\ is_open (H := list_mpmc) Demo.state = false).
Proof.
  apply (queue_answers_own_job (H := list_mpmc) 1 Demo.state 1 (success (JBool false))).
  - apply Demo.pool_state_reachable.
  - by vm_compute.
Defined.

Lemma queue_progress_witness :
  exists s', execs (H := list_mpmc) Demo.rest Demo.safe_state = Some s'
    /\ (length Demo.rest + work (H := list_mpmc) s' <= work (H := list_mpmc) Demo.safe_state)%nat.
Proof.
  eexists. split; [vm_compute; reflexivity|].
  refine (proj1 (queue_progress (H := list_mpmc) 1 Demo.safe_trace Demo.safe_state true ltac:(lia) _ _ Demo.rest _ _ _)).
  - repeat constructor; by intros [].
  - vm_compute. reflexivity.
  - by repeat constructor.
  - vm_compute. reflexivity.
Defined.

Lemma queue_stranded_witness :
  let s := Demo.dead_state in
  forall es s', execs (H := list_mpmc) es s = Some s' ->
  (submits s' !! 0%nat = Some SubAwait /\ slots s' !! 0%nat = Some Open) \/ submits s' !! 0%nat = Some SubDropped.
Proof.
  intros s es s'. apply (queue_stranded (H := list_mpmc) Demo.dead_state es s' 0).
  - by vm_compute.
  - by vm_compute.
  - by vm_compute.
Defined.
