(* ===== verification/Restart.v ===== *)
(** * Restart: the global zygote slot and its single-flight restart

    [server/src/main.rs] ([get_zygote], [try_begin_restart], [end_restart],
    [request_zygote_restart], [try_restart_zygote], the zygote part of [main])
    with its only client, the fast path of [services/python.rs].  Requests and
    restart tasks are interleaved at every access to the slot, the gate and a
    manager's [running] flag.  A manager is a name; its flag falls when its
    reader exits, which may happen at any time. *)

From S2P Require Import Prelude.

(** ** Data *)

Inductive request :=
| RqStart                (* before [get_zygote] *)
| RqGot (z : nat)        (* a handle was cloned out of the slot *)
| RqFast (z : nat)       (* [z.run] *)
| RqDead                 (* [z] is dead; before [request_zygote_restart] *)
| RqSlow.                (* fresh interpreter *)

Inductive task :=
| TkStart                (* before the first check of [try_restart_zygote] *)
| TkBuild                (* before [ZygoteManager::new] *)
| TkSwap (z : nat)       (* before the write lock *)
| TkReturned (ok : bool) (* before [end_restart] *)
| TkDone.

(** [running] has a name for every manager ever created. *)
Record State := mkState {
  zygote : option nat;
  restarting : bool;
  running : gmap nat bool;
  requests : gmap nat request;
  tasks : gmap nat task
}.

Definition is_running (z : nat) (s : State) : bool :=
  match running s !! z with Some b => b | None => false end.

Definition set_request (i : nat) (q : request) (s : State) : State :=
  mkState (zygote s) (restarting s) (running s) (<[i := q]> (requests s)) (tasks s).
Definition set_task (t : nat) (k : task) (s : State) : State :=
  mkState (zygote s) (restarting s) (running s) (requests s) (<[t := k]> (tasks s)).
Definition set_running (z : nat) (b : bool) (s : State) : State :=
  mkState (zygote s) (restarting s) (<[z := b]> (running s)) (requests s) (tasks s).
Definition set_restarting (b : bool) (s : State) : State :=
  mkState (zygote s) b (running s) (requests s) (tasks s).
Definition set_zygote (z : option nat) (s : State) : State :=
  mkState z (restarting s) (running s) (requests s) (tasks s).

(** ** Operations *)

Definition get_zygote (s : State) : option nat := zygote s.

(** [compare_exchange(false, true)]: whether it succeeded, and the new state. *)
Definition try_begin_restart (s : State) : bool * State :=
  if restarting s then (false, s) else (true, set_restarting true s).

Definition end_restart (s : State) : State := set_restarting false s.

(** The winner of the gate spawns task [t]. *)
Definition request_zygote_restart (t : nat) (s : State) : State :=
  match try_begin_restart s with
  | (true, s) => set_task t TkStart s
  | (false, s) => s
  end.

(** [try_restart_zygote] up to the spawn: already back up? *)
Definition restart_check (t : nat) (s : State) : State :=
  match get_zygote s with
  | Some z => if is_running z s then set_task t (TkReturned true) s else set_task t TkBuild s
  | None => set_task t TkBuild s
  end.

(** [ZygoteManager::new]: a fresh running manager, or an error. *)
Definition restart_build (t : nat) (new_z : option nat) (s : State) : State :=
  match new_z with
  | Some z => set_task t (TkSwap z) (set_running z true s)
  | None => set_task t (TkReturned false) s
  end.

(** Under the write lock: install [new_z], or drop it (killing its child) when
    a live manager is already installed. *)
Definition restart_swap (t new_z : nat) (s : State) : State :=
  let swap := set_task t (TkReturned true) (set_zygote (Some new_z) s) in
  match zygote s with
  | Some z => if is_running z s then set_task t (TkReturned true) (set_running new_z false s) else swap
  | None => swap
  end.

(** The zygote part of [main]: [new_z] is the outcome of [ZygoteManager::new]. *)
Definition startup (python_zygote : bool) (new_z : option nat) : State :=
  let s := mkState None false ∅ ∅ ∅ in
  if python_zygote then
    match new_z with
    | Some z => set_zygote (Some z) (set_running z true s)
    | None => s
    end
  else s.

(** ** Executions *)

Inductive event :=
| EvArrive (i : nat)
| EvGet (i : nat)
| EvObserve (i : nat)
| EvRequest (i t : nat)
| EvCheck (t : nat)
| EvBuild (t : nat) (new_z : option nat)
| EvSwap (t : nat)
| EvEnd (t : nat)
| EvDie (z : nat).

Definition fresh (new_z : option nat) (s : State) : bool :=
  match new_z with Some z => bool_decide (running s !! z = None) | None => true end.

Definition exec (e : event) (s : State) : option State :=
  match e with
  | EvArrive i => match requests s !! i with None => Some (set_request i RqStart s) | Some _ => None end
  | EvGet i =>
    match requests s !! i with
    | Some RqStart =>
      Some (set_request i (match get_zygote s with Some z => RqGot z | None => RqSlow end) s)
    | _ => None
    end
  | EvObserve i =>
    match requests s !! i with
    | Some (RqGot z) => Some (set_request i (if is_running z s then RqFast z else RqDead) s)
    | _ => None
    end
  | EvRequest i t =>
    match requests s !! i, tasks s !! t with
    | Some RqDead, None => Some (set_request i RqSlow (request_zygote_restart t s))
    | _, _ => None
    end
  | EvCheck t => match tasks s !! t with Some TkStart => Some (restart_check t s) | _ => None end
  | EvBuild t new_z =>
    match tasks s !! t with
    | Some TkBuild => if fresh new_z s then Some (restart_build t new_z s) else None
    | _ => None
    end
  | EvSwap t => match tasks s !! t with Some (TkSwap z) => Some (restart_swap t z s) | _ => None end
  | EvEnd t =>
    match tasks s !! t with Some (TkReturned _) => Some (set_task t TkDone (end_restart s)) | _ => None end
  | EvDie z => match running s !! z with Some true => Some (set_running z false s) | _ => None end
  end.

Fixpoint execs (es : list event) (s : State) : option State :=
  match es with
  | [] => Some s
  | e :: es => match exec e s with Some s' => execs es s' | None => None end
  end.

Definition reachable (s : State) : Prop :=
  exists enabled new_z es, execs es (startup enabled new_z) = Some s.

(** ** Invariant *)

Definition active (k : task) : bool := match k with TkDone => false | _ => true end.

Record inv (s : State) : Prop := {
  (** the gate is closed exactly while one task is in flight *)
  iv_gate : restarting s = true <-> exists t k, tasks s !! t = Some k /\ active k = true;
  iv_single : forall t1 t2 k1 k2, tasks s !! t1 = Some k1 -> tasks s !! t2 = Some k2 ->
    active k1 = true -> active k2 = true -> t1 = t2;
  (** a live manager is installed, or about to be *)
  iv_live : forall z, running s !! z = Some true ->
    zygote s = Some z \/ exists t, tasks s !! t = Some (TkSwap z);
  iv_known : forall z, zygote s = Some z -> is_Some (running s !! z);
  iv_swap : forall t z, tasks s !! t = Some (TkSwap z) -> is_Some (running s !! z) /\ zygote s <> Some z;
  (** without a first manager there are no restarts *)
  iv_none : zygote s = None -> tasks s = ∅ /\ forall i q, requests s !! i = Some q -> q = RqStart \/ q = RqSlow
}.

(** ** Lemmas *)

(** The task in flight moves on: the gate's part of the invariant. *)
Lemma gate_move s t k k' :
  inv s -> tasks s !! t = Some k -> active k = true -> active k' = true ->
  (restarting s = true <-> exists t' k0, <[t := k']> (tasks s) !! t' = Some k0 /\ active k0 = true)
  /\ (forall t1 t2 k1 k2, <[t := k']> (tasks s) !! t1 = Some k1 -> <[t := k']> (tasks s) !! t2 = Some k2 ->
      active k1 = true -> active k2 = true -> t1 = t2).
Proof.
  intros [Hg Hs _ _ _ _] Ht Hk Hk'. split.
  - split; [|intros _; apply Hg; eauto]. intros _. exists t, k'. by rewrite lookup_insert_eq.
  - assert (forall t' k0, <[t := k']> (tasks s) !! t' = Some k0 -> active k0 = true -> t' = t) as Hone.
    { intros t' k0 [[-> _]|[Hne E]]%lookup_insert_Some Ha; [done|]. by eapply Hs. }
    intros. transitivity t; [|symmetry]; eauto.
Qed.

(** Only the task in flight may be about to swap. *)
Lemma swap_only s t k t' z :
  inv s -> tasks s !! t = Some k -> active k = true -> tasks s !! t' = Some (TkSwap z) -> t' = t.
Proof. intros Hi Ht Hk Ht'. by eapply (iv_single s Hi). Qed.

Lemma some_zygote s t k : inv s -> tasks s !! t = Some k -> zygote s <> None.
Proof. intros Hi Ht Hz. destruct (iv_none s Hi Hz) as [E _]. by rewrite E in Ht. Qed.

Lemma inv_set_request s i q :
  inv s -> (zygote s = None -> q = RqStart \/ q = RqSlow) -> inv (set_request i q s).
Proof.
  intros [Hg Hs Hl Hk Hw Hn] Hq. split; try done. intros Hz. destruct (Hn Hz) as [Ht Hr].
  split; [done|]. cbn. intros j q' [[-> <-]|[_ E]]%lookup_insert_Some; eauto.
Qed.

Lemma inv_die s z : inv s -> is_Some (running s !! z) -> inv (set_running z false s).
Proof.
  intros [Hg Hs Hl Hk Hw Hn] Hz. split; cbn; try done.
  - intros z' [[_ [=]]|[_ E]]%lookup_insert_Some. by apply Hl.
  - intros z' E. apply lookup_insert_is_Some'. eauto.
  - intros t z' E. destruct (Hw t z' E). split; [apply lookup_insert_is_Some'; eauto|done].
Qed.

(** A step of the task in flight that neither makes nor installs a manager. *)
Lemma inv_set_task s t k k' :
  inv s -> tasks s !! t = Some k -> active k = true -> active k' = true ->
  (forall z, k' <> TkSwap z) ->
  (forall z, k = TkSwap z -> running s !! z <> Some true) -> inv (set_task t k' s).
Proof.
  intros Hi Ht Hk Hk' Hns Hz. destruct (gate_move s t k k' Hi Ht Hk Hk') as [Hg1 Hs1].
  pose proof Hi as [Hg Hs Hl Hkn Hw Hn]. split; cbn; try done.
  - intros z Hr. destruct (Hl z Hr) as [|[t' E]]; [by left|right]. exists t'.
    rewrite lookup_insert_ne; [done|]. intros ->. rewrite Ht in E. injection E as ->. by apply (Hz z).
  - intros t' z [[_ E]|[_ E]]%lookup_insert_Some; [by apply Hns in E|by eapply Hw].
  - intros Hz'. by destruct (some_zygote s t k Hi Ht Hz').
Qed.

Lemma inv_request s i t :
  inv s -> requests s !! i = Some RqDead -> tasks s !! t = None -> inv (request_zygote_restart t s).
Proof.
  intros Hi Hr Ht. pose proof Hi as [Hg Hs Hl Hk Hw Hn].
  unfold request_zygote_restart, try_begin_restart. destruct (restarting s) eqn:Er; [done|].
  assert (forall t' k, tasks s !! t' = Some k -> active k = false) as Hidle.
  { intros t' k E. destruct (active k) eqn:Ea; [|done]. by assert (false = true) by (apply Hg; eauto). }
  assert (forall t' k, <[t := TkStart]> (tasks s) !! t' = Some k -> active k = true -> t' = t) as Hone.
  { intros t' k [[-> _]|[_ E]]%lookup_insert_Some Ha; [done|]. by rewrite (Hidle _ _ E) in Ha. }
  split; cbn; try done.
  - split; [|done]. intros _. exists t, TkStart. by rewrite lookup_insert_eq.
  - intros. transitivity t; [|symmetry]; eauto.
  - intros z Hz. destruct (Hl z Hz) as [|[t' E]]; [by left|right]. exists t'.
    rewrite lookup_insert_ne; [done|]. intros ->. by rewrite Ht in E.
  - intros t' z [[_ [=]]|[_ E]]%lookup_insert_Some. by eapply Hw.
  - intros Hz. destruct (Hn Hz) as [_ Hq]. by destruct (Hq i _ Hr).
Qed.

Lemma inv_build s t z :
  inv s -> tasks s !! t = Some TkBuild -> running s !! z = None -> inv (restart_build t (Some z) s).
Proof.
  intros Hi Ht Hz. destruct (gate_move s t TkBuild (TkSwap z) Hi Ht eq_refl eq_refl) as [Hg1 Hs1].
  pose proof Hi as [Hg Hs Hl Hk Hw Hn]. split; cbn; try done.
  - intros z' [[<- _]|[_ E]]%lookup_insert_Some.
    + right. exists t. apply lookup_insert_eq.
    + destruct (Hl z' E) as [|[t' E']]; [by left|right]. exists t'.
      rewrite lookup_insert_ne; [done|]. intros ->. by rewrite Ht in E'.
  - intros z' E. apply lookup_insert_is_Some'. eauto.
  - intros t' z' [[_ [= <-]]|[_ E]]%lookup_insert_Some.
    + split; [by rewrite lookup_insert_eq|]. intros E. destruct (Hk z E). congruence.
    + destruct (Hw t' z' E). split; [apply lookup_insert_is_Some'; eauto|done].
  - intros Hz'. by destruct (some_zygote s t TkBuild Hi Ht Hz').
Qed.

Lemma inv_swap s t z : inv s -> tasks s !! t = Some (TkSwap z) -> inv (restart_swap t z s).
Proof.
  intros Hi Ht. pose proof Hi as [Hg Hs Hl Hk Hw Hn]. destruct (Hw t z Ht) as [Hrz Hne].
  unfold restart_swap. destruct (zygote s) as [z0|] eqn:Ez; [|by destruct (some_zygote s t (TkSwap z) Hi Ht)].
  destruct (is_running z0 s) eqn:Er.
  - apply (inv_set_task _ t (TkSwap z)); try done; [by apply inv_die|].
    intros z' [= <-]. cbn. by rewrite lookup_insert_eq.
  - destruct (gate_move s t (TkSwap z) (TkReturned true) Hi Ht eq_refl eq_refl) as [Hg1 Hs1].
    split; cbn; try done.
    + intros z' Hr. left. destruct (Hl z' Hr) as [[= ->]|[t' E]].
      * unfold is_running in Er. by rewrite Hr in Er.
      * assert (t' = t) as -> by (by eapply swap_only). congruence.
    + by intros z' [= <-].
    + intros t' z' [[_ [=]]|[Hne' E]]%lookup_insert_Some. by destruct Hne'; symmetry; eapply swap_only.
Qed.

Lemma inv_end s t ok : inv s -> tasks s !! t = Some (TkReturned ok) -> inv (set_task t TkDone (end_restart s)).
Proof.
  intros Hi Ht. pose proof Hi as [Hg Hs Hl Hk Hw Hn].
  assert (forall t' k, <[t := TkDone]> (tasks s) !! t' = Some k -> active k = false) as Hidle.
  { intros t' k [[_ <-]|[Hne E]]%lookup_insert_Some; [done|]. destruct (active k) eqn:Ea; [|done].
    by destruct Hne; eapply Hs. }
  split; cbn.
  - split; [done|]. intros (t' & k & E & Ha). by rewrite (Hidle t' k E) in Ha.
  - intros t1 t2 k1 k2 E1 _ Ha _. by rewrite (Hidle t1 k1 E1) in Ha.
  - intros z Hz. destruct (Hl z Hz) as [|[t' E]]; [by left|right]. exists t'.
    rewrite lookup_insert_ne; [done|]. intros ->. by rewrite Ht in E.
  - done.
  - intros t' z [[_ [=]]|[_ E]]%lookup_insert_Some. by eapply Hw.
  - intros Hz. by destruct (some_zygote s t (TkReturned ok) Hi Ht Hz).
Qed.

#[local] Hint Resolve inv_set_request inv_die inv_set_task inv_request inv_build inv_swap inv_end : sandbox.

Lemma restart_inv_exec e s s' : inv s -> exec e s = Some s' -> inv s'.
Proof.
  intros Hi Hx. destruct e; cbn [exec] in Hx.
  - case_match; simplify_eq. apply inv_set_request; auto.
  - repeat case_match; simplify_eq; unfold get_zygote in *; apply inv_set_request; auto; congruence.
  - destruct (requests s !! i) as [[]|] eqn:E; simplify_eq. apply inv_set_request; [done|].
    intros Hz. by destruct (iv_none s Hi Hz) as [_ Hq]; destruct (Hq _ _ E).
  - destruct (requests s !! i) as [[]|] eqn:E; try done. destruct (tasks s !! t) eqn:Et; simplify_eq.
    eauto 6 with sandbox.
  - destruct (tasks s !! t) as [[]|] eqn:Et; simplify_eq. unfold restart_check.
    repeat case_match; by eapply inv_set_task.
  - destruct (tasks s !! t) as [[]|] eqn:Et; try done. destruct (fresh new_z s) eqn:Ef; simplify_eq.
    destruct new_z as [z|]; [|by eapply inv_set_task]. apply bool_decide_eq_true in Ef. eauto with sandbox.
  - destruct (tasks s !! t) as [[]|] eqn:Et; simplify_eq. eauto with sandbox.
  - destruct (tasks s !! t) as [[]|] eqn:Et; simplify_eq. eauto with sandbox.
  - destruct (running s !! z) as [[]|] eqn:Ez; simplify_eq. eauto with sandbox.
Qed.

Lemma inv_startup enabled new_z : inv (startup enabled new_z).
Proof.
  assert (inv (mkState None false ∅ ∅ ∅)) as H0.
  { split; cbn; try done. split; [done|]. by intros (t & k & E & _). }
  destruct enabled, new_z as [z|]; cbn; try done. split; cbn; try done.
  - split; [done|]. by intros (t & k & E & _).
  - intros z' [[-> _]|[_ E]]%lookup_insert_Some; [by left|done].
  - intros z' [= <-]. by rewrite lookup_insert_eq.
Qed.

Lemma restart_inv_execs es s s' : inv s -> execs es s = Some s' -> inv s'.
Proof.
  revert s. induction es as [|e es IH]; cbn; intros s Hi Hx; [congruence|].
  destruct (exec e s) as [s1|] eqn:E; [|done]. eapply IH; [|done]. by eapply restart_inv_exec.
Qed.

Lemma restart_execs_app es1 es2 s s1 : execs es1 s = Some s1 -> execs (es1 ++ es2) s = execs es2 s1.
Proof.
  revert s. induction es1 as [|e es1 IH]; cbn; intros s Hx; [congruence|]. destruct (exec e s); [by apply IH|done].
Qed.

Lemma restart_inv_reachable s : reachable s -> inv s.
Proof. intros (enabled & new_z & es & Hes). eapply restart_inv_execs; [apply inv_startup|done]. Qed.

(** ** Theorems *)

(** Restarts are single-flight and lose nothing: in every reachable state
    the gate is closed exactly while one restart task is in flight, never two
    are, and every manager whose interpreter is alive is either installed or in
    the hands of that task, so no live interpreter is ever orphaned. *)
Theorem restart_single_flight s :
  reachable s ->
  (restarting s = true <-> exists t k, tasks s !! t = Some k /\ active k = true)
  /\ (forall t1 t2 k1 k2, tasks s !! t1 = Some k1 -> tasks s !! t2 = Some k2 ->
      active k1 = true -> active k2 = true -> t1 = t2)
  /\ (forall z, running s !! z = Some true ->
      zygote s = Some z \/ exists t, tasks s !! t = Some (TkSwap z) /\ restarting s = true).
Proof.
  intros Hi%restart_inv_reachable. split; [apply Hi|]. split; [apply Hi|].
  intros z Hz. destruct (iv_live s Hi z Hz) as [|[t Ht]]; [by left|right].
  exists t. split; [done|]. apply (iv_gate s Hi). eauto.
Qed.

(** A live manager is never taken out of the slot: the only step that
    changes the slot finds no live manager in it, and puts a running one in. *)
Theorem restart_keeps_live_manager s e s' :
  reachable s -> exec e s = Some s' -> zygote s' <> zygote s ->
  (forall z, zygote s = Some z -> is_running z s = false)
  /\ exists t z, e = EvSwap t /\ tasks s !! t = Some (TkSwap z) /\ zygote s' = Some z
     /\ running s' = running s.
Proof.
  intros Hi%restart_inv_reachable Hx Hz. destruct e; cbn [exec] in Hx; repeat case_match; simplify_eq;
    unfold request_zygote_restart, try_begin_restart, restart_check, restart_build, restart_swap in *;
    repeat case_match; simplify_eq; try done.
  all: split; [intros; congruence|]; by eexists _, _.
Qed.

(** What a request that finds the manager dead sets in motion. *)
Definition heal (i t z : nat) : list event :=
  [EvArrive i; EvGet i; EvObserve i; EvRequest i t; EvCheck t; EvBuild t (Some z); EvSwap t; EvEnd t].

(** Recovery: from any reachable state whose installed manager is dead and
    whose gate is open, one request suffices. It takes the slow path itself and
    its restart task, when the new interpreter starts, leaves a running manager
    installed and the gate open again. *)
Theorem restart_heals s i t z0 z :
  reachable s -> zygote s = Some z0 -> is_running z0 s = false -> restarting s = false ->
  requests s !! i = None -> tasks s !! t = None -> running s !! z = None ->
  exists s', execs (heal i t z) s = Some s'
    /\ zygote s' = Some z /\ is_running z s' = true /\ restarting s' = false
    /\ requests s' !! i = Some RqSlow.
Proof.
  intros Hinv%restart_inv_reachable Hz Hr Hg Hi Ht Hn.
  assert (z <> z0) as Hne by (intros ->; destruct (iv_known s Hinv z0 Hz); congruence).
  destruct s as [zy gate run rq tk]. cbn in *. subst zy gate. unfold is_running in Hr. cbn in Hr.
  repeat (progress (cbn; unfold get_zygote, request_zygote_restart, try_begin_restart, restart_check,
            restart_build, restart_swap, end_restart, is_running; cbn);
          rewrite ?lookup_insert_eq, ?(lookup_insert_ne run z z0), ?Hi, ?Ht, ?Hr, ?Hn, ?bool_decide_true by done).
  eexists. split; [done|]. cbn. by rewrite !lookup_insert_eq.
Qed.

(** ** Witnesses *)

Module Demo.

(** The first manager dies; request 0 sees it. *)
Definition trace : list event :=
  [EvDie 0; EvArrive 0; EvArrive 1; EvGet 0; EvGet 1; EvObserve 0; EvObserve 1; EvRequest 0 0; EvRequest 1 1;
   EvCheck 0; EvBuild 0 (Some 1%nat)].

Definition state : State :=
  match execs trace (startup true (Some 0%nat)) with Some s => s | None => startup false None end.

Lemma restart_state_reachable : reachable state.
Proof. exists true, (Some 0%nat), trace. reflexivity. Qed.

Definition dead : State := set_running 0 false (startup true (Some 0%nat)).

Lemma dead_reachable : reachable dead.
Proof. exists true, (Some 0%nat), [EvDie 0]. reflexivity. Qed.

End Demo.

Lemma restart_single_flight_witness :
  restarting Demo.state = true /\ tasks Demo.state !! 1%nat = None /\ running Demo.state !! 1%nat = Some true
  /\ (zygote Demo.state = Some 1%nat
       \/ exists t, tasks Demo.state !! t = Some (TkSwap 1) /\ restarting Demo.state = true).
Proof.
  split; [reflexivity|]. split; [reflexivity|]. split; [reflexivity|].
  apply (restart_single_flight Demo.state); [apply Demo.restart_state_reachable|reflexivity].
Defined.

Lemma restart_keeps_live_manager_witness :
  exists s', exec (EvSwap 0) Demo.state = Some s' /\ zygote s' = Some 1%nat
    /\ (forall z, zygote Demo.state = Some z -> is_running z Demo.state = false)
    /\ exists t z, EvSwap 0 = EvSwap t /\ tasks Demo.state !! t = Some (TkSwap z) /\ zygote s' = Some z
       /\ running s' = running Demo.state.
Proof.
  eexists. split; [reflexivity|]. split; [reflexivity|].
  apply (restart_keeps_live_manager Demo.state (EvSwap 0)); [apply Demo.restart_state_reachable|reflexivity|discriminate].
Defined.

Lemma restart_heals_witness :
  exists s', execs (heal 7 3 1) Demo.dead = Some s'
    /\ zygote s' = Some 1%nat /\ is_running 1 s' = true /\ restarting s' = false
    /\ requests s' !! 7%nat = Some RqSlow.
Proof.
  apply (restart_heals Demo.dead 7 3 0 1); [apply Demo.dead_reachable|reflexivity..].
Defined.
