(* ===== verification/Scripts.v ===== *)
(** * Scripts: the templates and their instantiation

    The two bootstrap templates embedded by [include_str!] and the successive
    [str::replace] calls that fill them ([services/python.rs],
    [services/nodejs.rs]).  A template is also a list of literal pieces and
    holes; the lemmas show when replacing hole after hole in the text is the
    same as filling the holes. *)

From S2P Require Import Prelude RustStd.

(** ** The templates *)

(** Lines of text, with the tilde (which neither file has) for the double quote. *)
Definition unquote (b : byte) : byte := if bool_decide (b = Byte.x7e) then Byte.x22 else b.
Definition text (l : list string) : bytes := unquote <$> join [byte_lf] (str <$> l).

Definition PYTHON_PRESCRIPT : bytes :=
  text [
    "import ctypes";
    "import os";
    "import sys";
    "import traceback";
    "from base64 import b64decode";
    "";
    "";
    "# Setup exception hook";
    "def excepthook(etype, value, tb):";
    "    sys.stderr.write(~~.join(traceback.format_exception(etype, value, tb)))";
    "    sys.stderr.flush()";
    "    sys.exit(-1)";
    "";
    "";
    "sys.excepthook = excepthook";
    "";
    "# Load security library if available";
    "lib = ctypes.CDLL(~./libpython.so~)";
    "lib.init_seccomp.argtypes = [ctypes.c_uint32, ctypes.c_uint32, ctypes.c_bool, ctypes.c_uint64, ctypes.c_bool]";
    "lib.init_seccomp.restype = ctypes.c_int";
    "";
    "lib.apply_landlock.argtypes = [ctypes.POINTER(ctypes.c_char_p)]";
    "lib.apply_landlock.restype = ctypes.c_int";
    "";
    "# Get running path";
    "running_path = sys.argv[1]";
    "if not running_path:";
    "    exit(-1)";
    "";
    "# Get decrypt key";
    "key = sys.argv[2]";
    "if not key:";
    "    exit(-1)";
    "";
    "key = b64decode(key)";
    "";
    "os.chdir(running_path)";
    "";
    "# Drop empty / relative entries from sys.path before applying the sandbox.";
    "# Resolving an empty ~~ entry (cwd) during import calls getcwd(), which is not";
    "# in the seccomp allowlist and would kill the process with SIGSYS. The remaining";
    "# absolute entries (stdlib, etc.) resolve fine after chroot, so we keep only";
    "# non-empty absolute paths.";
    "sys.path = [p for p in sys.path if p]";
    "";
    "# Apply security if library is available";
    "privilege = {{privilege}}";
    "if not privilege:";
    "    # Non-privileged mode: apply Landlock for all allowed paths before seccomp";
    "    import json";
    "    allowed = json.loads(~~~{{allowed_paths}}~~~)";
    "    arr = (ctypes.c_char_p * (len(allowed) + 1))()";
    "    for i, p in enumerate(allowed):";
    "        arr[i] = p.encode()";
    "    arr[-1] = None";
    "    rc = lib.apply_landlock(arr)";
    "    if rc != 0:";
    "        raise Exception(f~Landlock failed - {str(rc)}~)";
    "init_status = lib.init_seccomp({{uid}}, {{gid}}, {{enable_network}}, {{max_as}}, privilege)";
    "if init_status != 0:";
    "    raise Exception(f~code executor err - {str(init_status)}~)";
    "del lib";
    "";
    "# Preload code";
    "{{preload}}";
    "# Decrypt and execute code";
    "code = b64decode(~{{code}}~)";
    "";
    "";
    "def decrypt(code, key):";
    "    key_len = len(key)";
    "    code_len = len(code)";
    "    code = bytearray(code)";
    "    for i in range(code_len):";
    "        code[i] = code[i] ^ key[i % key_len]";
    "    return bytes(code)";
    "";
    "";
    "code = decrypt(code, key)";
    "exec(code)";
    ""
  ]%string.

Definition NODEJS_PRESCRIPT : bytes :=
  text [
    "let argv = process.argv";
    "";
    "let koffi = require('koffi')";
    "";
    "process.chdir(argv[2])";
    "";
    "let lib = koffi.load(~./libnodejs.so~)";
    "/** @type {(uid: number, gid: number, enableNetwork: boolean, maxAs: number, privilege: boolean) => number} */";
    "let initSeccomp = lib.func('int init_seccomp(int, int, bool, uint64_t, bool)')";
    "/** @type {(path: string) => number} */";
    "let applyLandlock = lib.func('int apply_landlock_one(char*)')";
    "";
    "let uid = parseInt(argv[3])";
    "let gid = parseInt(argv[4])";
    "";
    "let options = JSON.parse(argv[5])";
    "";
    "let privilege = options['privilege'] !== false";
    "if (!privilege) {";
    "    let ll_rc = applyLandlock(argv[2])";
    "    if (ll_rc !== 0) {";
    "        throw `Landlock failed - ${ll_rc}`";
    "    }";
    "}";
    "// Force initialization of stdout/stderr streams before seccomp blocks ioctl.";
    "// Node.js lazily creates these SyncWriteStream wrappers on first access; the";
    "// internal setup calls ioctl(fd, TCGETS) to check TTY status.  Doing it now";
    "// ensures user code can write to stdout/stderr after seccomp is applied.";
    "void process.stdout.isTTY";
    "void process.stderr.isTTY";
    "";
    "let seccomp_init = initSeccomp(uid, gid, options['enable_network'], options['max_as'], privilege)";
    "if (seccomp_init !== 0) {";
    "    throw `code executor err - ${seccomp_init}`";
    "}";
    "";
    "delete process.argv";
    "argv = undefined";
    "koffi = undefined";
    "lib = undefined";
    "initSeccomp = undefined";
    "applyLandlock = undefined";
    "uid = undefined";
    "gid = undefined";
    "options = undefined";
    "seccomp_init = undefined";
    "";
    "{{code}}";
    ""
  ]%string.

(** ** Templates as pieces and holes *)

Inductive seg := Lit (p : bytes) | Hole (n : bytes).

(** The text of a hole: the name between double braces. *)
Definition hole (n : bytes) : bytes := str "{{" ++ n ++ str "}}".

Definition seg_text (x : seg) : bytes := match x with Lit p => p | Hole n => hole n end.
Definition render (T : list seg) : bytes := concat (seg_text <$> T).

Fixpoint scan (fuel : nat) (s : bytes) : list seg :=
  match fuel with
  | O => [Lit s]
  | S fuel =>
    match split_once (str "{{") s with
    | None => [Lit s]
    | Some (p, r) =>
      match split_once (str "}}") r with
      | None => [Lit s]
      | Some (n, r) => Lit p :: Hole n :: scan fuel r
      end
    end
  end.

Definition python_template : list seg := scan 16 PYTHON_PRESCRIPT.
Definition nodejs_template : list seg := scan 16 NODEJS_PRESCRIPT.

(** The value given to a hole by a list of (name, value) pairs. *)
Fixpoint value (l : list (bytes * bytes)) (n : bytes) : option bytes :=
  match l with
  | [] => None
  | (m, v) :: l => if bool_decide (m = n) then Some v else value l n
  end.

Definition fill_seg (l : list (bytes * bytes)) (x : seg) : bytes :=
  match x with
  | Lit p => p
  | Hole n => match value l n with Some v => v | None => hole n end
  end.

Definition fill (l : list (bytes * bytes)) (T : list seg) : bytes := concat (fill_seg l <$> T).

(** [.replace(hole, value)] for each pair, in order. *)
Definition replace_all (l : list (bytes * bytes)) (s : bytes) : bytes :=
  foldl (fun s '(n, v) => str_replace (hole n) v s) s l.

(** ** Texts that cannot make or break a hole *)

Definition brace : byte := Byte.x7b.
Definition close_brace : byte := Byte.x7d.

(** No two adjacent opening braces, and none at the end. *)
Fixpoint clean (p : bytes) : bool :=
  match p with
  | [] => true
  | b :: p' =>
    (if bool_decide (b = brace) then
       match p' with [] => false | c :: _ => negb (bool_decide (c = brace)) end
     else true) && clean p'
  end.

Definition plain (b : byte) : bool := negb (bool_decide (b = brace)) && negb (bool_decide (b = close_brace)).
Definition name_ok (n : bytes) : bool := forallb plain n.

Definition seg_ok (x : seg) : bool := match x with Lit p => clean p | Hole n => name_ok n end.

(** ** Lemmas *)

Lemma starts_with_cons a p b s :
  starts_with (a :: p) (b :: s) = bool_decide (a = b) && starts_with p s.
Proof. unfold starts_with. cbn. by case_bool_decide. Qed.

Lemma starts_with_app p s : starts_with p (p ++ s) = true.
Proof.
  induction p as [|a p IH]; [done|]. cbn [app]. rewrite starts_with_cons, IH.
  by rewrite bool_decide_true.
Qed.

(** Both opening braces must match. *)
Lemma starts_with_hole n s :
  starts_with (hole n) s = true -> exists s', s = brace :: brace :: s' /\ starts_with (n ++ str "}}") s' = true.
Proof.
  unfold hole. change (str "{{") with [brace; brace]. cbn [app].
  destruct s as [|a [|b s]]; [done|by rewrite starts_with_cons, andb_false_r|].
  rewrite !starts_with_cons. intros [<-%bool_decide_eq_true [<-%bool_decide_eq_true H]%andb_true_iff]%andb_true_iff.
  eauto.
Qed.

Lemma replace_clean n v p s : clean p = true ->
  replace_go (hole n) v 0 (p ++ s) = p ++ replace_go (hole n) v 0 s.
Proof.
  induction p as [|b p IH]; intros Hc; [done|]. cbn [clean] in Hc. apply andb_true_iff in Hc as [Hb Hc].
  cbn [app replace_go]. destruct (starts_with (hole n) (b :: p ++ s)) eqn:E; [|by rewrite IH].
  apply starts_with_hole in E as (s' & [= -> E'] & _).
  rewrite bool_decide_true in Hb by done. destruct p as [|c p]; [done|].
  injection E' as -> _. by rewrite bool_decide_true in Hb.
Qed.

Lemma replace_skip pat v l s : replace_go pat v (length l) (l ++ s) = replace_go pat v 0 s.
Proof. induction l as [|b l IH]; [done|]. apply IH. Qed.

Lemma length_hole n : length (hole n) = (4 + length n)%nat.
Proof. unfold hole. rewrite !length_app. cbn. lia. Qed.

Lemma replace_hole n v s : replace_go (hole n) v 0 (hole n ++ s) = v ++ replace_go (hole n) v 0 s.
Proof.
  destruct (hole n) as [|b r] eqn:E; [by apply (f_equal length) in E; rewrite length_hole in E|].
  cbn [app replace_go]. replace (starts_with (b :: r) (b :: r ++ s)) with true
    by (symmetry; apply (starts_with_app (b :: r) s)).
  f_equal. cbn [length]. rewrite Nat.sub_succ, Nat.sub_0_r. apply replace_skip.
Qed.

(** A name is delimited by the closing braces. *)
Lemma starts_with_name n m s :
  name_ok n = true -> name_ok m = true -> starts_with (n ++ str "}}") (m ++ str "}}" ++ s) = true -> n = m.
Proof.
  change (str "}}") with [close_brace; close_brace]. unfold name_ok, plain.
  revert m. induction n as [|a n IH]; intros [|b m]; cbn [forallb app]; rewrite ?andb_true_iff, ?negb_true_iff,
    ?bool_decide_eq_false, ?starts_with_cons, ?andb_true_iff, ?bool_decide_eq_true; [done|naive_solver..|].
  intros [_ Hn] [_ Hm] [-> Hs]. f_equal. by apply IH.
Qed.

Lemma clean_name m : name_ok m = true -> clean (brace :: m ++ str "}}") = true.
Proof.
  change (str "}}") with [close_brace; close_brace]. intros Hm.
  assert (clean (m ++ [close_brace; close_brace]) = true) as Hc.
  { induction m as [|a m IH]; [done|]. cbn [name_ok forallb] in Hm. unfold name_ok in *. cbn [forallb] in Hm.
    apply andb_true_iff in Hm as [[Ha _]%andb_true_iff Hm]. cbn [app clean].
    rewrite IH by done. apply negb_true_iff, bool_decide_eq_false in Ha. by rewrite bool_decide_false. }
  cbn [clean]. rewrite Hc, bool_decide_true by done. destruct m as [|a m]; [done|]. cbn [app].
  unfold name_ok in Hm. cbn [forallb] in Hm. apply andb_true_iff in Hm as [[Ha _]%andb_true_iff _]. by rewrite Ha.
Qed.

Lemma replace_other n m v s : name_ok n = true -> name_ok m = true -> n <> m ->
  replace_go (hole n) v 0 (hole m ++ s) = hole m ++ replace_go (hole n) v 0 s.
Proof.
  intros Hn Hm Hne. assert (hole m = brace :: brace :: m ++ str "}}") as Em by done.
  rewrite Em. cbn [app replace_go].
  destruct (starts_with (hole n) (brace :: brace :: (m ++ str "}}") ++ s)) eqn:E.
  - apply starts_with_hole in E as (s' & [= <-] & E). rewrite <-app_assoc in E.
    by apply starts_with_name in E.
  - f_equal. apply (replace_clean n v (brace :: m ++ str "}}") s). by apply clean_name.
Qed.

Definition subst (n v : bytes) (x : seg) : seg :=
  match x with
  | Hole m => if bool_decide (n = m) then Lit v else x
  | Lit _ => x
  end.

(** One [replace] call fills one hole. *)
Lemma replace_render n v T : name_ok n = true -> forallb seg_ok T = true ->
  str_replace (hole n) v (render T) = render (subst n v <$> T).
Proof.
  intros Hn. unfold str_replace, render. induction T as [|x T IH]; intros HT; [done|].
  cbn [forallb] in HT. apply andb_true_iff in HT as [Hx HT]. cbn [fmap list_fmap concat].
  destruct x as [p|m]; cbn [seg_text subst].
  - by rewrite replace_clean, IH.
  - case_bool_decide as E; cbn [seg_text].
    + subst m. by rewrite replace_hole, IH.
    + by rewrite replace_other, IH.
Qed.

Lemma subst_ok n v T : clean v = true -> forallb seg_ok T = true -> forallb seg_ok (subst n v <$> T) = true.
Proof.
  intros Hv. induction T as [|x T IH]; [done|]. cbn. intros [Hx HT]%andb_true_iff. rewrite IH by done.
  destruct x as [p|m]; cbn in *; [by rewrite Hx|]. case_bool_decide; cbn; by rewrite ?Hv, ?Hx.
Qed.

Lemma fill_subst n v l T : fill l (subst n v <$> T) = fill ((n, v) :: l) T.
Proof.
  unfold fill. f_equal. rewrite <-list_fmap_compose. apply list_fmap_ext. intros i [p|m] _; cbn; [done|].
  case_bool_decide; [done|]. done.
Qed.

(** Filling a template with texts that leave its other holes alone. *)
Lemma replace_all_fill l T :
  Forall (fun '(n, v) => name_ok n = true /\ clean v = true) l -> forallb seg_ok T = true ->
  replace_all l (render T) = fill l T.
Proof.
  revert T. induction l as [|[n v] l IH]; intros T Hl HT; [done|].
  apply Forall_cons in Hl as [[Hn Hv] Hl]. unfold replace_all in *. cbn [foldl].
  rewrite replace_render, IH, fill_subst by (done || by apply subst_ok). done.
Qed.

(** Texts without braces. *)
Lemma clean_no_brace p : Forall (fun b => b <> brace) p -> clean p = true.
Proof.
  induction 1 as [|b p Hb Hp IH]; [done|]. cbn. by rewrite bool_decide_false, IH.
Qed.

Lemma clean_digits p : Forall (fun b => is_digit b = true) p -> clean p = true.
Proof. intros H. apply clean_no_brace. eapply Forall_impl; [done|]. by intros b Hb ->. Qed.

#[export] Hint Resolve decimal_digits clean_digits : sandbox.

Lemma render_python : render python_template = PYTHON_PRESCRIPT.
Proof. by vm_compute. Qed.

Lemma python_template_ok : forallb seg_ok python_template = true.
Proof. by vm_compute. Qed.

Lemma render_nodejs : render nodejs_template = NODEJS_PRESCRIPT.
Proof. by vm_compute. Qed.

Lemma nodejs_template_ok : forallb seg_ok nodejs_template = true.
Proof. by vm_compute. Qed.

(** The holes of the two templates. *)
Definition holes (T : list seg) : list bytes := omap (fun x => match x with Hole n => Some n | _ => None end) T.

Example python_holes : holes python_template =
  str <$> ["privilege"; "allowed_paths"; "uid"; "gid"; "enable_network"; "max_as"; "preload"; "code"]%string.
Proof. by vm_compute. Qed.

Example nodejs_holes : holes nodejs_template = [str "code"].
Proof. by vm_compute. Qed.
