(* ===== verification/Runners.v ===== *)
(** * Runners: executing a request

    [server/src/services.rs], [services/python.rs] and [services/nodejs.rs].
    A runner is a function of the request and of the host: what the zygote
    slot holds, the [PATH] variable and how a spawned process ends are given
    by [Host]; the effects a runner has (a zygote run, a restart request, a
    spawned process with its script and timeout) are returned as a list of
    actions.  [None] as the outcome of a runner is a panic. *)

From S2P Require Import Prelude RustStd Crypto Config Models Scripts.

(** ** services.rs *)

Record ExecutionResult := { stdout : bytes; stderr : bytes; exit_code : Z }.

Definition LIB_PATH : bytes := str "/usr/local/share/sandbox".

(** [ExitStatus] on Unix is a wait status: [WIFSIGNALED] and [WIFEXITED]. *)
Definition status_signal (status : Z) : option Z :=
  let low := Z.land status 127 in
  if (1 <=? low) && (low <=? 126) then Some low else None.
Definition status_code (status : Z) : option Z :=
  if Z.land status 127 =? 0 then Some (Z.land (Z.shiftr status 8) 255) else None.

Definition exit_code_from_status (status : Z) : Z :=
  match status_signal status with
  | Some signal => - signal
  | None => match status_code status with Some c => c | None => -1 end
  end.

Definition SIGSYS_RAW : Z := 159.
Definition SIGSYS_NEG : Z := -31.

Definition is_seccomp_violation (exit_code : Z) : bool :=
  (exit_code =? SIGSYS_RAW) || (exit_code =? SIGSYS_NEG).

(** ** Interfaces *)

(** [serde_json::to_string] on a list of strings. *)
Class SerdeJson := { json_of_strings : list bytes -> option bytes }.

(** [zygote::SandboxLimits] *)
Record SandboxLimits := {
  uid : Z; gid : Z; net : bool; max_as : Z; timeout : Z; l_privilege : bool; allowed_paths : list bytes
}.

Record Command := {
  program : bytes;
  args : list bytes;
  envs : list (bytes * bytes);   (* after [env_clear] *)
  current_dir : bytes;
  kill_on_drop : bool
}.

(** How a spawned process ends, with the [Display] text of an error. *)
Inductive ProcOutcome :=
| SpawnFailed (e : bytes)
| StdinFailed (e : bytes)
| Elapsed
| WaitFailed (e : bytes)
| Output (status : Z) (out err : bytes).

Record ZygoteHandle := {
  z_is_running : bool;
  z_run : bytes -> bytes -> SandboxLimits -> bytes * bytes * Z
}.

Record Host := {
  h_zygote : option ZygoteHandle;              (* [crate::get_zygote()] *)
  h_path : option bytes;                       (* the [PATH] variable *)
  h_proc : Command -> bytes -> Z -> ProcOutcome (* command, stdin, timeout *)
}.

Inductive action :=
| RunZygote (code key : bytes) (limits : SandboxLimits)
| RequestRestart
| Spawn (cmd : Command) (script : bytes) (timeout_secs : Z).

Definition run_outcome : Type := (ExecutionResult + bytes) * list action.

(** The tail both runners share: spawn, write the script, wait. *)
Definition finish_process (spawn_msg : bytes) (host : Host) (cmd : Command) (script : bytes) (timeout_secs : Z)
  : ExecutionResult + bytes :=
  match h_proc host cmd script timeout_secs with
  | SpawnFailed e => inr (spawn_msg ++ e)
  | StdinFailed e => inr (str "stdin write: " ++ e)
  | Elapsed => inr (str "Execution timeout")
  | WaitFailed e => inr (str "process: " ++ e)
  | Output status out err => inl {|
      stdout := from_utf8_lossy out; stderr := from_utf8_lossy err;
      exit_code := exit_code_from_status status |}
  end.

Definition path_env (host : Host) : list (bytes * bytes) :=
  match h_path host with Some p => [(str "PATH", p)] | None => [] end.

Definition checked_preload (config : Config) (preload : bytes) : bytes :=
  if enable_preload config then preload else [].

Definition network (config : Config) (options : RunnerOptions) : bool :=
  opt_enable_network options && enable_network config.

(** ** services/python.rs *)

Module Python.
Section Python.
Context `{Base64} `{Rng} `{SerdeJson}.

Definition lib_paths (config : Config) : list bytes := python_lib_paths config ++ nodejs_lib_paths config.

(** The paths of the slow path, as JSON. *)
Definition slow_paths (config : Config) : list bytes :=
  lib_paths config ++
  (str <$> ["/etc/ssl/certs"; "/etc/hosts"; "/etc/resolv.conf"; "/etc/nsswitch.conf"; "/etc/localtime";
            "/usr/share/zoneinfo"]%string).

Definition allowed_paths_json (config : Config) : bytes :=
  if privilege config then str "[]"
  else match json_of_strings (slow_paths config) with Some j => j | None => str "[]" end.

(** The paths of the zygote path. *)
Definition fast_paths (config : Config) : list bytes :=
  if privilege config then []
  else lib_paths config ++
    (str <$> ["/etc/ssl/certs"; "/etc/hosts"; "/etc/resolv.conf"; "/etc/nsswitch.conf"; "/etc/localtime"]%string).

Definition bool_digit (b : bool) : bytes := if b then str "1" else str "0".

(** The replacements before the code is encrypted. *)
Definition settings (config : Config) (preload : bytes) (options : RunnerOptions) : list (bytes * bytes) :=
  [(str "uid", to_string_unsigned (sandbox_uid config));
   (str "gid", to_string_unsigned (sandbox_gid config));
   (str "enable_network", bool_digit (network config options));
   (str "max_as", to_string_unsigned (python_max_as_bytes config));
   (str "privilege", bool_digit (privilege config));
   (str "allowed_paths", allowed_paths_json config);
   (str "preload", checked_preload config preload ++ [byte_lf])].

Definition build_script (config : Config) (code preload : bytes) (options : RunnerOptions)
  : option (bytes * bytes) :=
  let key := generate_key 64 in
  let encoded_key := b64_encode key in
  let script := replace_all (settings config preload options) PYTHON_PRESCRIPT in
  encoded_code ← encrypt_code code key;
  Some (str_replace (hole (str "code")) encoded_code script, encoded_key).

Definition command (host : Host) (config : Config) (encoded_key : bytes) : Command := {|
  program := python_path config;
  args := [str "-B"; str "-"; LIB_PATH; encoded_key];
  envs := path_env host ++ proxy_env_vars (proxy config);
  current_dir := LIB_PATH;
  kill_on_drop := true
|}.

Definition limits (config : Config) (options : RunnerOptions) : SandboxLimits := {|
  uid := sandbox_uid config; gid := sandbox_gid config;
  net := network config options;
  max_as := python_max_as_bytes config;
  timeout := worker_timeout config;
  l_privilege := privilege config;
  allowed_paths := fast_paths config
|}.

Definition run_slow (host : Host) (config : Config) (code checked : bytes) (options : RunnerOptions)
    (before : list action) : option run_outcome :=
  '(script, encoded_key) ← build_script config code checked options;
  let cmd := command host config encoded_key in
  Some (finish_process (str "spawn python: ") host cmd script (worker_timeout config),
        before ++ [Spawn cmd script (worker_timeout config)]).

Definition run_fast (z : ZygoteHandle) (config : Config) (code : bytes) (options : RunnerOptions)
  : option run_outcome :=
  let key := generate_key 64 in
  enc_code ← encrypt_code code key;
  let enc_key := b64_encode key in
  let '(out, err, c) := z_run z enc_code enc_key (limits config options) in
  Some (inl {| stdout := out; stderr := err; exit_code := c |},
        [RunZygote enc_code enc_key (limits config options)]).

Definition run (host : Host) (config : Config) (code_b64 preload : bytes) (options : RunnerOptions)
  : option run_outcome :=
  match b64_decode code_b64 with
  | inr e => Some (inr (str "base64 decode: " ++ e), [])
  | inl code =>
    let checked := checked_preload config preload in
    if python_zygote config && is_empty checked then
      match h_zygote host with
      | Some z =>
        if z_is_running z then run_fast z config code options
        else run_slow host config code checked options [RequestRestart]
      | None => run_slow host config code checked options []
      end
    else run_slow host config code checked options []
  end.

End Python.
End Python.

(** ** services/nodejs.rs *)

Module Nodejs.
Section Nodejs.
Context `{Base64}.

Definition validate_base64 (code_b64 : bytes) : bytes + bytes :=
  match b64_decode code_b64 with
  | inr e => inr (str "invalid base64 code: " ++ e)
  | inl decoded => inl (b64_encode decoded)
  end.

Definition eval_code (code_b64 : bytes) : bytes :=
  str "eval(Buffer.from('" ++ code_b64 ++ str "', 'base64').toString('utf-8'))".

Definition build_script (code_b64 preload : bytes) : bytes :=
  let script := str_replace (hole (str "preload")) preload NODEJS_PRESCRIPT in
  str_replace (hole (str "code")) (eval_code code_b64) script.

Definition bool_text (b : bool) : bytes := if b then str "true" else str "false".

Definition quoted (s : string) : bytes := unquote <$> str s.

Definition opts_json (config : Config) (options : RunnerOptions) : bytes :=
  quoted "{~enable_network~:" ++ bool_text (network config options)
  ++ quoted ",~max_as~:" ++ to_string_unsigned (nodejs_max_as_bytes config)
  ++ quoted ",~privilege~:" ++ bool_text (privilege config) ++ str "}".

Definition command (host : Host) (config : Config) (options : RunnerOptions) : Command := {|
  program := nodejs_path config;
  args := [str "--max-old-space-size=" ++ to_string_unsigned (nodejs_max_old_space_mb config);
           str "--jitless"; str "--no-expose_wasm"; str "--disable-proto=throw"; str "-"; LIB_PATH;
           to_string_unsigned (sandbox_uid config); to_string_unsigned (sandbox_gid config);
           opts_json config options];
  envs := path_env host ++ [(str "UV_USE_IO_URING", str "0");
                            (str "NODE_PATH", LIB_PATH ++ str "/node_modules")]
          ++ proxy_env_vars (proxy config);
  current_dir := LIB_PATH;
  kill_on_drop := true
|}.

Definition run (host : Host) (config : Config) (code_b64 preload : bytes) (options : RunnerOptions)
  : run_outcome :=
  match validate_base64 code_b64 with
  | inr e => (inr e, [])
  | inl code_b64 =>
    let script := build_script code_b64 (checked_preload config preload) in
    let cmd := command host config options in
    (finish_process (str "spawn nodejs: ") host cmd script (worker_timeout config),
     [Spawn cmd script (worker_timeout config)])
  end.

End Nodejs.
End Nodejs.

(** ** Lemmas *)

Lemma generated_key_nonempty `{Rng} : generate_key 64 <> [].
Proof.
  intros E. apply (f_equal length) in E. unfold generate_key in E. by rewrite fill_bytes_length in E.
Qed.

(** Under the 64-byte key encryption never panics, and both interpreters undo it. *)
Lemma encrypt_generated `{PyBase64} `{Rng} code :
  exists enc, encrypt_code code (generate_key 64) = Some enc
    /\ enc = b64_encode (xor_stream (generate_key 64) code)
    /\ decrypt (py_b64decode enc) (py_b64decode (b64_encode (generate_key 64))) = Some code
    /\ py_xor (py_b64decode enc) (py_b64decode (b64_encode (generate_key 64))) = Some code.
Proof.
  pose proof generated_key_nonempty as Hk.
  exists (b64_encode (xor_stream (generate_key 64) code)). split; [|split; [done|]].
  - unfold encrypt_code. destruct code; [done|]. by destruct (generate_key 64).
  - rewrite !py_b64decode_encode, decrypt_zip, py_xor_zip, <-xor_stream_zip, xor_stream_involutive by done.
    done.
Qed.

Lemma b64_clean `{Base64} d : clean (b64_encode d) = true.
Proof. apply clean_no_brace. eapply Forall_impl; [apply b64_encode_chars|]. by intros b Hb ->. Qed.

Lemma bool_digit_clean b : clean (Python.bool_digit b) = true.
Proof. by destruct b. Qed.

#[export] Hint Resolve b64_clean bool_digit_clean generated_key_nonempty : sandbox.

Lemma settings_clean `{SerdeJson} config preload options :
  clean (checked_preload config preload ++ [byte_lf]) = true -> clean (Python.allowed_paths_json config) = true ->
  Forall (fun '(n, v) => name_ok n = true /\ clean v = true) (Python.settings config preload options).
Proof.
  intros Hp Hj. repeat constructor; auto with sandbox.
Qed.

Lemma build_script_unfold `{Base64} `{Rng} `{SerdeJson} config code preload options :
  Python.build_script config code preload options
  = enc ← encrypt_code code (generate_key 64);
    Some (replace_all (Python.settings config preload options ++ [(str "code", enc)]) PYTHON_PRESCRIPT,
          b64_encode (generate_key 64)).
Proof.
  unfold Python.build_script. generalize PYTHON_PRESCRIPT (Python.settings config preload options). intros T l.
  destruct (encrypt_code _ _) as [enc|]; [|done]. cbn [mbind option_bind].
  unfold replace_all. by rewrite foldl_app.
Qed.

Lemma eval_code_clean `{Base64} d : clean (Nodejs.eval_code (b64_encode d)) = true.
Proof.
  apply clean_no_brace. unfold Nodejs.eval_code. rewrite !Forall_app. split_and!.
  - by apply (bool_decide_unpack _).
  - eapply Forall_impl; [apply b64_encode_chars|]. by intros b Hb ->.
  - by apply (bool_decide_unpack _).
Qed.

(** The JavaScript template has no hole for the preload. *)
Lemma nodejs_preload_dropped preload : str_replace (hole (str "preload")) preload NODEJS_PRESCRIPT = NODEJS_PRESCRIPT.
Proof.
  rewrite <-render_nodejs, replace_render by (by vm_compute). by vm_compute.
Qed.

Lemma nodejs_script_filled `{Base64} d preload :
  Nodejs.build_script (b64_encode d) preload
  = fill [(str "code", Nodejs.eval_code (b64_encode d))] nodejs_template.
Proof.
  unfold Nodejs.build_script. rewrite nodejs_preload_dropped, <-render_nodejs.
  rewrite <-replace_all_fill; [by unfold replace_all; cbn [foldl]| |apply nodejs_template_ok].
  constructor; [|constructor]. split; [done|apply eval_code_clean].
Qed.

(** A wait status, as the kernel builds it. *)
Definition wait_exited (c : Z) : Z := Z.shiftl c 8.
Definition wait_signaled (signal : Z) (core : bool) : Z := Z.lor signal (if core then 128 else 0).

Lemma land_127 z : Z.land z 127 = z mod 128.
Proof. apply (Z.land_ones z 7). lia. Qed.

Lemma land_255 z : Z.land z 255 = z mod 256.
Proof. apply (Z.land_ones z 8). lia. Qed.

(** The exit code a runner reports: the code of a process that exited,
    minus the signal of one that was killed (with or without a core dump); and
    the violation test singles out exactly death by SIGSYS and exit code 159. *)
Theorem exit_code_faithful :
  (forall c, 0 <= c <= 255 -> exit_code_from_status (wait_exited c) = c)
  /\ (forall signal core, 1 <= signal <= 126 -> exit_code_from_status (wait_signaled signal core) = - signal)
  /\ (forall status, is_seccomp_violation (exit_code_from_status status) = true
       <-> status_signal status = Some 31 \/ status_code status = Some 159).
Proof.
  unfold exit_code_from_status, status_signal, status_code, wait_exited, wait_signaled. split; [|split].
  - intros c Hc. rewrite land_127, land_255, Z.shiftl_mul_pow2, Z.shiftr_div_pow2 by lia.
    change (2 ^ 8) with 256.
    rewrite Z.div_mul, (Z.mod_small c 256) by lia.
    assert (c * 256 mod 128 = 0) as -> by (replace (c * 256) with (c * 2 * 128) by lia; by apply Z.mod_mul).
    done.
  - intros signal core Hs. rewrite Z.land_lor_distr_l, !land_127.
    rewrite (Z.mod_small signal) by lia.
    assert ((if core then 128 else 0) mod 128 = 0) as -> by (by destruct core). rewrite Z.lor_0_r.
    by replace ((1 <=? signal) && (signal <=? 126)) with true by lia.
  - intros status. unfold is_seccomp_violation, SIGSYS_RAW, SIGSYS_NEG. rewrite land_127, land_255.
    pose proof (Z.mod_pos_bound status 128 ltac:(lia)).
    pose proof (Z.mod_pos_bound (Z.shiftr status 8) 256 ltac:(lia)).
    destruct ((1 <=? status mod 128) && _) eqn:E1; destruct (status mod 128 =? 0) eqn:E2; try lia;
      rewrite orb_true_iff, !Z.eqb_eq; split; intros; destruct_or!; simplify_eq; try lia.
    + left. f_equal. lia.
    + right. f_equal. lia.
Qed.

(** ** Specification

    What a runner should do, written out from the configuration, the request
    and the way the process ended, without the runner's own helpers. *)

(** The limits of a zygote run. *)
Record limits_granted (config : Config) (options : RunnerOptions) (l : SandboxLimits) : Prop := {
  granted_uid : uid l = sandbox_uid config;
  granted_gid : gid l = sandbox_gid config;
  granted_net : net l = true <-> opt_enable_network options = true /\ enable_network config = true;
  granted_max_as : max_as l = python_max_as_bytes config;
  granted_timeout : timeout l = worker_timeout config;
  granted_privilege : l_privilege l = privilege config;
  granted_paths : allowed_paths l =
    if privilege config then []
    else python_lib_paths config ++ nodejs_lib_paths config
         ++ [str "/etc/ssl/certs"; str "/etc/hosts"; str "/etc/resolv.conf"; str "/etc/nsswitch.conf";
             str "/etc/localtime"]
}.

(** The values of the holes of the Python bootstrap, [netflag] and [enc] apart. *)
Definition bootstrap_values `{SerdeJson} (config : Config) (preload netflag enc : bytes) : list (bytes * bytes) :=
  [(str "uid", to_string_unsigned (sandbox_uid config));
   (str "gid", to_string_unsigned (sandbox_gid config));
   (str "enable_network", netflag);
   (str "max_as", to_string_unsigned (python_max_as_bytes config));
   (str "privilege", if privilege config then str "1" else str "0");
   (str "allowed_paths",
      if privilege config then str "[]"
      else match json_of_strings
             (python_lib_paths config ++ nodejs_lib_paths config
              ++ [str "/etc/ssl/certs"; str "/etc/hosts"; str "/etc/resolv.conf"; str "/etc/nsswitch.conf";
                  str "/etc/localtime"; str "/usr/share/zoneinfo"]) with
           | Some j => j | None => str "[]" end);
   (str "preload", (if enable_preload config then preload else []) ++ [byte_lf]);
   (str "code", enc)].

(** What a spawned process that ended as [o] makes of a run: one error text per
    way to fail, and otherwise the streams it wrote with its exit code, or
    minus the signal that killed it. *)
Definition process_answer (spawn_msg : bytes) (o : ProcOutcome) (res : ExecutionResult + bytes) : Prop :=
  match o with
  | SpawnFailed e => res = inr (spawn_msg ++ e)
  | StdinFailed e => res = inr (str "stdin write: " ++ e)
  | Elapsed => res = inr (str "Execution timeout")
  | WaitFailed e => res = inr (str "process: " ++ e)
  | Output status out err => exists c,
      res = inl {| stdout := from_utf8_lossy out; stderr := from_utf8_lossy err; exit_code := c |}
      /\ (forall n, 0 <= n <= 255 -> status = wait_exited n -> c = n)
      /\ (forall signal core, 1 <= signal <= 126 -> status = wait_signaled signal core -> c = - signal)
  end.

(** The interpreters' command lines: a cleared environment but for [PATH] and
    what the runner sets itself, killed when the wait is given up. *)
Definition isolated_command (host : Host) (prog : bytes) (argv : list bytes) (extra : list (bytes * bytes))
    (cmd : Command) : Prop :=
  program cmd = prog /\ args cmd = argv
  /\ envs cmd = match h_path host with Some p => [(str "PATH", p)] | None => [] end ++ extra
  /\ current_dir cmd = str "/usr/local/share/sandbox" /\ kill_on_drop cmd = true.

Lemma limits_ok config options : limits_granted config options (Python.limits config options).
Proof.
  constructor; try done.
  - cbn [net Python.limits]. unfold network. by rewrite andb_true_iff.
  - cbn [allowed_paths Python.limits]. unfold Python.fast_paths, Python.lib_paths. by rewrite <-app_assoc.
Qed.

Lemma finish_process_answer spawn_msg host cmd script t :
  process_answer spawn_msg (h_proc host cmd script t) (finish_process spawn_msg host cmd script t).
Proof.
  unfold finish_process, process_answer. destruct (h_proc host cmd script t); try done.
  eexists. split; [done|]. destruct exit_code_faithful as (He & Hs & _).
  split; intros; subst; auto.
Qed.

Lemma settings_values `{SerdeJson} config preload options enc :
  Python.settings config (checked_preload config preload) options ++ [(str "code", enc)]
  = bootstrap_values config preload (Python.bool_digit (network config options)) enc.
Proof.
  unfold Python.settings, bootstrap_values, Python.allowed_paths_json, Python.slow_paths, Python.lib_paths,
    checked_preload. rewrite <-app_assoc. by destruct (enable_preload config).
Qed.

Lemma netflag_spec config options :
  Python.bool_digit (network config options) = str "1"
    /\ opt_enable_network options = true /\ enable_network config = true
  \/ Python.bool_digit (network config options) = str "0"
    /\ ~ (opt_enable_network options = true /\ enable_network config = true).
Proof. unfold network. destruct (opt_enable_network options), (enable_network config); naive_solver. Qed.

Lemma is_empty_checked config preload :
  is_empty (checked_preload config preload) = negb (enable_preload config) || bool_decide (preload = []).
Proof. unfold checked_preload. by destruct (enable_preload config), preload. Qed.

(** The slow path against the specification. *)
Lemma run_slow_spec `{PyBase64} `{Rng} `{SerdeJson} host config code preload options before :
  exists res acts,
    Python.run_slow host config code (checked_preload config preload) options before = Some (res, acts) /\
    exists cmd netflag enc enc_key,
      let script := replace_all (bootstrap_values config preload netflag enc) PYTHON_PRESCRIPT in
      acts = before ++ [Spawn cmd script (worker_timeout config)]
      /\ isolated_command host (python_path config)
           [str "-B"; str "-"; str "/usr/local/share/sandbox"; enc_key] (proxy_env_vars (proxy config)) cmd
      /\ (netflag = str "1" /\ opt_enable_network options = true /\ enable_network config = true
          \/ netflag = str "0" /\ ~ (opt_enable_network options = true /\ enable_network config = true))
      /\ decrypt (py_b64decode enc) (py_b64decode enc_key) = Some code
      /\ process_answer (str "spawn python: ") (h_proc host cmd script (worker_timeout config)) res.
Proof.
  destruct (encrypt_generated code) as (enc & He & _ & Hd & _).
  unfold Python.run_slow. rewrite build_script_unfold, He. cbn [mbind option_bind]. rewrite settings_values.
  eexists _, _. split; [done|]. eexists _, _, _, _. cbv zeta.
  split; [done|]. split; [done|]. split; [apply netflag_spec|]. split; [done|apply finish_process_answer].
Qed.

(** ** Theorems *)

(** The script the slow path feeds to Python is the bootstrap template
    with every hole filled once: the sandbox parameters come from the
    configuration, the network flag is on only when both the request and the
    configuration allow it, and the code hole holds a text from which the
    prescript's own [decrypt] recovers exactly the submitted code.  The texts
    spliced as they are (preload and paths) must not themselves form a hole. *)
Theorem python_script_filled `{PyBase64} `{Rng} `{SerdeJson} config code preload options :
  clean (checked_preload config preload ++ [byte_lf]) = true ->
  (privilege config = false -> clean (Python.allowed_paths_json config) = true) ->
  exists enc enc_key,
    Python.build_script config code preload options
    = Some (fill (Python.settings config preload options ++ [(str "code", enc)]) python_template, enc_key)
    /\ decrypt (py_b64decode enc) (py_b64decode enc_key) = Some code.
Proof.
  intros Hp Hj. assert (clean (Python.allowed_paths_json config) = true) as Hj'.
  { destruct (privilege config) eqn:E; [|by apply Hj]. unfold Python.allowed_paths_json. by rewrite E. }
  destruct (encrypt_generated code) as (enc & He & -> & Hd & _).
  eexists _, _. rewrite build_script_unfold, He, <-render_python. cbn [mbind option_bind].
  rewrite replace_all_fill; [by split| |apply python_template_ok].
  apply Forall_app. split; [by apply settings_clean|]. constructor; [|constructor]. split; [done|apply b64_clean].
Qed.

(** C18. One request, one execution: a Python request whose code is not base64
    runs nothing; any other is run exactly once, never panics, and in only one
    of two ways. With an eligible running zygote, it is one zygote run, of a
    text the worker's [_xor] turns back into the submitted code, under the
    configured identity, memory, time and path limits and with the network
    only when request and configuration both allow it; the answer is the
    zygote's. Otherwise it is one fresh interpreter, preceded by a restart
    request exactly when the zygote was found dead: an isolated command killed
    on drop, fed the bootstrap with the configured values and a text its
    [decrypt] turns back into the code; the answer says how the process ended. *)
Theorem python_run_once `{PyBase64} `{Rng} `{SerdeJson} host config code_b64 preload options :
  match b64_decode code_b64 with
  | inr e => Python.run host config code_b64 preload options = Some (inr (str "base64 decode: " ++ e), [])
  | inl code =>
    let eligible := python_zygote config && (negb (enable_preload config) || bool_decide (preload = [])) in
    let zygote := if eligible then h_zygote host else None in
    exists res acts, Python.run host config code_b64 preload options = Some (res, acts) /\
    match zygote with
    | Some (Build_ZygoteHandle true zrun) =>
      exists enc enc_key l,
        acts = [RunZygote enc enc_key l]
        /\ py_xor (py_b64decode enc) (py_b64decode enc_key) = Some code
        /\ limits_granted config options l
        /\ res = inl (let '(out, err, c) := zrun enc enc_key l in
                      {| stdout := out; stderr := err; exit_code := c |})
    | _ =>
      exists cmd netflag enc enc_key,
        let script := replace_all (bootstrap_values config preload netflag enc) PYTHON_PRESCRIPT in
        acts = match zygote with Some _ => [RequestRestart] | None => [] end
               ++ [Spawn cmd script (worker_timeout config)]
        /\ isolated_command host (python_path config)
             [str "-B"; str "-"; str "/usr/local/share/sandbox"; enc_key] (proxy_env_vars (proxy config)) cmd
        /\ (netflag = str "1" /\ opt_enable_network options = true /\ enable_network config = true
            \/ netflag = str "0" /\ ~ (opt_enable_network options = true /\ enable_network config = true))
        /\ decrypt (py_b64decode enc) (py_b64decode enc_key) = Some code
        /\ process_answer (str "spawn python: ") (h_proc host cmd script (worker_timeout config)) res
    end
  end.
Proof.
  unfold Python.run. destruct (b64_decode code_b64) as [code|e]; [|done].
  rewrite is_empty_checked. cbv zeta. destruct (python_zygote config && _).
  - destruct (h_zygote host) as [[[] zrun]|]; cbn [z_is_running];
      [|apply (run_slow_spec _ _ _ _ _ [RequestRestart])|apply (run_slow_spec _ _ _ _ _ [])].
    destruct (encrypt_generated code) as (enc & He & _ & _ & Hx). unfold Python.run_fast. rewrite He.
    cbn [mbind option_bind z_run]. destruct (zrun _ _ _) as [[out err] c] eqn:Ez.
    eexists _, _. split; [done|]. eexists _, _, _.
    split; [done|]. split; [done|]. split; [apply limits_ok|]. by rewrite Ez.
  - apply (run_slow_spec _ _ _ _ _ []).
Qed.

(** C19. Nothing a client sends as JavaScript code can leave the string literal
    it is spliced into: code that is not base64 runs nothing; otherwise exactly
    one process is spawned, on the template whose only hole is filled with a
    call on a text of the base64 alphabet (no quote, no backslash, no newline)
    that decodes to the submitted bytes.  The command is isolated and killed on
    drop, its line has the configured memory limits and identity, and the
    options in its last argument enable the network exactly when request and
    configuration both do; the answer says how the process ended. *)
Theorem nodejs_no_injection `{Base64} host config code_b64 preload options :
  match b64_decode code_b64 with
  | inr e => Nodejs.run host config code_b64 preload options = (inr (str "invalid base64 code: " ++ e), [])
  | inl code =>
    exists canonical cmd netflag res,
      let script := fill [(str "code", str "eval(Buffer.from('" ++ canonical
                                       ++ str "', 'base64').toString('utf-8'))")] nodejs_template in
      Nodejs.run host config code_b64 preload options = (res, [Spawn cmd script (worker_timeout config)])
      /\ Forall (fun b => b64_char b = true) canonical
      /\ b64_decode canonical = inl code
      /\ isolated_command host (nodejs_path config)
           [str "--max-old-space-size=" ++ to_string_unsigned (nodejs_max_old_space_mb config);
            str "--jitless"; str "--no-expose_wasm"; str "--disable-proto=throw"; str "-";
            str "/usr/local/share/sandbox";
            to_string_unsigned (sandbox_uid config); to_string_unsigned (sandbox_gid config);
            (unquote <$> str "{~enable_network~:") ++ netflag
            ++ (unquote <$> str ",~max_as~:") ++ to_string_unsigned (nodejs_max_as_bytes config)
            ++ (unquote <$> str ",~privilege~:") ++ (if privilege config then str "true" else str "false")
            ++ str "}"]
           ([(str "UV_USE_IO_URING", str "0"); (str "NODE_PATH", str "/usr/local/share/sandbox/node_modules")]
            ++ proxy_env_vars (proxy config)) cmd
      /\ (netflag = str "true" /\ opt_enable_network options = true /\ enable_network config = true
          \/ netflag = str "false" /\ ~ (opt_enable_network options = true /\ enable_network config = true))
      /\ process_answer (str "spawn nodejs: ") (h_proc host cmd script (worker_timeout config)) res
  end.
Proof.
  unfold Nodejs.run, Nodejs.validate_base64. destruct (b64_decode code_b64) as [code|e]; [|done].
  exists (b64_encode code), (Nodejs.command host config options), (Nodejs.bool_text (network config options)).
  rewrite nodejs_script_filled. eexists. cbv zeta. split; [done|]. split; [apply b64_encode_chars|].
  split; [apply b64_decode_encode|]. split; [done|]. split; [|apply finish_process_answer].
  unfold network. destruct (opt_enable_network options), (enable_network config); naive_solver.
Qed.

(** The preload a client sends with JavaScript code is dropped: it is
    documented as injected before the user code when preloads are enabled, but
    the template has no place for it, so it never changes what is run. *)
Theorem nodejs_preload_ignored `{Base64} host config code_b64 preload options :
  Nodejs.run host config code_b64 preload options = Nodejs.run host config code_b64 [] options.
Proof.
  unfold Nodejs.run. destruct (Nodejs.validate_base64 code_b64); [|done].
  unfold Nodejs.build_script. by rewrite !nodejs_preload_dropped.
Qed.

(** ** Witnesses *)

Module Demo.

Definition rng : Rng := {| fill_bytes := fun n => repeat Byte.x2a n; fill_bytes_length := fun n => repeat_length _ n |}.

(** JSON strings, for paths without characters to escape. *)
Definition quote (s : bytes) : bytes := Byte.x22 :: s ++ [Byte.x22].
Definition json : SerdeJson :=
  {| json_of_strings := fun l => Some (str "[" ++ join (str ",") (quote <$> l) ++ str "]") |}.

(** The shipped configuration, without privileges. *)
Definition config : Config := override_with_env
  (fun n => if bool_decide (n = str "PRIVILEGE") then Some (str "0") else None) Shipped.config.

Definition zygote (b : bool) : ZygoteHandle :=
  {| z_is_running := b; z_run := fun _ _ _ => (str "3", [], 0) |}.

Definition host (b : bool) : Host :=
  {| h_zygote := Some (zygote b); h_path := None; h_proc := fun _ _ _ => Output 0 (str "3") [] |}.

Definition options : RunnerOptions := {| opt_enable_network := true |}.

(** [print(1 + 2)] *)
Definition code_b64 : bytes := str "cHJpbnQoMSArIDIp".

End Demo.

Lemma python_script_filled_witness :
  exists enc enc_key,
    Python.build_script (H := Rfc4648.base64) (H0 := Demo.rng) (H1 := Demo.json)
      Demo.config (str "print(1 + 2)") [] Demo.options
    = Some (fill (Python.settings (H1 := Demo.json) Demo.config [] Demo.options ++ [(str "code", enc)])
              python_template, enc_key)
    /\ decrypt (py_b64decode (PyBase64 := Rfc4648.py_base64) enc)
         (py_b64decode (PyBase64 := Rfc4648.py_base64) enc_key) = Some (str "print(1 + 2)").
Proof.
  apply (python_script_filled (H := Rfc4648.base64) (H0 := Rfc4648.py_base64) (H1 := Demo.rng) (H2 := Demo.json)).
  - by vm_compute.
  - by vm_compute.
Defined.

(** A dead zygote: one restart request, then one process with the network on. *)
Lemma python_run_once_witness :
  exists res acts,
    Python.run (H := Rfc4648.base64) (H0 := Demo.rng) (H1 := Demo.json)
      (Demo.host false) Demo.config Demo.code_b64 [] Demo.options = Some (res, acts)
    /\ exists cmd script, acts = [RequestRestart; Spawn cmd script 15] /\ kill_on_drop cmd = true.
Proof.
  pose proof (python_run_once (H := Rfc4648.base64) (H0 := Rfc4648.py_base64) (H1 := Demo.rng) (H2 := Demo.json)
    (Demo.host false) Demo.config Demo.code_b64 [] Demo.options) as W.
  destruct W as (res & acts & Hr & cmd & nf & enc & ek & Ha & (_ & _ & _ & _ & Hk) & _).
  exists res, acts. split; [exact Hr|]. eexists cmd, _. split; [exact Ha|exact Hk].
Defined.

(** The same code sent to Node. *)
Lemma nodejs_no_injection_witness :
  exists cmd script,
    (Nodejs.run (H := Rfc4648.base64) (Demo.host true) Demo.config Demo.code_b64 [] Demo.options).2
    = [Spawn cmd script 15] /\ kill_on_drop cmd = true.
Proof.
  destruct (nodejs_no_injection (H := Rfc4648.base64) (Demo.host true) Demo.config Demo.code_b64 [] Demo.options)
    as (canonical & cmd & nf & res & Hr & _ & _ & (_ & _ & _ & _ & Hk) & _).
  rewrite Hr. eexists cmd, _. split; [done|exact Hk].
Defined.
