(* ===== verification/Zygote.v ===== *)
(** * Zygote: the life cycle of a zygote manager

    [socketpair], [ZygoteManager::new], [stop] and [drop], and the request
    text of [run], in [server/src/services/zygote.rs].  [new] is followed
    through the server's descriptor table: which descriptors are open, and
    which of them are closed on [exec].  A process the server spawns inherits
    the others. *)

From S2P Require Import Prelude RustStd Reader Config Models Runners.

(** ** Descriptors *)

(** The open descriptors; the flag is [FD_CLOEXEC]. *)
Abbreviation fd_table := (gmap Z bool).

(** What a spawned process keeps of the table: [fork], then [exec]. *)
Definition inherited (t : fd_table) : gset Z := dom (filter (fun kv => kv.2 = false) t).

(** [socketpair(AF_UNIX, SOCK_STREAM, 0)]: without [SOCK_CLOEXEC], neither
    descriptor is closed on [exec]. [fds] is what the kernel picks. *)
Definition socketpair (fds : option (Z * Z)) (t : fd_table) : option (Z * Z) * fd_table :=
  match fds with
  | Some (a, b) => (Some (a, b), <[a := false]> (<[b := false]> t))
  | None => (None, t)
  end.

(** ** [ZygoteManager::new] *)

Definition worker_command (path : option bytes) (python_path : bytes) (worker_fd : Z) (lib_so lib_dir : bytes)
    (warm_modules : list bytes) (proxy : ProxyConfig) : Command := {|
  program := python_path;
  args := [str "-B"; str "pool/zygote_worker.py"; to_string_i32 worker_fd; lib_so; lib_dir;
           join (str ",") warm_modules];
  envs := (match path with Some p => [(str "PATH", p)] | None => [] end) ++ proxy_env_vars proxy;
  current_dir := LIB_PATH;
  kill_on_drop := false
|}.

(** What the kernel and the library answer. *)
Record NewHost := {
  nh_path : option bytes;
  nh_pair : option (Z * Z);
  nh_spawn : Command -> bool;
  nh_nonblocking : bool;
  nh_from_std : bool
}.

Inductive new_error := PairError | SpawnError | NonblockingError | FromStdError.

(** The manager: its descriptor, and what it shares with its reader. *)
Record ZygoteManager := { server_fd : Z; shared : Shared; max_output : Z }.

(** The result, the descriptor table afterwards, and whether a worker process
    was started. *)
Definition new (host : NewHost) (max_env : option bytes) (python_path lib_so lib_dir : bytes)
    (warm_modules : list bytes) (proxy : ProxyConfig) (t : fd_table)
  : (ZygoteManager + new_error) * fd_table * bool :=
  match socketpair (nh_pair host) t with
  | (None, t) => (inr PairError, t, false)
  | (Some (server_fd, worker_fd), t) =>
    let cmd := worker_command (nh_path host) python_path worker_fd lib_so lib_dir warm_modules proxy in
    if negb (nh_spawn host cmd) then (inr SpawnError, t, false)
    else
      let t := delete worker_fd t in
      (* [s_server] owns the descriptor from here on and closes it when dropped *)
      if negb (nh_nonblocking host) then (inr NonblockingError, delete server_fd t, true)
      else if negb (nh_from_std host) then (inr FromStdError, delete server_fd t, true)
      else (inl {| server_fd := server_fd; shared := mkShared ∅ true [] [];
                   max_output := max_output_bytes max_env |}, t, true)
  end.

(** ** [stop] and [drop] *)

(** The reader is aborted, then every pending request is failed. *)
Definition stop `{DashIter} (s : Shared) : Shared :=
  fail_all (str "zygote stopped") (set_running false s).

(** Whether the worker process is still there afterwards: it is killed and
    reaped. The pending table goes with the last handle. *)
Definition drop_manager (s : Shared) : Shared * bool := (set_running false s, false).

(** ** The request text of [run] *)

Definition request_json (code_b64 key_b64 : bytes) (limits : SandboxLimits) : Json :=
  JObject [field "code" (JString code_b64); field "key" (JString key_b64);
           field "uid" (JNumber (uid limits)); field "gid" (JNumber (gid limits));
           field "net" (JBool (net limits)); field "max_as" (JNumber (max_as limits));
           field "privilege" (JBool (l_privilege limits));
           field "allowed_paths" (JArray (JString <$> allowed_paths limits))].

(** ** Lemmas *)

Lemma inherited_spec t fd : fd ∈ inherited t <-> t !! fd = Some false.
Proof.
  unfold inherited. rewrite elem_of_dom. split.
  - intros [b [Hb E]%map_lookup_filter_Some]. cbn in E. by subst b.
  - intros Hb. exists false. by apply map_lookup_filter_Some.
Qed.

Lemma stop_spec `{DashIter} s :
  pending (stop s) = ∅ /\ running (stop s) = false.
Proof.
  unfold stop. destruct (fail_all_eq (str "zygote stopped") (set_running false s)) as (rs & -> & _). done.
Qed.

(** ** Theorem *)

(** C38. The descriptors of a manager. When [new] succeeds exactly the server's
    end of the control socket has been added to the table, and since it is not
    closed on exec, every process the server spawns from then on (the slow
    Python path, Node) inherits it, although it would let sandboxed code speak
    the protocol to the worker. When the interpreter cannot be spawned, both
    ends stay open for ever; on the later errors no descriptor is leaked, but
    the worker already started is not killed.  The worker itself is spawned
    from a table with both ends, neither closed on exec, so it holds the
    server's end of its own socket and never reads its end of file, by which it
    would notice that the server is gone. *)
Theorem new_descriptors host max_env py so dir warm proxy t a b :
  nh_pair host = Some (a, b) -> a <> b -> t !! a = None -> t !! b = None ->
  {[a; b]} ⊆ inherited (socketpair (nh_pair host) t).2 /\
  let '(res, t', started) := new host max_env py so dir warm proxy t in
  match res with
  | inl m => server_fd m = a /\ t' = <[a := false]> t /\ a ∈ inherited t' /\ started = true
  | inr SpawnError => t' = <[a := false]> (<[b := false]> t) /\ {[a; b]} ⊆ inherited t' /\ started = false
  | inr _ => t' = t /\ started = true
  end.
Proof.
  intros Hp Hne Ha Hb. unfold new, socketpair. rewrite Hp.
  assert ({[a; b]} ⊆ inherited (<[a := false]> (<[b := false]> t))) as Hboth.
  { apply union_subseteq. rewrite !singleton_subseteq_l, !inherited_spec.
    split; [apply lookup_insert_eq|]. rewrite lookup_insert_ne by done. apply lookup_insert_eq. }
  split; [exact Hboth|].
  assert (delete b (<[a := false]> (<[b := false]> t)) = <[a := false]> t) as Hdel.
  { rewrite delete_insert_ne by done. by rewrite delete_insert_eq, delete_id. }
  destruct (nh_spawn host _); cbn [negb].
  - rewrite Hdel. destruct (nh_nonblocking host), (nh_from_std host); cbn [negb server_fd];
      try (split; [by rewrite delete_insert_eq, delete_id|done]).
    split; [done|]. split; [done|]. split; [|done]. apply inherited_spec, lookup_insert_eq.
  - done.
Qed.

Definition demo_host (spawn : bool) : NewHost := {|
  nh_path := None; nh_pair := Some (9, 10); nh_spawn := fun _ => spawn; nh_nonblocking := true; nh_from_std := true |}.

Lemma new_descriptors_witness :
  (exists m, new (demo_host true) None (str "python3") [] [] [] (proxy Shipped.config) ∅
      = (inl m, <[9 := false]> ∅, true) /\ 9 ∈ inherited (<[9 := false]> ∅))
  /\ (exists t', new (demo_host false) None (str "python3") [] [] [] (proxy Shipped.config) ∅
      = (inr SpawnError, t', false) /\ {[9; 10]} ⊆ inherited t').
Proof.
  split.
  - pose proof (new_descriptors (demo_host true) None (str "python3") [] [] [] (proxy Shipped.config) ∅ 9 10
      eq_refl ltac:(done) eq_refl eq_refl) as W.
    change (new (demo_host true) None (str "python3") [] [] [] (proxy Shipped.config) ∅) with
      (inl (B := new_error) {| server_fd := 9; shared := mkShared ∅ true [] []; max_output := max_output_bytes None |},
       <[9 := false]> ∅ : gmap Z bool, true) in W |- *.
    eexists. split; [reflexivity|]. apply W.
  - pose proof (new_descriptors (demo_host false) None (str "python3") [] [] [] (proxy Shipped.config) ∅ 9 10
      eq_refl ltac:(done) eq_refl eq_refl) as W.
    change (new (demo_host false) None (str "python3") [] [] [] (proxy Shipped.config) ∅) with
      (inr (A := ZygoteManager) SpawnError, <[9 := false]> (<[10 := false]> ∅) : gmap Z bool, false) in W |- *.
    eexists. split; [reflexivity|]. apply W.
Defined.
