(* ===== verification/Setup.v ===== *)
(** * Setup: preparing the sandbox's environment

    [server/src/setup/dependencies.rs] (pip) and [setup/env.rs] (the chroot
    jail).  File-system queries and the outcome of a child process are given
    by the host; the commands run are returned, in order, with the result. *)

From S2P Require Import Prelude RustStd Config Runners.

(** ** Child processes *)

Inductive child_outcome :=
| ChildSpawnFailed (e : bytes)
| ChildWaitFailed (e : bytes)
| ChildOutput (status : Z) (out err : bytes).

(** [ExitStatus::success] *)
Definition status_success (status : Z) : bool :=
  match status_code status with Some c => c =? 0 | None => false end.

(** A program and its arguments. *)
Definition argv : Type := bytes * list bytes.

Record SetupHost := {
  s_child : argv -> child_outcome;
  s_read_requirements : option bytes;   (* [fs::read_to_string] of requirements.txt *)
  s_exists : bytes -> bool              (* [Path::exists] *)
}.

(** ** dependencies.rs *)

Record Package := { name : bytes; version : bytes }.

Definition parse_line (line : bytes) : option Package :=
  match split_once (str "==") (trim line) with
  | Some (n, v) => Some {| name := n; version := v |}
  | None => None
  end.

Definition pip_list (config : Config) : argv :=
  (python_path config, [str "-m"; str "pip"; str "list"; str "--format=freeze"]).

Definition list_python_packages (host : SetupHost) (config : Config) : list Package :=
  match s_child host (pip_list config) with
  | ChildOutput status out _ =>
    if status_success status then omap parse_line (lines (from_utf8_lossy out)) else []
  | _ => []
  end.

Definition byte_hash : byte := Byte.x23.

(** The entries of a requirements file. *)
Definition requirement (l : bytes) : bool := negb (is_empty l) && negb (starts_with [byte_hash] l).
Definition requirement_lines (requirements : bytes) : list bytes :=
  filter (fun l => requirement l = true) (trim <$> lines requirements).

Definition pip_install (config : Config) (packages : list bytes) : argv :=
  (python_path config, [str "-m"; str "pip"; str "install"; str "--upgrade"] ++ packages).

Definition install_python_dependencies (host : SetupHost) (config : Config)
  : (unit + bytes) * list argv :=
  match s_read_requirements host with
  | None => (inl tt, [])
  | Some requirements =>
    let packages := requirement_lines requirements in
    if is_empty packages then (inl tt, [])
    else
      let cmd := pip_install config packages in
      (match s_child host cmd with
       | ChildSpawnFailed e => inr (str "pip install spawn: " ++ e)
       | ChildWaitFailed e => inr (str "pip install: " ++ e)
       | ChildOutput status _ err => if status_success status then inl tt else inr (from_utf8_lossy err)
       end, [cmd])
  end.

(** ** env.rs *)

Definition env_sh (src : bytes) : argv :=
  (str "bash", [LIB_PATH ++ str "/script/env.sh"; src; LIB_PATH]).

Definition copy_into_jail (host : SetupHost) (src : bytes) : (unit + bytes) * list argv :=
  if negb (s_exists host src) then (inl tt, [])
  else
    (match s_child host (env_sh src) with
     | ChildSpawnFailed e => inr (str "spawn env.sh for " ++ src ++ str ": " ++ e)
     | ChildWaitFailed e => inr (str "env.sh " ++ src ++ str ": " ++ e)
     | ChildOutput status _ _ =>
       (* the child's streams are not piped: [output.stderr] is empty *)
       if status_success status then inl tt
       else inr (str "env.sh " ++ src ++ str " failed: " ++ from_utf8_lossy [])
     end, [env_sh src]).

(** One [for] loop: the warnings logged and the commands run. *)
Fixpoint copy_all (host : SetupHost) (paths : list bytes) : list bytes * list argv :=
  match paths with
  | [] => ([], [])
  | src :: paths =>
    let '(r, cmds) := copy_into_jail host src in
    let '(warnings, more) := copy_all host paths in
    (match r with inr e => e :: warnings | inl _ => warnings end, cmds ++ more)
  end.

Definition prepare_environment (host : SetupHost) (config : Config) : list bytes * list argv :=
  let '(w1, c1) := copy_all host (python_lib_paths config) in
  let '(w2, c2) := copy_all host (nodejs_lib_paths config) in
  (w1 ++ w2, c1 ++ c2).

(** ** Lemmas: lines *)

(** Characters of package names and versions: visible ASCII. *)
Definition visible (b : byte) : bool := in_range 33 126 b.

Lemma strip_cr_visible s : Forall (fun b => visible b = true) s -> strip_cr s = s.
Proof.
  intros Hs. unfold strip_cr. destruct (rev s) as [|b r] eqn:E; [done|].
  rewrite bool_decide_false; [done|]. intros ->.
  assert (byte_cr ∈ s) as Hin.
  { apply list_elem_of_In, in_rev. rewrite E. by left. }
  rewrite Forall_forall in Hs. by specialize (Hs _ Hin).
Qed.

Lemma visible_no_lf s : Forall (fun b => visible b = true) s -> byte_lf ∉ s.
Proof. intros Hs Hin. rewrite Forall_forall in Hs. by specialize (Hs _ Hin). Qed.

(** Lines of visible text, each ended by a line feed. *)
Lemma lines_unlines ls : Forall (Forall (fun b => visible b = true)) ls ->
  lines (concat ((fun l => l ++ [byte_lf]) <$> ls)) = ls.
Proof.
  unfold lines. induction 1 as [|l ls Hl Hls IH]; [done|]. cbn [fmap list_fmap concat].
  rewrite <-app_assoc, split_on_app by (by apply visible_no_lf).
  destruct (split_on byte_lf _) as [|p ps] eqn:E.
  - cbn in IH |- *. subst ls. done.
  - cbn [lines_of_pieces]. rewrite strip_cr_visible by done. f_equal. exact IH.
Qed.

Lemma trim_start_visible s : Forall (fun b => visible b = true) s -> trim_start s = s.
Proof.
  unfold visible, in_range. destruct 1 as [|b s Hb Hs]; [done|]. cbn [trim_start].
  assert (ws1 b = false) as -> by (unfold ws1, in_range; lia).
  destruct s as [|b1 s]; [done|]. assert (ws2 b b1 = false) as -> by (unfold ws2, in_range; lia).
  destruct s as [|b2 s]; [done|]. assert (ws3 b b1 b2 = false) as -> by (unfold ws3, in_range; lia). done.
Qed.

Lemma trim_end_rev_visible s : Forall (fun b => visible b = true) s -> trim_end_rev s = s.
Proof.
  unfold visible, in_range. destruct 1 as [|b s Hb Hs]; [done|]. cbn [trim_end_rev].
  assert (ws1 b = false) as -> by (unfold ws1, in_range; lia).
  destruct s as [|b1 s]; [done|]. assert (ws2 b1 b = false) as -> by (unfold ws2, in_range; lia).
  destruct s as [|b2 s]; [done|]. assert (ws3 b2 b1 b = false) as -> by (unfold ws3, in_range; lia). done.
Qed.

Lemma trim_visible s : Forall (fun b => visible b = true) s -> trim s = s.
Proof.
  intros Hs. unfold trim, trim_end. rewrite trim_start_visible by done.
  rewrite trim_end_rev_visible by (by apply Forall_rev). apply rev_involutive.
Qed.

Lemma utf8_valid_ascii s : Forall (fun b => in_range 0 127 b = true) s -> utf8_valid s = true.
Proof.
  induction 1 as [|b s Hb Hs IH]; [done|]. cbn [utf8_valid]. unfold utf8_char_width. by rewrite Hb.
Qed.

Definition byte_eq : byte := Byte.x3d.

Lemma split_once_name n v : byte_eq ∉ n -> split_once (str "==") (n ++ str "==" ++ v) = Some (n, v).
Proof.
  change (str "==") with [byte_eq; byte_eq]. induction n as [|b n IH]; intros Hn; [done|].
  rewrite elem_of_cons in Hn. rewrite <-app_comm_cons. cbn [split_once strip_prefix].
  rewrite bool_decide_false by (intros <-; tauto). by rewrite IH by tauto.
Qed.

(** One line of [pip list --format=freeze]. *)
Definition freeze (p : Package) : bytes := name p ++ str "==" ++ version p.

Definition package_ok (p : Package) : Prop :=
  Forall (fun b => visible b = true) (name p) /\ Forall (fun b => visible b = true) (version p)
  /\ byte_eq ∉ name p.

Lemma freeze_visible p : package_ok p -> Forall (fun b => visible b = true) (freeze p).
Proof. intros (Hn & Hv & _). unfold freeze. rewrite !Forall_app. split_and!; [done|by repeat constructor|done]. Qed.

Lemma parse_freeze p : package_ok p -> parse_line (freeze p) = Some p.
Proof.
  intros Hp. unfold parse_line. rewrite trim_visible by (by apply freeze_visible).
  destruct Hp as (_ & _ & Hn). unfold freeze. rewrite split_once_name by done. by destruct p.
Qed.

Lemma parse_freeze_all l : Forall package_ok l -> omap parse_line (freeze <$> l) = l.
Proof. induction 1 as [|p l Hp Hl IH]; [done|]. cbn. rewrite parse_freeze by done. by f_equal. Qed.

(** What [pip] prints for a list of packages. *)
Definition freeze_output (l : list Package) : bytes := concat ((fun l => l ++ [byte_lf]) <$> (freeze <$> l)).

Lemma freeze_output_ascii l : Forall package_ok l ->
  Forall (fun b => in_range 0 127 b = true) (freeze_output l).
Proof.
  intros Hl. unfold freeze_output. induction Hl as [|p l Hp Hl IH]; [constructor|].
  cbn [fmap list_fmap concat]. rewrite !Forall_app. split_and!; [|by repeat constructor|done].
  eapply Forall_impl; [by apply freeze_visible|]. intros b. unfold visible, in_range. lia.
Qed.

Lemma copy_all_spec host paths :
  copy_all host paths
  = (omap (fun src => match (copy_into_jail host src).1 with inr e => Some e | inl _ => None end) paths,
     env_sh <$> filter (fun src => s_exists host src = true) paths).
Proof.
  induction paths as [|src paths IH]; [done|]. cbn [copy_all]. rewrite IH.
  unfold copy_into_jail at 1 3. rewrite filter_cons. destruct (s_exists host src) eqn:E; cbn [negb].
  - rewrite decide_True by done. cbn. unfold copy_into_jail. rewrite E. cbn.
    by destruct (s_child host (env_sh src)) as [| |]; repeat case_match.
  - rewrite decide_False by done. cbn. unfold copy_into_jail. by rewrite E.
Qed.

(** ** Theorems *)

(** Listing packages inverts what pip prints: for any packages whose names
    and versions are visible ASCII (names without an equals sign), the endpoint
    returns exactly that list. *)
Theorem list_packages_roundtrip host config l err :
  Forall package_ok l ->
  s_child host (pip_list config) = ChildOutput 0 (freeze_output l) err ->
  list_python_packages host config = l.
Proof.
  intros Hl Hc. unfold list_python_packages. rewrite Hc. cbn [status_success status_code].
  rewrite from_utf8_lossy_valid by (by apply utf8_valid_ascii, freeze_output_ascii).
  unfold freeze_output. change (status_success 0) with true. cbn iota.
  rewrite lines_unlines; [by apply parse_freeze_all|].
  apply Forall_fmap. eapply Forall_impl; [done|]. intros p Hp. by apply freeze_visible.
Qed.

Module Demo.

Definition packages : list Package :=
  [{| name := str "requests"; version := str "2.32.3" |}; {| name := str "orjson"; version := str "3.10.0" |}].

(** pip lists [packages]; env.sh fails. *)
Definition host : SetupHost := {|
  s_child := fun '(p, _) =>
    if bool_decide (p = str "bash") then ChildOutput 256 [] (str "denied") else ChildOutput 0 (freeze_output packages) [];
  s_read_requirements := Some (str "# comment");
  s_exists := fun p => negb (bool_decide (p = str "/usr/lib/python3"))
|}.

End Demo.

Lemma list_packages_roundtrip_witness : list_python_packages Demo.host Shipped.config = Demo.packages.
Proof.
  apply (list_packages_roundtrip Demo.host Shipped.config Demo.packages []).
  - by repeat (constructor; [split_and!; [by repeat constructor|by repeat constructor|by apply (bool_decide_unpack _)]|]);
      constructor.
  - reflexivity.
Defined.

(** Installing dependencies runs pip at most once, and only with real
    requirements: each argument after the fixed ones is a trimmed, non-empty,
    non-comment line of the requirements file, all of them, in order; without
    any, or without the file, nothing runs and the result is success. *)
Lemma install_runs_requirements host config :
  let packages := match s_read_requirements host with Some r => requirement_lines r | None => [] end in
  (install_python_dependencies host config).2
  = (if is_empty packages then [] else [pip_install config packages])
  /\ Forall (fun l => l <> [] /\ starts_with [byte_hash] l = false) packages
  /\ (packages = [] -> (install_python_dependencies host config).1 = inl tt).
Proof.
  unfold install_python_dependencies. destruct (s_read_requirements host) as [r|]; cbn [fst snd];
    [|by repeat constructor].
  split; [by destruct (is_empty _)|]. split.
  - apply Forall_forall. intros l [Hl _]%list_elem_of_filter. unfold requirement in Hl.
    apply andb_true_iff in Hl as [Hn Hh]. apply negb_true_iff in Hn, Hh. by destruct l.
  - by intros ->.
Qed.

(** Preparing the jail tries every configured path, whatever happens to the
    others: one run of env.sh for each existing path, Python's first, in the
    configured order; failures only add warnings. *)
Lemma prepare_environment_total host config :
  let paths := python_lib_paths config ++ nodejs_lib_paths config in
  prepare_environment host config
  = (omap (fun src => match (copy_into_jail host src).1 with inr e => Some e | inl _ => None end) paths,
     env_sh <$> filter (fun src => s_exists host src = true) paths).
Proof.
  unfold prepare_environment. rewrite !copy_all_spec. cbn. by rewrite omap_app, filter_app, fmap_app.
Qed.
