(* ===== verification/Jail.v ===== *)
(** * Jail: the script that fills the chroot jail

    runtime/script/env.sh, which [setup/env.rs] runs for every configured
    library path ([Setup.copy_into_jail]).  The script is modelled command by
    command over the class [Shell] of what it asks of the system: the file
    tests of [\[], the commands that change the file system, the output of
    [find], [dirname] and the pattern removal of bash, whose documented
    behaviour is stated as the hypotheses of the theorems.  An execution keeps
    the list of the commands that were run.

    Bash is modelled where its rules matter: the status of a pipeline is that
    of its last command and that of a loop the one of its last body, [read -r]
    without an empty [IFS] strips blanks from both ends of a line and fails on
    an unterminated one. *)

From S2P Require Import Prelude RustStd Config Runners Setup.

(** ** Data *)

(** The commands that change the file system. *)
Inductive cmd :=
| CpP (src dest : bytes)     (* cp -P *)
| Cp (src dest : bytes)      (* cp *)
| Chmod444 (path : bytes)    (* chmod 444 *)
| LnF (src dest : bytes)     (* ln -f *)
| MkdirP (path : bytes).     (* mkdir -p *)

#[global] Instance cmd_eq_dec : EqDecision cmd.
Proof. solve_decision. Defined.

(** The path a command writes to. *)
Definition target (c : cmd) : bytes :=
  match c with CpP _ d | Cp _ d | LnF _ d => d | Chmod444 p | MkdirP p => p end.

Class Shell (Fs : Type) := {
  test_L : bytes -> Fs -> bool;
  test_b : bytes -> Fs -> bool;
  test_c : bytes -> Fs -> bool;
  test_f : bytes -> Fs -> bool;
  test_d : bytes -> Fs -> bool;
  command : cmd -> Fs -> Z * Fs;              (* exit status *)
  find_type_f_l : bytes -> Fs -> bytes;      (* the output of [find "$1" -type f,l] *)
  dirname : bytes -> bytes;
  remove_pattern : bytes -> bytes -> bytes  (* [${s#pattern}] *)
}.

(** ** The script *)

Definition slash : bytes := str "/".

(** [read -r]: blanks are stripped from both ends. *)
Definition is_blank (b : byte) : bool := bool_decide (b = Byte.x20) || bool_decide (b = Byte.x09).
Fixpoint strip_blanks (s : bytes) : bytes :=
  match s with
  | b :: rest => if is_blank b then strip_blanks rest else s
  | [] => []
  end.
Definition read_line (line : bytes) : bytes := rev (strip_blanks (rev (strip_blanks line))).

(** The values [file] takes in [while read -r file]. *)
Definition read_lines (out : bytes) : list bytes := read_line <$> removelast (split_on byte_lf out).

Section Script.
Context {Fs : Type} `{Shell Fs}.

(** The state of the system and the commands run so far. *)
Definition World : Type := Fs * list cmd.

Definition sh (c : cmd) (w : World) : Z * World :=
  let '(status, s) := command c w.1 in (status, (s, w.2 ++ [c])).

Definition copy_and_link (src_file dest_file : bytes) (w : World) : Z * World :=
  if test_L src_file w.1 then sh (CpP src_file dest_file) w
  else if test_b src_file w.1 || test_c src_file w.1 then
    let '(_, w) := sh (Cp src_file dest_file) w in sh (Chmod444 dest_file) w
  else
    let '(status, w) := sh (LnF src_file dest_file) w in
    if status =? 0 then (0, w)
    else
      let '(status, w) := sh (Cp src_file dest_file) w in
      if status =? 0 then sh (Chmod444 dest_file) w else (status, w).

(** The body of the loop. *)
Definition copy_file (src dest file : bytes) (w : World) : Z * World :=
  let rel_path := remove_pattern (src ++ slash) file in
  let rel_dir := dirname rel_path in
  let '(_, w) := sh (MkdirP (dest ++ slash ++ src ++ slash ++ rel_dir)) w in
  copy_and_link file (dest ++ slash ++ src ++ slash ++ rel_path) w.

Fixpoint copy_files (src dest : bytes) (files : list bytes) (status : Z) (w : World) : Z * World :=
  match files with
  | [] => (status, w)
  | file :: files => let '(status, w) := copy_file src dest file w in copy_files src dest files status w
  end.

(** The whole script: its exit status. *)
Definition script (args : list bytes) (w : World) : Z * World :=
  match args with
  | [src; dest] =>
    if test_f src w.1 then
      let '(_, w) := sh (MkdirP (dirname (dest ++ slash ++ src))) w in
      copy_and_link src (dest ++ slash ++ src) w
    else if test_d src w.1 then
      let '(_, w) := sh (MkdirP (dest ++ slash ++ src)) w in
      copy_files src dest (read_lines (find_type_f_l src w.1)) 0 w
    else (1, w)
  | _ => (1, w)
  end.

(** ** Lemmas: the commands run *)

(** How a file [f] is installed at [d]. *)
Definition installs (f d : bytes) (cmds : list cmd) : Prop :=
  cmds = [CpP f d] \/ cmds = [Cp f d; Chmod444 d] \/ cmds = [LnF f d] \/ cmds = [LnF f d; Cp f d]
  \/ cmds = [LnF f d; Cp f d; Chmod444 d].

Lemma sh_log c w : (sh c w).2.2 = w.2 ++ [c].
Proof. unfold sh. by destruct (command c w.1). Qed.

Lemma copy_and_link_log f d w : exists cmds, (copy_and_link f d w).2.2 = w.2 ++ cmds /\ installs f d cmds.
Proof.
  unfold copy_and_link, installs. destruct (test_L f w.1); [rewrite sh_log; eexists; split; [done|by left]|].
  destruct (test_b f w.1 || test_c f w.1).
  - pose proof (sh_log (Cp f d) w) as E. destruct (sh (Cp f d) w) as [st w1]. cbn in E. cbv beta iota.
    rewrite sh_log, E, <-app_assoc. eexists. split; [done|]. auto.
  - pose proof (sh_log (LnF f d) w) as E. destruct (sh (LnF f d) w) as [st w1]. cbn in E. cbv beta iota.
    destruct (st =? 0); [cbn; rewrite E; eexists; split; [done|auto]|].
    pose proof (sh_log (Cp f d) w1) as E1. destruct (sh (Cp f d) w1) as [st1 w2]. cbn in E1. cbv beta iota.
    destruct (st1 =? 0); [rewrite sh_log, E1, E, <-!app_assoc|cbn; rewrite E1, E, <-app_assoc]; eexists; (split; [done|auto 7]).
Qed.

(** One file of the tree. *)
Definition installs_under (src dest file : bytes) (cmds : list cmd) : Prop :=
  exists rest, cmds = MkdirP (dest ++ slash ++ src ++ slash ++ dirname (remove_pattern (src ++ slash) file)) :: rest
    /\ installs file (dest ++ slash ++ src ++ slash ++ remove_pattern (src ++ slash) file) rest.

Lemma copy_file_log src dest file w : exists cmds,
  (copy_file src dest file w).2.2 = w.2 ++ cmds /\ installs_under src dest file cmds.
Proof.
  unfold copy_file. set (m := MkdirP _). pose proof (sh_log m w) as E. destruct (sh m w) as [st w1]. cbn in E.
  destruct (copy_and_link_log file (dest ++ slash ++ src ++ slash ++ remove_pattern (src ++ slash) file) w1) as (cmds & -> & Hc).
  exists (m :: cmds). rewrite E, <-app_assoc. split; [done|]. by exists cmds.
Qed.

Lemma copy_files_log src dest files st w : exists segs,
  (copy_files src dest files st w).2.2 = w.2 ++ concat segs /\ Forall2 (installs_under src dest) files segs.
Proof.
  revert st w. induction files as [|f files IH]; intros st w; cbn [copy_files].
  - exists []. rewrite app_nil_r. by split.
  - destruct (copy_file_log src dest f w) as (cmds & E & Hc). destruct (copy_file src dest f w) as [st1 w1]. cbn in E.
    destruct (IH st1 w1) as (segs & -> & Hs). exists (cmds :: segs). rewrite E, <-app_assoc. split; [done|]. by constructor.
Qed.

Lemma copy_files_app src dest fs1 fs2 st w :
  copy_files src dest (fs1 ++ fs2) st w
  = let '(st1, w1) := copy_files src dest fs1 st w in copy_files src dest fs2 st1 w1.
Proof.
  revert st w. induction fs1 as [|f fs1 IH]; intros st w; [done|]. rewrite <-app_comm_cons. cbn [copy_files].
  destruct (copy_file src dest f w) as [st1 w1]. cbv beta iota. apply IH.
Qed.

(** The commands of the script. *)
Lemma script_log src dest w : exists cmds, (script [src; dest] w).2.2 = w.2 ++ cmds
  /\ (cmds = []
      \/ (exists rest, cmds = MkdirP (dirname (dest ++ slash ++ src)) :: rest /\ installs src (dest ++ slash ++ src) rest)
      \/ exists files segs, cmds = MkdirP (dest ++ slash ++ src) :: concat segs /\ Forall2 (installs_under src dest) files segs).
Proof.
  unfold script. destruct (test_f src w.1).
  - set (m := MkdirP _). pose proof (sh_log m w) as E. destruct (sh m w) as [st w1]. cbn in E.
    destruct (copy_and_link_log src (dest ++ slash ++ src) w1) as (cmds & -> & Hc).
    exists (m :: cmds). rewrite E, <-app_assoc. split; [done|]. right. left. by exists cmds.
  - destruct (test_d src w.1); [|exists []; rewrite app_nil_r; auto].
    set (m := MkdirP _). pose proof (sh_log m w) as E. destruct (sh m w) as [st w1]. cbn in E.
    destruct (copy_files_log src dest (read_lines (find_type_f_l src w1.1)) 0 w1) as (segs & -> & Hs).
    exists (m :: concat segs). rewrite E, <-app_assoc. split; [done|]. right. right. eauto.
Qed.

(** ** Lemmas: the files that are there afterwards *)

Section Present.
Context (present : bytes -> Fs -> Prop).
Context (Hkeep : forall p c s, present p s -> present p (command c s).2).
Context (Hput : forall c f d s, c = CpP f d \/ c = Cp f d \/ c = LnF f d -> (command c s).1 = 0 ->
           present d (command c s).2).

Lemma sh_keeps p c w : present p w.1 -> present p (sh c w).2.1.
Proof. intros Hp. unfold sh. specialize (Hkeep p c w.1 Hp). by destruct (command c w.1). Qed.

Lemma copy_and_link_keeps p f d w : present p w.1 -> present p (copy_and_link f d w).2.1.
Proof.
  intros Hp. unfold copy_and_link. repeat case_match; cbn [fst snd]; auto using sh_keeps;
    repeat match goal with E : sh ?c ?w = (_, ?w') |- _ =>
      let K := fresh "K" in pose proof (sh_keeps p c w) as K; rewrite E in K; clear E end; auto using sh_keeps.
Qed.

Lemma sh_puts c f d w : c = CpP f d \/ c = Cp f d \/ c = LnF f d -> (sh c w).1 = 0 -> present d (sh c w).2.1.
Proof. unfold sh. intros Hc. pose proof (Hput c f d w.1 Hc) as Hp. by destruct (command c w.1). Qed.

(** A file whose copies do not fail is there after [copy_and_link]. *)
Lemma copy_and_link_puts f d w :
  (forall s, (command (CpP f d) s).1 = 0 /\ (command (Cp f d) s).1 = 0) -> present d (copy_and_link f d w).2.1.
Proof.
  intros Hok. assert (forall w', (sh (CpP f d) w').1 = 0 /\ (sh (Cp f d) w').1 = 0) as Hsh.
  { intros w'. destruct (Hok w'.1). unfold sh. by destruct (command (CpP f d) _), (command (Cp f d) _). }
  unfold copy_and_link. destruct (test_L f w.1); [by apply (sh_puts _ f); [left|apply Hsh]|].
  assert (forall w', present d (sh (Cp f d) w').2.1) as Hcp by (intros; apply (sh_puts _ f); [auto|apply Hsh]).
  destruct (test_b f w.1 || test_c f w.1).
  - specialize (Hcp w). destruct (sh (Cp f d) w) as [st w1]. by apply sh_keeps.
  - pose proof (sh_puts (LnF f d) f d w ltac:(auto)) as Hln. destruct (sh (LnF f d) w) as [st w1].
    destruct (st =? 0) eqn:E; [by apply Hln, Z.eqb_eq|]. specialize (Hcp w1).
    destruct (sh (Cp f d) w1) as [st1 w2]. destruct (st1 =? 0); [by apply sh_keeps|done].
Qed.

Lemma copy_files_puts src dest files p st w :
  (present p w.1 \/ exists f, f ∈ files /\ p = dest ++ slash ++ src ++ slash ++ remove_pattern (src ++ slash) f
     /\ forall s, (command (CpP f p) s).1 = 0 /\ (command (Cp f p) s).1 = 0) ->
  present p (copy_files src dest files st w).2.1.
Proof.
  revert st w. induction files as [|f files IH]; intros st w Hp; cbn [copy_files].
  { destruct Hp as [Hp|(f & Hf%elem_of_nil & _)]; done. }
  unfold copy_file. set (m := MkdirP _). pose proof (sh_keeps p m w) as Hm. destruct (sh m w) as [st1 w1]. cbn in Hm.
  set (d := dest ++ slash ++ src ++ slash ++ remove_pattern (src ++ slash) f).
  pose proof (copy_and_link_keeps p f d w1) as Hk. pose proof (copy_and_link_puts f d w1) as Hp'.
  destruct (copy_and_link f d w1) as [st2 w2]. cbn in Hk, Hp'. apply IH.
  destruct Hp as [Hp|(g & [->|Hg]%elem_of_cons & E & Hok)]; [by auto| |right; by exists g].
  left. fold d in E. subst p. by apply Hp'.
Qed.

End Present.

(** ** Lemmas: the lines [read] returns *)

(** A path that [read -r] returns as it is. *)
Definition readable (file : bytes) : Prop :=
  byte_lf ∉ file /\ (forall b rest, file = b :: rest -> is_blank b = false)
  /\ (forall b rest, rev file = b :: rest -> is_blank b = false).

Lemma strip_blanks_id s : (forall b rest, s = b :: rest -> is_blank b = false) -> strip_blanks s = s.
Proof. destruct s as [|b s]; [done|]. intros Hb. cbn. by rewrite (Hb b s eq_refl). Qed.

Lemma read_line_id file : readable file -> read_line file = file.
Proof.
  intros (_ & Hf & Hr). unfold read_line. rewrite (strip_blanks_id file), strip_blanks_id by done. apply rev_involutive.
Qed.

Lemma read_lines_all files : Forall readable files ->
  read_lines (concat ((fun f => f ++ [byte_lf]) <$> files)) = files.
Proof.
  unfold read_lines. induction 1 as [|f files Hf Hfs IH]; [done|]. cbn [fmap list_fmap concat].
  rewrite <-app_assoc, split_on_app by apply Hf. cbn [removelast].
  destruct (split_on byte_lf _) as [|p ps] eqn:E.
  { exfalso. revert E. generalize (concat ((fun f => f ++ [byte_lf]) <$> files)). intros [|b u]; [done|]. cbn. by repeat case_match. }
  rewrite fmap_cons, read_line_id by done. f_equal. exact IH.
Qed.

(** ** Properties *)

(** Characters that mean something in a pattern. *)
Definition is_special (b : byte) : bool :=
  bool_decide (b ∈ str "*?[\\").

(** Every [chmod] follows a [cp] to the same path. *)
Definition chmod_ok (cmds : list cmd) : Prop :=
  forall pre p post, cmds = pre ++ Chmod444 p :: post -> exists before f, pre = before ++ [Cp f p].

Lemma chmod_ok_app a b : chmod_ok a -> chmod_ok b -> chmod_ok (a ++ b).
Proof.
  intros Ha Hb pre p post E. apply app_eq_inv in E as [(k & -> & E)|(k & -> & E)].
  - destruct k as [|c k]; cbn in E.
    + destruct (Hb [] p post (eq_sym E)) as (before & f & Ef). by destruct before.
    + injection E as <- ->. by destruct (Ha pre p k eq_refl) as (before & f & ->); eauto.
  - destruct (Hb k p post E) as (before & f & ->). exists (a ++ before), f. by rewrite app_assoc.
Qed.

Lemma chmod_ok_mkdir p cmds : chmod_ok cmds -> chmod_ok (MkdirP p :: cmds).
Proof. apply (chmod_ok_app [MkdirP p]). intros [|c [|]] q post E; simplify_eq/=. Qed.

Lemma installs_ok f d cmds : installs f d cmds -> chmod_ok cmds /\ Forall (fun c => target c = d) cmds.
Proof.
  intros Hi. destruct Hi as [->|[->|[->|[->| ->]]]]; (split; [|by repeat constructor]);
    intros [|c1 [|c2 [|c3 [|]]]] p post E; simplify_eq/=; eauto.
  - by eexists [], _.
  - by eexists [_], _.
Qed.

Lemma dest_prefix (dest x : bytes) : (dest ++ slash) `prefix_of` (dest ++ slash ++ x).
Proof. exists x. by rewrite <-app_assoc. Qed.

(** C39. What is installed.  For a directory whose name has no pattern characters
    and does not end in a slash, and whose files have names that survive [read]
    (no newline, no blank at an end), the script attempts, after making the
    directory, one group of commands for each file [find] lists, in that order
    and nothing else, whatever fails on the way: it makes the file's directory
    and then links the file (or copies it, when it is a symbolic link or a
    device or cannot be linked) to the very same path below [dest].  A file
    whose copy does not fail is there when the script ends, whatever happened
    to the others; [present] is any notion of a path being there that a
    successful [cp] or [ln -f] establishes and the commands used keep. *)
Theorem jail_installs_tree src dest names w (present : bytes -> Fs -> Prop) :
  (forall pat rest, Forall (fun b => is_special b = false) pat -> remove_pattern pat (pat ++ rest) = rest) ->
  (forall p c s, present p s -> present p (command c s).2) ->
  (forall c f d s, c = CpP f d \/ c = Cp f d \/ c = LnF f d -> (command c s).1 = 0 -> present d (command c s).2) ->
  Forall (fun b => is_special b = false) src ->
  test_f src w.1 = false -> test_d src w.1 = true ->
  let files := (fun n => src ++ slash ++ n) <$> names in
  let w1 := (sh (MkdirP (dest ++ slash ++ src)) w).2 in
  Forall readable files ->
  find_type_f_l src w1.1 = concat ((fun f => f ++ [byte_lf]) <$> files) ->
  (exists segs, (script [src; dest] w).2.2 = w.2 ++ MkdirP (dest ++ slash ++ src) :: concat segs
    /\ Forall2 (fun n seg => exists rest,
         seg = MkdirP (dest ++ slash ++ src ++ slash ++ dirname n) :: rest
         /\ installs (src ++ slash ++ n) (dest ++ slash ++ (src ++ slash ++ n)) rest) names segs)
  /\ forall n, n ∈ names ->
       (forall s, (command (CpP (src ++ slash ++ n) (dest ++ slash ++ (src ++ slash ++ n))) s).1 = 0
                  /\ (command (Cp (src ++ slash ++ n) (dest ++ slash ++ (src ++ slash ++ n))) s).1 = 0) ->
       present (dest ++ slash ++ (src ++ slash ++ n)) (script [src; dest] w).2.1.
Proof.
  intros Hrem Hkeep Hput Hsrc Hf Hd files w1 Hread Hfind.
  assert (forall n, remove_pattern (src ++ slash) (src ++ slash ++ n) = n) as Hn.
  { intros n. rewrite app_assoc. apply Hrem. apply Forall_app_2; [done|by repeat constructor]. }
  unfold script. rewrite Hf, Hd.
  pose proof (sh_log (MkdirP (dest ++ slash ++ src)) w) as E. unfold w1 in Hfind.
  destruct (sh (MkdirP (dest ++ slash ++ src)) w) as [st w2]. cbn in E, Hfind. cbv beta iota.
  rewrite Hfind, read_lines_all by done. split.
  - destruct (copy_files_log src dest files 0 w2) as (segs & -> & Hs). exists segs. rewrite E, <-app_assoc. split; [done|].
    unfold files in Hs. rewrite Forall2_fmap_l in Hs. eapply Forall2_impl; [exact Hs|]. cbv beta.
    intros n seg (rest & -> & Hi). rewrite Hn in *. by exists rest.
  - intros n Hin Hok. apply (copy_files_puts present Hkeep Hput). right. exists (src ++ slash ++ n).
    rewrite Hn. split; [by apply (list_elem_of_fmap_2 (fun n => src ++ slash ++ n))|]. by split.
Qed.

(** Where the script writes.  Whatever the arguments and the outcomes of the
    commands: every command's target is below [dest] (or, for a single file,
    its directory there), and [chmod] is only ever applied to a path [cp] has
    just written, never to a hard link shared with the host. *)
Theorem jail_writes_inside src dest w :
  exists cmds, (script [src; dest] w).2.2 = w.2 ++ cmds
  /\ Forall (fun c => target c = dirname (dest ++ slash ++ src) \/ (dest ++ slash) `prefix_of` target c) cmds
  /\ forall pre p post, cmds = pre ++ Chmod444 p :: post -> exists before f, pre = before ++ [Cp f p].
Proof.
  destruct (script_log src dest w) as (cmds & -> & Hc). exists cmds. split; [done|].
  enough (chmod_ok cmds /\ Forall (fun c => target c = dirname (dest ++ slash ++ src) \/ (dest ++ slash) `prefix_of` target c) cmds)
    as [? ?] by done.
  destruct Hc as [->|[(rest & -> & [Hok Ht]%installs_ok)|(files & segs & -> & Hs)]].
  - split; [|done]. by intros [] p post E.
  - split; [by apply chmod_ok_mkdir|]. constructor; [by left|]. eapply Forall_impl; [exact Ht|]. intros c ->. right. apply dest_prefix.
  - enough (chmod_ok (concat segs) /\ Forall (fun c => (dest ++ slash) `prefix_of` target c) (concat segs)) as [? Ht].
    { split; [by apply chmod_ok_mkdir|]. constructor; [right; apply dest_prefix|]. eapply Forall_impl; [exact Ht|]. auto. }
    induction Hs as [|f seg files segs (rest & -> & [Hok Ht]%installs_ok) _ [IHok IHt]]; [split; [|done]; by intros [] p post E|].
    cbn [concat]. split; [by apply chmod_ok_app; [apply chmod_ok_mkdir|]|]. apply Forall_app_2; [|done].
    constructor; [apply dest_prefix|]. eapply Forall_impl; [exact Ht|]. intros c ->. apply dest_prefix.
Qed.

(** A failed copy is not reported.  The status of the script for a directory
    is the one of the last file: when that one is installed, the server takes
    the whole tree for copied ([copy_into_jail] returns success and warns of
    nothing), whatever happened to the files before it. *)
Theorem jail_failure_unreported host src before last w :
  s_exists host src = true ->
  s_child host (env_sh src) = ChildOutput (wait_exited (script [src; LIB_PATH] w).1) [] [] ->
  test_f src w.1 = false -> test_d src w.1 = true ->
  let w1 := (sh (MkdirP (LIB_PATH ++ slash ++ src)) w).2 in
  read_lines (find_type_f_l src w1.1) = before ++ [last] ->
  (copy_file src LIB_PATH last (copy_files src LIB_PATH before 0 w1).2).1 = 0 ->
  (copy_into_jail host src).1 = inl tt.
Proof.
  intros He Hc Hf Hd w1 Hr Hs. unfold copy_into_jail. rewrite He, Hc. cbn [negb fst].
  assert ((script [src; LIB_PATH] w).1 = 0) as ->; [|done].
  unfold script. rewrite Hf, Hd. unfold w1 in Hr, Hs.
  destruct (sh (MkdirP (LIB_PATH ++ slash ++ src)) w) as [st w2]. cbn [snd] in Hr, Hs.
  rewrite Hr, copy_files_app. destruct (copy_files src LIB_PATH before 0 w2) as [st1 w3]. cbn [snd] in Hs.
  cbn [copy_files]. by destruct (copy_file src LIB_PATH last w3).
Qed.

(** With a trailing slash in [src] the pattern never matches, and the files go
    to another place: below [dest]/[src]/[src] instead of [dest]/[src]. *)
Lemma jail_trailing_slash d n dest w :
  (forall pat s, (forall rest, s <> pat ++ rest) -> remove_pattern pat s = s) ->
  (forall rest, n <> slash ++ rest) ->
  exists cmds, (copy_file (d ++ slash) dest (d ++ slash ++ n) w).2.2 = w.2 ++ cmds
    /\ exists rest, cmds = MkdirP (dest ++ slash ++ (d ++ slash) ++ slash ++ dirname (d ++ slash ++ n)) :: rest
    /\ installs (d ++ slash ++ n) (dest ++ slash ++ (d ++ slash) ++ slash ++ (d ++ slash ++ n)) rest.
Proof.
  intros Hrem Hn. destruct (copy_file_log (d ++ slash) dest (d ++ slash ++ n) w) as (cmds & E & rest & Ec & Hi).
  assert (remove_pattern ((d ++ slash) ++ slash) (d ++ slash ++ n) = d ++ slash ++ n) as Hr.
  { apply Hrem. intros r Er. rewrite <-!app_assoc in Er. do 2 apply app_inv_head in Er. by eapply Hn. }
  rewrite Hr in *. eauto 6.
Qed.

End Script.

(** ** Witnesses *)

Module JailDemo.

(** [/lib] is a directory with two files; the one named [lost] can be neither
    linked nor copied. The state is the list of the paths written. *)
Definition files : list bytes := [str "/lib/lost"; str "/lib/found"].

Definition run_command (c : cmd) (s : list bytes) : Z * list bytes :=
  match c with
  | LnF f d | Cp f d => if bool_decide (f = str "/lib/lost") then (1, s) else (0, d :: s)
  | CpP _ d => (0, d :: s)
  | Chmod444 _ | MkdirP _ => (0, s)
  end.

#[local] Instance shell : Shell (list bytes) := {|
  test_L := fun _ _ => false;
  test_b := fun _ _ => false;
  test_c := fun _ _ => false;
  test_f := fun p _ => bool_decide (p ∈ files);
  test_d := fun p _ => bool_decide (p = str "/lib");
  command := run_command;
  find_type_f_l := fun p _ => if bool_decide (p = str "/lib") then concat ((fun f => f ++ [byte_lf]) <$> files) else [];
  dirname := fun _ => str ".";
  remove_pattern := fun pat s => default s (strip_prefix pat s)
|}.

Definition world : World (Fs := list bytes) := ([], []).

Lemma run_keeps (p : bytes) c s : p ∈ s -> p ∈ (run_command c s).2.
Proof. intros Hp. destruct c; cbn; repeat case_match; try done; by right. Qed.

Lemma run_puts c f d s : c = CpP f d \/ c = Cp f d \/ c = LnF f d -> (run_command c s).1 = 0 -> d ∈ (run_command c s).2.
Proof. intros [->|[->| ->]]; cbn; repeat case_match; try done; intros; apply list_elem_of_here. Qed.

Lemma strip_prefix_app (pat rest : bytes) : strip_prefix pat (pat ++ rest) = Some rest.
Proof. induction pat as [|b pat IH]; cbn; [done|]. by rewrite bool_decide_true. Qed.

Lemma names_readable : Forall readable ((fun n => str "/lib" ++ slash ++ n) <$> [str "lost"; str "found"]).
Proof.
  repeat constructor; try (by vm_compute; intros b rest [= <- _]).
  all: apply (bool_decide_unpack _); by vm_compute.
Qed.

Lemma jail_installs_tree_witness :
  (exists segs, (script [str "/lib"; str "/jail"] world).2.2 = [] ++ MkdirP (str "/jail//lib") :: concat segs)
  /\ str "/jail//lib/found" ∈ (script [str "/lib"; str "/jail"] world).2.1.
Proof.
  destruct (jail_installs_tree (str "/lib") (str "/jail") [str "lost"; str "found"] world (fun p s => p ∈ s))
    as [(segs & Hs & _) Hp].
  - intros pat rest _. cbn. by rewrite strip_prefix_app.
  - apply run_keeps.
  - apply run_puts.
  - by repeat constructor.
  - by vm_compute.
  - by vm_compute.
  - exact names_readable.
  - by vm_compute.
  - split; [exists segs; exact Hs|]. apply (Hp (str "found")); [by right; left|].
    intros s. by split.
Defined.

(** The server, with the script as its child. *)
Definition host : SetupHost := {|
  s_child := fun _ => ChildOutput (wait_exited (script [str "/lib"; LIB_PATH] world).1) [] [];
  s_read_requirements := None;
  s_exists := fun _ => true
|}.

Lemma jail_failure_unreported_witness :
  (copy_file (str "/lib") LIB_PATH (str "/lib/lost") world).1 = 1 /\ (copy_into_jail host (str "/lib")).1 = inl tt.
Proof.
  split; [by vm_compute|].
  apply (jail_failure_unreported host (str "/lib") [str "/lib/lost"] (str "/lib/found") world); by vm_compute.
Defined.

End JailDemo.
