(* ===== verification/Http.v ===== *)
(** * Http: the server's endpoints

    [server/src/middleware.rs], [handlers.rs] and the route table of
    [main.rs].  The HTTP library is reduced to what the handlers rely on: an
    extractor tuple either succeeds as a whole or yields one extractor's
    error.  [subtle] and the header conversion are interfaces.  A handler's
    effect is what it asks of the rest of the server: a job for the queue, a
    list of child processes. *)

From S2P Require Import Prelude RustStd Crypto Config Models Queue Scripts Runners Setup.

(** ** Interfaces *)

(** [subtle::ConstantTimeEq] on byte slices. *)
Class Subtle := {
  ct_eq : bytes -> bytes -> bool;
  ct_eq_spec : forall a b, ct_eq a b = true <-> a = b
}.

(** [HeaderValue::to_str]: the value itself, when it is visible ASCII. *)
Class HeaderValue := {
  to_str : bytes -> option bytes;
  to_str_spec : forall v s, to_str v = Some s -> s = v
}.

(** ** middleware.rs *)

(** An HTTP status and a JSON body. *)
Record HttpResponse := { status : Z; body : Json }.

Definition Ok (r : ApiResponse) : HttpResponse := {| status := 200; body := ApiResponse_json r |}.

Definition unauthorized : HttpResponse :=
  {| status := 401; body := ApiResponse_json (error 401 (str "Invalid API key")) |}.

(** [ApiKey::from_request]; [header] is the [X-Api-Key] header, if present. *)
Definition api_key `{Subtle} `{HeaderValue} (config : Config) (header : option bytes) : bytes + HttpResponse :=
  match header ≫= to_str with
  | Some val => if ct_eq val (app_key (app config)) then inl val else inr unauthorized
  | None => inr unauthorized
  end.

(** ** handlers.rs *)

Definition violation : ApiResponse := error 31 (str "sandbox security policy violation").
Definition unsupported : ApiResponse := error 400 (str "unsupported language").

Definition run_data (r : ExecutionResult) : Json :=
  RunCodeData_json {| d_stdout := stdout r; d_stderr := stderr r |}.

Section Handlers.
Context `{Base64} `{Rng} `{SerdeJson}.

Definition run_python (host : Host) (config : Config) (code preload : bytes) (options : RunnerOptions)
  : option (ApiResponse * list action) :=
  '(res, acts) ← Python.run host config code preload options;
  Some (match res with
        | inl result =>
          if is_seccomp_violation (exit_code result) then violation
          else if negb (is_empty (stderr result)) && negb (exit_code result =? 0) then error 500 (stderr result)
          else success (run_data result)
        | inr e => error 500 e
        end, acts).

Definition run_nodejs (host : Host) (config : Config) (code preload : bytes) (options : RunnerOptions)
  : ApiResponse * list action :=
  let '(res, acts) := Nodejs.run host config code preload options in
  (match res with
   | inl result =>
     if is_seccomp_violation (exit_code result) then violation
     else if negb (is_empty (stderr result)) && negb (exit_code result =? 0) then error 500 (stderr result)
     else success (run_data result)
   | inr e => error 500 e
   end, acts).

(** The closure [run_code] submits: its response and its effects. *)
Definition dispatch (config : Config) (req : RunCodeRequest) (host : Host) : option (ApiResponse * list action) :=
  if bool_decide (language req = str "python3") then run_python host config (code req) (preload req) (options req)
  else if bool_decide (language req = str "javascript") then
    Some (run_nodejs host config (code req) (preload req) (options req))
  else Some (unsupported, []).

(** The same as a job of the queue, whose world is the host. *)
Definition run_code_job (config : Config) (req : RunCodeRequest) : Job (World := Host) :=
  fun host => fst <$> dispatch config req host.

End Handlers.

(** What a handler asks for. *)
Inductive effect :=
| Submit (language : bytes) (req : RunCodeRequest)
| Child (cmd : argv).

(** Which extractor's error is answered when both fail is the library's
    choice, [json_first]; [bad_body] is its answer to an unreadable body. *)
Section Endpoints.
Context `{Subtle} `{HeaderValue} (json_first : bool) (bad_body : HttpResponse).

Definition extract {A} (config : Config) (header : option bytes) (body : option A) : A + HttpResponse :=
  match api_key config header, body with
  | inl _, Some a => inl a
  | inl _, None => inr bad_body
  | inr e, Some _ => inr e
  | inr e, None => inr (if json_first then bad_body else e)
  end.

(** [run_code]: the response is the job's answer, in a 200 response. *)
Definition run_code (config : Config) (header : option bytes) (body : option RunCodeBody) (answer : ApiResponse)
  : HttpResponse * list effect :=
  match extract config header (body ≫= request_of) with
  | inr e => (e, [])
  | inl req => (Ok answer, [Submit (language req) req])
  end.

Definition health (queue_depth workers : Z) : HttpResponse :=
  {| status := 200;
     body := JObject [field "ok" (JBool true); field "role" (JString (str "sandbox"));
                      field "queue_depth" (JNumber queue_depth); field "workers" (JNumber workers)] |}.

Definition get_dependencies (host : SetupHost) (config : Config) (header : option bytes)
    (query : option (gmap bytes bytes)) : HttpResponse * list effect :=
  match extract config header query with
  | inr e => (e, [])
  | inl query =>
    if bool_decide (query !! str "language" = Some (str "python3")) then
      let packages := list_python_packages host config in
      let deps := (fun p => Dependency_json {| dep_name := name p; dep_version := version p |}) <$> packages in
      (Ok (success (JObject [field "dependencies" (JArray deps)])), [Child (pip_list config)])
    else (Ok unsupported, [])
  end.

Definition update_dependencies (host : SetupHost) (config : Config) (header : option bytes)
    (language : option bytes) : HttpResponse * list effect :=
  match extract config header language with
  | inr e => (e, [])
  | inl language =>
    if bool_decide (language = str "python3") then
      let '(res, cmds) := install_python_dependencies host config in
      (Ok (match res with
           | inl _ => success (JObject [field "success" (JBool true)])
           | inr e => error 500 e
           end), Child <$> cmds)
    else (Ok unsupported, [])
  end.

End Endpoints.

(** ** main.rs: the route table *)

Inductive method := GET | POST.
Inductive endpoint := Health | RunCode | GetDependencies | UpdateDependencies.

#[global] Instance method_eq_dec : EqDecision method.
Proof. solve_decision. Defined.
#[global] Instance endpoint_eq_dec : EqDecision endpoint.
Proof. solve_decision. Defined.

(** [dependencies_api] is the cargo feature. *)
Definition routes (dependencies_api : bool) : list (method * bytes * endpoint) :=
  [(GET, str "/health", Health); (POST, str "/v1/sandbox/run", RunCode)]
  ++ (if dependencies_api then
        [(GET, str "/v1/sandbox/dependencies", GetDependencies);
         (POST, str "/v1/sandbox/dependencies/update", UpdateDependencies)]
      else []).

(** ** Lemmas *)

Lemma api_key_refused `{Subtle} `{HeaderValue} config header :
  header <> Some (app_key (app config)) -> api_key config header = inr unauthorized.
Proof.
  intros Hh. unfold api_key. destruct header as [v|]; [|done]. cbn. destruct (to_str v) as [s|] eqn:E; [|done].
  apply to_str_spec in E as ->. destruct (ct_eq v _) eqn:Ec; [|done]. apply ct_eq_spec in Ec. congruence.
Qed.

(** How a runner's outcome is answered; both runners answer alike. *)
Definition answer_of (res : ExecutionResult + bytes) : ApiResponse :=
  match res with
  | inl result =>
    if is_seccomp_violation (exit_code result) then violation
    else if negb (is_empty (stderr result)) && negb (exit_code result =? 0) then error 500 (stderr result)
    else success (run_data result)
  | inr e => error 500 e
  end.

Section Dispatch.
Context `{Base64} `{PyB : !PyBase64} `{Rng} `{SerdeJson}.

(** The outcome of the runner the request's language selects. *)
Definition outcome (config : Config) (req : RunCodeRequest) (host : Host) : option (option run_outcome) :=
  if bool_decide (language req = str "python3") then
    Some (Python.run host config (code req) (preload req) (options req))
  else if bool_decide (language req = str "javascript") then
    Some (Some (Nodejs.run host config (code req) (preload req) (options req)))
  else None.

Lemma python_run_total host config code_b64 preload options :
  Python.run host config code_b64 preload options <> None.
Proof.
  unfold Python.run. destruct (b64_decode code_b64) as [code|]; [|done].
  assert (forall before, Python.run_slow host config code (checked_preload config preload) options before <> None)
    as Hslow.
  { intros before. destruct (encrypt_generated code) as (enc & He & _).
    unfold Python.run_slow. by rewrite build_script_unfold, He. }
  assert (forall z, Python.run_fast z config code options <> None) as Hfast.
  { intros z. destruct (encrypt_generated code) as (enc & He & _). unfold Python.run_fast. rewrite He.
    cbn [mbind option_bind]. by destruct (z_run _ _ _ _) as [[]]. }
  repeat case_match; auto.
Qed.

Lemma outcome_total config req host : outcome config req host <> Some None.
Proof.
  unfold outcome. case_bool_decide; [|by case_bool_decide]. intros [= E]. by apply python_run_total in E.
Qed.

Lemma dispatch_outcome config req host :
  dispatch config req host
  = match outcome config req host with
    | Some (Some (res, acts)) => Some (answer_of res, acts)
    | Some None => None
    | None => Some (unsupported, [])
    end.
Proof.
  unfold dispatch, outcome, run_python, run_nodejs. case_bool_decide; [|case_bool_decide; [|done]].
  - by destruct (Python.run _ _ _ _ _) as [[[] ?]|].
  - by destruct (Nodejs.run _ _ _ _ _) as [[] ?].
Qed.

Lemma dispatch_total config req host : exists r acts, dispatch config req host = Some (r, acts).
Proof.
  rewrite dispatch_outcome. destruct (outcome config req host) as [[[res acts]|]|] eqn:E; eauto.
  by apply outcome_total in E.
Qed.

Lemma run_code_job_safe config req : safe_job (run_code_job config req).
Proof. intros host E. unfold run_code_job in E. by destruct (dispatch_total config req host) as (r & acts & Hd); rewrite Hd in E. Qed.

End Dispatch.

(** The table of the README: 31 for a process killed by SIGSYS, 0 for success,
    500 for an execution error or a timeout. *)
Definition documented_code (res : ExecutionResult + bytes) : Z :=
  match res with
  | inl x => if exit_code x =? -31 then 31 else if exit_code x =? 0 then 0 else 500
  | inr _ => 500
  end.

(** A run that failed (no violation) without a word on standard error. *)
Definition silent_failure (x : ExecutionResult) : Prop :=
  exit_code x <> 0 /\ exit_code x <> -31 /\ exit_code x <> 159 /\ stderr x = [].

Lemma answer_of_documented res :
  (forall x, res = inl x -> exit_code x = 159 -> documented_code res = 500 /\ r_code (answer_of res) = 31)
  /\ (forall x, res = inl x -> silent_failure x -> documented_code res = 500 /\ r_code (answer_of res) = 0)
  /\ ((forall x, res = inl x -> exit_code x <> 159 /\ ~ silent_failure x) ->
      r_code (answer_of res) = documented_code res).
Proof.
  unfold silent_failure, answer_of, documented_code, is_seccomp_violation, SIGSYS_RAW, SIGSYS_NEG.
  destruct res as [x|e]; [|done]. split; [|split].
  - intros ? [= <-] ->. done.
  - intros ? [= <-] (E0 & E1 & E2 & ->). apply Z.eqb_neq in E0 as ->, E1 as ->, E2 as ->. done.
  - intros Hx. destruct (Hx x eq_refl) as [E2%Z.eqb_neq Hs]. rewrite E2.
    destruct (exit_code x =? -31) eqn:E1; [done|]. destruct (exit_code x =? 0) eqn:E0; cbn [orb negb andb].
    + by rewrite andb_false_r.
    + destruct (stderr x) eqn:Ee; [|done]. destruct Hs. by apply Z.eqb_neq in E0, E1, E2.
Qed.

(** ** Theorems *)

(** C35. Without the configured key nothing happens: on every guarded endpoint,
    a request whose [X-Api-Key] header is missing or different from the key
    submits no job and runs no process, and a well-formed one is answered 401;
    with the key, a well-formed run request is submitted exactly once. *)
Theorem api_key_guards `{Subtle} `{HeaderValue} json_first bad_body setup config header rbody query lang answer :
  let run := run_code json_first bad_body config header rbody answer in
  (header <> Some (app_key (app config)) ->
     run.2 = [] /\ (get_dependencies json_first bad_body setup config header query).2 = []
     /\ (update_dependencies json_first bad_body setup config header lang).2 = []
     /\ (forall req, rbody ≫= request_of = Some req -> run.1 = unauthorized))
  /\ (forall req, header = Some (app_key (app config)) -> is_Some (to_str (app_key (app config))) ->
        rbody ≫= request_of = Some req -> run = (Ok answer, [Submit (language req) req])).
Proof.
  split.
  - intros Hh. unfold run_code, get_dependencies, update_dependencies, extract.
    rewrite api_key_refused by done. repeat split; repeat case_match; simplify_eq; done.
  - intros req -> [s Hs] Hb. cbv zeta. unfold run_code, extract, api_key. rewrite Hb. cbn. rewrite Hs.
    apply to_str_spec in Hs as ->.
    by replace (ct_eq (app_key (app config)) (app_key (app config))) with true by (symmetry; by apply ct_eq_spec).
Qed.

Module Demo.

Definition subtle : Subtle :=
  {| ct_eq := fun a b => bool_decide (a = b); ct_eq_spec := fun a b => bool_decide_eq_true (a = b) |}.

Definition ascii_str (v : bytes) : option bytes := if forallb (in_range 32 126) v then Some v else None.

Lemma ascii_str_spec v s : ascii_str v = Some s -> s = v.
Proof. unfold ascii_str. case_match; congruence. Qed.

Definition header_value : HeaderValue := {| to_str := ascii_str; to_str_spec := ascii_str_spec |}.

Definition rbody : RunCodeBody := {|
  b_language := Some (str "javascript"); b_code := Some (str "MSsx"); b_preload := None; b_options := None |}.

Definition req : RunCodeRequest := {|
  language := str "javascript"; code := str "MSsx"; preload := []; options := RunnerOptions_default |}.

(** Node is killed (signal 9) without a word on stderr. *)
Definition killed : Host :=
  {| h_zygote := None; h_path := None; h_proc := fun _ _ _ => Output 9 (str "partial") [] |}.

End Demo.

Lemma api_key_guards_witness :
  run_code (H := Demo.subtle) (H0 := Demo.header_value) true unauthorized Shipped.config (Some (str "guess"))
    (Some Demo.rbody) (success JNull) = (unauthorized, [])
  /\ run_code (H := Demo.subtle) (H0 := Demo.header_value) true unauthorized Shipped.config (Some (str "sandbox"))
       (Some Demo.rbody) (success JNull) = (Ok (success JNull), [Submit (str "javascript") Demo.req]).
Proof.
  split.
  - destruct (api_key_guards (H := Demo.subtle) (H0 := Demo.header_value) true unauthorized Setup.Demo.host
      Shipped.config (Some (str "guess")) (Some Demo.rbody) None None (success JNull)) as [G _].
    destruct G as (E2 & _ & _ & E1); [by vm_compute|].
    apply injective_projections; [apply (E1 Demo.req); reflexivity|exact E2].
  - destruct (api_key_guards (H := Demo.subtle) (H0 := Demo.header_value) true unauthorized Setup.Demo.host
      Shipped.config (Some (str "sandbox")) (Some Demo.rbody) None None (success JNull)) as [_ G].
    apply (G Demo.req); [reflexivity|by eexists; vm_compute|reflexivity].
Defined.

(** C36. The codes against the README's table. Whatever the host does a handler
    never panics: a language that is not supported is answered 400 and nothing
    runs; any other run request gets the documented code of its run, 31 when the
    process was killed by SIGSYS, 0 when it succeeded and 500 when it failed or
    could not be run, but in two cases. A program that exits with 159 itself is
    answered 31, and a run that failed without a word on standard error is
    answered 0, as a success; 500 is documented for both. *)
Theorem run_code_codes `{Base64} `{!PyBase64} `{Rng} `{SerdeJson} config req host :
  exists r acts, dispatch config req host = Some (r, acts) /\
  match outcome config req host with
  | None => language req <> str "python3" /\ language req <> str "javascript" /\ r_code r = 400 /\ acts = []
  | Some out => exists res, out = Some (res, acts)
    /\ (forall x, res = inl x -> exit_code x = 159 -> documented_code res = 500 /\ r_code r = 31)
    /\ (forall x, res = inl x -> silent_failure x -> documented_code res = 500 /\ r_code r = 0)
    /\ ((forall x, res = inl x -> exit_code x <> 159 /\ ~ silent_failure x) -> r_code r = documented_code res)
  end.
Proof.
  rewrite dispatch_outcome. destruct (outcome config req host) as [[[res acts]|]|] eqn:E.
  - eexists _, _. split; [done|]. eexists. split; [done|]. apply answer_of_documented.
  - by apply outcome_total in E.
  - eexists _, _. split; [done|]. unfold outcome in E. by repeat case_bool_decide.
Qed.

(** A process killed by signal 9, with nothing on standard error. *)
Lemma run_code_codes_witness :
  exists r acts, dispatch (H := Rfc4648.base64) (H0 := Runners.Demo.rng) (H1 := Runners.Demo.json)
      Shipped.config Demo.req Demo.killed = Some (r, acts) /\ r_code r = 0.
Proof.
  destruct (run_code_codes (H := Rfc4648.base64) (H0 := Rfc4648.py_base64) (H1 := Runners.Demo.rng)
    (H2 := Runners.Demo.json) Shipped.config Demo.req Demo.killed) as (r & acts & Hd & res & Hres & _ & Hs & _).
  exists r, acts. split; [exact Hd|].
  assert (res = (Nodejs.run (H := Rfc4648.base64) Demo.killed Shipped.config (str "MSsx") [] RunnerOptions_default).1)
    as -> by (by injection Hres as <-).
  refine (proj2 (Hs _ eq_refl _)). repeat split; by vm_compute.
Defined.

(** A failure without a word on standard error is reported as a success:
    whatever non-zero status a JavaScript process ends with (SIGSYS and 159
    apart), a kill included, the response has code 0 when its standard error
    is empty, although the documentation reserves 500 for execution errors. *)
Theorem silent_failure_succeeds `{Base64} config host code code_b64 preload options status out :
  b64_decode code_b64 = inl code ->
  (forall cmd script t, h_proc host cmd script t = Output status out []) ->
  is_seccomp_violation (exit_code_from_status status) = false ->
  (run_nodejs host config code_b64 preload options).1
  = success (run_data {| stdout := from_utf8_lossy out; stderr := []; exit_code := exit_code_from_status status |}).
Proof.
  intros Hd Hp Hv. unfold run_nodejs, Nodejs.run, Nodejs.validate_base64. rewrite Hd.
  unfold finish_process. rewrite Hp. cbn [fst exit_code stderr from_utf8_lossy is_empty negb andb]. by rewrite Hv.
Qed.

Lemma silent_failure_succeeds_witness :
  exit_code_from_status 9 = -9
  /\ r_code (run_nodejs (H := Rfc4648.base64) Demo.killed Shipped.config (str "MSsx") [] RunnerOptions_default).1 = 0.
Proof.
  split; [reflexivity|].
  rewrite (silent_failure_succeeds (H := Rfc4648.base64) Shipped.config Demo.killed (str "1+1") (str "MSsx") []
    RunnerOptions_default 9 (str "partial")); [reflexivity|by vm_compute|reflexivity|reflexivity].
Defined.

(** C17. End to end: in a pool with a worker that only ever receives [run_code]
    jobs, what a client is answered is the dispatch of its own request on the
    host as it was; the pool's own errors never appear. *)
Theorem run_code_end_to_end `{Mpmc} `{Base64} `{!PyBase64} `{Rng} `{SerdeJson}
    config (request : nat -> RunCodeRequest) n es s i r :
  (0 < n)%nat ->
  (forall j lang f, EvSubmit j lang f ∈ es -> f = run_code_job config (request j)) ->
  execs es (start n) = Some s -> submits s !! i = Some (SubReturned r) ->
  exists host acts, (i, host) ∈ ran s /\ dispatch config (request i) host = Some (r, acts).
Proof.
  intros Hn Hes Hx Hr. assert (Forall safe_event es) as Hsafe.
  { apply Forall_forall. intros [] Hin; cbn; try done. rewrite (Hes _ _ _ Hin). apply run_code_job_safe. }
  destruct (healthy_answer n es s i r Hn Hsafe Hx Hr) as (f & host & Hf & Hran & Hh).
  destruct (jobs_submitted es (start n) s i f Hx Hf) as [?|[lang Hin]]; [done|].
  rewrite (Hes _ _ _ Hin) in Hh. unfold run_code_job in Hh.
  destruct (dispatch config (request i) host) as [[r' acts]|] eqn:Ed; [|done]. injection Hh as ->. eauto.
Qed.

(** One request through the pool. *)
Definition demo_job : Job (World := Host) :=
  run_code_job (H := Rfc4648.base64) (H0 := Runners.Demo.rng) (H1 := Runners.Demo.json) Shipped.config Demo.req.

Definition demo_trace : list (event (World := Host)) :=
  [EvSubmit 0 (str "javascript") demo_job; EvSend 0; EvRecv 0; EvSub 0; EvRun 0 Demo.killed; EvReply 0; EvReceive 0].

Definition demo_answer : ApiResponse := success (run_data {| stdout := str "partial"; stderr := []; exit_code := -9 |}).

Lemma run_code_end_to_end_witness :
  exists s host acts, execs (H := list_mpmc) demo_trace (start 1) = Some s /\ (0%nat, host) ∈ ran s
    /\ dispatch (H := Rfc4648.base64) (H0 := Runners.Demo.rng) (H1 := Runners.Demo.json)
         Shipped.config Demo.req host = Some (demo_answer, acts).
Proof.
  destruct (execs (H := list_mpmc) demo_trace (start 1)) as [s|] eqn:E; [|by vm_compute in E].
  destruct (run_code_end_to_end (H := list_mpmc) (H0 := Rfc4648.base64) (H1 := Rfc4648.py_base64)
    (H2 := Runners.Demo.rng) (H3 := Runners.Demo.json) Shipped.config (fun _ => Demo.req) 1 demo_trace s 0 demo_answer)
    as (host & acts & Hin & Hd).
  - lia.
  - intros j lang f Hin. unfold demo_trace in Hin. rewrite !elem_of_cons, elem_of_nil in Hin.
    by destruct_or!; simplify_eq.
  - exact E.
  - assert ((execs (H := list_mpmc) demo_trace (start 1) ≫= fun s => submits s !! 0%nat)
      = Some (SubReturned demo_answer)) as Hs by (by vm_compute).
    rewrite E in Hs. exact Hs.
  - by exists s, host, acts.
Defined.
