(* ===== verification/Posix.v ===== *)
(** * Posix: the kernel objects the zygote worker uses

    What runtime/pool/zygote_worker.py asks of Python's [os], [select] and
    [socket] modules: pipes, child processes with their wait statuses, the
    worker's descriptor table and the control socket.  The calls are functions
    on the kernel's state.  What else happens (children run, the server reads
    and writes) is the environment: a list of moves that are interleaved with
    the worker's.

    Two points of Linux that matter here are kept: a process that exits closes
    its descriptors some time before its status can be waited for ([Exiting],
    then [Zombie]), and a process that was sent SIGKILL goes on until the
    signal is delivered ([Alive true]).  What the kernel is free to choose (the
    numbers of descriptors and processes, the failures) is the class [Os]. *)

From S2P Require Import Prelude RustStd Runners.

(** ** Kernel state *)

(** A pipe: all that was written to it, how much of that was read, and whether
    the worker and the child still hold its write end. *)
Record Pipe := mkPipe { pp_data : bytes; pp_off : nat; pp_worker : bool; pp_child : bool }.

Definition unread (p : Pipe) : bytes := drop (pp_off p) (pp_data p).
Definition at_eof (p : Pipe) : bool :=
  bool_decide (unread p = []) && negb (pp_worker p) && negb (pp_child p).

(** What a descriptor of the worker refers to. *)
Inductive fdesc := RdEnd (p : nat) | WrEnd (p : nat) | Sock.

#[global] Instance fdesc_eq_dec : EqDecision fdesc.
Proof. solve_decision. Defined.

(** The life of a child, with its raw wait status. *)
Inductive pstate := Alive (killed : bool) | Exiting (status : Z) | Zombie (status : Z) | Reaped (status : Z).

#[global] Instance pstate_eq_dec : EqDecision pstate.
Proof. solve_decision. Defined.

(** A child: its two pipes and its state. *)
Record Proc := mkProc { pr_out : nat; pr_err : nat; pr_state : pstate }.

(** [pipes] and [procs] list every pipe and child ever made, [pids] the
    children not yet waited for. The control socket: what the server sent, as
    delivered; whether its end is open; the free room of the send buffer; and
    all bytes accepted for the server so far. [clock] counts the moves of the
    environment. *)
Record Kernel := mkKernel {
  pipes : list Pipe;
  table : gmap Z fdesc;
  procs : list Proc;
  pids : gmap Z nat;
  inbox : list bytes;
  peer_open : bool;
  room : Z;
  wire : bytes;
  clock : nat
}.

Definition set_pipes (l : list Pipe) (k : Kernel) : Kernel :=
  mkKernel l (table k) (procs k) (pids k) (inbox k) (peer_open k) (room k) (wire k) (clock k).
Definition set_table (t : gmap Z fdesc) (k : Kernel) : Kernel :=
  mkKernel (pipes k) t (procs k) (pids k) (inbox k) (peer_open k) (room k) (wire k) (clock k).
Definition set_procs (l : list Proc) (k : Kernel) : Kernel :=
  mkKernel (pipes k) (table k) l (pids k) (inbox k) (peer_open k) (room k) (wire k) (clock k).
Definition set_pids (m : gmap Z nat) (k : Kernel) : Kernel :=
  mkKernel (pipes k) (table k) (procs k) m (inbox k) (peer_open k) (room k) (wire k) (clock k).
Definition set_inbox (l : list bytes) (k : Kernel) : Kernel :=
  mkKernel (pipes k) (table k) (procs k) (pids k) l (peer_open k) (room k) (wire k) (clock k).
Definition set_peer (b : bool) (k : Kernel) : Kernel :=
  mkKernel (pipes k) (table k) (procs k) (pids k) (inbox k) b (room k) (wire k) (clock k).
Definition set_room (n : Z) (k : Kernel) : Kernel :=
  mkKernel (pipes k) (table k) (procs k) (pids k) (inbox k) (peer_open k) n (wire k) (clock k).
Definition tick (k : Kernel) : Kernel :=
  mkKernel (pipes k) (table k) (procs k) (pids k) (inbox k) (peer_open k) (room k) (wire k) (S (clock k)).

Definition set_off (n : nat) (p : Pipe) : Pipe := mkPipe (pp_data p) n (pp_worker p) (pp_child p).
Definition set_worker (b : bool) (p : Pipe) : Pipe := mkPipe (pp_data p) (pp_off p) b (pp_child p).
Definition set_child (b : bool) (p : Pipe) : Pipe := mkPipe (pp_data p) (pp_off p) (pp_worker p) b.
Definition append (bs : bytes) (p : Pipe) : Pipe :=
  mkPipe (pp_data p ++ bs) (pp_off p) (pp_worker p) (pp_child p).
Definition set_state (st : pstate) (p : Proc) : Proc := mkProc (pr_out p) (pr_err p) st.

(** ** What the kernel chooses *)

(** A status [waitpid] can report without [WUNTRACED]: exited or signaled. *)
Definition is_wait_status (st : Z) : Prop := status_signal st <> None \/ status_code st <> None.

(** [pipe_fds] and [fork_pid] are the numbers handed out ([None] a failure);
    [read_error] says when [os.read] raises [OSError] or [MemoryError], and
    [exits_first] that a process sent SIGKILL ends by itself before. *)
Class Os := {
  pipe_fds : Kernel -> option (Z * Z);
  fork_pid : Kernel -> option Z;
  read_error : Kernel -> Z -> bool;
  exits_first : Kernel -> Z -> option Z;
  pipe_fds_fresh : forall k r w, pipe_fds k = Some (r, w) ->
    0 <= r /\ 0 <= w /\ r <> w /\ table k !! r = None /\ table k !! w = None;
  fork_pid_fresh : forall k p, fork_pid k = Some p -> pids k !! p = None;
  exits_first_status : forall k p st, exits_first k p = Some st -> is_wait_status st
}.

Definition SIGKILL : Z := 9.

(** ** Calls *)

Section Calls.
Context `{Os}.

Definition os_pipe (k : Kernel) : option (Z * Z) * Kernel :=
  match pipe_fds k with
  | None => (None, k)
  | Some (r, w) =>
    let p := length (pipes k) in
    (Some (r, w),
     set_table (<[w := WrEnd p]> (<[r := RdEnd p]> (table k)))
       (set_pipes (pipes k ++ [mkPipe [] 0 true false]) k))
  end.

(** A closed write end, when it was the worker's. *)
Definition drop_end (d : fdesc) (k : Kernel) : Kernel :=
  match d with
  | WrEnd p => set_pipes (alter (set_worker false) p (pipes k)) k
  | RdEnd _ | Sock => k
  end.

(** [os.close]; [false] is [OSError]. *)
Definition os_close (fd : Z) (k : Kernel) : bool * Kernel :=
  match table k !! fd with
  | None => (false, k)
  | Some d => (true, drop_end d (set_table (delete fd (table k)) k))
  end.

(** [os.fork] with the write ends [out_w] and [err_w] in the child: its
    standard output and error, all other descriptors being closed there. *)
Definition os_fork (out_w err_w : Z) (k : Kernel) : option Z * Kernel :=
  match fork_pid k, table k !! out_w, table k !! err_w with
  | Some pid, Some (WrEnd po), Some (WrEnd pe) =>
    (Some pid,
     set_pids (<[pid := length (procs k)]> (pids k))
       (set_procs (procs k ++ [mkProc po pe (Alive false)])
          (set_pipes (alter (set_child true) pe (alter (set_child true) po (pipes k))) k)))
  | _, _, _ => (None, k)
  end.

Inductive read_result := RdData (data : bytes) | RdError | RdBlocks.

(** [os.read(fd, n)] on a pipe: what is there, up to [n] bytes; nothing when no
    write end is left; else it blocks. *)
Definition os_read (fd n : Z) (k : Kernel) : read_result * Kernel :=
  match table k !! fd with
  | Some (RdEnd p) =>
    if read_error k fd then (RdError, k) else
    match pipes k !! p with
    | None => (RdError, k)
    | Some pp =>
      if bool_decide (unread pp = []) then
        if at_eof pp then (RdData [], k) else (RdBlocks, k)
      else
        let data := take (Z.to_nat n) (unread pp) in
        (RdData data, set_pipes (alter (set_off (pp_off pp + length data)) p (pipes k)) k)
    end
  | _ => (RdError, k)
  end.

(** [os.kill(pid, SIGKILL)]; [false] is [ProcessLookupError]. *)
Definition os_kill (pid : Z) (k : Kernel) : bool * Kernel :=
  match pids k !! pid with
  | None => (false, k)
  | Some i =>
    (true, set_procs (alter (fun pr => match pr_state pr with
                                       | Alive _ => set_state (Alive true) pr
                                       | _ => pr
                                       end) i (procs k)) k)
  end.

(** The child [i] ends with [st]: its write ends close, its status is not
    available yet. *)
Definition proc_exit (i : nat) (st : Z) (k : Kernel) : Kernel :=
  match procs k !! i with
  | Some pr =>
    set_procs (alter (set_state (Exiting st)) i (procs k))
      (set_pipes (alter (set_child false) (pr_err pr) (alter (set_child false) (pr_out pr) (pipes k))) k)
  | None => k
  end.

Definition reap (pid : Z) (i : nat) (st : Z) (k : Kernel) : Kernel :=
  set_pids (delete pid (pids k)) (set_procs (alter (set_state (Reaped st)) i (procs k)) k).

Inductive wait_result := WaitStatus (st : Z) | WaitRunning | WaitNoChild | WaitBlocks.

(** [os.waitpid(pid, os.WNOHANG)] *)
Definition os_waitpid_nohang (pid : Z) (k : Kernel) : wait_result * Kernel :=
  match pids k !! pid with
  | None => (WaitNoChild, k)
  | Some i =>
    match pr_state <$> procs k !! i with
    | Some (Zombie st) => (WaitStatus st, reap pid i st k)
    | Some _ => (WaitRunning, k)
    | None => (WaitNoChild, k)
    end
  end.

(** [os.waitpid(pid, 0)]: waits for the end of a process that is on its way
    out, or was sent SIGKILL; for any other it blocks. *)
Definition os_waitpid (pid : Z) (k : Kernel) : wait_result * Kernel :=
  match pids k !! pid with
  | None => (WaitNoChild, k)
  | Some i =>
    match pr_state <$> procs k !! i with
    | Some (Zombie st) | Some (Exiting st) => (WaitStatus st, reap pid i st k)
    | Some (Alive true) =>
      let st := default SIGKILL (exits_first k pid) in
      (WaitStatus st, reap pid i st (proc_exit i st k))
    | Some (Alive false) => (WaitBlocks, k)
    | _ => (WaitNoChild, k)
    end
  end.

(** [os.waitstatus_to_exitcode]; [None] is [ValueError]. *)
Definition waitstatus_to_exitcode (st : Z) : option Z :=
  match status_code st with
  | Some c => Some c
  | None => Z.opp <$> status_signal st
  end.

Inductive send_result := Sent (n : nat) | SendBlocks | SendBroken.

(** [send] on the non-blocking control socket. *)
Definition sock_send (bs : bytes) (k : Kernel) : send_result * Kernel :=
  if negb (peer_open k) then (SendBroken, k)
  else if room k <=? 0 then (SendBlocks, k)
  else
    let n := Nat.min (Z.to_nat (room k)) (length bs) in
    (Sent n,
     mkKernel (pipes k) (table k) (procs k) (pids k) (inbox k) (peer_open k)
       (room k - Z.of_nat n) (wire k ++ take n bs) (clock k)).

Inductive recv_result := Received (bs : bytes) | RecvBlocks.

(** [recv(n)]: at most [n] bytes of what was delivered first. *)
Definition sock_recv (n : Z) (k : Kernel) : recv_result * Kernel :=
  match inbox k with
  | bs :: rest =>
    let rest' := drop (Z.to_nat n) bs in
    (Received (take (Z.to_nat n) bs),
     set_inbox (if bool_decide (rest' = []) then rest else rest' :: rest) k)
  | [] => (if peer_open k then RecvBlocks else Received [], k)
  end.

(** ** What [select] reports *)

Definition can_read (fd : Z) (k : Kernel) : bool :=
  match table k !! fd with
  | Some (RdEnd p) =>
    match pipes k !! p with
    | Some pp => negb (bool_decide (unread pp = [])) || at_eof pp
    | None => false
    end
  | Some Sock => negb (bool_decide (inbox k = [])) || negb (peer_open k)
  | _ => false
  end.

Definition can_write (k : Kernel) : bool := (0 <? room k) || negb (peer_open k).

End Calls.

(** ** The environment *)

Inductive stream := StdOut | StdErr.

#[global] Instance stream_eq_dec : EqDecision stream.
Proof. solve_decision. Defined.

Definition pipe_of (s : stream) (pr : Proc) : nat := match s with StdOut => pr_out pr | StdErr => pr_err pr end.

(** A child writes, closes a standard stream, exits, is killed by a pending
    SIGKILL, becomes a zombie; the server sends, reads [n] bytes, goes away;
    time passes. *)
Inductive move :=
| ChildWrite (i : nat) (s : stream) (bs : bytes)
| ChildClose (i : nat) (s : stream)
| ChildExit (i : nat) (st : Z)
| ChildDie (i : nat)
| ChildZombie (i : nat)
| Deliver (bs : bytes)
| PeerRead (n : nat)
| PeerClose
| Pause.

Definition is_alive (st : pstate) : bool := match st with Alive _ => true | _ => false end.

#[global] Instance is_wait_status_dec st : Decision (is_wait_status st).
Proof. unfold is_wait_status. apply _. Defined.

Definition env_step (m : move) (k : Kernel) : option Kernel :=
  tick <$>
  match m with
  | ChildWrite i s bs =>
    pr ← procs k !! i;
    pp ← pipes k !! pipe_of s pr;
    if is_alive (pr_state pr) && pp_child pp
    then Some (set_pipes (alter (append bs) (pipe_of s pr) (pipes k)) k) else None
  | ChildClose i s =>
    pr ← procs k !! i;
    if is_alive (pr_state pr)
    then Some (set_pipes (alter (set_child false) (pipe_of s pr) (pipes k)) k) else None
  | ChildExit i st =>
    pr ← procs k !! i;
    if is_alive (pr_state pr) && bool_decide (is_wait_status st) then Some (proc_exit i st k) else None
  | ChildDie i =>
    pr ← procs k !! i;
    if bool_decide (pr_state pr = Alive true) then Some (proc_exit i SIGKILL k) else None
  | ChildZombie i =>
    pr ← procs k !! i;
    match pr_state pr with
    | Exiting st => Some (set_procs (alter (set_state (Zombie st)) i (procs k)) k)
    | _ => None
    end
  | Deliver bs =>
    if peer_open k && negb (bool_decide (bs = [])) then Some (set_inbox (inbox k ++ [bs]) k) else None
  | PeerRead n => Some (set_room (room k + Z.of_nat n) k)
  | PeerClose => Some (set_peer false k)
  | Pause => Some k
  end.

(** ** Lemmas *)

Lemma proc_exit_sock i st k : wire (proc_exit i st k) = wire k /\ inbox (proc_exit i st k) = inbox k.
Proof. unfold proc_exit. by destruct (procs k !! i). Qed.

(** The environment does not write what the worker sends, and delivers nothing
    empty. *)
Lemma env_step_sock m k k' : env_step m k = Some k' ->
  wire k' = wire k /\ (inbox k' = inbox k \/ exists bs, bs <> [] /\ inbox k' = inbox k ++ [bs]).
Proof.
  unfold env_step. intros (k1 & Hk & ->)%fmap_Some. cbn [tick wire inbox].
  destruct m as [i s bs|i s|i st|i|i|bs|n| |]; cbn in Hk.
  1-5: destruct (procs k !! i) as [pr|]; [|done]; cbn in Hk.
  - destruct (pipes k !! pipe_of s pr) as [pp|]; [|done]. cbn in Hk. destruct (_ && _); simplify_eq; auto.
  - destruct (is_alive _); simplify_eq; auto.
  - destruct (_ && _); simplify_eq. destruct (proc_exit_sock i st k); auto.
  - case_bool_decide; simplify_eq. destruct (proc_exit_sock i SIGKILL k); auto.
  - destruct (pr_state pr); simplify_eq; auto.
  - destruct (_ && _) eqn:E; simplify_eq. apply andb_prop in E as [_ E]. split; [done|]. right. exists bs.
    split; [|done]. by apply negb_true_iff, bool_decide_eq_false in E.
  - simplify_eq. auto.
  - simplify_eq. auto.
  - simplify_eq. auto.
Qed.
