(* ===== verification/Worker.v ===== *)
(** * Worker: the event loop of the zygote worker

    [class Zygote] of runtime/pool/zygote_worker.py, the other end of the
    protocol of [Wire]: a single-threaded [select] loop that forks a child per
    [MSG_RUN], forwards what the child prints as frames and closes the request
    with [MSG_DONE].

    Python code is a state monad with four outcomes: a value, an exception,
    the end of the process ([os._exit]), and a system call that would block.
    A state of the system is the worker's with the kernel's ([Posix]); an
    event is a turn of the [while True] loop, with what [select] reports, or a
    move of the environment.  The exceptions modelled are those of the system
    calls, of [json.loads] and of [os.waitstatus_to_exitcode]. *)

From S2P Require Import Prelude RustStd Wire Models Runners Posix.

(** ** Data *)

Record ReqInfo := mkReq { ri_pid : Z; ri_out : Z; ri_err : Z; ri_open : gset Z }.

(** [launched] and [frames] are history, read by no code: the requests forked
    so far (the [i]-th is the [i]-th child), and the frames given to [_send]. *)
Record Zygote := mkZygote {
  kernel : Kernel;
  ctrl : Z;
  reqs : gmap Z ReqInfo;
  fd_map : gmap Z (Z * byte);
  recv_buf : bytes;
  out : bytes;
  launched : list (Z * Json);
  frames : list Frame
}.

Definition _SEND_BUF_CAP : Z := 4 * 1024 * 1024.
Definition _MAX_FRAME_PAYLOAD : Z := 16 * 1024 * 1024.

(** [json.loads]; [None] is an exception. *)
Class PyJson := { loads : bytes -> option Json }.

(** ** The monad *)

Inductive outcome (A : Type) :=
| Ok (x : A)
| Raise
| Exit (code : Z)
| Hang.
Arguments Ok {A} x.
Arguments Raise {A}.
Arguments Exit {A} code.
Arguments Hang {A}.

Definition M (A : Type) : Type := Zygote -> outcome A * Zygote.

#[global] Instance M_ret : MRet M := fun A x w => (Ok x, w).
#[global] Instance M_bind : MBind M := fun A B f m w =>
  match m w with
  | (Ok x, w') => f x w'
  | (Raise, w') => (Raise, w')
  | (Exit c, w') => (Exit c, w')
  | (Hang, w') => (Hang, w')
  end.

Definition raise {A} : M A := fun w => (Raise, w).
Definition exit {A} (code : Z) : M A := fun w => (Exit code, w).
Definition hang {A} : M A := fun w => (Hang, w).
Definition get : M Zygote := fun w => (Ok w, w).
Definition modify (f : Zygote -> Zygote) : M unit := fun w => (Ok tt, f w).
(** [try: m except: h] *)
Definition catch {A} (m : M A) (h : M A) : M A := fun w =>
  match m w with
  | (Raise, w') => h w'
  | r => r
  end.

Definition set_kernel (k : Kernel) (w : Zygote) : Zygote :=
  mkZygote k (ctrl w) (reqs w) (fd_map w) (recv_buf w) (out w) (launched w) (frames w).
Definition set_reqs (m : gmap Z ReqInfo) (w : Zygote) : Zygote :=
  mkZygote (kernel w) (ctrl w) m (fd_map w) (recv_buf w) (out w) (launched w) (frames w).
Definition set_fd_map (m : gmap Z (Z * byte)) (w : Zygote) : Zygote :=
  mkZygote (kernel w) (ctrl w) (reqs w) m (recv_buf w) (out w) (launched w) (frames w).
Definition set_recv_buf (b : bytes) (w : Zygote) : Zygote :=
  mkZygote (kernel w) (ctrl w) (reqs w) (fd_map w) b (out w) (launched w) (frames w).
Definition set_out (b : bytes) (w : Zygote) : Zygote :=
  mkZygote (kernel w) (ctrl w) (reqs w) (fd_map w) (recv_buf w) b (launched w) (frames w).
Definition record_launch (l : Z * Json) (w : Zygote) : Zygote :=
  mkZygote (kernel w) (ctrl w) (reqs w) (fd_map w) (recv_buf w) (out w) (launched w ++ [l]) (frames w).
Definition record_frame (f : Frame) (w : Zygote) : Zygote :=
  mkZygote (kernel w) (ctrl w) (reqs w) (fd_map w) (recv_buf w) (out w) (launched w) (frames w ++ [f]).

(** A system call: a function on the kernel's state. *)
Definition sys {A} (f : Kernel -> A * Kernel) : M A := fun w =>
  let '(x, k) := f (kernel w) in (Ok x, set_kernel k w).

Section Worker.
Context `{Os} `{PyJson}.

(** ** Input and output *)

(** [_flush]: every turn sends at least one byte, so that [length (out w)]
    turns and the final test suffice. *)
Fixpoint flush_loop (fuel : nat) : M unit := fun w =>
  match fuel with
  | O => (Ok tt, w)
  | S fuel =>
    if bool_decide (out w = []) then (Ok tt, w) else
    (sent ← sys (sock_send (out w));
     match sent with
     | SendBlocks => mret tt
     | SendBroken => exit 0
     | Sent n =>
       if bool_decide (n = 0)%nat then mret tt
       else modify (fun w => set_out (drop n (out w)) w) ≫= fun _ => flush_loop fuel
     end) w
  end.

Definition _flush : M unit := fun w => flush_loop (S (length (out w))) w.

Definition _send (msg_type : byte) (req_id : Z) (payload : bytes) : M unit :=
  modify (fun w => set_out (out w ++ encode_frame msg_type req_id payload)
                     (record_frame (mkFrame msg_type req_id payload) w)) ≫= fun _ =>
  _flush.

(** The parsing loop of [_read_ctrl_frames], with [body] run at every [yield];
    a frame consumes its header, so [length (recv_buf w)] turns suffice. *)
Fixpoint frame_loop (fuel : nat) (body : Frame -> M unit) : M unit := fun w =>
  match fuel with
  | O => (Ok tt, w)
  | S fuel =>
    match parse_frame _MAX_FRAME_PAYLOAD (recv_buf w) with
    | NeedMore => (Ok tt, w)
    | Oversized => (Exit 1, w)
    | Parsed f rest =>
      (modify (set_recv_buf rest) ≫= fun _ => body f ≫= fun _ => frame_loop fuel body) w
    end
  end.

(** [for ... in self._read_ctrl_frames(): body] *)
Definition _read_ctrl_frames (body : Frame -> M unit) : M unit :=
  chunk ← sys (sock_recv 65536);
  match chunk with
  | RecvBlocks => mret tt
  | Received [] => exit 0
  | Received bs =>
    modify (fun w => set_recv_buf (recv_buf w ++ bs) w) ≫= fun _ =>
    ((fun w => frame_loop (length (recv_buf w)) body w) : M unit)
  end.

(** ** Requests *)

(** The [except] clause of [_handle_run]. *)
Fixpoint close_all (fds : list Z) : M unit :=
  match fds with
  | [] => mret tt
  | fd :: fds => (if 0 <=? fd then sys (os_close fd) ≫= fun _ => mret tt else mret tt) ≫= fun _ => close_all fds
  end.

Definition cleanup {A} (out_w err_w out_r err_r : Z) : M A :=
  close_all [out_w; err_w; out_r; err_r] ≫= fun _ => raise.

Definition _handle_run (req_id : Z) (payload : bytes) : M unit :=
  match loads payload with
  | None => raise
  | Some req =>
    p1 ← sys os_pipe;
    match p1 with
    | None => cleanup (-1) (-1) (-1) (-1)
    | Some (out_r, out_w) =>
      p2 ← sys os_pipe;
      match p2 with
      | None => cleanup out_w (-1) out_r (-1)
      | Some (err_r, err_w) =>
        pid ← sys (os_fork out_w err_w);
        match pid with
        | None => cleanup out_w err_w out_r err_r
        | Some pid =>
          sys (os_close out_w) ≫= fun _ =>
          sys (os_close err_w) ≫= fun _ =>
          modify (fun w =>
            set_fd_map (<[err_r := (req_id, MSG_STDERR)]> (<[out_r := (req_id, MSG_STDOUT)]> (fd_map w)))
              (set_reqs (<[req_id := mkReq pid out_r err_r {[out_r; err_r]}]> (reqs w))
                 (record_launch (req_id, req) w)))
        end
      end
    end
  end.

Definition _handle_kill (req_id : Z) : M unit :=
  w ← get;
  match reqs w !! req_id with
  | None => mret tt
  | Some req => sys (os_kill (ri_pid req)) ≫= fun _ => mret tt
  end.

(** The end of a request: both pipes are closed, the entry is gone. *)
Definition finish_request (pid req_id : Z) : M unit :=
  wres ← sys (os_waitpid_nohang pid);
  match wres with
  | WaitNoChild => _send MSG_DONE req_id (i32_to_be_bytes (-1))
  | WaitStatus st =>
    match waitstatus_to_exitcode st with
    | None => raise
    | Some exit_code => _send MSG_DONE req_id (i32_to_be_bytes exit_code)
    end
  | WaitRunning =>
    _send MSG_STDERR req_id (str "process terminated") ≫= fun _ =>
    sys (os_kill pid) ≫= fun _ =>
    wres ← sys (os_waitpid pid);
    match wres with
    | WaitStatus st =>
      match waitstatus_to_exitcode st with
      | None => raise
      | Some exit_code => _send MSG_DONE req_id (i32_to_be_bytes exit_code)
      end
    | WaitNoChild => _send MSG_DONE req_id (i32_to_be_bytes (-1))
    | WaitRunning | WaitBlocks => hang
    end
  | WaitBlocks => hang
  end.

Definition _teardown_pipe_fd (fd req_id : Z) : M unit :=
  sys (os_close fd) ≫= fun _ =>
  modify (fun w => set_fd_map (delete fd (fd_map w)) w) ≫= fun _ =>
  w ← get;
  match reqs w !! req_id with
  | None => mret tt
  | Some req =>
    let open := ri_open req ∖ {[fd]} in
    modify (fun w => set_reqs (<[req_id := mkReq (ri_pid req) (ri_out req) (ri_err req) open]> (reqs w)) w) ≫= fun _ =>
    if negb (bool_decide (open = ∅)) then mret tt
    else
      modify (fun w => set_reqs (delete req_id (reqs w)) w) ≫= fun _ =>
      finish_request (ri_pid req) req_id
  end.

Definition _on_pipe_readable (fd : Z) : M unit :=
  w ← get;
  match fd_map w !! fd with
  | None => raise
  | Some (req_id, mtype) =>
    rd ← sys (os_read fd 65536);
    match rd with
    | RdBlocks => hang
    | RdData (b :: bs) => _send mtype req_id (b :: bs)
    | RdData [] | RdError => _teardown_pipe_fd fd req_id
    end
  end.

(** ** The loop *)

Definition dispatch (f : Frame) : M unit :=
  if bool_decide (f_type f = MSG_RUN) then _handle_run (f_req f) (f_payload f)
  else if bool_decide (f_type f = MSG_KILL) then _handle_kill (f_req f)
  else mret tt.

(** The body of [for fd in readable], and its [except BaseException]. *)
Definition handle_fd (fd : Z) : M unit :=
  catch
    (w ← get;
     if fd =? ctrl w then _read_ctrl_frames dispatch
     else match fd_map w !! fd with Some _ => _on_pipe_readable fd | None => mret tt end)
    (w ← get;
     match fd_map w !! fd with
     | Some (req_id, _) =>
       if fd =? ctrl w then mret tt else catch (_teardown_pipe_fd fd req_id) (mret tt)
     | None => mret tt
     end).

Fixpoint handle_fds (fds : list Z) : M unit :=
  match fds with
  | [] => mret tt
  | fd :: fds => handle_fd fd ≫= fun _ => handle_fds fds
  end.

(** [rlist] and [wlist]; the keys of a dict come in some order. *)
Definition rlist (w : Zygote) : gset Z :=
  {[ctrl w]} ∪ (if len (out w) <? _SEND_BUF_CAP then dom (fd_map w) else ∅).
Definition wlist (w : Zygote) : bool := negb (bool_decide (out w = [])).

(** What [select] may report: descriptors of the lists that are ready, each
    once, in the order of [rlist], which starts with the control socket. *)
Definition select_ok (w : Zygote) (readable : list Z) (writable : bool) : Prop :=
  NoDup readable
  /\ Forall (fun fd => fd ∈ rlist w /\ can_read fd (kernel w) = true) readable
  /\ (ctrl w ∉ tail readable)
  /\ (writable = true -> wlist w = true /\ can_write (kernel w) = true).

#[global] Instance select_ok_dec w readable writable : Decision (select_ok w readable writable).
Proof. unfold select_ok. apply _. Defined.

(** [select.select] raises [ValueError] for a descriptor that does not fit a C
    [fd_set]; [serve] does not expect it. *)
Definition FD_SETSIZE : Z := 1024.
Definition select_range (w : Zygote) : bool := bool_decide (set_Forall (fun fd => fd < FD_SETSIZE) (rlist w)).

(** One turn of [while True], after [select]. *)
Definition serve_turn (readable : list Z) (writable : bool) : M unit :=
  (if writable then _flush else mret tt) ≫= fun _ => handle_fds readable.

(** ** The system *)

Inductive event :=
| Turn (readable : list Z) (writable : bool)
| Env (m : move).

(** [Ended code]: the process called [os._exit], or ended with an exception;
    [Stuck]: it is blocked. *)
Inductive status := Serving | Ended (code : Z) | Stuck.

Record State := mkState { zygote : Zygote; st_status : status }.

Definition exec (e : event) (s : State) : option State :=
  match e with
  | Env m => k ← env_step m (kernel (zygote s)); Some (mkState (set_kernel k (zygote s)) (st_status s))
  | Turn readable writable =>
    match st_status s with
    | Serving =>
      if negb (select_range (zygote s)) then Some (mkState (zygote s) (Ended 1))
      else if bool_decide (select_ok (zygote s) readable writable) then
        let '(r, w) := serve_turn readable writable (zygote s) in
        Some (mkState w (match r with Ok _ => Serving | Raise => Ended 1 | Exit c => Ended c | Hang => Stuck end))
      else None
    | _ => None
    end
  end.

Definition run_events (es : list event) (s : State) : option State := foldl (fun o e => o ≫= exec e) (Some s) es.

(** [__init__], as far as the loop is concerned. *)
Definition init (ctrl_fd room : Z) : State :=
  mkState (mkZygote (mkKernel [] {[ctrl_fd := Sock]} [] ∅ [] true room [] 0) ctrl_fd ∅ ∅ [] [] [] []) Serving.

Definition reachable (s : State) : Prop :=
  exists ctrl_fd room es, run_events es (init ctrl_fd room) = Some s.

End Worker.
