(* ===== verification/WorkerInv.v ===== *)
(** * WorkerInv: the invariant of the zygote worker's loop

    The bookkeeping of [Worker] (the tables [reqs] and [fd_map], the frames
    sent) against the kernel of [Posix]: [inv] for the tables, [req_ok] for one
    request, [good] for the whole state.  Each handler has an effect lemma
    that runs it symbolically on the part of the state the invariants speak
    of ([Core]) and says that the invariants are kept; the last one is the
    effect of a turn of the loop.  The invariants hold although request ids
    may be reused by the server; what is said of one request assumes that its
    id was used once ([only_launch]). *)

From S2P Require Import Prelude RustStd Wire Reader Models Runners Posix Worker.

Section Worker.
Context `{Os} `{PyJson}.

(** ** Vocabulary of the properties *)

(** The part of the state the bookkeeping is about. *)
Record Core := mkCore {
  c_pipes : list Pipe;
  c_table : gmap Z fdesc;
  c_procs : list Proc;
  c_pids : gmap Z nat;
  c_reqs : gmap Z ReqInfo;
  c_fd_map : gmap Z (Z * byte);
  c_launched : list (Z * Json);
  c_frames : list Frame
}.

Definition core (w : Zygote) : Core :=
  mkCore (pipes (kernel w)) (table (kernel w)) (procs (kernel w)) (pids (kernel w))
    (reqs w) (fd_map w) (launched w) (frames w).

(** All bytes produced for the server: on the socket, then in the buffer. *)
Definition produced (w : Zygote) : bytes := wire (kernel w) ++ out w.

(** ** Lemmas: effects of the input and output operations *)

Lemma M_bind_eq {A B} (m : M A) (f : A -> M B) w :
  (m ≫= f) w = match m w with
               | (Ok x, w') => f x w'
               | (Raise, w') => (Raise, w')
               | (Exit c, w') => (Exit c, w')
               | (Hang, w') => (Hang, w')
               end.
Proof. done. Qed.

(** From [w] to [w'] only bytes moved from the buffer to the socket. *)
Record io_step (w w' : Zygote) : Prop := {
  io_core : core w' = core w;
  io_ctrl : ctrl w' = ctrl w;
  io_recv : recv_buf w' = recv_buf w;
  io_inbox : inbox (kernel w') = inbox (kernel w);
  io_peer : peer_open (kernel w') = peer_open (kernel w);
  io_clock : clock (kernel w') = clock (kernel w);
  io_produced : produced w' = produced w;
  io_out : (length (out w') <= length (out w))%nat
}.

Lemma io_step_refl w : io_step w w.
Proof. by split. Qed.

Lemma io_step_trans w1 w2 w3 : io_step w1 w2 -> io_step w2 w3 -> io_step w1 w3.
Proof. intros [] []. split; try congruence. lia. Qed.

Lemma flush_loop_effect fuel w : exists r w', flush_loop fuel w = (r, w') /\ io_step w w'
  /\ (r = Ok tt \/ r = Exit 0 /\ peer_open (kernel w) = false).
Proof.
  revert w. induction fuel as [|fuel IH]; intros w;
    [exists (Ok tt), w; split_and!; auto using io_step_refl|].
  cbn [flush_loop]. case_bool_decide; [exists (Ok tt), w; split_and!; auto using io_step_refl|].
  rewrite M_bind_eq. unfold sys, sock_send.
  destruct (peer_open (kernel w)) eqn:Hp; cbn [negb].
  2: { exists (Exit 0), w. destruct w as [k]. destruct k. cbn. split_and!; eauto using io_step_refl. }
  destruct (room (kernel w) <=? 0) eqn:Hr.
  { exists (Ok tt), w. destruct w as [k]. destruct k. cbn. split_and!; eauto using io_step_refl. }
  set (n := Nat.min _ _). cbv beta iota. case_bool_decide as Hn.
  { exfalso. destruct (out w); [done|]. cbn [length] in n. lia. }
  rewrite M_bind_eq. unfold modify. cbv beta iota.
  match goal with |- context [flush_loop fuel ?w1] => destruct (IH w1) as (r & w' & -> & Hio & Hr') end.
  exists r, w'. split; [done|]. split.
  - eapply io_step_trans; [|done]. split; try done; unfold produced; cbn.
    + by rewrite <-app_assoc, take_drop.
    + rewrite length_drop. lia.
  - destruct Hr' as [|[-> E]]; [by left|]. cbn in E. congruence.
Qed.

Lemma flush_effect w : exists r w', _flush w = (r, w') /\ io_step w w'
  /\ (r = Ok tt \/ r = Exit 0 /\ peer_open (kernel w) = false).
Proof. apply flush_loop_effect. Qed.

(** A frame queued, nothing sent yet. *)
Definition queue_frame (f : Frame) (w : Zygote) : Zygote := set_out (out w ++ encode f) (record_frame f w).

Lemma send_effect t id p w : exists r w', _send t id p w = (r, w') /\ io_step (queue_frame (mkFrame t id p) w) w'
  /\ (r = Ok tt \/ r = Exit 0 /\ peer_open (kernel w) = false).
Proof.
  unfold _send. rewrite M_bind_eq. unfold modify. cbv beta iota.
  destruct (flush_effect (queue_frame (mkFrame t id p) w)) as (r & w' & E & Hio & Hr).
  unfold queue_frame, encode in *. cbn [f_type f_req f_payload] in *. eauto 6.
Qed.

(** ** Invariants *)

Definition mtype_of (s : stream) : byte := match s with StdOut => MSG_STDOUT | StdErr => MSG_STDERR end.
Definition fd_of (s : stream) (ri : ReqInfo) : Z := match s with StdOut => ri_out ri | StdErr => ri_err ri end.

(** The bytes of type [t] the frames [fs] carry, in order. *)
Definition payloads (t : byte) (fs : list Frame) : bytes :=
  concat (f_payload <$> filter (fun f => f_type f = t) fs).

(** A child that has not been waited for, with a proper status. *)
Definition waitable (st : pstate) : Prop :=
  match st with
  | Alive _ => True
  | Exiting st | Zombie st => is_wait_status st
  | Reaped _ => False
  end.

(** The bookkeeping of the worker agrees with the kernel: every entry of
    [fd_map] is an open read end of a child's stream and there are no other
    descriptors; every pipe belongs to one stream of one child; the process of
    a request in [reqs] has not been waited for, and its open descriptors are
    in [fd_map]. *)
Record inv (c : Core) : Prop := {
  inv_len : length (c_launched c) = length (c_procs c);
  inv_fd : forall fd id t, c_fd_map c !! fd = Some (id, t) -> exists i js pr s,
    c_launched c !! i = Some (id, js) /\ c_procs c !! i = Some pr /\ t = mtype_of s
    /\ c_table c !! fd = Some (RdEnd (pipe_of s pr));
  inv_table : forall fd d, c_table c !! fd = Some d -> d = Sock \/ is_Some (c_fd_map c !! fd);
  inv_inj : forall fd fd' p, c_table c !! fd = Some (RdEnd p) -> c_table c !! fd' = Some (RdEnd p) -> fd = fd';
  inv_pipe : forall i pr s, c_procs c !! i = Some pr -> exists pp, c_pipes c !! pipe_of s pr = Some pp
    /\ pp_worker pp = false /\ (pp_off pp <= length (pp_data pp))%nat
    /\ (pp_child pp = true -> is_alive (pr_state pr) = true);
  inv_own : forall i j pr pr' s s', c_procs c !! i = Some pr -> c_procs c !! j = Some pr' ->
    pipe_of s pr = pipe_of s' pr' -> i = j /\ s = s';
  inv_pids : forall pid i, c_pids c !! pid = Some i ->
    exists pr, c_procs c !! i = Some pr /\ waitable (pr_state pr);
  inv_pids_inj : forall pid pid' i, c_pids c !! pid = Some i -> c_pids c !! pid' = Some i -> pid = pid';
  inv_req : forall id ri, c_reqs c !! id = Some ri -> exists i js pr,
    c_launched c !! i = Some (id, js) /\ c_procs c !! i = Some pr
    /\ c_pids c !! ri_pid ri = Some i /\ (ri_open ri <> ∅ /\ ri_out ri <> ri_err ri)
    /\ forall fd, fd ∈ ri_open ri -> exists s, fd = fd_of s ri
         /\ c_fd_map c !! fd = Some (id, mtype_of s) /\ c_table c !! fd = Some (RdEnd (pipe_of s pr));
  inv_unborn : forall id, (forall i js, c_launched c !! i <> Some (id, js)) -> frames_of id (c_frames c) = []
}.

(** No child of request [id] but the [i]-th. *)
Definition only_launch (id : Z) (i : nat) (c : Core) : Prop :=
  (exists js, c_launched c !! i = Some (id, js))
  /\ forall j js, c_launched c !! j = Some (id, js) -> j = i.

Definition no_read_error : Prop := forall k fd, read_error k fd = false.

(** A stream that was closed had been read to its end. *)
Definition drained (pp : Pipe) : Prop :=
  no_read_error -> pp_off pp = length (pp_data pp) /\ pp_child pp = false.

Definition TERMINATED : bytes := str "process terminated".

(** The [MSG_DONE] frame of a request whose child's status was [st]. *)
Definition done_frame (id : Z) (st : Z) (f : Frame) : Prop :=
  exists code, waitstatus_to_exitcode st = Some code /\ f = mkFrame MSG_DONE id (i32_to_be_bytes code).

(** Request [id], run by the [i]-th child with the pipe [pp s] for stream [s],
    while it is in flight and once it is over. *)
Definition in_flight (id : Z) (i : nat) (pp : stream -> Pipe) (ri : ReqInfo) (c : Core) : Prop :=
  c_pids c !! ri_pid ri = Some i
  /\ (forall fd t, c_fd_map c !! fd = Some (id, t) -> fd ∈ ri_open ri)
  /\ Forall (fun f => f_type f <> MSG_DONE) (frames_of id (c_frames c))
  /\ forall s, payloads (mtype_of s) (frames_of id (c_frames c)) = take (pp_off (pp s)) (pp_data (pp s))
       /\ (fd_of s ri ∈ ri_open ri \/ drained (pp s)).

(** [extra] is what the worker adds to standard error when it kills a child. *)
Definition over (id : Z) (pr : Proc) (pp : stream -> Pipe) (c : Core) : Prop :=
  (forall fd t, c_fd_map c !! fd <> Some (id, t))
  /\ exists st f before extra, pr_state pr = Reaped st /\ done_frame id st f
     /\ frames_of id (c_frames c) = before ++ [f] /\ Forall (fun f => f_type f <> MSG_DONE) before
     /\ (extra = [] \/ extra = TERMINATED)
     /\ forall s, payloads (mtype_of s) (frames_of id (c_frames c))
                = take (pp_off (pp s)) (pp_data (pp s)) ++ (match s with StdOut => [] | StdErr => extra end)
          /\ drained (pp s).

Definition req_ok (id : Z) (c : Core) : Prop :=
  forall i pr pp, only_launch id i c -> c_procs c !! i = Some pr ->
  (forall s, c_pipes c !! pipe_of s pr = Some (pp s)) ->
  match c_reqs c !! id with
  | Some ri => in_flight id i pp ri c
  | None => over id pr pp c
  end.

Definition req_inv (c : Core) : Prop := forall id, req_ok id c.

(** ** Lemmas: the environment *)

(** What a child can do to a pipe and to its own state. *)
Definition pipe_evolves (p p' : Pipe) : Prop :=
  pp_off p' = pp_off p /\ pp_worker p' = pp_worker p
  /\ (pp_child p' = true -> pp_child p = true)
  /\ (pp_data p' = pp_data p \/ pp_child p = true /\ exists bs, pp_data p' = pp_data p ++ bs).

Definition proc_evolves (p p' : Proc) : Prop :=
  pr_out p' = pr_out p /\ pr_err p' = pr_err p
  /\ (is_alive (pr_state p) = false -> is_alive (pr_state p') = false)
  /\ (waitable (pr_state p) -> waitable (pr_state p'))
  /\ (forall st, pr_state p = Reaped st -> pr_state p' = Reaped st).

Record evolves (c c' : Core) : Prop := {
  ev_pipes : Forall2 pipe_evolves (c_pipes c) (c_pipes c');
  ev_procs : Forall2 proc_evolves (c_procs c) (c_procs c');
  ev_dead : forall i pr s pp, c_procs c' !! i = Some pr -> c_pipes c' !! pipe_of s pr = Some pp ->
    is_alive (pr_state pr) = false -> pp_child pp = false;
  ev_rest : c_table c' = c_table c /\ c_pids c' = c_pids c /\ c_reqs c' = c_reqs c
    /\ c_fd_map c' = c_fd_map c /\ c_launched c' = c_launched c /\ c_frames c' = c_frames c
}.

Lemma pipe_evolves_refl p : pipe_evolves p p.
Proof. split_and!; auto. Qed.

Lemma proc_evolves_refl p : proc_evolves p p.
Proof. by split_and!. Qed.

Lemma proc_evolves_pipe p p' s : proc_evolves p p' -> pipe_of s p' = pipe_of s p.
Proof. intros (E1 & E2 & _). by destruct s. Qed.

(** Backwards through an evolution: where a child or a pipe comes from. *)
Lemma evolves_proc c c' i pr : evolves c c' -> c_procs c' !! i = Some pr ->
  exists pr0, c_procs c !! i = Some pr0 /\ proc_evolves pr0 pr.
Proof. intros Hev Hi. by apply (Forall2_lookup_r _ _ _ _ _ (ev_procs _ _ Hev)) in Hi. Qed.

Lemma evolves_pipe c c' p pp : evolves c c' -> c_pipes c' !! p = Some pp ->
  exists pp0, c_pipes c !! p = Some pp0 /\ pipe_evolves pp0 pp.
Proof. intros Hev Hi. by apply (Forall2_lookup_r _ _ _ _ _ (ev_pipes _ _ Hev)) in Hi. Qed.

Lemma evolves_proc_fwd c c' i pr0 : evolves c c' -> c_procs c !! i = Some pr0 ->
  exists pr, c_procs c' !! i = Some pr /\ proc_evolves pr0 pr.
Proof. intros Hev Hi. by apply (Forall2_lookup_l _ _ _ _ _ (ev_procs _ _ Hev)) in Hi. Qed.

Lemma evolves_pipe_fwd c c' p pp0 : evolves c c' -> c_pipes c !! p = Some pp0 ->
  exists pp, c_pipes c' !! p = Some pp /\ pipe_evolves pp0 pp.
Proof. intros Hev Hi. by apply (Forall2_lookup_l _ _ _ _ _ (ev_pipes _ _ Hev)) in Hi. Qed.

Lemma pipe_evolves_off pp0 pp : pipe_evolves pp0 pp -> (pp_off pp0 <= length (pp_data pp0))%nat ->
  (pp_off pp <= length (pp_data pp))%nat /\ take (pp_off pp) (pp_data pp) = take (pp_off pp0) (pp_data pp0).
Proof.
  intros (-> & _ & _ & [->|[_ [bs ->]]]) Hle; [done|].
  rewrite length_app, take_app_le by lia. split; [lia|done].
Qed.

Lemma pipe_evolves_drained pp0 pp : pipe_evolves pp0 pp -> drained pp0 -> drained pp.
Proof.
  intros (Eo & _ & Ec & Ed) Hd Hn. destruct (Hd Hn) as [Hd1 Hd2].
  assert (pp_child pp = false) as -> by (destruct (pp_child pp); [by rewrite Ec in Hd2|done]).
  destruct Ed as [Ed|[? _]]; [|congruence]. by rewrite Eo, Ed.
Qed.

Lemma inv_evolves c c' : inv c -> evolves c c' -> inv c'.
Proof.
  intros [Hlen Hfd Htab Hinj Hpipe Hown Hpids Hpinj Hreq Hunb] Hev.
  pose proof (ev_rest _ _ Hev) as (Et & Ep & Er & Ef & El & Efr).
  pose proof (Forall2_length _ _ _ (ev_procs _ _ Hev)) as Hn.
  split; rewrite ?Et, ?Ep, ?Er, ?Ef, ?El, ?Efr; try done.
  - congruence.
  - intros fd id t Hm. destruct (Hfd _ _ _ Hm) as (i & js & pr0 & s & Hl & Hp & Ht & Htb).
    destruct (evolves_proc_fwd _ _ _ _ Hev Hp) as (pr & Hp' & Hpe).
    exists i, js, pr, s. by rewrite (proc_evolves_pipe _ _ s Hpe).
  - intros i pr s Hp. destruct (evolves_proc _ _ _ _ Hev Hp) as (pr0 & Hp0 & Hpe).
    destruct (Hpipe _ _ s Hp0) as (pp0 & Hpp0 & Hw & Hoff & Hc).
    destruct (evolves_pipe_fwd _ _ _ _ Hev Hpp0) as (pp & Hpp & Hppe).
    exists pp. rewrite (proc_evolves_pipe _ _ s Hpe). split; [done|].
    split; [by rewrite (proj1 (proj2 Hppe))|]. split; [by eapply pipe_evolves_off|].
    intros Hcc. destruct (is_alive (pr_state pr)) eqn:Ha; [done|].
    rewrite (ev_dead _ _ Hev i pr s pp) in Hcc; [done|done|by rewrite (proc_evolves_pipe _ _ s Hpe)|done].
  - intros i j pr pr' s s' Hi Hj.
    destruct (evolves_proc _ _ _ _ Hev Hi) as (pr0 & Hi0 & Hpe).
    destruct (evolves_proc _ _ _ _ Hev Hj) as (pr0' & Hj0 & Hpe').
    rewrite (proc_evolves_pipe _ _ s Hpe), (proc_evolves_pipe _ _ s' Hpe'). eauto.
  - intros pid i Hi. destruct (Hpids _ _ Hi) as (pr0 & Hp0 & Hw).
    destruct (evolves_proc_fwd _ _ _ _ Hev Hp0) as (pr & Hp & Hpe). exists pr. split; [done|].
    by apply Hpe.
  - intros id ri Hr. destruct (Hreq _ _ Hr) as (i & js & pr0 & Hl & Hp0 & Hpid & [? ?] & Hopen).
    destruct (evolves_proc_fwd _ _ _ _ Hev Hp0) as (pr & Hp & Hpe).
    exists i, js, pr. split_and!; try done. intros fd Hf. destruct (Hopen _ Hf) as (s & ? & ? & ?).
    exists s. by rewrite (proc_evolves_pipe _ _ s Hpe).
Qed.

Lemma stream_choice {A} (P : stream -> A -> Prop) : (forall s, exists x, P s x) -> exists f, forall s, P s (f s).
Proof.
  intros HP. destruct (HP StdOut) as [x Hx], (HP StdErr) as [y Hy].
  exists (fun s => match s with StdOut => x | StdErr => y end). by intros [].
Qed.

Lemma req_ok_evolves id c c' : inv c -> req_ok id c -> evolves c c' -> req_ok id c'.
Proof.
  intros Hinv Hri Hev i pr pp Hl Hp Hpp.
  pose proof (ev_rest _ _ Hev) as (Et & Ep & Er & Ef & El & Efr).
  destruct (evolves_proc _ _ _ _ Hev Hp) as (pr0 & Hp0 & Hpre).
  assert (exists pp0, forall s, c_pipes c !! pipe_of s pr0 = Some (pp0 s) /\ pipe_evolves (pp0 s) (pp s)) as [pp0 Hpp0].
  { apply (stream_choice (fun s x => c_pipes c !! pipe_of s pr0 = Some x /\ pipe_evolves x (pp s))).
    intros s. destruct (evolves_pipe _ _ _ _ Hev (Hpp s)) as (x & Hx & ?).
    rewrite (proc_evolves_pipe _ _ s Hpre) in Hx. eauto. }
  assert (forall s, take (pp_off (pp s)) (pp_data (pp s)) = take (pp_off (pp0 s)) (pp_data (pp0 s))) as Htake.
  { intros s. destruct (inv_pipe _ Hinv _ _ s Hp0) as (x & Hx & _ & Hle & _). destruct (Hpp0 s) as [Hs Hse].
    simplify_eq. by eapply pipe_evolves_off. }
  assert (only_launch id i c) as Hl0 by (unfold only_launch in *; by rewrite El in Hl).
  pose proof (Hri i pr0 pp0 Hl0 Hp0 (fun s => proj1 (Hpp0 s))) as Hst.
  assert (forall s, drained (pp0 s) -> drained (pp s)) as Hdr by (intros s; apply pipe_evolves_drained, Hpp0).
  unfold in_flight, over in *. rewrite Er, Efr, Ef, Ep. destruct (c_reqs c !! id) as [ri|].
  - destruct Hst as (? & ? & ? & Hs). split_and!; try done. intros s. rewrite Htake.
    destruct (Hs s) as [? [|]]; auto.
  - destruct Hst as (? & st & f & before & extra & Hst & ? & ? & ? & ? & Hs). split; [done|].
    exists st, f, before, extra. split; [by apply Hpre|]. split_and!; try done. intros s. rewrite Htake.
    destruct (Hs s); auto.
Qed.

(** Only a child that dies in the step needs its write ends checked. *)
Lemma mk_evolves c c' : inv c ->
  Forall2 pipe_evolves (c_pipes c) (c_pipes c') -> Forall2 proc_evolves (c_procs c) (c_procs c') ->
  (forall i pr0 pr s pp, c_procs c !! i = Some pr0 -> is_alive (pr_state pr0) = true ->
     c_procs c' !! i = Some pr -> is_alive (pr_state pr) = false ->
     c_pipes c' !! pipe_of s pr = Some pp -> pp_child pp = false) ->
  (c_table c' = c_table c /\ c_pids c' = c_pids c /\ c_reqs c' = c_reqs c
    /\ c_fd_map c' = c_fd_map c /\ c_launched c' = c_launched c /\ c_frames c' = c_frames c) ->
  evolves c c'.
Proof.
  intros Hinv Hpp Hpr Hnew Hrest. split; try done.
  intros i pr s pp Hp Hs Hd. pose proof Hp as Hp'.
  apply (Forall2_lookup_r _ _ _ _ _ Hpr) in Hp' as (pr0 & Hp0 & Hpe).
  destruct (is_alive (pr_state pr0)) eqn:Ha; [by eapply Hnew|].
  rewrite (proc_evolves_pipe _ _ s Hpe) in Hs.
  apply (Forall2_lookup_r _ _ _ _ _ Hpp) in Hs as (pp0 & Hpp0 & Hppe).
  destruct (inv_pipe _ Hinv _ _ s Hp0) as (? & Hx & _ & _ & Hc). simplify_eq.
  destruct (pp_child pp) eqn:E; [|done]. apply Hppe in E. rewrite Hc in Ha; done.
Qed.

(** The kernel's part of a core. *)
Definition with_kernel (k : Kernel) (c : Core) : Core :=
  mkCore (pipes k) (table k) (procs k) (pids k) (c_reqs c) (c_fd_map c) (c_launched c) (c_frames c).

Lemma pipe_evolves_close p : pipe_evolves p (set_child false p).
Proof. split_and!; cbn; auto; done. Qed.

Lemma pipe_evolves_trans p1 p2 p3 : pipe_evolves p1 p2 -> pipe_evolves p2 p3 -> pipe_evolves p1 p3.
Proof.
  intros (? & ? & Hc & Hd) (? & ? & Hc' & Hd'). split_and!; [congruence..|auto|].
  destruct Hd as [<-|[Ha [bs E]]]; destruct Hd' as [->|[Hb [bs' ->]]]; eauto.
  right. split; [done|]. exists (bs ++ bs'). by rewrite E, app_assoc.
Qed.

(** What a child's death does to its pipes. *)
Definition close_pipes (pr : Proc) (l : list Pipe) : list Pipe :=
  alter (set_child false) (pr_err pr) (alter (set_child false) (pr_out pr) l).

Lemma close_pipes_evolves pr l : Forall2 pipe_evolves l (close_pipes pr l).
Proof.
  unfold close_pipes. eapply Forall2_trans; [exact pipe_evolves_trans|..];
    apply Forall2_alter_r; eauto using pipe_evolves_refl, pipe_evolves_close.
Qed.

Lemma close_pipes_child pr l s pp : close_pipes pr l !! pipe_of s pr = Some pp -> pp_child pp = false.
Proof.
  unfold close_pipes. intros Hp. destruct s; cbn [pipe_of] in Hp.
  - destruct (decide (pr_err pr = pr_out pr)) as [E|E].
    + rewrite E, list_lookup_alter_eq in Hp. by apply fmap_Some in Hp as (x & _ & ->).
    + rewrite list_lookup_alter_ne, list_lookup_alter_eq in Hp by done. by apply fmap_Some in Hp as (x & _ & ->).
  - rewrite list_lookup_alter_eq in Hp. by apply fmap_Some in Hp as (x & _ & ->).
Qed.

(** A live child ends with status [st]. *)
Lemma proc_exit_evolves k c i pr st : inv (with_kernel k c) -> procs k !! i = Some pr ->
  is_alive (pr_state pr) = true -> is_wait_status st ->
  evolves (with_kernel k c) (with_kernel (proc_exit i st k) c).
Proof.
  intros Hinv Hi Ha Hst. unfold proc_exit. rewrite Hi. apply mk_evolves; [done|..].
  - apply (close_pipes_evolves pr).
  - cbn. apply Forall2_alter_r; [intros; apply proc_evolves_refl|]. intros pr0 E. assert (pr0 = pr) as -> by congruence.
    split_and!; cbn; try done; intros; destruct (pr_state pr); done.
  - intros j pr0 pr1 s pp Hj Ha0 Hj1 Hd. change (c_pipes _) with (close_pipes pr (pipes k)). cbn in Hj, Hj1.
    destruct (decide (i = j)) as [<-|Hne].
    + rewrite list_lookup_alter_eq, Hi in Hj1. simplify_eq/=. destruct s; [apply (close_pipes_child pr _ StdOut)|apply (close_pipes_child pr _ StdErr)].
    + rewrite list_lookup_alter_ne in Hj1 by done. congruence.
  - done.
Qed.

Lemma core_with_kernel w k : core (set_kernel k w) = with_kernel k (core w).
Proof. done. Qed.

Lemma env_step_evolves m w k : inv (core w) -> env_step m (kernel w) = Some k ->
  evolves (core w) (core (set_kernel k w)).
Proof.
  intros Hinv Hs. rewrite core_with_kernel. change (core w) with (with_kernel (kernel w) (core w)) in Hinv |- * at 1.
  unfold env_step in Hs. apply fmap_Some in Hs as (k1 & Hs & ->).
  change (with_kernel (tick k1) (core w)) with (with_kernel k1 (core w)).
  assert (forall k', pipes k' = pipes (kernel w) -> table k' = table (kernel w) -> procs k' = procs (kernel w) ->
    pids k' = pids (kernel w) -> evolves (with_kernel (kernel w) (core w)) (with_kernel k' (core w))) as Hsame.
  { intros k' E1 E2 E3 E4. apply mk_evolves; [done|..]; unfold with_kernel; cbn; rewrite ?E1, ?E2, ?E3, ?E4; try done.
    - apply Forall2_refl, pipe_evolves_refl.
    - apply Forall2_refl, proc_evolves_refl.
    - intros. simplify_eq. congruence. }
  destruct m as [i s bs|i s|i st|i|i|bs|n| |]; simpl in Hs.
  - destruct (procs _ !! i) as [pr|] eqn:Hi; [|done]. simpl in Hs.
    destruct (pipes _ !! pipe_of s pr) as [pp|] eqn:Hpp; [|done]. simpl in Hs.
    destruct (is_alive _ && pp_child pp) eqn:E; simplify_eq. apply andb_prop in E as [Ha Hc].
    apply mk_evolves; [done|..|done].
    + cbn. apply Forall2_alter_r; [intros; apply pipe_evolves_refl|]. intros pp0 E0. simplify_eq.
      split_and!; cbn; auto. right. eauto.
    + cbn. apply Forall2_refl, proc_evolves_refl.
    + cbn. intros. simplify_eq. congruence.
  - destruct (procs _ !! i) as [pr|] eqn:Hi; [|done]. simpl in Hs.
    destruct (is_alive _) eqn:Ha; simplify_eq. apply mk_evolves; [done|..|done].
    + cbn. apply Forall2_alter_r; eauto using pipe_evolves_refl, pipe_evolves_close.
    + cbn. apply Forall2_refl, proc_evolves_refl.
    + cbn. intros. simplify_eq. congruence.
  - destruct (procs _ !! i) as [pr|] eqn:Hi; [|done]. simpl in Hs.
    destruct (is_alive _ && _) eqn:E; simplify_eq. apply andb_prop in E as [Ha Hst%bool_decide_eq_true].
    by eapply proc_exit_evolves.
  - destruct (procs _ !! i) as [pr|] eqn:Hi; [|done]. simpl in Hs.
    case_bool_decide as Hk; simplify_eq. eapply proc_exit_evolves; [done..| |].
    + by rewrite Hk.
    + left. by vm_compute.
  - destruct (procs _ !! i) as [pr|] eqn:Hi; [|done]. simpl in Hs.
    destruct (pr_state pr) as [| st| |] eqn:Hst; simplify_eq. apply mk_evolves; [done|..|done].
    + cbn. apply Forall2_refl, pipe_evolves_refl.
    + cbn. apply Forall2_alter_r; [intros; apply proc_evolves_refl|]. intros pr0 E. assert (pr0 = pr) as -> by congruence.
      split_and!; cbn; rewrite ?Hst; done.
    + cbn. intros j pr0 pr1 s pp Hj Ha0 Hj1 Hd.
      destruct (decide (i = j)) as [<-|Hne]; [rewrite Hi in Hj; simplify_eq; by rewrite Hst in Ha0|].
      rewrite list_lookup_alter_ne in Hj1 by done. congruence.
  - destruct (_ && _); simplify_eq. by apply Hsame.
  - simplify_eq. by apply Hsame.
  - simplify_eq. by apply Hsame.
  - simplify_eq. by apply Hsame.
Qed.

(** ** Lemmas: starting a request *)

(** The socket and the buffers are as they were. *)
Record quiet (w w' : Zygote) : Prop := {
  q_ctrl : ctrl w' = ctrl w;
  q_recv : recv_buf w' = recv_buf w;
  q_out : out w' = out w;
  q_wire : wire (kernel w') = wire (kernel w);
  q_inbox : inbox (kernel w') = inbox (kernel w);
  q_peer : peer_open (kernel w') = peer_open (kernel w);
  q_room : room (kernel w') = room (kernel w)
}.

(** A request that could not be started leaves pipes nobody holds. *)
Definition abandoned (l : list Pipe) (c : Core) : Core :=
  mkCore (c_pipes c ++ l) (c_table c) (c_procs c) (c_pids c) (c_reqs c) (c_fd_map c) (c_launched c) (c_frames c).

Definition fresh_pipe : Pipe := mkPipe [] 0 false true.

(** A request that was started. *)
Definition begun (id : Z) (js : Json) (pid out_r err_r : Z) (c : Core) : Core :=
  let n := length (c_pipes c) in
  mkCore (c_pipes c ++ [fresh_pipe; fresh_pipe])
    (<[err_r := RdEnd (S n)]> (<[out_r := RdEnd n]> (c_table c)))
    (c_procs c ++ [mkProc n (S n) (Alive false)])
    (<[pid := length (c_procs c)]> (c_pids c))
    (<[id := mkReq pid out_r err_r {[out_r; err_r]}]> (c_reqs c))
    (<[err_r := (id, MSG_STDERR)]> (<[out_r := (id, MSG_STDOUT)]> (c_fd_map c)))
    (c_launched c ++ [(id, js)]) (c_frames c).

Lemma alter_last {A} (f : A -> A) (l : list A) x y : alter f (length l) (l ++ [x; y]) = l ++ [f x; y].
Proof. pose proof (alter_app_r f l [x; y] 0) as E. by rewrite Nat.add_0_r in E. Qed.

Lemma alter_last_S {A} (f : A -> A) (l : list A) x y : alter f (S (length l)) (l ++ [x; y]) = l ++ [x; f y].
Proof. pose proof (alter_app_r f l [x; y] 1) as E. by rewrite Nat.add_1_r in E. Qed.

(** Equality of maps built by insertions and deletions at distinct keys. *)
Ltac table_eq :=
  apply map_eq; intros ?; rewrite ?lookup_delete, ?lookup_insert, ?lookup_delete;
  repeat (case_decide; subst); congruence.

Lemma sys_bind {A B} (f : Kernel -> A * Kernel) (g : A -> M B) w x k :
  f (kernel w) = (x, k) -> (sys f ≫= g) w = g x (set_kernel k w).
Proof. intros E. rewrite M_bind_eq. unfold sys. by rewrite E. Qed.

Lemma modify_bind {B} f (g : unit -> M B) w : (modify f ≫= g) w = g tt (f w).
Proof. done. Qed.

(** [os.close] on the kernel alone. *)
Definition closed (fd : Z) (k : Kernel) : Kernel := snd (os_close fd k).

(** Everything but the table and the pipes is as it was; so are the pipes
    below [n]. *)
Record grown (n : nat) (k k' : Kernel) : Prop := {
  g_pipes : take n (pipes k') = take n (pipes k);
  g_procs : procs k' = procs k;
  g_pids : pids k' = pids k;
  g_sock : wire k' = wire k /\ inbox k' = inbox k /\ peer_open k' = peer_open k /\ room k' = room k
}.

Lemma grown_trans n k1 k2 k3 : grown n k1 k2 -> grown n k2 k3 -> grown n k1 k3.
Proof. intros [? ? ? (? & ? & ? & ?)] [? ? ? (? & ? & ? & ?)]. split; [congruence..|]. split_and!; congruence. Qed.

Lemma closed_table fd k : table (closed fd k) = delete fd (table k).
Proof.
  unfold closed, os_close. destruct (table k !! fd) as [d|] eqn:E; [by destruct d|].
  cbn. by rewrite delete_id.
Qed.

Lemma closed_grown n fd k : (forall p, table k !! fd = Some (WrEnd p) -> (n <= p)%nat) -> grown n k (closed fd k).
Proof.
  intros Hp. unfold closed, os_close. destruct (table k !! fd) as [[p|p|]|]; try by split.
  split; [|done..]. cbn. apply list_eq. intros i. destruct (decide (i < n)%nat) as [Hi|Hi].
  - rewrite !lookup_take_lt by done. apply list_lookup_alter_ne. specialize (Hp p eq_refl). lia.
  - by rewrite !lookup_take_ge by lia.
Qed.

Lemma os_close_closed fd k : exists b, os_close fd k = (b, closed fd k).
Proof. unfold closed. destruct (os_close fd k) as [b k']. by exists b. Qed.

Lemma close_all_eq fds w : Forall (fun fd => 0 <= fd \/ fd = -1) fds ->
  close_all fds w =
    (Ok tt, set_kernel (foldl (fun k fd => closed fd k) (kernel w) (filter (fun fd => 0 <= fd) fds)) w).
Proof.
  intros Hf. revert w. induction Hf as [|fd fds Hfd _ IH]; intros w; [by destruct w|].
  cbn [close_all]. rewrite M_bind_eq. destruct Hfd as [Hfd| ->].
  - rewrite filter_cons_True by done. rewrite (proj2 (Z.leb_le _ _) Hfd).
    destruct (os_close_closed fd (kernel w)) as [b E]. erewrite sys_bind by done. unfold mret, M_ret. by rewrite IH.
  - rewrite filter_cons_False by lia. apply IH.
Qed.

(** Descriptors opened since [k] and closed again leave [k]'s table. *)
Lemma closed_list_spec n k fds : Forall (fun fd => forall p, table k !! fd = Some (WrEnd p) -> (n <= p)%nat) fds ->
  let k' := foldl (fun k fd => closed fd k) k fds in
  grown n k k' /\ forall fd, table k' !! fd = if bool_decide (fd ∈ fds) then None else table k !! fd.
Proof.
  revert k. induction fds as [|fd fds IH]; intros k Hf; cbn zeta.
  - split; [by split|]. intros fd. by case_bool_decide; [set_solver|].
  - apply Forall_cons in Hf as [Hfd Hf]. cbn [foldl]. destruct (IH (closed fd k)) as [Hg Ht].
    { eapply Forall_impl; [done|]. intros fd' Hp p Hd. rewrite closed_table in Hd.
      apply lookup_delete_Some in Hd as [_ ?]. auto. }
    split; [eapply grown_trans; [by apply closed_grown|done]|]. intros fd'. rewrite Ht, closed_table.
    destruct (decide (fd = fd')) as [<-|Hne].
    + rewrite lookup_delete_eq. rewrite (bool_decide_true (fd ∈ fd :: fds)) by set_solver. by case_bool_decide.
    + rewrite lookup_delete_ne by done. repeat case_bool_decide; set_solver.
Qed.

(** Closing what was opened since [w] restores it, up to orphan pipes. *)
Lemma abandon_effect w k fds :
  (forall fd, fd ∉ fds -> table k !! fd = table (kernel w) !! fd) ->
  grown (length (pipes (kernel w))) (kernel w) k ->
  Forall (fun fd => table (kernel w) !! fd = None
    /\ forall p, table k !! fd = Some (WrEnd p) -> (length (pipes (kernel w)) <= p)%nat) fds ->
  exists l, quiet w (set_kernel (foldl (fun k fd => closed fd k) k fds) w)
    /\ core (set_kernel (foldl (fun k fd => closed fd k) k fds) w) = abandoned l (core w).
Proof.
  intros Ht Hg Hf. set (n := length _) in *.
  destruct (closed_list_spec n k fds) as [Hg' Ht']; [eapply Forall_impl; [done|]; by intros ? [_ ?]|].
  set (k' := foldl _ _ _) in *. exists (drop n (pipes k')).
  pose proof (grown_trans _ _ _ _ Hg Hg') as [Hp Hpr Hpi (? & ? & ? & ?)].
  split; [by split|]. unfold core, abandoned. cbn. rewrite Hpr, Hpi. f_equal.
  - rewrite <-(firstn_all (pipes (kernel w))). fold n. rewrite <-Hp. symmetry. apply take_drop.
  - apply map_eq. intros fd. rewrite Ht'. case_bool_decide as Hin.
    + rewrite Forall_forall in Hf. by destruct (Hf _ Hin).
    + by apply Ht.
Qed.

Lemma os_pipe_effect k :
  os_pipe k = (None, k) \/
  exists r w k', os_pipe k = (Some (r, w), k') /\ 0 <= r /\ 0 <= w /\ r <> w
    /\ table k !! r = None /\ table k !! w = None
    /\ table k' = <[w := WrEnd (length (pipes k))]> (<[r := RdEnd (length (pipes k))]> (table k))
    /\ pipes k' = pipes k ++ [mkPipe [] 0 true false]
    /\ forall n, (n <= length (pipes k))%nat -> grown n k k'.
Proof.
  unfold os_pipe. destruct (pipe_fds k) as [[r w]|] eqn:E; [right|by left].
  destruct (pipe_fds_fresh _ _ _ E) as (? & ? & ? & ? & ?).
  eexists r, w, _. split_and!; try done. intros n Hn. split; try done. cbn. by rewrite take_app_le.
Qed.

(** The [except] clause: what was opened since [w] is closed again. *)
Lemma cleanup_effect w k a b c d : Forall (fun fd => 0 <= fd \/ fd = -1) [a; b; c; d] ->
  (forall fd, fd ∉ [a; b; c; d] -> table k !! fd = table (kernel w) !! fd) ->
  grown (length (pipes (kernel w))) (kernel w) k ->
  Forall (fun fd => 0 <= fd -> table (kernel w) !! fd = None
    /\ forall p, table k !! fd = Some (WrEnd p) -> (length (pipes (kernel w)) <= p)%nat) [a; b; c; d] ->
  (table k !! (-1) = table (kernel w) !! (-1)) ->
  exists w' l, (@cleanup unit a b c d) (set_kernel k w) = (Raise, w') /\ quiet w w' /\ core w' = abandoned l (core w).
Proof.
  intros Hfds Ht Hg Hf Hm1. unfold cleanup. rewrite M_bind_eq, close_all_eq by done.
  cbn [kernel set_kernel]. set (fds := filter _ _).
  destruct (abandon_effect w k fds) as (l & Hq & Hc); [|done| |].
  - intros fd Hfd. unfold fds in Hfd. rewrite list_elem_of_filter in Hfd.
    destruct (decide (fd ∈ [a; b; c; d])) as [Hin|Hin]; [|by apply Ht].
    rewrite Forall_forall in Hfds. destruct (Hfds _ Hin) as [| ->]; [tauto|done].
  - apply Forall_forall. intros fd [Hge Hin]%list_elem_of_filter. rewrite Forall_forall in Hf. by apply Hf.
  - eexists _, l. split; [reflexivity|]. by destruct w.
Qed.

(** The start of a request, from the two pipes on. *)
Lemma run_fork_effect w k1 k2 or ow er ew n :
  n = length (pipes (kernel w)) ->
  table k1 = <[ow := WrEnd n]> (<[or := RdEnd n]> (table (kernel w))) ->
  table k2 = <[ew := WrEnd (S n)]> (<[er := RdEnd (S n)]> (table k1)) ->
  pipes k2 = pipes (kernel w) ++ [mkPipe [] 0 true false; mkPipe [] 0 true false] ->
  grown n (kernel w) k2 -> NoDup [or; ow; er; ew] ->
  Forall (fun fd => 0 <= fd /\ table (kernel w) !! fd = None) [or; ow; er; ew] ->
  forall pid, fork_pid k2 = Some pid ->
  exists k3 k4 k5, os_fork ow ew k2 = (Some pid, k3) /\ os_close ow k3 = (true, k4) /\ os_close ew k4 = (true, k5)
    /\ pids (kernel w) !! pid = None /\ quiet w (set_kernel k5 w)
    /\ pipes k5 = pipes (kernel w) ++ [fresh_pipe; fresh_pipe]
    /\ table k5 = <[er := RdEnd (S n)]> (<[or := RdEnd n]> (table (kernel w)))
    /\ procs k5 = procs (kernel w) ++ [mkProc n (S n) (Alive false)]
    /\ pids k5 = <[pid := length (procs (kernel w))]> (pids (kernel w)).
Proof.
  intros Hn Ht1 Ht2 Hp [_ Hpr Hpi (? & ? & ? & ?)] Hnd Hfr pid Hpid.
  assert (or <> ow /\ or <> er /\ or <> ew /\ ow <> er /\ ow <> ew /\ er <> ew) as (? & ? & ? & ? & ? & ?).
  { rewrite !NoDup_cons in Hnd. split_and!; intros ->; set_solver. }
  rewrite !Forall_cons in Hfr. destruct Hfr as ([_ Hor] & [_ How] & [_ Her] & [_ Hew] & _).
  assert (table k2 !! ow = Some (WrEnd n) /\ table k2 !! ew = Some (WrEnd (S n))) as [Lo Le].
  { rewrite Ht2, Ht1. split; [|by rewrite lookup_insert_eq].
    rewrite !lookup_insert_ne by done. by rewrite lookup_insert_eq. }
  subst n.
  eexists _, _, _. split; [unfold os_fork; by rewrite Hpid, Lo, Le|].
  split; [unfold os_close; cbn; by rewrite Lo|].
  split; [unfold os_close; cbn; rewrite lookup_delete_ne by done; by rewrite Le|].
  split; [rewrite <-Hpi; by apply fork_pid_fresh|]. split; [by split|]. cbn.
  rewrite Hp, Hpr, Hpi, alter_last, alter_last_S, alter_last, alter_last_S. split; [done|]. split; [|done].
  rewrite Ht2, Ht1. table_eq.
Qed.

Lemma handle_run_effect id payload w :
  (exists w' l, _handle_run id payload w = (Raise, w') /\ quiet w w' /\ core w' = abandoned l (core w))
  \/ (exists w' js pid out_r err_r, _handle_run id payload w = (Ok tt, w') /\ quiet w w'
      /\ loads payload = Some js /\ out_r <> err_r
      /\ table (kernel w) !! out_r = None /\ table (kernel w) !! err_r = None /\ pids (kernel w) !! pid = None
      /\ core w' = begun id js pid out_r err_r (core w)).
Proof.
  unfold _handle_run. destruct (loads payload) as [js|].
  2: { left. exists w, []. split_and!; [done|done|]. unfold abandoned. cbn. rewrite app_nil_r. by destruct w. }
  destruct (os_pipe_effect (kernel w)) as [E1|(or & ow & k1 & E1 & Hor0 & How0 & Hne1 & Hor & How & Ht1 & Hp1 & Hg1)];
    rewrite (sys_bind _ _ _ _ _ E1).
  { left. apply cleanup_effect; try done; repeat constructor; try lia; done. }
  destruct (os_pipe_effect k1) as [E2|(er & ew & k2 & E2 & Her0 & Hew0 & Hne2 & Her & Hew & Ht2 & Hp2 & Hg2)];
    rewrite (sys_bind _ _ (set_kernel k1 w) _ _ E2).
  { left. change (set_kernel k1 (set_kernel k1 w)) with (set_kernel k1 w). apply cleanup_effect.
    - repeat constructor; lia.
    - intros fd Hfd. rewrite Ht1. rewrite !lookup_insert_ne by set_solver. done.
    - by apply Hg1.
    - assert (forall p fd, table k1 !! fd = Some (WrEnd p) -> fd ∈ [or; ow] -> (length (pipes (kernel w)) <= p)%nat) as Hw.
      { intros p fd. rewrite Ht1, !lookup_insert. repeat case_decide; set_solver by lia. }
      repeat constructor; try lia; eauto using list_elem_of_here, list_elem_of_further.
    - rewrite Ht1, !lookup_insert_ne by lia. done. }
  rewrite Ht1 in Her, Hew. rewrite !lookup_insert in Her, Hew. repeat case_decide; try done.
  assert (pipes k2 = pipes (kernel w) ++ [mkPipe [] 0 true false; mkPipe [] 0 true false]) as Hp
    by (by rewrite Hp2, Hp1, <-app_assoc).
  assert (length (pipes k1) = S (length (pipes (kernel w)))) as Hl1 by (rewrite Hp1, length_app; cbn; lia).
  assert (grown (length (pipes (kernel w))) (kernel w) k2) as Hg
    by (eapply grown_trans; [by apply Hg1|apply Hg2; lia]).
  rewrite Hl1 in Ht2. destruct (fork_pid k2) as [pid|] eqn:Epid.
  - right. destruct (run_fork_effect w k1 k2 or ow er ew _ eq_refl Ht1 Ht2 Hp Hg) with (pid := pid)
      as (k3 & k4 & k5 & F1 & F2 & F3 & Hpid & Hq & P1 & P2 & P3 & P4); [|by repeat constructor|done|].
    { repeat constructor; set_solver. }
    rewrite (sys_bind _ _ (set_kernel k2 _) _ _ F1), (sys_bind _ _ (set_kernel k3 _) _ _ F2), (sys_bind _ _ (set_kernel k4 _) _ _ F3).
    eexists _, js, pid, or, er. split; [reflexivity|]. split_and!; try done; try (by destruct Hq).
    unfold core, begun. cbn. by rewrite P1, P2, P3, P4.
  - left. rewrite (sys_bind _ _ (set_kernel k2 _) None k2) by (unfold os_fork; cbn; by rewrite Epid).
    change (set_kernel k2 (set_kernel k2 (set_kernel k1 w))) with (set_kernel k2 w). apply cleanup_effect; try done.
    + repeat constructor; lia.
    + intros fd Hfd. rewrite Ht2, Ht1. rewrite !lookup_insert_ne by set_solver. done.
    + assert (forall p fd, table k2 !! fd = Some (WrEnd p) -> fd ∈ [or; ow; er; ew] -> (length (pipes (kernel w)) <= p)%nat) as Hw.
      { intros p fd. rewrite Ht2, Ht1, !lookup_insert. repeat case_decide; set_solver by lia. }
      repeat constructor; try done; eauto using list_elem_of_here, list_elem_of_further.
    + rewrite Ht2, Ht1, !lookup_insert_ne by lia. done.
Qed.

(** ** Lemmas: the invariants, when a request starts *)

Lemma pipe_lookup_app c l i pr s pp : inv c -> c_procs c !! i = Some pr ->
  (c_pipes c ++ l) !! pipe_of s pr = Some pp -> c_pipes c !! pipe_of s pr = Some pp.
Proof.
  intros Hinv Hp Hl. destruct (inv_pipe _ Hinv _ _ s Hp) as (pp0 & Hpp & _).
  rewrite (lookup_app_l_Some _ _ _ _ Hpp) in Hl. by simplify_eq.
Qed.

Lemma inv_abandoned l c : inv c -> inv (abandoned l c).
Proof.
  intros [Hlen Hfd Htab Hinj Hpipe Hown Hpids Hpinj Hreq Hunb]. split; try done.
  intros i pr s Hp. destruct (Hpipe i pr s Hp) as (pp & Hpp & ?). exists pp.
  split; [by apply lookup_app_l_Some|done].
Qed.

Lemma req_inv_abandoned l c : inv c -> req_inv c -> req_inv (abandoned l c).
Proof.
  intros Hinv Hri id i pr pp Hl Hp Hpp. apply (Hri id i pr pp); [done..|].
  intros s. by apply (pipe_lookup_app c l i pr s).
Qed.

Section Begun.
Context (id : Z) (js : Json) (pid or er : Z) (c : Core).
Hypothesis Hinv : inv c.
Hypothesis Hne : or <> er.
Hypothesis Hor : c_table c !! or = None.
Hypothesis Her : c_table c !! er = None.
Hypothesis Hpid : c_pids c !! pid = None.

Lemma fresh_fd_map fd : c_table c !! fd = None -> c_fd_map c !! fd = None.
Proof.
  intros Ht. destruct (c_fd_map c !! fd) as [[id' t]|] eqn:E; [|done].
  apply (inv_fd _ Hinv) in E as (? & ? & ? & ? & _ & _ & _ & E). congruence.
Qed.

Lemma begun_fd_map fd x : c_fd_map (begun id js pid or er c) !! fd = Some x ->
  (fd = er /\ x = (id, MSG_STDERR)) \/ (fd = or /\ x = (id, MSG_STDOUT)) \/ c_fd_map c !! fd = Some x.
Proof. cbn. rewrite !lookup_insert. repeat case_decide; naive_solver. Qed.

Lemma begun_old_fd fd x : c_fd_map c !! fd = Some x -> fd <> or /\ fd <> er.
Proof. intros Hx. split; intros ->; by rewrite fresh_fd_map in Hx. Qed.

Lemma begun_procs i pr : c_procs (begun id js pid or er c) !! i = Some pr ->
  c_procs c !! i = Some pr
  \/ i = length (c_procs c) /\ pr = mkProc (length (c_pipes c)) (S (length (c_pipes c))) (Alive false).
Proof.
  cbn. intros [?|[Hge E]]%lookup_app_Some; [by left|right]. apply list_lookup_singleton_Some in E as [E ->].
  split; [lia|done].
Qed.

Lemma old_pipe_lt i pr s : c_procs c !! i = Some pr -> (pipe_of s pr < length (c_pipes c))%nat.
Proof. intros Hp. destruct (inv_pipe _ Hinv _ _ s Hp) as (pp & E & _). by eapply lookup_lt_Some. Qed.

Lemma old_rdend_lt fd p : c_table c !! fd = Some (RdEnd p) -> (p < length (c_pipes c))%nat.
Proof.
  intros Ht. destruct (inv_table _ Hinv _ _ Ht) as [|[[id' t] Hm]]; [done|].
  destruct (inv_fd _ Hinv _ _ _ Hm) as (i & js' & pr & s & _ & Hp & _ & Ht'). simplify_eq. by eapply old_pipe_lt.
Qed.

Lemma inv_begun : inv (begun id js pid or er c).
Proof.
  pose proof (inv_len _ Hinv) as Hlen. split.
  - cbn. rewrite !length_app, Hlen. done.
  - intros fd id' t Hm. apply begun_fd_map in Hm as [[-> [= -> ->]]|[[-> [= -> ->]]|Hm]].
    + eexists (length (c_launched c)), js, _, StdErr. cbn. rewrite list_lookup_middle by done.
      rewrite Hlen, list_lookup_middle by done. rewrite lookup_insert_eq. done.
    + eexists (length (c_launched c)), js, _, StdOut. cbn. rewrite list_lookup_middle by done.
      rewrite Hlen, list_lookup_middle by done. rewrite lookup_insert_ne, lookup_insert_eq by done. done.
    + destruct (begun_old_fd _ _ Hm). destruct (inv_fd _ Hinv _ _ _ Hm) as (i & js' & pr & s & Hl & Hp & ? & Ht).
      exists i, js', pr, s. cbn. rewrite !lookup_insert_ne by done.
      split_and!; try done; by apply lookup_app_l_Some.
  - intros fd d. cbn. rewrite !lookup_insert. repeat case_decide; subst; eauto.
    intros Ht. by apply (inv_table _ Hinv) in Ht.
  - intros fd fd' p. cbn. rewrite !lookup_insert. intros Ha Hb.
    repeat case_decide; simplify_eq; try done; try lia;
      repeat match goal with E : c_table c !! _ = Some (RdEnd _) |- _ => pose proof (old_rdend_lt _ _ E); revert E end;
      try lia. intros. by eapply (inv_inj _ Hinv).
  - intros i pr s [Hp|[-> ->]]%begun_procs.
    + destruct (inv_pipe _ Hinv _ _ s Hp) as (pp & Hpp & ?). exists pp. split; [by apply lookup_app_l_Some|done].
    + exists fresh_pipe. split; [|by split_and!; cbn; lia].
      destruct s; cbn; [by rewrite list_lookup_middle|].
      rewrite lookup_app_r by lia. by replace (S (length (c_pipes c)) - length (c_pipes c))%nat with 1%nat by lia.
  - intros i j pr pr' s s' [Hi|[-> ->]]%begun_procs [Hj|[-> ->]]%begun_procs E.
    + by eapply (inv_own _ Hinv).
    + pose proof (old_pipe_lt _ _ s Hi). destruct s'; cbn in E; lia.
    + pose proof (old_pipe_lt _ _ s' Hj). destruct s; cbn in E; lia.
    + split; [done|]. destruct s, s'; cbn in E; done || lia.
  - intros pid' i. cbn. rewrite lookup_insert. case_decide; intros Hi.
    + simplify_eq. eexists. rewrite list_lookup_middle by done. done.
    + destruct (inv_pids _ Hinv _ _ Hi) as (pr & ? & ?). exists pr. split; [by apply lookup_app_l_Some|done].
  - assert (forall p i, c_pids c !! p = Some i -> (i < length (c_procs c))%nat) as Hlt.
    { intros p i Hi. destruct (inv_pids _ Hinv _ _ Hi) as (pr & E & _). by eapply lookup_lt_Some. }
    intros p1 p2 i. cbn. rewrite !lookup_insert. do 2 case_decide; subst; try done; intros Ha Hb.
    + apply Hlt in Hb. injection Ha. lia.
    + apply Hlt in Ha. injection Hb. lia.
    + by eapply (inv_pids_inj _ Hinv).
  - intros id' ri. cbn. rewrite lookup_insert. case_decide; intros Hr.
    + simplify_eq. eexists (length (c_launched c)), js, _. cbn. rewrite list_lookup_middle by done.
      rewrite Hlen, list_lookup_middle, lookup_insert_eq by done. split_and!; try done; [set_solver|].
      intros fd [->%elem_of_singleton| ->%elem_of_singleton]%elem_of_union; [exists StdOut|exists StdErr]; cbn;
        rewrite !lookup_insert; repeat case_decide; done.
    + destruct (inv_req _ Hinv _ _ Hr) as (i & js' & pr & Hl & Hp & Hpi & [? ?] & Hfds).
      exists i, js', pr. split_and!; try done; try (by apply lookup_app_l_Some).
      * rewrite lookup_insert_ne by congruence. done.
      * intros fd Hfd. destruct (Hfds fd Hfd) as (s & ? & Hm & ?). destruct (begun_old_fd _ _ Hm).
        exists s. by rewrite !lookup_insert_ne.
  - intros id' Hno. apply (inv_unborn _ Hinv). intros i js' Hl. apply (Hno i js'). cbn. by apply lookup_app_l_Some.
Qed.

Lemma req_inv_begun : req_inv c -> req_inv (begun id js pid or er c).
Proof.
  intros Hri id' i pr pp [[js' Hl] Huniq] Hp Hpp. pose proof (inv_len _ Hinv) as Hlen.
  apply lookup_app_Some in Hl as [Hl|[Hge Hl]].
  - assert (id' <> id) as Hid.
    { intros ->. pose proof (lookup_lt_Some _ _ _ Hl). specialize (Huniq (length (c_launched c)) js).
      cbn in Huniq. rewrite list_lookup_middle in Huniq by done. specialize (Huniq eq_refl). lia. }
    apply begun_procs in Hp as [Hp|[-> _]]; [|apply lookup_lt_Some in Hl; lia].
    assert (forall s, c_pipes c !! pipe_of s pr = Some (pp s)) as Hpp0 by (intros s; specialize (Hpp s); by apply (pipe_lookup_app c _ i) in Hpp).
    assert (only_launch id' i c) as Hl0.
    { split; [eauto|]. intros j js'' Hj. apply (Huniq j js''). cbn. by apply lookup_app_l_Some. }
    pose proof (Hri id' i pr pp Hl0 Hp Hpp0) as Hst.
    assert (forall fd t, c_fd_map (begun id js pid or er c) !! fd = Some (id', t) -> c_fd_map c !! fd = Some (id', t)) as Hfm.
    { intros fd t [[_ ?]|[[_ ?]|?]]%begun_fd_map; [congruence..|done]. }
    cbn [c_reqs begun]. rewrite lookup_insert_ne by done.
    destruct (c_reqs c !! id') as [ri|].
    + destruct Hst as (Hpi & Hm & ?). split; [cbn; rewrite lookup_insert_ne by congruence; done|].
      split; [intros fd t ?%Hfm; eauto|done].
    + destruct Hst as (Hm & ?). split; [intros fd t ?%Hfm; by eapply Hm|done].
  - apply list_lookup_singleton_Some in Hl as [Ei [= <- <-]].
    assert (i = length (c_procs c)) as -> by lia.
    apply begun_procs in Hp as [Hp%lookup_lt_Some|[_ ->]]; [lia|].
    assert (forall j js', c_launched c !! j <> Some (id, js')) as Hnew.
    { intros j js' Hj. pose proof (lookup_lt_Some _ _ _ Hj). specialize (Huniq j js').
      cbn in Huniq. rewrite (lookup_app_l_Some _ _ _ _ Hj) in Huniq. specialize (Huniq eq_refl). lia. }
    cbn [c_reqs begun]. rewrite lookup_insert_eq. unfold in_flight. cbn [c_frames begun].
    rewrite (inv_unborn _ Hinv) by done. split; [apply lookup_insert_eq|]. split_and!; [|done|].
    + intros fd t [[-> _]|[[-> _]|Hm]]%begun_fd_map; cbn; [set_solver..|].
      destruct (inv_fd _ Hinv _ _ _ Hm) as (j & js' & pr' & s & Hl & _). by destruct (Hnew j js').
    + assert (forall s, pp s = fresh_pipe) as Hfp.
      { intros s. specialize (Hpp s). destruct s; cbn in Hpp; [rewrite list_lookup_middle in Hpp by done; congruence|].
        rewrite lookup_app_r in Hpp by lia.
        replace (S (length (c_pipes c)) - length (c_pipes c))%nat with 1%nat in Hpp by lia. by simplify_eq/=. }
      intros s. rewrite Hfp. split; [done|]. left. destruct s; cbn; set_solver.
Qed.

End Begun.

(** ** Lemmas: one request among others *)

#[local] Arguments frames_of : simpl never.
#[local] Arguments payloads : simpl never.

Lemma frames_of_snoc id fs f :
  frames_of id (fs ++ [f]) = frames_of id fs ++ (if decide (f_req f = id) then [f] else []).
Proof.
  unfold frames_of. by rewrite filter_app.
Qed.

Lemma frames_of_app id fs fs' : frames_of id (fs ++ fs') = frames_of id fs ++ frames_of id fs'.
Proof. apply filter_app. Qed.

Lemma frames_of_own id fs : Forall (fun f => f_req f = id) fs -> frames_of id fs = fs.
Proof.
  unfold frames_of. induction 1 as [|f fs Hf _ IH]; [done|]. by rewrite filter_cons_True, IH.
Qed.

Lemma frames_of_foreign id id' fs : id' <> id -> Forall (fun f => f_req f = id) fs -> frames_of id' fs = [].
Proof.
  unfold frames_of. induction 2 as [|f fs Hf _ IH]; [done|]. by rewrite filter_cons_False by congruence.
Qed.

Lemma payloads_app t fs fs' : payloads t (fs ++ fs') = payloads t fs ++ payloads t fs'.
Proof. unfold payloads. by rewrite filter_app, fmap_app, concat_app. Qed.

Lemma payloads_one t f : payloads t [f] = if decide (f_type f = t) then f_payload f else [].
Proof.
  unfold payloads. destruct (decide (f_type f = t)).
  - rewrite filter_cons_True by done. cbn. apply app_nil_r.
  - by rewrite filter_cons_False.
Qed.

(** A step that does not touch request [id] keeps what is known of it. *)
Lemma req_ok_untouched id c c' :
  c_launched c' = c_launched c -> frames_of id (c_frames c') = frames_of id (c_frames c) ->
  c_reqs c' !! id = c_reqs c !! id ->
  (forall fd t, c_fd_map c' !! fd = Some (id, t) -> c_fd_map c !! fd = Some (id, t)) ->
  (forall i js, c_launched c !! i = Some (id, js) ->
     (forall pid, c_pids c !! pid = Some i -> c_pids c' !! pid = Some i)
     /\ (forall pr, c_procs c' !! i = Some pr -> c_procs c !! i = Some pr
         /\ forall s, c_pipes c' !! pipe_of s pr = c_pipes c !! pipe_of s pr)) ->
  req_ok id c -> req_ok id c'.
Proof.
  intros El Ef Er Hm Hown Hri i pr pp Hl Hp Hpp.
  assert (only_launch id i c) as Hl' by (unfold only_launch in *; by rewrite <-El).
  destruct (proj1 Hl') as [js Hi]. destruct (Hown i js Hi) as [Hpids Hpr]. destruct (Hpr _ Hp) as [Hp0 Hpp0].
  pose proof (Hri i pr pp Hl' Hp0 (fun s => eq_trans (eq_sym (Hpp0 s)) (Hpp s))) as Hst.
  unfold in_flight, over in *. rewrite Ef, Er. destruct (c_reqs c !! id) as [ri|].
  - destruct Hst as (Hpid & Hmap & ?). split; [by apply Hpids|]. split; [|done]. intros fd t ?%Hm. eauto.
  - destruct Hst as (Hmap & ?). split; [|done]. intros fd t ?%Hm. by eapply Hmap.
Qed.

Lemma mtype_of_inj s s' : mtype_of s = mtype_of s' -> s = s'.
Proof. by destruct s, s'. Qed.

Lemma mtype_of_done s : mtype_of s <> MSG_DONE.
Proof. by destruct s. Qed.

(** An open descriptor of a request is the one of its stream. *)
Lemma open_fd_of c id ri fd s : inv c -> c_reqs c !! id = Some ri -> fd ∈ ri_open ri ->
  c_fd_map c !! fd = Some (id, mtype_of s) -> fd = fd_of s ri.
Proof.
  intros Hinv Hr Hop Hm. destruct (inv_req _ Hinv _ _ Hr) as (i & js & pr & _ & _ & _ & _ & Hfds).
  destruct (Hfds _ Hop) as (s' & -> & Hm' & _). assert (mtype_of s = mtype_of s') as E by congruence.
  by apply mtype_of_inj in E as ->.
Qed.

(** ** Lemmas: forwarding output *)

Definition forwarded (p n : nat) (f : Frame) (c : Core) : Core :=
  mkCore (alter (set_off n) p (c_pipes c)) (c_table c) (c_procs c) (c_pids c) (c_reqs c) (c_fd_map c)
    (c_launched c) (c_frames c ++ [f]).

Section Forward.
Context (c : Core) (fd id : Z) (t : byte) (p : nat) (pp : Pipe) (data : bytes).
Hypothesis Hinv : inv c.
Hypothesis Hfd : c_fd_map c !! fd = Some (id, t).
Hypothesis Htab : c_table c !! fd = Some (RdEnd p).
Hypothesis Hpp : c_pipes c !! p = Some pp.
Hypothesis Hdata : data `prefix_of` unread pp.

Let n := (pp_off pp + length data)%nat.
Let c' := forwarded p n (mkFrame t id data) c.

Lemma forward_off : (n <= length (pp_data pp))%nat /\ take n (pp_data pp) = take (pp_off pp) (pp_data pp) ++ data.
Proof.
  destruct Hdata as [rest E]. unfold unread in E. pose proof (f_equal length E) as El.
  rewrite length_drop, length_app in El.
  destruct (inv_fd _ Hinv _ _ _ Hfd) as (i & js & pr & s & Hl & Hp & _ & Ht).
  destruct (inv_pipe _ Hinv _ _ s Hp) as (pp0 & Hpp0 & _ & Hle & _). simplify_eq. split; [lia|].
  rewrite <-(take_drop (pp_off pp) (pp_data pp)) at 1. rewrite E, take_app_ge by (rewrite length_take; lia).
  rewrite length_take_le by lia. f_equal. rewrite take_app_le by lia. apply take_ge. lia.
Qed.

Lemma inv_forwarded : inv c'.
Proof.
  split; try by destruct Hinv.
  - intros i pr s Hp. destruct (inv_pipe _ Hinv _ _ s Hp) as (pp0 & Hpp0 & ?). cbn.
    destruct (decide (p = pipe_of s pr)) as [E|Hne].
    + rewrite <-E in Hpp0 |- *. assert (pp0 = pp) as -> by congruence.
      rewrite list_lookup_alter_eq, Hpp. eexists. split; [done|]. cbn. pose proof forward_off. tauto.
    + rewrite list_lookup_alter_ne by done. eauto.
  - intros id' Hno. unfold c', forwarded. cbn [c_frames]. rewrite frames_of_snoc, (inv_unborn _ Hinv) by done. cbn.
    destruct (decide (id = id')) as [<-|]; [|done].
    destruct (inv_fd _ Hinv _ _ _ Hfd) as (i & js & pr & s & Hl & _). by destruct (Hno i js).
Qed.

Lemma req_inv_forwarded : req_inv c -> req_inv c'.
Proof.
  intros Hri id'. pose proof forward_off as [_ Htake].
  destruct (inv_fd _ Hinv _ _ _ Hfd) as (i0 & js0 & pr0 & s0 & Hl0 & Hp0 & -> & Ht). simplify_eq.
  destruct (decide (id' = id)) as [->|Hid].
  - intros i pr pp' Hl Hp Hpp'. assert (i0 = i) as -> by (by eapply Hl). cbn in Hp. simplify_eq.
    assert (exists pps, forall s, c_pipes c !! pipe_of s pr0 = Some (pps s)) as [pps Hpps].
    { apply (stream_choice (fun s x => c_pipes c !! pipe_of s pr0 = Some x)).
      intros s. destruct (inv_pipe _ Hinv _ _ s Hp0) as (x & ? & _). eauto. }
    pose proof (Hri id i pr0 pps Hl Hp0 Hpps) as Hst. unfold c', forwarded, in_flight, over in *.
    cbn [c_reqs c_frames c_fd_map c_pids c_pipes] in *.
    destruct (c_reqs c !! id) as [ri|] eqn:Hr; [|by destruct (proj1 Hst fd (mtype_of s0))].
    destruct Hst as (Hpid & Hm & Hd & Hs). rewrite frames_of_snoc, decide_True by done. split_and!; [done..| |].
    + apply Forall_app_2; [done|]. repeat constructor. apply mtype_of_done.
    + intros s. rewrite payloads_app, payloads_one. cbn [f_type f_payload]. destruct (Hs s) as [Hpay Hor].
      specialize (Hpp' s). specialize (Hpps s). destruct (decide (s = s0)) as [->|Hne].
      * rewrite list_lookup_alter_eq, Hpp in Hpp'. rewrite decide_True by done. simplify_eq/=.
        rewrite Hpay, <-Hpp'. split; [by rewrite <-Htake|]. left.
        erewrite <-(open_fd_of c id ri fd s0); eauto.
      * rewrite list_lookup_alter_ne in Hpp'.
        2: { intros E. by destruct (inv_own _ Hinv _ _ _ _ s0 s Hp0 Hp0 E). }
        rewrite decide_False by (intros E; by apply mtype_of_inj in E). rewrite app_nil_r.
        assert (pp' s = pps s) as -> by congruence. auto.
  - apply (req_ok_untouched id' c c'); try done.
    + unfold c', forwarded. cbn [c_frames]. rewrite frames_of_snoc, decide_False, app_nil_r by done. done.
    + intros i js Hi. split; [done|]. intros pr Hp. split; [done|]. intros s.
      unfold c', forwarded. cbn. apply list_lookup_alter_ne. intros E.
      destruct (inv_own _ Hinv _ _ _ _ s0 s Hp0 Hp E) as [-> _]. congruence.
Qed.

End Forward.

(** ** Lemmas: closing a stream *)

(** The descriptor is gone; the table of requests is now [rq]. *)
Definition unhooked (fd : Z) (rq : gmap Z ReqInfo) (c : Core) : Core :=
  mkCore (c_pipes c) (delete fd (c_table c)) (c_procs c) (c_pids c) rq (delete fd (c_fd_map c))
    (c_launched c) (c_frames c).

Definition narrow (fd : Z) (ri : ReqInfo) : ReqInfo :=
  mkReq (ri_pid ri) (ri_out ri) (ri_err ri) (ri_open ri ∖ {[fd]}).

Section Unhook.
Context (c : Core) (fd id : Z) (t : byte) (rq : gmap Z ReqInfo).
Hypothesis Hinv : inv c.
Hypothesis Hfd : c_fd_map c !! fd = Some (id, t).
Hypothesis Hother : forall id', id' <> id -> rq !! id' = c_reqs c !! id'.

Lemma inv_unhooked :
  (forall ri', rq !! id = Some ri' -> ri_open ri' <> ∅ /\ exists ri, c_reqs c !! id = Some ri /\ ri' = narrow fd ri) ->
  inv (unhooked fd rq c).
Proof.
  intros Hid. split; try by destruct Hinv.
  - cbn. intros fd' id' t' [Hne Hm]%lookup_delete_Some.
    destruct (inv_fd _ Hinv _ _ _ Hm) as (i & js & pr & s & ?). exists i, js, pr, s.
    by rewrite lookup_delete_ne.
  - cbn. intros fd' d [Hne Ht]%lookup_delete_Some. rewrite lookup_delete_ne by done. by apply (inv_table _ Hinv) in Ht.
  - cbn. intros fd1 fd2 p [_ H1]%lookup_delete_Some [_ H2]%lookup_delete_Some. by eapply (inv_inj _ Hinv).
  - intros id' ri' Hr. cbn in Hr |- *. destruct (decide (id' = id)) as [->|Hne].
    + destruct (Hid _ Hr) as (Hop & ri & Hri & ->).
      destruct (inv_req _ Hinv _ _ Hri) as (i & js & pr & ? & ? & ? & [_ ?] & Hfds). exists i, js, pr.
      split_and!; try done. intros fd' [Hin Hni]%elem_of_difference. rewrite !lookup_delete_ne by set_solver.
      destruct (Hfds _ Hin) as (s & ?). by exists s.
    + rewrite Hother in Hr by done. destruct (inv_req _ Hinv _ _ Hr) as (i & js & pr & ? & ? & ? & [? ?] & Hfds).
      exists i, js, pr. split_and!; try done. intros fd' Hin. destruct (Hfds _ Hin) as (s & ? & Hm & ?). exists s.
      assert (fd <> fd') by congruence. by rewrite !lookup_delete_ne.
Qed.

Lemma req_ok_unhooked_other id' : id' <> id -> req_ok id' c -> req_ok id' (unhooked fd rq c).
Proof.
  intros Hne. apply req_ok_untouched; try done; [by apply Hother|].
  cbn. by intros fd' t' [_ ?]%lookup_delete_Some.
Qed.

(** The other stream of the request is still open. *)
Lemma req_ok_narrowed ri : req_ok id c -> c_reqs c !! id = Some ri -> rq !! id = Some (narrow fd ri) ->
  (forall p pp, c_table c !! fd = Some (RdEnd p) -> c_pipes c !! p = Some pp -> drained pp) ->
  req_ok id (unhooked fd rq c).
Proof.
  intros Hok Hr Hrq Hdr i pr pp Hl Hp Hpp. pose proof (Hok i pr pp Hl Hp Hpp) as Hst. cbn. rewrite Hr in Hst. rewrite Hrq.
  destruct Hst as (Hpid & Hm & Hd & Hs). split_and!; try done.
  - cbn. intros fd' t' [Hne Hm']%lookup_delete_Some. pose proof (Hm _ _ Hm'). set_solver.
  - intros s. destruct (Hs s) as [Hpay Hor]. split; [done|]. cbn.
    destruct (inv_fd _ Hinv _ _ _ Hfd) as (i0 & js0 & pr0 & s0 & Hl0 & Hp0 & Et & Ht).
    assert (i0 = i) as -> by (by eapply Hl). cbn in Hp. simplify_eq.
    destruct (decide (s = s0)) as [->|Hne]; [right; by eapply Hdr|].
    destruct Hor as [Hin|]; [left|by right]. destruct (inv_req _ Hinv _ _ Hr) as (? & ? & ? & _ & _ & _ & [_ Hneq] & _).
    assert (fd_of s (narrow fd ri) = fd_of s ri) as -> by (by destruct s).
    apply elem_of_difference. split; [done|]. intros E%elem_of_singleton. pose proof (Hm _ _ Hfd) as Hin'.
    apply (open_fd_of c id ri fd s0) in Hin'; [|done..]. destruct s, s0; cbn in *; congruence.
Qed.

End Unhook.
(** ** Lemmas: the end of a request *)

Definition said (fs : list Frame) (c : Core) : Core :=
  mkCore (c_pipes c) (c_table c) (c_procs c) (c_pids c) (c_reqs c) (c_fd_map c) (c_launched c) (c_frames c ++ fs).

Definition reaped (pid : Z) (i : nat) (st : Z) (c : Core) : Core :=
  mkCore (c_pipes c) (c_table c) (alter (set_state (Reaped st)) i (c_procs c)) (delete pid (c_pids c))
    (c_reqs c) (c_fd_map c) (c_launched c) (c_frames c).

Lemma inv_said id i js fs c : inv c -> c_launched c !! i = Some (id, js) -> Forall (fun f => f_req f = id) fs ->
  inv (said fs c).
Proof.
  intros Hinv Hl Hf. split; try by destruct Hinv. intros id' Hno. cbn.
  rewrite frames_of_app, (inv_unborn _ Hinv), (frames_of_foreign id) by (done || intros ->; by eapply Hno). done.
Qed.

Lemma pipe_of_set_state s st pr : pipe_of s (set_state st pr) = pipe_of s pr.
Proof. by destruct s. Qed.

Lemma inv_reaped pid i pr st c : inv c -> c_pids c !! pid = Some i -> c_procs c !! i = Some pr ->
  is_alive (pr_state pr) = false -> map_Forall (fun _ ri => ri_pid ri <> pid) (c_reqs c) -> inv (reaped pid i st c).
Proof.
  intros Hinv Hpid Hp Ha Hrq.
  assert (forall j q, alter (set_state (Reaped st)) i (c_procs c) !! j = Some q ->
    exists q0, c_procs c !! j = Some q0 /\ (forall s, pipe_of s q = pipe_of s q0)
      /\ (i <> j -> q = q0) /\ (is_alive (pr_state q0) = true -> is_alive (pr_state q) = true)) as Hback.
  { intros j q. rewrite list_lookup_alter. case_decide; subst.
    - rewrite Hp. intros [= <-]. exists pr. split; [done|]. split; [by intros []|]. split; [done|]. congruence.
    - intros. by exists q. }
  assert (forall j q0, c_procs c !! j = Some q0 -> exists q, alter (set_state (Reaped st)) i (c_procs c) !! j = Some q
    /\ (forall s, pipe_of s q = pipe_of s q0) /\ (i <> j -> q = q0)) as Hfwd.
  { intros j q0 Hj. rewrite list_lookup_alter. case_decide; subst.
    - rewrite Hj. eexists. split; [done|]. split; [by intros []|done].
    - by exists q0. }
  split; cbn; try by destruct Hinv.
  - rewrite length_alter. apply Hinv.
  - intros fd id t Hm. destruct (inv_fd _ Hinv _ _ _ Hm) as (j & js & q0 & s & ? & Hj & ? & ?).
    destruct (Hfwd _ _ Hj) as (q & ? & Hs & _). exists j, js, q, s. by rewrite Hs.
  - intros j q s Hj. destruct (Hback _ _ Hj) as (q0 & Hj0 & Hs & _ & Hal). rewrite Hs.
    destruct (inv_pipe _ Hinv _ _ s Hj0) as (pp & ? & ? & ? & ?). exists pp. split_and!; auto.
  - intros j1 j2 q1 q2 s1 s2 H1 H2. destruct (Hback _ _ H1) as (? & ? & -> & _). destruct (Hback _ _ H2) as (? & ? & -> & _).
    by eapply (inv_own _ Hinv).
  - intros pid' j [Hne Hj]%lookup_delete_Some. destruct (inv_pids _ Hinv _ _ Hj) as (q & Hq & Hw).
    assert (i <> j) by (intros ->; by rewrite (inv_pids_inj _ Hinv _ _ _ Hpid Hj) in Hne).
    exists q. by rewrite list_lookup_alter_ne.
  - intros p1 p2 j [_ ?]%lookup_delete_Some [_ ?]%lookup_delete_Some. by eapply (inv_pids_inj _ Hinv).
  - intros id ri Hr. destruct (inv_req _ Hinv _ _ Hr) as (j & js & q0 & ? & Hj & ? & [? ?] & Hfds).
    destruct (Hfwd _ _ Hj) as (q & ? & Hs & _). exists j, js, q. pose proof (Hrq _ _ Hr). split_and!; try done.
    + by rewrite lookup_delete_ne.
    + intros fd Hin. destruct (Hfds _ Hin) as (s & ?). exists s. by rewrite Hs.
Qed.

Section Finish.
Context (c c2 : Core) (fd id pid : Z) (s0 : stream) (i : nat) (js : Json) (ri : ReqInfo) (pr2 : Proc).
Context (st code : Z) (extra : list Frame).
Hypothesis Hinv : inv c.
Hypothesis Hfd : c_fd_map c !! fd = Some (id, mtype_of s0).
Hypothesis Hr : c_reqs c !! id = Some ri.
Hypothesis Hlast : ri_open ri ∖ {[fd]} = ∅.
Hypothesis Hl : c_launched c !! i = Some (id, js).
Hypothesis Hpid : c_pids c !! ri_pid ri = Some i.
Let c1 := unhooked fd (delete id (c_reqs c)) c.
Let c3 := reaped (ri_pid ri) i st (said (extra ++ [mkFrame MSG_DONE id (i32_to_be_bytes code)]) c2).
Hypothesis Hev : evolves c1 c2.
Hypothesis Hp2 : c_procs c2 !! i = Some pr2.
Hypothesis Hdead : is_alive (pr_state pr2) = false.
Hypothesis Hcode : waitstatus_to_exitcode st = Some code.
Hypothesis Hextra : extra = [] \/ extra = [mkFrame MSG_STDERR id TERMINATED].

Lemma last_open fd' : fd' ∈ ri_open ri -> fd' = fd.
Proof.
  intros Hin. destruct (decide (fd' = fd)) as [|Hne]; [done|]. exfalso.
  apply (not_elem_of_empty (C := gset Z) fd'). rewrite <-Hlast. apply elem_of_difference. by rewrite elem_of_singleton.
Qed.

Lemma inv_finish_unhooked : inv c1.
Proof.
  apply (inv_unhooked c fd id (mtype_of s0)); [done..| |].
  - intros id' Hne. by rewrite lookup_delete_ne.
  - intros ri'. by rewrite lookup_delete_eq.
Qed.

Lemma finish_frames_own : Forall (fun f => f_req f = id) (extra ++ [mkFrame MSG_DONE id (i32_to_be_bytes code)]).
Proof. destruct Hextra as [-> | ->]; repeat constructor. Qed.

Lemma inv_finished : inv c3.
Proof.
  pose proof inv_finish_unhooked as Hinv1. pose proof (inv_evolves _ _ Hinv1 Hev) as Hinv2.
  destruct (ev_rest _ _ Hev) as (Et & Ep & Er & Ef & El & Efr).
  apply (inv_reaped _ _ pr2); cbn; try done.
  - apply (inv_said id i js); [done|by rewrite El|apply finish_frames_own].
  - by rewrite Ep.
  - rewrite Er. unfold c1. cbn. intros id' ri' [Hne Hr']%lookup_delete_Some E.
    destruct (inv_req _ Hinv _ _ Hr') as (j & js' & pr' & Hj & _ & Hpid' & _). rewrite E in Hpid'. congruence.
Qed.

Lemma req_ok_finished_other id' : id' <> id -> req_ok id' c -> req_ok id' c3.
Proof.
  intros Hne Hok. pose proof inv_finish_unhooked as Hinv1. pose proof (inv_evolves _ _ Hinv1 Hev) as Hinv2.
  assert (req_ok id' c2) as Hok2.
  { eapply (req_ok_evolves id' c1); [done| |done]. eapply req_ok_unhooked_other; [done..| |done|done].
    intros id'' ?. by rewrite lookup_delete_ne. }
  destruct (ev_rest _ _ Hev) as (Et & Ep & Er & Ef & El & Efr).
  revert Hok2. apply req_ok_untouched; try done.
  - cbn. by rewrite frames_of_app, (frames_of_foreign id _ _ Hne finish_frames_own), app_nil_r.
  - intros j js' Hj. assert (i <> j) by (intros ->; rewrite El in Hj; cbn in Hj; congruence). cbn. split.
    + intros pid' Hp'. rewrite lookup_delete_ne; [done|]. intros <-. rewrite Ep in Hp'. cbn in Hp'. congruence.
    + intros q. rewrite list_lookup_alter_ne by done. done.
Qed.

Lemma req_ok_finished :
  (forall p pp, c_table c !! fd = Some (RdEnd p) -> c_pipes c !! p = Some pp -> drained pp) ->
  req_ok id c -> req_ok id c3.
Proof.
  intros Hdr Hok j pr pp Hl3 Hp Hpp. destruct (ev_rest _ _ Hev) as (Et & Ep & Er & Ef & El & Efr).
  assert (only_launch id j c) as Hl0 by (unfold only_launch, c3 in *; cbn in Hl3; by rewrite El in Hl3).
  assert (i = j) as <- by (by eapply Hl0). cbn in Hp. rewrite list_lookup_alter_eq, Hp2 in Hp. simplify_eq/=.
  destruct (evolves_proc _ _ _ _ Hev Hp2) as (pr0 & Hp0 & Hpre). cbn in Hp0.
  assert (exists pp0, forall s, c_pipes c !! pipe_of s pr0 = Some (pp0 s) /\ pipe_evolves (pp0 s) (pp s)) as [pp0 Hpp0].
  { apply (stream_choice (fun s x => c_pipes c !! pipe_of s pr0 = Some x /\ pipe_evolves x (pp s))).
    intros s. specialize (Hpp s). rewrite pipe_of_set_state in Hpp.
    destruct (evolves_pipe _ _ _ _ Hev Hpp) as (x & Hx & ?).
    rewrite (proc_evolves_pipe _ _ s Hpre) in Hx. eauto. }
  pose proof (Hok i pr0 pp0 Hl0 Hp0 (fun s => proj1 (Hpp0 s))) as Hst. rewrite Hr in Hst.
  destruct Hst as (_ & Hm & Hd & Hs). rewrite Er. cbn. rewrite lookup_delete_eq. split.
  - unfold c3. cbn. rewrite Ef. cbn. intros fd' t [Hne Hm']%lookup_delete_Some.
    by apply Hne, eq_sym, last_open, (Hm _ t).
  - eexists st, _, (frames_of id (c_frames c) ++ extra), (match extra with [] => [] | _ => TERMINATED end).
    cbn. rewrite Efr. cbn. rewrite frames_of_app, (frames_of_own _ _ finish_frames_own), app_assoc.
    split_and!; [done|by eexists|done| | |].
    + apply Forall_app_2; [done|]. destruct Hextra as [-> | ->]; repeat constructor. done.
    + destruct Hextra as [-> | ->]; auto.
    + intros s. destruct (Hs s) as [Hpay Hor]. destruct (Hpp0 s) as [Hx Hxe].
      destruct (inv_pipe _ Hinv _ _ s Hp0) as (? & Hy & _ & Hle & _). simplify_eq.
      rewrite (proj2 (pipe_evolves_off _ _ Hxe Hle)), !payloads_app, Hpay, !payloads_one. split.
      * rewrite <-!app_assoc. f_equal. destruct Hextra as [-> | ->], s; by rewrite ?payloads_one.
      * eapply pipe_evolves_drained; [done|]. destruct (decide (s = s0)) as [->|Hne].
        -- destruct (inv_fd _ Hinv _ _ _ Hfd) as (j' & js' & q & s' & Hlj & Hq & Es%mtype_of_inj & Ht). subst s'.
           assert (j' = i) as -> by (by eapply Hl0). simplify_eq. eauto.
        -- destruct Hor as [Hin|]; [|done]. exfalso.
           destruct (inv_req _ Hinv _ _ Hr) as (? & ? & ? & _ & _ & _ & [_ Hneq] & _).
           pose proof (Hm _ _ Hfd) as Hin'. apply (open_fd_of c id ri fd s0) in Hin'; [|done..].
           pose proof (last_open _ Hin). destruct s, s0; cbn in *; congruence.
Qed.

End Finish.

(** ** Lemmas: the work left for a request *)

(** The reads a stream still needs: its data, then its end. *)
Definition load (pp : Pipe) : Z := 1 + (len (unread pp) + 65535) / 65536.

Definition stream_work (id : Z) (i : nat) (s : stream) (c : Core) : Z :=
  match c_reqs c !! id, c_procs c !! i with
  | Some ri, Some pr =>
    if decide (fd_of s ri ∈ ri_open ri) then from_option load 1 (c_pipes c !! pipe_of s pr) else 0
  | _, _ => 0
  end.

Definition work (id : Z) (i : nat) (c : Core) : Z := stream_work id i StdOut c + stream_work id i StdErr c.

Definition dead (i : nat) (c : Core) : Prop := exists pr, c_procs c !! i = Some pr /\ is_alive (pr_state pr) = false.

(** Request [id], with its [i]-th child, looks the same from [c] and [c']. *)
Record same_face (id : Z) (i : nat) (c c' : Core) : Prop := {
  sf_req : c_reqs c' !! id = c_reqs c !! id;
  sf_proc : forall pr, c_procs c !! i = Some pr -> exists pr', c_procs c' !! i = Some pr'
    /\ (forall s, pipe_of s pr' = pipe_of s pr) /\ (is_alive (pr_state pr) = false -> is_alive (pr_state pr') = false);
  sf_pipe : forall pr s pp, c_procs c !! i = Some pr -> c_pipes c !! pipe_of s pr = Some pp ->
    exists pp', c_pipes c' !! pipe_of s pr = Some pp' /\ unread pp' = unread pp
}.

Lemma load_pos pp : 1 <= load pp.
Proof. unfold load. pose proof (Z.div_pos (len (unread pp) + 65535) 65536). pose proof (len_nonneg (unread pp)). lia. Qed.

Lemma stream_work_nonneg id i s c : 0 <= stream_work id i s c.
Proof.
  unfold stream_work. destruct (c_reqs c !! id), (c_procs c !! i); try lia. case_decide; [|lia].
  destruct (c_pipes c !! _) as [pp|]; cbn; [|lia]. pose proof (load_pos pp). lia.
Qed.

Lemma same_face_dead id i c c' : same_face id i c c' -> dead i c -> dead i c'.
Proof. intros Hf (pr & Hp & Ha). destruct (sf_proc _ _ _ _ Hf _ Hp) as (pr' & ? & _ & ?). exists pr'. auto. Qed.

Lemma same_face_work id i c c' : inv c -> dead i c -> same_face id i c c' ->
  forall s, stream_work id i s c' = stream_work id i s c.
Proof.
  intros Hinv (pr & Hp & _) Hf s. unfold stream_work. rewrite (sf_req _ _ _ _ Hf), Hp.
  destruct (sf_proc _ _ _ _ Hf _ Hp) as (pr' & -> & Epipe & _). rewrite Epipe.
  destruct (c_reqs c !! id); [|done]. case_decide; [|done].
  destruct (inv_pipe _ Hinv _ _ s Hp) as (pp & Hpp & _). rewrite Hpp.
  destruct (sf_pipe _ _ _ _ Hf _ s _ Hp Hpp) as (pp' & -> & E). unfold load. cbn. by rewrite E.
Qed.

Lemma same_face_trans id i c1 c2 c3 : same_face id i c1 c2 -> same_face id i c2 c3 -> same_face id i c1 c3.
Proof.
  intros [Hr Hp Hpp] [Hr' Hp' Hpp']. split.
  - congruence.
  - intros pr Hq1. destruct (Hp _ Hq1) as (pr2 & Hq2 & E2 & ?). destruct (Hp' _ Hq2) as (pr3 & Hq3 & E3 & ?).
    exists pr3. split; [done|]. split; [intros s; by rewrite E3, E2|auto].
  - intros pr s pp Hq1 Hs. destruct (Hp _ Hq1) as (pr2 & Hq2 & E2 & _). destruct (Hpp _ _ _ Hq1 Hs) as (pp2 & Hs2 & U2).
    destruct (Hpp' pr2 s pp2 Hq2) as (pp3 & Hs3 & U3); [by rewrite E2|]. exists pp3. rewrite <-E2. split; [done|congruence].
Qed.

Lemma same_face_evolves id i c c' : inv c -> dead i c -> evolves c c' -> same_face id i c c'.
Proof.
  intros Hinv (pr0 & Hp0 & Ha0) Hev. destruct (ev_rest _ _ Hev) as (_ & _ & Er & _). split; [by rewrite Er|..].
  - intros pr Hp. destruct (evolves_proc_fwd _ _ _ _ Hev Hp) as (pr' & ? & Hpe). exists pr'.
    split; [done|]. split; [intros s; by apply proc_evolves_pipe|]. apply Hpe.
  - intros pr s pp Hp Hpp. assert (pr = pr0) as -> by congruence.
    destruct (inv_pipe _ Hinv _ _ s Hp) as (x & Hx & _ & _ & Hc). assert (x = pp) as -> by congruence.
    destruct (evolves_pipe_fwd _ _ _ _ Hev Hpp) as (pp' & ? & (Eo & _ & _ & Ed)). exists pp'. split; [done|].
    unfold unread. rewrite Eo. destruct Ed as [->|[Hcc _]]; [done|]. by rewrite Hc in Ha0.
Qed.

(** Reading moves the offset of one stream of one request. *)
Lemma forwarded_other id' i' p n f c : (forall pr s, c_procs c !! i' = Some pr -> pipe_of s pr <> p) ->
  same_face id' i' c (forwarded p n f c).
Proof.
  intros Hp. split; [done|eauto|]. intros pr s pp Hpr Hpp. exists pp. split; [|done].
  cbn. rewrite list_lookup_alter_ne; [done|]. by apply not_eq_sym, (Hp pr s).
Qed.

Lemma load_read pp data : (pp_off pp <= length (pp_data pp))%nat -> unread pp <> [] ->
  data = take (Z.to_nat 65536) (unread pp) -> load (set_off (pp_off pp + length data) pp) < load pp.
Proof.
  intros Hle Hne ->. unfold load, unread in *. cbn. rewrite length_take, <-drop_drop.
  set (u := drop (pp_off pp) (pp_data pp)) in *. destruct u as [|b l]; [done|]. clear Hne Hle.
  unfold len. rewrite length_drop. cbn [length]. apply Z.add_lt_mono_l.
  assert (Z.of_nat (S (length l) - Nat.min (Z.to_nat 65536) (S (length l))) <= Z.max 0 (Z.of_nat (S (length l)) - 65536)) as Hb by lia.
  eapply Z.le_lt_trans; [apply (Z.div_le_mono _ (Z.max 0 (Z.of_nat (S (length l)) - 65536) + 65535)); lia|].
  Z.div_mod_to_equations. lia.
Qed.

(** A step on descriptor [fd] of request [id]: no request with a dead child has
    more work than before, and [id] has less. *)
Definition shrinks (id : Z) (c c' : Core) : Prop :=
  forall id' i', only_launch id' i' c -> dead i' c ->
    dead i' c' /\ work id' i' c' <= work id' i' c /\ (id' = id -> work id' i' c' < work id' i' c).

(** The entry and the stream of a known descriptor. *)
Lemma known_stream c fd id t i : inv c -> req_inv c -> c_fd_map c !! fd = Some (id, t) -> only_launch id i c ->
  exists ri pr s0, c_reqs c !! id = Some ri /\ c_procs c !! i = Some pr /\ t = mtype_of s0
    /\ c_table c !! fd = Some (RdEnd (pipe_of s0 pr)) /\ fd = fd_of s0 ri /\ fd ∈ ri_open ri
    /\ ri_out ri <> ri_err ri /\ 1 <= stream_work id i s0 c.
Proof.
  intros Hinv Hri Hfd Hl. destruct (inv_fd _ Hinv _ _ _ Hfd) as (i0 & js & pr & s0 & Hl0 & Hp & -> & Ht).
  assert (i0 = i) as -> by (by eapply Hl).
  assert (exists pps, forall s, c_pipes c !! pipe_of s pr = Some (pps s)) as [pps Hpps].
  { apply (stream_choice (fun s x => c_pipes c !! pipe_of s pr = Some x)).
    intros s. destruct (inv_pipe _ Hinv _ _ s Hp) as (x & ? & _). eauto. }
  pose proof (Hri id i pr pps Hl Hp Hpps) as Hst.
  destruct (c_reqs c !! id) as [ri|] eqn:Hr; [|by destruct (proj1 Hst fd (mtype_of s0))].
  destruct Hst as (_ & Hm & _). pose proof (Hm _ _ Hfd) as Hin.
  pose proof (open_fd_of c id ri fd s0 Hinv Hr Hin Hfd) as Efd.
  destruct (inv_req _ Hinv _ _ Hr) as (? & ? & ? & _ & _ & _ & [_ Hneq] & _).
  exists ri, pr, s0. split_and!; try done. unfold stream_work. rewrite Hr, Hp, decide_True by congruence.
  rewrite Hpps. cbn. apply load_pos.
Qed.

Lemma other_pipe c fd id t p id' i' pr' s : inv c -> c_fd_map c !! fd = Some (id, t) ->
  c_table c !! fd = Some (RdEnd p) -> id' <> id -> only_launch id' i' c -> c_procs c !! i' = Some pr' -> pipe_of s pr' <> p.
Proof.
  intros Hinv Hfd Ht Hne [[js Hl] _] Hp E.
  destruct (inv_fd _ Hinv _ _ _ Hfd) as (i & js0 & pr & s0 & Hl0 & Hp0 & _ & Ht0). simplify_eq.
  destruct (inv_own _ Hinv _ _ _ _ s s0 Hp Hp0) as [-> _]; [congruence|]. congruence.
Qed.

Lemma work_forwarded c fd id t p pp data f : inv c -> req_inv c -> c_fd_map c !! fd = Some (id, t) ->
  c_table c !! fd = Some (RdEnd p) -> c_pipes c !! p = Some pp -> unread pp <> [] ->
  data = take (Z.to_nat 65536) (unread pp) -> shrinks id c (forwarded p (pp_off pp + length data) f c).
Proof.
  intros Hinv Hri Hfd Ht Hpp Hne Hdata id' i' Hl Hd. set (c' := forwarded _ _ _ _).
  destruct (decide (id' = id)) as [->|Hid].
  - destruct (known_stream c fd id t i' Hinv Hri Hfd Hl) as (ri & pr & s0 & Hr & Hp & -> & Ht0 & Efd & Hin & Hneq & _).
    assert (p = pipe_of s0 pr) as -> by congruence.
    assert (stream_work id i' s0 c' < stream_work id i' s0 c) as Hlt.
    { unfold stream_work, c', forwarded. cbn. rewrite Hr, Hp, !decide_True by congruence.
      rewrite list_lookup_alter_eq, Hpp. cbn.
      destruct (inv_pipe _ Hinv _ _ s0 Hp) as (x & Hx & _ & Hle & _). assert (x = pp) as -> by congruence.
      by apply load_read. }
    assert (forall s, s <> s0 -> stream_work id i' s c' = stream_work id i' s c) as Heq.
    { intros s Hs. unfold stream_work, c', forwarded. cbn. rewrite Hr, Hp. case_decide; [|done].
      rewrite list_lookup_alter_ne; [done|]. intros E. by destruct (inv_own _ Hinv _ _ _ _ s0 s Hp Hp E). }
    assert (work id i' c' < work id i' c).
    { unfold work. destruct s0; [rewrite (Heq StdErr) by done|rewrite (Heq StdOut) by done]; lia. }
    split; [done|]. split; [lia|done].
  - assert (same_face id' i' c c') as Hf.
    { apply forwarded_other. intros pr s Hp. by eapply other_pipe. }
    split; [by eapply same_face_dead|]. split; [|done]. unfold work. rewrite !(same_face_work _ _ _ _ Hinv Hd Hf). lia.
Qed.

Lemma work_unhooked c fd id t rq : inv c -> req_inv c -> c_fd_map c !! fd = Some (id, t) ->
  (forall id', id' <> id -> rq !! id' = c_reqs c !! id') ->
  match rq !! id with
  | Some ri' => exists ri, c_reqs c !! id = Some ri /\ ri' = narrow fd ri
  | None => True
  end -> shrinks id c (unhooked fd rq c).
Proof.
  intros Hinv Hri Hfd Hother Hid id' i' Hl Hd. split; [done|]. destruct (decide (id' = id)) as [->|Hne].
  - destruct (known_stream c fd id t i' Hinv Hri Hfd Hl) as (ri & pr & s0 & Hr & Hp & _ & _ & Efd & Hin & Hneq & Hw).
    assert (stream_work id i' s0 (unhooked fd rq c) = 0) as Hz.
    { unfold stream_work. cbn. rewrite Hp. destruct (rq !! id) as [ri'|]; [|done]. destruct Hid as (ri0 & E & ->).
      rewrite decide_False; [done|]. cbn. assert (ri0 = ri) as -> by congruence.
      replace (fd_of s0 (narrow fd ri)) with fd by (rewrite Efd; by destruct s0). set_solver. }
    assert (forall s, s <> s0 -> stream_work id i' s (unhooked fd rq c) <= stream_work id i' s c) as Hle.
    { intros s Hs. pose proof (stream_work_nonneg id i' s c) as Hnn. unfold stream_work in Hnn |- *. cbn.
      rewrite Hr, Hp in *. destruct (rq !! id) as [ri'|]; [|done]. destruct Hid as (ri0 & E & ->).
      assert (ri0 = ri) as -> by congruence.
      replace (fd_of s (narrow fd ri)) with (fd_of s ri) by (by destruct s). cbn.
      destruct (decide (fd_of s ri ∈ ri_open ri ∖ {[fd]})) as [Hx|]; [|lia].
      rewrite decide_True by (by apply elem_of_difference in Hx as [? _]). lia. }
    assert (work id i' (unhooked fd rq c) < work id i' c).
    { unfold work. destruct s0; [specialize (Hle StdErr ltac:(done))|specialize (Hle StdOut ltac:(done))]; lia. }
    split; [lia|done].
  - split; [|done]. unfold work, stream_work. cbn. rewrite Hother by done. lia.
Qed.

Lemma shrinks_then id c c1 c2 : inv c1 -> c_launched c1 = c_launched c -> shrinks id c c1 ->
  (forall id' i', only_launch id' i' c -> dead i' c1 -> same_face id' i' c1 c2 \/ work id' i' c2 = 0 /\ dead i' c2) ->
  shrinks id c c2.
Proof.
  intros Hinv El Hs Hf id' i' Hl Hd. destruct (Hs id' i' Hl Hd) as (Hd1 & Hle & Hlt).
  destruct (Hf id' i' Hl Hd1) as [Hsf|[Hz Hd2]].
  - split; [by eapply same_face_dead|]. unfold work in *. rewrite !(same_face_work _ _ _ _ Hinv Hd1 Hsf). done.
  - split; [done|]. assert (0 <= work id' i' c1).
    { unfold work. pose proof (stream_work_nonneg id' i' StdOut c1). pose proof (stream_work_nonneg id' i' StdErr c1). lia. }
    split; [lia|]. intros ->. specialize (Hlt eq_refl). lia.
Qed.

Lemma work_finished c c2 fd id t i js pid pr2 st fs : inv c -> req_inv c -> c_fd_map c !! fd = Some (id, t) ->
  c_launched c !! i = Some (id, js) ->
  let c1 := unhooked fd (delete id (c_reqs c)) c in
  inv c1 -> evolves c1 c2 -> c_procs c2 !! i = Some pr2 -> shrinks id c (reaped pid i st (said fs c2)).
Proof.
  intros Hinv Hri Hfd Hl c1 Hinv1 Hev Hp2. apply (shrinks_then id c c1); [done|done|..].
  - apply (work_unhooked c fd id t); try done; [intros id' Hne; by rewrite lookup_delete_ne|by rewrite lookup_delete_eq].
  - intros id' i' Hl' Hd1. destruct (decide (i' = i)) as [->|Hi].
    + right. assert (id' = id) as -> by (destruct Hl' as [[js' Hl'] _]; congruence).
      destruct (ev_rest _ _ Hev) as (_ & _ & Er & _). split.
      * unfold work, stream_work. cbn. rewrite Er. change (c_reqs c1) with (delete id (c_reqs c)).
        by rewrite lookup_delete_eq.
      * exists (set_state (Reaped st) pr2). cbn. by rewrite list_lookup_alter_eq, Hp2.
    + left. eapply same_face_trans; [by apply (same_face_evolves id' i' c1 c2)|]. split; [done|..].
      * intros pr Hp. exists pr. cbn. by rewrite list_lookup_alter_ne.
      * intros pr s pp _ Hpp. by exists pp.
Qed.

(** ** Lemmas: effects of the handlers *)

(** The step queued the frames [fs], some of whose bytes may have left. *)
Record emits (fs : list Frame) (w w' : Zygote) : Prop := {
  em_frames : frames w' = frames w ++ fs;
  em_produced : produced w' = produced w ++ concat (encode <$> fs);
  em_out : len (out w') <= len (out w) + len (concat (encode <$> fs));
  em_ctrl : ctrl w' = ctrl w;
  em_recv : recv_buf w' = recv_buf w;
  em_inbox : inbox (kernel w') = inbox (kernel w);
  em_peer : peer_open (kernel w') = peer_open (kernel w)
}.

Lemma emits_trans fs fs' w1 w2 w3 : emits fs w1 w2 -> emits fs' w2 w3 -> emits (fs ++ fs') w1 w3.
Proof.
  intros [Ef Ep Eo ? ? ? ?] [Ef' Ep' Eo' ? ? ? ?]. split; try congruence.
  - by rewrite Ef', Ef, app_assoc.
  - by rewrite Ep', Ep, fmap_app, concat_app, app_assoc.
  - rewrite fmap_app, concat_app, len_app. lia.
Qed.

Lemma io_emits f w w' : io_step (queue_frame f w) w' -> emits [f] w w'.
Proof.
  intros [Hc ? ? ? ? ? Hp Ho]. split; try done.
  - by pose proof (f_equal c_frames Hc).
  - rewrite Hp. unfold produced, queue_frame. cbn. by rewrite app_nil_r, app_assoc.
  - cbn. rewrite app_nil_r. unfold queue_frame in Ho. cbn in Ho. rewrite length_app in Ho. unfold len. lia.
Qed.

Lemma io_said f w w' : io_step (queue_frame f w) w' -> core w' = said [f] (core w).
Proof. intros [Hc _ _ _ _ _ _ _]. by rewrite Hc. Qed.

(** A system call that does not touch the socket. *)
Definition no_io (k k' : Kernel) : Prop :=
  wire k' = wire k /\ inbox k' = inbox k /\ peer_open k' = peer_open k.

Lemma no_io_emits k w : no_io (kernel w) k -> emits [] w (set_kernel k w).
Proof.
  intros (Ew & Ei & Ep). split; try done; unfold produced; cbn; rewrite ?app_nil_r.
  - done.
  - by rewrite Ew.
  - rewrite len_nil. lia.
Qed.

Lemma said_said fs fs' c : said fs' (said fs c) = said (fs ++ fs') c.
Proof. unfold said. cbn. by rewrite app_assoc. Qed.

Lemma said_evolves fs c c' : evolves (said fs c) (said fs c') -> evolves c c'.
Proof.
  intros [Hpp Hpr Hd (? & ? & ? & ? & ? & Hf)]. split; try done. split_and!; try done. cbn in Hf. by apply app_inv_tail in Hf.
Qed.

Lemma evolves_trans c1 c2 c3 : evolves c1 c2 -> evolves c2 c3 -> evolves c1 c3.
Proof.
  intros [Hpp Hpr Hd (? & ? & ? & ? & ? & ?)] [Hpp' Hpr' Hd' (? & ? & ? & ? & ? & ?)]. split; [..|split_and!; congruence].
  - eapply Forall2_trans; [exact pipe_evolves_trans|done..].
  - eapply Forall2_trans; [|done..]. intros p1 p2 p3 (? & ? & ? & ? & ?) (? & ? & ? & ? & ?). split_and!; try congruence; auto.
  - done.
Qed.

(** [os.kill] on a child that was not waited for. *)
Lemma os_kill_evolves pid i k c : inv (with_kernel k c) -> pids k !! pid = Some i ->
  exists k', os_kill pid k = (true, k') /\ evolves (with_kernel k c) (with_kernel k' c)
    /\ no_io k k' /\ pids k' = pids k
    /\ forall pr, procs k !! i = Some pr -> procs k' !! i = Some (if is_alive (pr_state pr) then set_state (Alive true) pr else pr).
Proof.
  intros Hinv Hi. unfold os_kill. rewrite Hi. eexists. split; [done|]. split_and!; try done.
  - apply mk_evolves; [done|..|done].
    + apply Forall2_refl, pipe_evolves_refl.
    + cbn. apply Forall2_alter_r; [intros; apply proc_evolves_refl|]. intros pr Hp.
      destruct (pr_state pr) eqn:E; rewrite ?E; try apply proc_evolves_refl. split_and!; cbn; rewrite ?E; done.
    + cbn. intros j pr0 pr s pp Hj Ha. rewrite list_lookup_alter. case_decide; [|congruence]. subst. rewrite Hj.
      intros [= <-]. by destruct (pr_state pr0).
  - intros pr Hp. cbn. rewrite list_lookup_alter_eq, Hp. cbn. by destruct (pr_state pr) eqn:E.
Qed.

Lemma waitstatus_code st : is_wait_status st -> exists code, waitstatus_to_exitcode st = Some code.
Proof.
  unfold is_wait_status, waitstatus_to_exitcode. destruct (status_code st); [eauto|].
  destruct (status_signal st); [cbn; eauto|]. by intros [].
Qed.

(** A child already dead can be waited for. *)
Lemma os_waitpid_effect pid i pr k c : inv (with_kernel k c) -> pids k !! pid = Some i -> procs k !! i = Some pr ->
  pr_state pr <> Alive false ->
  exists st k1 pr1, os_waitpid pid k = (WaitStatus st, reap pid i st k1) /\ evolves (with_kernel k c) (with_kernel k1 c)
    /\ no_io k k1 /\ pids k1 = pids k /\ procs k1 !! i = Some pr1 /\ is_alive (pr_state pr1) = false /\ is_wait_status st.
Proof.
  intros Hinv Hi Hp Hna. destruct (inv_pids _ Hinv _ _ Hi) as (x & Hp' & Hw). cbn in Hp'. assert (x = pr) as -> by congruence.
  unfold os_waitpid. rewrite Hi, Hp. cbn.
  assert (evolves (with_kernel k c) (with_kernel k c)) as Hrefl.
  { apply mk_evolves; [done|apply Forall2_refl, pipe_evolves_refl|apply Forall2_refl, proc_evolves_refl| |done].
    intros. simplify_eq. congruence. }
  destruct (pr_state pr) as [[]|st|st|st] eqn:E; try done.
  - set (st := default SIGKILL (exits_first k pid)).
    assert (is_wait_status st) as Hst.
    { unfold st. destruct (exits_first k pid) eqn:Ex; cbn; [by eapply exits_first_status|]. left. by vm_compute. }
    exists st, (proc_exit i st k), (set_state (Exiting st) pr). split; [done|].
    split; [eapply proc_exit_evolves; [done..|by rewrite E|done]|].
    unfold proc_exit. rewrite Hp. split_and!; try done. cbn. by rewrite list_lookup_alter_eq, Hp.
  - exists st, k, pr. rewrite E. split_and!; done.
  - exists st, k, pr. rewrite E. split_and!; done.
Qed.

Definition closing (id code : Z) : Frame := mkFrame MSG_DONE id (i32_to_be_bytes code).

Definition is_zombie (st : pstate) : bool := match st with Zombie _ => true | _ => false end.

Lemma evolves_refl c : inv c -> evolves c c.
Proof.
  intros Hinv. apply mk_evolves; [done|apply Forall2_refl, pipe_evolves_refl|apply Forall2_refl, proc_evolves_refl| |done].
  intros. simplify_eq. congruence.
Qed.

(** How a request that has no open stream left ends, when the server is there. *)
Definition finishes (pid id : Z) (i : nat) (w w' : Zygote) : Prop :=
  exists c2 pr2 st code extra, evolves (core w) c2 /\ c_procs c2 !! i = Some pr2
    /\ is_alive (pr_state pr2) = false /\ waitstatus_to_exitcode st = Some code
    /\ (extra = [] \/ extra = [mkFrame MSG_STDERR id TERMINATED])
    /\ core w' = reaped pid i st (said (extra ++ [closing id code]) c2)
    /\ emits (extra ++ [closing id code]) w w'.

Lemma finish_zombie pid id w i pr st : inv (core w) -> pids (kernel w) !! pid = Some i ->
  procs (kernel w) !! i = Some pr -> pr_state pr = Zombie st ->
  exists r w', finish_request pid id w = (r, w')
    /\ (r = Exit 0 /\ peer_open (kernel w) = false \/ r = Ok tt /\ finishes pid id i w w').
Proof.
  intros Hinv Hpid Hp Hz. destruct (inv_pids _ Hinv _ _ Hpid) as (x & Hx & Hw). cbn in Hx.
  assert (x = pr) as -> by congruence. rewrite Hz in Hw. destruct (waitstatus_code _ Hw) as [code Hcode].
  unfold finish_request.
  erewrite sys_bind by (unfold os_waitpid_nohang; rewrite Hpid, Hp; cbn; by rewrite Hz).
  cbv beta iota. rewrite Hcode.
  match goal with |- context [_send ?t ?i ?p ?w1] => destruct (send_effect t i p w1) as (r & w' & -> & Hio & Hr) end.
  exists r, w'. split; [done|]. destruct Hr as [->|[-> Hpe]]; [right|by left]. split; [done|].
  exists (core w), pr, st, code, []. rewrite Hz. split_and!; auto using evolves_refl.
  - rewrite (io_said _ _ _ Hio). done.
  - eapply (emits_trans [] [closing id code] w); [|by apply io_emits]. by apply no_io_emits.
Qed.

(** The path of [finish_request] on which the child is not a zombie yet: the
    message, the signal, and the wait. *)
Lemma finish_running pid id w i js pr : inv (core w) -> launched w !! i = Some (id, js) -> pids (kernel w) !! pid = Some i ->
  procs (kernel w) !! i = Some pr -> is_zombie (pr_state pr) = false ->
  exists r w', finish_request pid id w = (r, w')
    /\ (r = Exit 0 /\ peer_open (kernel w) = false \/ r = Ok tt /\ finishes pid id i w w').
Proof.
  intros Hinv Hl Hpid Hp Hz. unfold finish_request.
  rewrite (sys_bind _ _ _ WaitRunning (kernel w)).
  2: { unfold os_waitpid_nohang. rewrite Hpid, Hp. cbn. by destruct (pr_state pr). }
  replace (set_kernel (kernel w) w) with w by (by destruct w). cbv beta iota. rewrite M_bind_eq.
  destruct (send_effect MSG_STDERR id (str "process terminated") w) as (r1 & w1 & -> & Hio1 & [->|[-> Hpe]]).
  2: { eauto 6. }
  pose proof (io_said _ _ _ Hio1) as Hc1. pose proof (io_emits _ _ _ Hio1) as He1. fold TERMINATED in Hc1, He1.
  assert (pids (kernel w1) = pids (kernel w) /\ procs (kernel w1) = procs (kernel w)) as [Epid Epr]
    by (split; [exact (f_equal c_pids Hc1)|exact (f_equal c_procs Hc1)]).
  assert (inv (with_kernel (kernel w1) (core w1))) as Hinv1.
  { change (inv (core w1)). rewrite Hc1. eapply (inv_said id i js); [done..|]. by repeat constructor. }
  destruct (os_kill_evolves pid i (kernel w1) (core w1) Hinv1) as (k2 & Ek & Hev2 & Hn2 & Ep2 & Hp2); [congruence|].
  erewrite sys_bind by done. specialize (Hp2 pr). rewrite Epr in Hp2. specialize (Hp2 Hp).
  pose proof (inv_evolves _ _ Hinv1 Hev2) as Hinv2.
  destruct (os_waitpid_effect pid i _ k2 (core w1) Hinv2 ltac:(congruence) Hp2)
    as (st & k3 & pr3 & Ew & Hev3 & Hn3 & Ep3 & Hp3 & Ha3 & Hst).
  { destruct (pr_state pr) eqn:E; cbn; congruence. }
  erewrite (sys_bind _ _ (set_kernel k2 w1)) by done. cbv beta iota.
  destruct (waitstatus_code _ Hst) as [code Hcode]. rewrite Hcode.
  set (w2 := set_kernel (reap pid i st k3) (set_kernel k2 w1)).
  assert (emits [] w1 w2) as He2.
  { apply (no_io_emits (reap pid i st k3) w1). destruct Hn2 as (? & ? & ?), Hn3 as (? & ? & ?). split_and!; cbn; congruence. }
  destruct (send_effect MSG_DONE id (i32_to_be_bytes code) w2) as (r & w' & -> & Hio & Hr).
  exists r, w'. split; [done|]. destruct Hr as [->|[-> Hpe]]; [right|left].
  2: { split; [done|]. rewrite <-(em_peer _ _ _ He1), <-(em_peer _ _ _ He2). done. }
  split; [done|]. exists (with_kernel k3 (core w)), pr3, st, code, [mkFrame MSG_STDERR id TERMINATED].
  split; [|split_and!; auto].
  - apply (said_evolves [mkFrame MSG_STDERR id TERMINATED]). rewrite <-Hc1.
    replace (said _ (with_kernel k3 (core w))) with (with_kernel k3 (core w1)) by (by rewrite Hc1).
    by eapply evolves_trans.
  - rewrite (io_said _ _ _ Hio). change (core w2) with (reaped pid i st (with_kernel k3 (core w1))).
    replace (with_kernel k3 (core w1)) with (said [mkFrame MSG_STDERR id TERMINATED] (with_kernel k3 (core w))) by (by rewrite Hc1).
    by rewrite <-said_said.
  - eapply emits_trans; [done|]. eapply (emits_trans [] [closing id code]); [done|by apply io_emits].
Qed.

Lemma finish_effect pid id w i js pr : inv (core w) -> launched w !! i = Some (id, js) ->
  pids (kernel w) !! pid = Some i -> procs (kernel w) !! i = Some pr ->
  exists r w', finish_request pid id w = (r, w')
    /\ (r = Exit 0 /\ peer_open (kernel w) = false \/ r = Ok tt /\ finishes pid id i w w').
Proof.
  intros Hinv Hl Hpid Hp. destruct (pr_state pr) eqn:E;
    try (eapply finish_running; [done..|by rewrite E]). by eapply finish_zombie.
Qed.

(** A descriptor that was ready stays so, unless it is [fd] or was closed. *)
Definition stays_ready (fd : Z) (w w' : Zygote) : Prop :=
  forall fd', fd' <> fd -> is_Some (fd_map w' !! fd') -> can_read fd' (kernel w) = true -> can_read fd' (kernel w') = true.

Lemma pipe_evolves_ready pp pp' : pipe_evolves pp pp' ->
  negb (bool_decide (unread pp = [])) || at_eof pp = true -> negb (bool_decide (unread pp' = [])) || at_eof pp' = true.
Proof.
  intros (Eo & Ew & Ec & Ed). unfold at_eof, unread. rewrite Eo, Ew.
  destruct (pp_child pp) eqn:Hc.
  - rewrite andb_false_r, orb_false_r, negb_true_iff, bool_decide_eq_false. intros Hne.
    rewrite bool_decide_false; [done|]. intros E. apply Hne. apply nil_length_inv.
    apply (f_equal length) in E. rewrite length_drop in *. cbn in *. destruct Ed as [Eb|[_ [bs Eb]]]; rewrite Eb in E; [lia|].
    rewrite length_app in E. lia.
  - destruct Ed as [->|[? _]]; [|done]. destruct (pp_child pp'); [by discriminate Ec|done].
Qed.

(** Closing [fd] and what its request's child does leave other streams ready. *)
Lemma evolves_stays_ready fd w w' c2 : evolves (unhooked fd (c_reqs c2) (core w)) c2 ->
  pipes (kernel w') = c_pipes c2 -> table (kernel w') = c_table c2 -> fd_map w' = delete fd (fd_map w) ->
  peer_open (kernel w') = peer_open (kernel w) -> inbox (kernel w') = inbox (kernel w) ->
  stays_ready fd w w'.
Proof.
  intros Hev Ep Et Em Epe Ei fd' Hne Hs. unfold can_read. rewrite Et, Ep, Epe, Ei.
  destruct (ev_rest _ _ Hev) as (Et' & _). rewrite Et'. cbn. rewrite lookup_delete_ne by done.
  destruct (table (kernel w) !! fd') as [[p|p|]|]; try done. destruct (pipes (kernel w) !! p) as [pp|] eqn:Hp; [|done].
  destruct (evolves_pipe_fwd _ _ p pp Hev Hp) as (pp' & -> & Hpe). by apply pipe_evolves_ready.
Qed.

(** What holds after a handler returned. *)
Record kept (fd : Z) (w w' : Zygote) : Prop := {
  kp_inv : inv (core w');
  kp_req : req_inv (core w');
  kp_ready : stays_ready fd w w';
  kp_launched : launched w' = launched w;
  kp_sock : forall fd', table (kernel w') !! fd' = Some Sock <-> table (kernel w) !! fd' = Some Sock;
  kp_map : fd_map w' ⊆ fd_map w;
  kp_stay : forall fd', fd' <> fd -> fd_map w' !! fd' = fd_map w !! fd';
  kp_dead : forall i, dead i (core w) -> dead i (core w');
  kp_work : forall id t, fd_map w !! fd = Some (id, t) -> shrinks id (core w) (core w')
}.

Lemma get_bind {B} (g : Zygote -> M B) w : (get ≫= g) w = g w w.
Proof. done. Qed.

(** The frames [fs] are of request [id], of the size the worker reads at once,
    and take at most [n] bytes together. *)
Definition sent (id n : Z) (fs : list Frame) : Prop :=
  Forall (fun f => f_req f = id /\ len (f_payload f) <= 65536) fs /\ len (concat (encode <$> fs)) <= n.

Lemma sent_finish id code extra : extra = [] \/ extra = [mkFrame MSG_STDERR id TERMINATED] ->
  sent id 40 (extra ++ [closing id code]).
Proof.
  assert (len (i32_to_be_bytes code) = 4) as E by done.
  unfold sent. intros [-> | ->]; cbn [app fmap list_fmap concat]; rewrite !len_app, !len_encode, len_nil;
    unfold HEADER_SIZE; cbn [f_payload closing]; rewrite E; (split; [|by vm_compute]);
    repeat constructor; cbn [f_payload closing]; rewrite ?E; by vm_compute.
Qed.

Lemma sent_nil id : sent id 40 [].
Proof. split; [done|]. by vm_compute. Qed.

Section Teardown.
Context (fd id : Z) (t : byte) (w : Zygote).
Hypothesis Hinv : inv (core w).
Hypothesis Hreq : req_inv (core w).
Hypothesis Hfd : fd_map w !! fd = Some (id, t).
Hypothesis Hdr : forall p pp, table (kernel w) !! fd = Some (RdEnd p) -> pipes (kernel w) !! p = Some pp -> drained pp.

(** After [os.close] and [fd_map.pop]. *)
Let k1 := set_table (delete fd (table (kernel w))) (kernel w).
Let w1 := set_fd_map (delete fd (fd_map w)) (set_kernel k1 w).

Lemma teardown_head :
  _teardown_pipe_fd fd id w =
  match reqs w !! id with
  | None => (Ok tt, w1)
  | Some ri =>
    if negb (bool_decide (ri_open ri ∖ {[fd]} = ∅)) then (Ok tt, set_reqs (<[id := narrow fd ri]> (reqs w)) w1)
    else finish_request (ri_pid ri) id (set_reqs (delete id (reqs w)) w1)
  end.
Proof.
  destruct (inv_fd _ Hinv _ _ _ Hfd) as (i & js & pr & s & _ & _ & _ & Ht). cbn in Ht.
  unfold _teardown_pipe_fd. erewrite sys_bind by (unfold os_close; rewrite Ht; done).
  rewrite modify_bind, get_bind. cbn [reqs set_fd_map set_kernel]. destruct (reqs w !! id) as [ri|]; [|done].
  rewrite modify_bind. case_bool_decide; cbn [negb]; [|done].
  rewrite modify_bind. unfold set_reqs at 2. cbn [reqs]. by rewrite delete_insert_eq.
Qed.

Lemma unhook_emits rq : emits [] w (set_reqs rq w1).
Proof.
  split; unfold produced; cbn; rewrite ?app_nil_r; try done. rewrite len_nil. lia.
Qed.

Lemma unhook_ready rq w' : core w' = unhooked fd rq (core w) -> inv (core w') -> emits [] w w' -> stays_ready fd w w'.
Proof.
  intros Hc Hi He. apply (evolves_stays_ready fd w w' (core w')).
  - replace (unhooked fd (c_reqs (core w')) (core w)) with (core w') by (by rewrite Hc). by apply evolves_refl.
  - done.
  - done.
  - by pose proof (f_equal c_fd_map Hc).
  - apply He.
  - apply He.
Qed.

Lemma unhook_sock fd' : delete fd (table (kernel w)) !! fd' = Some Sock <-> table (kernel w) !! fd' = Some Sock.
Proof.
  rewrite lookup_delete. case_decide; [subst|done].
  destruct (inv_fd _ Hinv _ _ _ Hfd) as (? & ? & ? & ? & _ & _ & _ & Ht). cbn in Ht. by rewrite Ht.
Qed.

(** The request keeps its other stream, or is not known. *)
Lemma teardown_unhook rq : (forall id', id' <> id -> rq !! id' = reqs w !! id') ->
  match reqs w !! id with
  | None => rq !! id = None
  | Some ri => rq !! id = Some (narrow fd ri) /\ ri_open ri ∖ {[fd]} <> ∅
  end ->
  kept fd w (set_reqs rq w1) /\ emits [] w (set_reqs rq w1).
Proof.
  intros Hother Hid. set (w' := set_reqs rq w1). assert (core w' = unhooked fd rq (core w)) as Hc by done.
  assert (inv (core w')) as Hinv'.
  { rewrite Hc. apply (inv_unhooked _ fd id t); [done..|]. intros ri' Hr'. cbn. destruct (reqs w !! id) as [ri|]; [|congruence].
    destruct Hid as [Hn Hne]. rewrite Hn in Hr'. simplify_eq. split; [done|]. eauto. }
  split; [|apply unhook_emits]. split; [done| |by apply (unhook_ready rq); [..|apply unhook_emits]|done|apply unhook_sock|apply delete_subseteq|by intros fd' Hne; apply lookup_delete_ne|done|].
  2: { intros id' t' Hfd'. assert (id' = id) as -> by congruence. rewrite Hc. apply (work_unhooked _ fd id t); try done. cbn.
       destruct (reqs w !! id) as [ri|]; [destruct Hid as [-> _]; eauto|by rewrite Hid]. }
  rewrite Hc. intros id'. destruct (decide (id' = id)) as [->|Hne].
  - cbn in Hid. destruct (reqs w !! id) as [ri|] eqn:Hr.
    + destruct Hid as [Hn _]. eapply (req_ok_narrowed (core w) fd id t); eauto.
    + intros i pr pp Hl Hp Hpp. exfalso. pose proof (Hreq id i pr pp Hl Hp Hpp) as Hst. cbn in Hst. rewrite Hr in Hst.
      by apply (proj1 Hst fd t).
  - by eapply (req_ok_unhooked_other (core w) fd id).
Qed.

(** It was the last stream. *)
Lemma teardown_finish ri : reqs w !! id = Some ri -> ri_open ri ∖ {[fd]} = ∅ ->
  let w0 := set_reqs (delete id (reqs w)) w1 in
  exists r w', finish_request (ri_pid ri) id w0 = (r, w')
    /\ (r = Exit 0 /\ peer_open (kernel w) = false
        \/ r = Ok tt /\ kept fd w w' /\ exists fs, sent id 40 fs /\ emits fs w w').
Proof.
  intros Hr Hlast w0. destruct (inv_req _ Hinv _ _ Hr) as (i & js & pr & Hl & Hp & Hpid & _).
  destruct (inv_fd _ Hinv _ _ _ Hfd) as (? & ? & ? & s0 & _ & _ & Et & _).
  pose proof Hfd as Hfd'. rewrite Et in Hfd'.
  assert (inv (core w0)) as Hinv0 by (by eapply (inv_finish_unhooked (core w) fd id s0)).
  destruct (finish_effect (ri_pid ri) id w0 i js pr Hinv0 Hl Hpid Hp) as (r & w' & -> & [[-> Hpe]|[-> Hf]]);
    [by exists (Exit 0), w'; auto|].
  exists (Ok tt), w'. split; [done|]. right. split; [done|].
  destruct Hf as (c2 & pr2 & st & code & extra & Hev & Hp2 & Ha & Hcode & Hextra & Hc & He).
  change (core w0) with (unhooked fd (delete id (c_reqs (core w))) (core w)) in Hev.
  pose proof (emits_trans _ _ _ _ _ (unhook_emits (delete id (reqs w))) He) as He'. cbn [app] in He'.
  split; [|exists (extra ++ [closing id code]); split; [by apply sent_finish|done]]. split.
  - rewrite Hc. by eapply (inv_finished (core w) c2 fd id s0 i js ri pr2).
  - rewrite Hc. intros id'. destruct (decide (id' = id)) as [->|Hne].
    + eapply (req_ok_finished (core w) c2 fd id s0 i js ri pr2); eauto.
    + eapply (req_ok_finished_other (core w) c2 fd id s0 i js ri pr2); eauto.
  - destruct (ev_rest _ _ Hev) as (_ & _ & Er & Efm & _).
    apply (evolves_stays_ready fd w w' c2).
    + by rewrite Er.
    + exact (f_equal c_pipes Hc).
    + exact (f_equal c_table Hc).
    + exact (eq_trans (f_equal c_fd_map Hc) Efm).
    + apply He'.
    + apply He'.
  - destruct (ev_rest _ _ Hev) as (_ & _ & _ & _ & El & _). exact (eq_trans (f_equal c_launched Hc) El).
  - destruct (ev_rest _ _ Hev) as (Ett & _). intros fd'.
    rewrite (f_equal c_table Hc : table (kernel w') = c_table c2), Ett. apply unhook_sock.
  - destruct (ev_rest _ _ Hev) as (_ & _ & _ & Efm & _).
    rewrite (f_equal c_fd_map Hc : fd_map w' = c_fd_map c2), Efm. apply delete_subseteq.
  - destruct (ev_rest _ _ Hev) as (_ & _ & _ & Efm & _). intros fd' Hne.
    rewrite (f_equal c_fd_map Hc : fd_map w' = c_fd_map c2), Efm. by apply lookup_delete_ne.
  - intros j (q & Hq & Ha'). destruct (evolves_proc_fwd _ _ j q Hev Hq) as (q2 & Hq2 & Hqe).
    rewrite Hc. unfold dead. cbn. destruct (decide (i = j)) as [->|Hij].
    + rewrite list_lookup_alter_eq, Hq2. eexists. split; done.
    + rewrite list_lookup_alter_ne by done. exists q2. split; [done|]. by apply Hqe.
  - intros id' t' Hfd''. assert (id' = id) as -> by congruence. rewrite Hc. by eapply (work_finished (core w) c2 fd id t).
Qed.

Lemma teardown_effect :
  exists r w', _teardown_pipe_fd fd id w = (r, w')
    /\ (r = Exit 0 /\ peer_open (kernel w) = false
        \/ r = Ok tt /\ kept fd w w' /\ exists fs, sent id 40 fs /\ emits fs w w').
Proof.
  rewrite teardown_head. destruct (reqs w !! id) as [ri|] eqn:Hr.
  - case_bool_decide as Hop; cbn [negb]; [by apply teardown_finish|].
    eexists (Ok tt), _. split; [done|]. right. split; [done|].
    destruct (teardown_unhook (<[id := narrow fd ri]> (reqs w))) as [Hk He].
    + intros id' Hne. by rewrite lookup_insert_ne.
    + rewrite Hr. by rewrite lookup_insert_eq.
    + split; [done|]. exists []. split; [apply sent_nil|done].
  - eexists (Ok tt), _. split; [done|]. right. split; [done|].
    destruct (teardown_unhook (reqs w)) as [Hk He]; [done|by rewrite Hr|].
    replace (set_reqs (reqs w) w1) with w1 in * by done.
    split; [done|]. exists []. split; [apply sent_nil|done].
Qed.

End Teardown.

(** Data was read: the pipe's offset moves, a frame is sent. *)
Lemma forward_effect fd id t p pp data w :
  inv (core w) -> req_inv (core w) -> fd_map w !! fd = Some (id, t) ->
  table (kernel w) !! fd = Some (RdEnd p) -> pipes (kernel w) !! p = Some pp ->
  unread pp <> [] -> data = take (Z.to_nat 65536) (unread pp) ->
  let k := set_pipes (alter (set_off (pp_off pp + length data)) p (pipes (kernel w))) (kernel w) in
  exists r w', _send t id data (set_kernel k w) = (r, w')
    /\ (r = Exit 0 /\ peer_open (kernel w) = false
        \/ r = Ok tt /\ kept fd w w' /\ exists fs, sent id 65545 fs /\ emits fs w w').
Proof.
  intros Hinv Hreq Hfd Ht Hpp Hne0 Edata k.
  assert (data `prefix_of` unread pp) as Hdata.
  { exists (drop (Z.to_nat 65536) (unread pp)). rewrite Edata. symmetry. apply take_drop. }
  assert (len data <= 65536) as Hlen by (rewrite Edata; unfold len; rewrite length_take; lia).
  destruct (send_effect t id data (set_kernel k w)) as (r & w' & -> & Hio & [->|[-> Hpe]]); [|eauto 6].
  exists (Ok tt), w'. split; [done|]. right. split; [done|].
  assert (core w' = forwarded p (pp_off pp + length data) (mkFrame t id data) (core w)) as Hc
    by (by rewrite (io_said _ _ _ Hio)).
  pose proof (io_emits _ _ _ Hio) as He.
  assert (emits [mkFrame t id data] w w') as He' by (by eapply (emits_trans [] _ w); [|done]; apply no_io_emits).
  split; [|exists [mkFrame t id data]; split; [|done]].
  - split.
    + rewrite Hc. by eapply inv_forwarded.
    + rewrite Hc. by eapply req_inv_forwarded.
    + intros fd' Hne _. unfold can_read.
      assert (table (kernel w') = table (kernel w)) as -> by exact (f_equal c_table Hc).
      assert (pipes (kernel w') = alter (set_off (pp_off pp + length data)) p (pipes (kernel w))) as -> by exact (f_equal c_pipes Hc).
      rewrite (em_inbox _ _ _ He'), (em_peer _ _ _ He').
      destruct (table (kernel w) !! fd') as [[p'|p'|]|] eqn:Ht'; try done.
      rewrite list_lookup_alter_ne; [done|]. intros ->. by destruct (inv_inj _ Hinv _ _ _ Ht Ht').
    + exact (f_equal c_launched Hc).
    + intros fd'. by rewrite (f_equal c_table Hc : table (kernel w') = _).
    + by rewrite (f_equal c_fd_map Hc : fd_map w' = _).
    + intros fd' _. by rewrite (f_equal c_fd_map Hc : fd_map w' = _).
    + by rewrite Hc.
    + intros id' t' Hfd'. assert (id' = id) as -> by congruence. rewrite Hc. by eapply (work_forwarded _ fd id t).
  - split; [repeat constructor; cbn; lia|]. cbn. rewrite app_nil_r, len_encode. unfold HEADER_SIZE. cbn. lia.
Qed.

Lemma on_pipe_readable_effect fd id t w :
  inv (core w) -> req_inv (core w) -> fd_map w !! fd = Some (id, t) -> can_read fd (kernel w) = true ->
  exists r w', _on_pipe_readable fd w = (r, w')
    /\ (r = Exit 0 /\ peer_open (kernel w) = false
        \/ r = Ok tt /\ kept fd w w' /\ exists fs, sent id 65545 fs /\ emits fs w w').
Proof.
  intros Hinv Hreq Hfd Hready. destruct (inv_fd _ Hinv _ _ _ Hfd) as (i & js & pr & s & Hl & Hp & Et & Ht). cbn in *.
  destruct (inv_pipe _ Hinv _ _ s Hp) as (pp & Hpp & Hw & Hle & _). cbn in Hpp.
  assert (forall k r, os_read fd 65536 (kernel w) = (r, k) -> k = kernel w -> r = RdData [] \/ r = RdError ->
     drained pp -> exists r w', _on_pipe_readable fd w = (r, w')
      /\ (r = Exit 0 /\ peer_open (kernel w) = false
         \/ r = Ok tt /\ kept fd w w' /\ exists fs, sent id 65545 fs /\ emits fs w w')) as Hdown.
  { intros k r Er -> Hr Hdr. destruct (teardown_effect fd id t w Hinv Hreq Hfd) as (r' & w' & Etd & Hres).
    { intros p' pp' Ht' Hpp'. by assert (pp' = pp) as -> by congruence. }
    exists r', w'. split.
    - unfold _on_pipe_readable. rewrite get_bind, Hfd, (sys_bind _ _ _ _ _ Er).
      replace (set_kernel (kernel w) w) with w by (by destruct w). by destruct Hr as [-> | ->].
    - destruct Hres as [?|(? & ? & fs & [Hf Hn] & ?)]; [by left|right]. split; [done|]. split; [done|]. exists fs.
      split; [|done]. split; [done|lia]. }
  unfold os_read in Hdown. rewrite Ht, Hpp in Hdown. unfold can_read in Hready. rewrite Ht, Hpp in Hready.
  destruct (read_error (kernel w) fd) eqn:Hre.
  { eapply Hdown; [done..|by right|]. intros Hno. by rewrite Hno in Hre. }
  case_bool_decide as Hun; cbn [negb orb] in Hready.
  { rewrite Hready in Hdown. eapply Hdown; [done..|by left|]. intros _. unfold at_eof in Hready.
    apply andb_prop in Hready as [Hready Hc]. split; [|by destruct (pp_child pp)].
    unfold unread in Hun. apply (f_equal length) in Hun. rewrite length_drop in Hun. cbn in Hun. lia. }
  clear Hdown. set (data := take (Z.to_nat 65536) (unread pp)).
  unfold _on_pipe_readable. rewrite get_bind, Hfd.
  erewrite sys_bind by (unfold os_read; rewrite Ht, Hre, Hpp, bool_decide_false by done; done).
  cbv beta iota zeta. fold data. destruct data as [|b data'] eqn:Ed.
  { exfalso. unfold data in Ed. destruct (unread pp) as [|b l]; [done|].
    replace (Z.to_nat 65536) with (S (Z.to_nat 65535)) in Ed by lia. done. }
  rewrite <-Ed. by apply (forward_effect fd id t (pipe_of s pr) pp data w).
Qed.

(** ** The invariant of the loop *)

Record good (w : Zygote) : Prop := {
  gd_inv : inv (core w);
  gd_req : req_inv (core w);
  gd_stream : produced w = concat (encode <$> frames w);
  gd_ids : Forall (fun l => is_u32 (fst l)) (launched w);
  gd_frames : Forall (frame_ok 65536) (frames w);
  gd_ctrl : forall fd, table (kernel w) !! fd = Some Sock <-> fd = ctrl w;
  gd_inbox : Forall (fun bs => bs <> []) (inbox (kernel w))
}.

Lemma good_core w w' : core w' = core w -> ctrl w' = ctrl w -> produced w' = produced w ->
  Forall (fun bs => bs <> []) (inbox (kernel w')) -> good w -> good w'.
Proof.
  intros Hc Hk Hp Hin [Hi Hr Hs Hid Hf Ht _].
  assert (frames w' = frames w) as Ef by exact (f_equal c_frames Hc).
  assert (launched w' = launched w) as El by exact (f_equal c_launched Hc).
  assert (table (kernel w') = table (kernel w)) as Et by exact (f_equal c_table Hc).
  by split; rewrite ?Hc, ?Hp, ?Ef, ?El, ?Et, ?Hk.
Qed.

Lemma good_io w w' : io_step w w' -> good w -> good w'.
Proof. intros [Hc Hk _ Hin _ _ Hp _] Hg. apply (good_core w); try done. rewrite Hin. apply Hg. Qed.

(** A known descriptor belongs to a request whose id the wire can carry. *)
Lemma fd_map_id fd id t w : good w -> fd_map w !! fd = Some (id, t) -> is_u32 id.
Proof.
  intros Hg Hfd. destruct (inv_fd _ (gd_inv _ Hg) _ _ _ Hfd) as (i & js & _ & _ & Hl & _). cbn in Hl.
  pose proof (gd_ids _ Hg) as Hids. rewrite Forall_lookup in Hids. exact (Hids _ _ Hl).
Qed.

Lemma good_kept fd id n fs w w' : good w -> kept fd w w' -> sent id n fs -> is_u32 id -> emits fs w w' -> good w'.
Proof.
  intros [Hi Hr Hs Hid Hf Ht Hin] [Hi' Hr' _ El Hsock _ _ _ _] [Hsent _] Hu He. split; try done.
  - by rewrite (em_produced _ _ _ He), (em_frames _ _ _ He), Hs, fmap_app, concat_app.
  - by rewrite El.
  - rewrite (em_frames _ _ _ He). apply Forall_app_2; [done|]. eapply Forall_impl; [done|].
    intros f [E Hl]. unfold frame_ok. rewrite E. split_and!; [done|done|unfold u32_max; lia].
  - intros fd'. by rewrite (em_ctrl _ _ _ He), Hsock.
  - by rewrite (em_inbox _ _ _ He).
Qed.

(** Why the worker ends: the server is gone, or sent a frame that is too long. *)
Definition end_cause (c : Z) (w w' : Zygote) : Prop :=
  c = 0 /\ peer_open (kernel w) = false
  \/ c = 1 /\ parse_frame _MAX_FRAME_PAYLOAD (recv_buf w') = Oversized.

(** ** Lemmas: control frames *)

(** A descriptor other than [fd] that was ready stays so. *)
Definition all_ready (fd : Z) (w w' : Zygote) : Prop :=
  forall fd', fd' <> fd -> can_read fd' (kernel w) = true -> can_read fd' (kernel w') = true.

(** Requests with a dead child are left as they are. *)
Definition leaves_dead (c c' : Core) : Prop :=
  forall id i, only_launch id i c' -> dead i c -> only_launch id i c /\ dead i c' /\ work id i c' = work id i c.

Lemma same_face_leaves c c' : inv c -> c_launched c' = c_launched c ->
  (forall id i, dead i c -> same_face id i c c') -> leaves_dead c c'.
Proof.
  intros Hinv El Hf id i Hl Hd. unfold only_launch in *. rewrite El in Hl. split; [done|].
  split; [by apply (same_face_dead id i c); [apply Hf|]|]. unfold work. by rewrite !(same_face_work _ _ _ _ Hinv Hd (Hf id i Hd)).
Qed.

Lemma leaves_dead_trans c1 c2 c3 : (forall id i, only_launch id i c3 -> dead i c2 -> only_launch id i c2) ->
  leaves_dead c1 c2 -> leaves_dead c2 c3 -> (forall i, dead i c1 -> dead i c2) -> leaves_dead c1 c3.
Proof.
  intros Ho H12 H23 Hdd id i Hl Hd. destruct (H23 id i Hl (Hdd i Hd)) as (Hl2 & Hd3 & E3).
  destruct (H12 id i Hl2 Hd) as (Hl1 & Hd2 & E2). split_and!; [done|done|congruence].
Qed.

Lemma leaves_dead_abandoned l c : inv c -> leaves_dead c (abandoned l c).
Proof.
  intros Hinv. apply same_face_leaves; [done..|]. intros id i _. split; [done|eauto|].
  intros pr s pp _ Hpp. exists pp. split; [by apply lookup_app_l_Some|done].
Qed.

Lemma leaves_dead_begun id js pid or er c : inv c -> leaves_dead c (begun id js pid or er c).
Proof.
  intros Hinv id' i' [[js' Hl] Hu] Hd. pose proof Hd as (pr & Hp & Ha). pose proof (lookup_lt_Some _ _ _ Hp) as Hlt.
  rewrite <-(inv_len _ Hinv) in Hlt. cbn in Hl. rewrite lookup_app_l in Hl by done.
  assert (id' <> id) as Hne.
  { intros ->. specialize (Hu (length (c_launched c)) js). cbn in Hu. rewrite list_lookup_middle in Hu by done.
    specialize (Hu eq_refl). lia. }
  assert (same_face id' i' c (begun id js pid or er c)) as Hf.
  { split.
    - cbn. by rewrite lookup_insert_ne.
    - intros q Hq. exists q. split; [by apply lookup_app_l_Some|done].
    - intros q s pp _ Hpp. exists pp. split; [by apply lookup_app_l_Some|done]. }
  split; [|split; [by eapply same_face_dead|unfold work; by rewrite !(same_face_work _ _ _ _ Hinv Hd Hf)]].
  split; [eauto|]. intros j js'' Hj. apply (Hu j js''). cbn. by apply lookup_app_l_Some.
Qed.

(** A step of the control side: nothing is sent, ready streams stay ready. *)
Record calm (w w' : Zygote) : Prop := {
  cm_good : good w';
  cm_ctrl : ctrl w' = ctrl w;
  cm_out : out w' = out w;
  cm_peer : peer_open (kernel w') = peer_open (kernel w);
  cm_ready : all_ready (ctrl w) w w';
  cm_work : leaves_dead (core w) (core w');
  cm_dead : forall i, dead i (core w) -> dead i (core w');
  cm_map : fd_map w ⊆ fd_map w'
}.

Lemma calm_refl w : good w -> calm w w.
Proof. intros Hg. split; try done. by intros fd _. Qed.

Lemma abandoned_ready l w w' : core w' = abandoned l (core w) -> quiet w w' -> all_ready (ctrl w) w w'.
Proof.
  intros Hc [_ _ _ _ Hin Hpe _] fd' Hne. unfold can_read.
  rewrite (f_equal c_table Hc : table (kernel w') = _), (f_equal c_pipes Hc : pipes (kernel w') = _), Hin, Hpe. cbn.
  destruct (table (kernel w) !! fd') as [[p|p|]|] eqn:Ht; try done.
  destruct (pipes (kernel w) !! p) as [pp|] eqn:Hp; [|done]. by rewrite (lookup_app_l_Some _ _ _ _ Hp).
Qed.

Lemma evolved_ready fd k w : evolves (core w) (with_kernel k (core w)) -> no_io (kernel w) k ->
  all_ready fd w (set_kernel k w).
Proof.
  intros Hev (_ & Hin & Hpe) fd' Hne. unfold can_read. cbn. rewrite Hin, Hpe.
  rewrite (proj1 (ev_rest _ _ Hev) : table k = table (kernel w)).
  destruct (table (kernel w) !! fd') as [[p|p|]|] eqn:Ht; try done.
  destruct (pipes (kernel w) !! p) as [pp|] eqn:Hp; [|done].
  destruct (evolves_pipe_fwd _ _ p pp Hev Hp) as (pp' & Hp' & Hpe'). cbn in Hp'. rewrite Hp'. by apply pipe_evolves_ready.
Qed.

Lemma begun_ready id js pid or er w w' : inv (core w) -> core w' = begun id js pid or er (core w) ->
  table (kernel w) !! or = None -> table (kernel w) !! er = None -> quiet w w' -> all_ready (ctrl w) w w'.
Proof.
  intros Hinv Hc Hor Her [_ _ _ _ Hin Hpe _] fd' Hne. unfold can_read.
  rewrite (f_equal c_table Hc : table (kernel w') = _), (f_equal c_pipes Hc : pipes (kernel w') = _), Hin, Hpe. cbn.
  rewrite !lookup_insert. repeat case_decide; subst; rewrite ?Hor, ?Her; try done.
  destruct (table (kernel w) !! fd') as [[p|p|]|] eqn:Ht; try done.
  destruct (pipes (kernel w) !! p) as [pp|] eqn:Hp; [|done]. by rewrite (lookup_app_l_Some _ _ _ _ Hp).
Qed.

Lemma dispatch_effect f w : good w -> is_u32 (f_req f) ->
  exists r w', dispatch f w = (r, w') /\ (r = Ok tt \/ r = Raise) /\ calm w w'.
Proof.
  intros Hg Hu. pose proof Hg as [Hi Hr Hs Hid Hf Ht Hinb].
  pose proof (calm_refl w Hg) as Hrefl.
  unfold dispatch. case_bool_decide; [|case_bool_decide; [|exists (Ok tt), w; auto]].
  - destruct (handle_run_effect (f_req f) (f_payload f) w)
      as [(w' & l & -> & Hq & Hc)|(w' & js & pid & or & er & -> & Hq & _ & Hne & Hor & Her & Hpid & Hc)].
    + exists Raise, w'. split; [done|]. split; [by right|]. pose proof Hq as [Hk _ Ho Hw Hib _ _].
      split; [|done|done|apply Hq|by eapply abandoned_ready|rewrite Hc; by apply leaves_dead_abandoned|by rewrite Hc|].
      2: { by rewrite (f_equal c_fd_map Hc : fd_map w' = _). }
      split; rewrite ?Hc, ?(f_equal c_table Hc : table (kernel w') = _), ?Hk,
          ?(f_equal c_launched Hc : launched w' = _), ?(f_equal c_frames Hc : frames w' = _), ?Hib; try done.
      * by apply inv_abandoned.
      * by apply req_inv_abandoned.
      * unfold produced. by rewrite Hw, Ho.
    + exists (Ok tt), w'. split; [done|]. split; [by left|]. pose proof Hq as [Hk _ Ho Hw Hib _ _].
      split; [|done|done|apply Hq|by eapply begun_ready|rewrite Hc; by apply leaves_dead_begun| |].
      2: { rewrite Hc. intros i (pr & Hp & Ha). exists pr. split; [by apply lookup_app_l_Some|done]. }
      2: { rewrite (f_equal c_fd_map Hc : fd_map w' = _). cbn. etrans; [|apply insert_subseteq].
           - apply insert_subseteq. by apply (fresh_fd_map (core w)).
           - rewrite lookup_insert_ne by done. by apply (fresh_fd_map (core w)). }
      split; rewrite ?Hc, ?(f_equal c_table Hc : table (kernel w') = _), ?Hk,
          ?(f_equal c_launched Hc : launched w' = _), ?(f_equal c_frames Hc : frames w' = _), ?Hib.
      * by apply inv_begun.
      * by apply req_inv_begun.
      * unfold produced. by rewrite Hw, Ho.
      * cbn. apply Forall_app. split; [done|]. by apply Forall_singleton.
      * done.
      * intros fd. cbn. rewrite <-Ht, !lookup_insert. repeat case_decide; subst; rewrite ?Hor, ?Her; done.
      * done.
  - unfold _handle_kill. rewrite get_bind. destruct (reqs w !! f_req f) as [ri|] eqn:Hri; [|exists (Ok tt), w; auto].
    destruct (inv_req _ Hi _ _ Hri) as (i & js & pr & _ & _ & Hpid & _).
    destruct (os_kill_evolves (ri_pid ri) i (kernel w) (core w) Hi Hpid) as (k' & Ek & Hev & (Hw & Hin & Hpe) & _).
    erewrite sys_bind by done. eexists (Ok tt), _. split; [done|]. split; [by left|]. split; try done.
    + split; try done.
      * by eapply inv_evolves.
      * intros id. by eapply req_ok_evolves.
      * unfold produced. cbn. by rewrite Hw.
      * cbn. by rewrite (proj1 (ev_rest _ _ Hev) : table k' = _).
      * cbn. by rewrite Hin.
    + by apply evolved_ready.
    + apply same_face_leaves; [done|apply Hev|]. intros id i' Hd. by apply same_face_evolves.
    + intros i' Hd. eapply (same_face_dead 0); [|exact Hd]. by apply same_face_evolves.
Qed.

Lemma calm_trans w1 w2 w3 : calm w1 w2 -> calm w2 w3 -> calm w1 w3.
Proof.
  intros [? Hk ? ? Hr Hl Hd ?] [? Hk' ? ? Hr' Hl' Hd' ?]. split; [done|congruence..| | |by auto|by etrans].
  2: { apply (leaves_dead_trans _ (core w2)); [|done..]. intros id i Ho Hd2. by destruct (Hl' id i Ho Hd2). } intros fd Hne Hc.
  apply Hr'; [congruence|]. by apply Hr.
Qed.

Lemma recv_buf_calm b w : good w -> calm w (set_recv_buf b w).
Proof. intros Hg. split; [apply (good_core w); try done; apply Hg|done..| |done|done|done]. by intros fd _. Qed.

Lemma frame_loop_effect fuel w : good w ->
  exists r w', frame_loop fuel dispatch w = (r, w') /\ (r = Ok tt \/ r = Raise \/ r = Exit 1 /\ parse_frame _MAX_FRAME_PAYLOAD (recv_buf w') = Oversized) /\ calm w w'.
Proof.
  revert w. induction fuel as [|fuel IH]; intros w Hg; [exists (Ok tt), w; by auto using calm_refl|].
  cbn [frame_loop]. destruct (parse_frame _MAX_FRAME_PAYLOAD (recv_buf w)) as [| |f rest] eqn:Hp.
  - exists (Ok tt), w. by auto using calm_refl.
  - exists (Exit 1), w. split_and!; auto using calm_refl.
  - rewrite modify_bind, M_bind_eq. pose proof (recv_buf_calm rest w Hg) as Hc0.
    destruct (dispatch_effect f (set_recv_buf rest w)) as (r & w' & -> & Hr & Hc);
      [apply Hc0|by apply parse_frame_Parsed in Hp as [[? _] _]|].
    pose proof (calm_trans _ _ _ Hc0 Hc) as Hc1. destruct Hr as [-> | ->].
    + destruct (IH w') as (r & w'' & -> & Hr & Hc2); [apply Hc|]. exists r, w''. eauto using calm_trans.
    + exists Raise, w'. auto.
Qed.

Lemma read_ctrl_effect w : good w ->
  exists r w', _read_ctrl_frames dispatch w = (r, w') /\ (r = Ok tt \/ r = Raise \/ exists c, r = Exit c /\ end_cause c w w') /\ calm w w'.
Proof.
  intros Hg. unfold _read_ctrl_frames.
  destruct (sock_recv 65536 (kernel w)) as [res k] eqn:E. erewrite sys_bind by done.
  assert (calm w (set_kernel k w)) as Hc.
  { unfold sock_recv in E. destruct (inbox (kernel w)) as [|b l] eqn:Hin; simplify_eq.
    - replace (set_kernel (kernel w) w) with w by (by destruct w). by apply calm_refl.
    - pose proof (gd_inbox _ Hg) as Hinb. rewrite Hin in Hinb. apply Forall_cons in Hinb as [Hb Hl].
      split; [|done..| |done|done|done].
      { apply (good_core w); try done. cbn. case_bool_decide; [done|by constructor]. }
      intros fd Hne. unfold can_read. cbn.
      destruct (table (kernel w) !! fd) as [[p|p|]|] eqn:Ht; try done. by apply (gd_ctrl _ Hg) in Ht. }
  destruct res as [[|b bs]|].
  - exists (Exit 0), (set_kernel k w). split; [done|]. split; [|done]. right. right. exists 0. split; [done|]. left.
    split; [done|]. pose proof (gd_inbox _ Hg) as Hinb. unfold sock_recv in E.
    destruct (inbox (kernel w)) as [|b l]; [by destruct (peer_open (kernel w))|]. exfalso. simplify_eq.
    apply Forall_cons in Hinb as [Hb _]. destruct b as [|b bs]; [done|].
    replace (Z.to_nat 65536) with (S (Z.to_nat 65535)) in * by lia. done.
  - rewrite modify_bind. set (w1 := set_recv_buf _ _).
    assert (calm w w1) as Hc1 by (eapply calm_trans; [done|apply recv_buf_calm, Hc]).
    destruct (frame_loop_effect (length (recv_buf w1)) w1) as (r & w' & -> & Hr & Hc2); [apply Hc1|].
    exists r, w'. split; [done|]. split; [|by eapply calm_trans].
    destruct Hr as [->|[->|[-> Hov]]]; [auto..|]. right. right. exists 1. split; [done|]. by right.
  - exists (Ok tt), (set_kernel k w). split; [done|]. split; [eauto|done].
Qed.

(** ** Lemmas: a turn of the loop *)

(** The descriptors still to be handled in a turn: the control socket comes
    first, and the others are ready, or were closed during the turn. *)
Definition pending_ok (fds : list Z) (w : Zygote) : Prop :=
  NoDup fds /\ (ctrl w ∉ tail fds)
  /\ Forall (fun fd => can_read fd (kernel w) = true \/ fd_map w !! fd = None /\ ctrl w ∉ fds) fds.

Lemma ctrl_not_mapped w : good w -> fd_map w !! ctrl w = None.
Proof.
  intros Hg. destruct (fd_map w !! ctrl w) as [[id t]|] eqn:E; [|done].
  destruct (inv_fd _ (gd_inv _ Hg) _ _ _ E) as (? & ? & ? & ? & _ & _ & _ & Ht). cbn in Ht.
  rewrite (proj2 (gd_ctrl _ Hg _) eq_refl) in Ht. done.
Qed.

(** Handling the descriptors [fds]: no request with a dead child has more work
    than before, and one of whose streams was handled has less. *)
Definition serves (fds : list Z) (w w' : Zygote) : Prop :=
  (forall i, dead i (core w) -> dead i (core w'))
  /\ forall id i, only_launch id i (core w') -> dead i (core w) ->
    only_launch id i (core w) /\ work id i (core w') <= work id i (core w)
    /\ ((exists fd t, fd ∈ fds /\ fd_map w !! fd = Some (id, t)) -> work id i (core w') < work id i (core w)).

Lemma serves_calm fd w w' : calm w w' -> fd_map w !! fd = None -> serves [fd] w w'.
Proof.
  intros Hc Hno. split; [apply Hc|]. intros id i Hl Hd. destruct (cm_work _ _ Hc id i Hl Hd) as (? & ? & ->). split_and!; try done.
  intros (fd' & t & ->%list_elem_of_singleton & E). congruence.
Qed.

Lemma serves_kept fd id t w w' : kept fd w w' -> fd_map w !! fd = Some (id, t) -> serves [fd] w w'.
Proof.
  intros Hk Hfd. split; [apply Hk|]. intros id' i Hl Hd. assert (only_launch id' i (core w)) as Hl'.
  { unfold only_launch in *. cbn in *. by rewrite (kp_launched _ _ _ Hk) in Hl. }
  destruct (kp_work _ _ _ Hk id t Hfd id' i Hl' Hd) as (? & ? & Hlt). split_and!; try done.
  intros (fd' & t' & ->%list_elem_of_singleton & E). apply Hlt. congruence.
Qed.

Lemma serves_trans fd fds w1 w2 w3 : serves [fd] w1 w2 -> serves fds w2 w3 ->
  (forall fd' x, fd' <> fd -> fd_map w1 !! fd' = Some x -> fd_map w2 !! fd' = Some x) -> fd ∉ fds ->
  serves (fd :: fds) w1 w3.
Proof.
  intros [Hd1 Hs1] [Hd2 Hs2] Hm Hni. split; [auto|]. intros id i Hl Hd.
  destruct (Hs2 id i Hl (Hd1 i Hd)) as (Hl2 & Hle2 & Hlt2).
  destruct (Hs1 id i Hl2 Hd) as (Hl1 & Hle1 & Hlt1). split_and!; [done|lia|].
  intros (fd' & t & [->|Hin]%elem_of_cons & E).
  - assert (work id i (core w2) < work id i (core w1)) by (apply Hlt1; exists fd, t; set_solver). lia.
  - assert (work id i (core w3) < work id i (core w2)); [|lia]. apply Hlt2. exists fd', t. split; [done|].
    apply Hm; [set_solver|done].
Qed.

(** One descriptor: the worker goes on with what it needs for the others, or
    has ended; it does not block, and queues little. *)
Lemma handle_fd_effect fd fds w : good w -> pending_ok (fd :: fds) w ->
  exists r w', handle_fd fd w = (r, w')
    /\ ((exists c, r = Exit c /\ end_cause c w w')
        \/ r = Ok tt /\ good w' /\ pending_ok fds w' /\ ctrl w' = ctrl w /\ peer_open (kernel w') = peer_open (kernel w)
           /\ len (out w') <= len (out w) + (if fd =? ctrl w then 0 else 65545)
           /\ serves [fd] w w'
           /\ (forall fd' x, fd' <> fd -> fd_map w !! fd' = Some x -> fd_map w' !! fd' = Some x)).
Proof.
  intros Hg (Hnd & Hct & Hall). apply NoDup_cons in Hnd as [Hfd Hnd]. apply Forall_cons in Hall as [Hrd Hall].
  unfold handle_fd, catch. rewrite get_bind. cbn [tail] in Hct.
  assert (ctrl w ∉ tail fds) as Hct' by (destruct fds; [done|]; cbn; set_solver).
  rewrite Forall_forall in Hall.
  destruct (fd =? ctrl w) eqn:Hk; [apply Z.eqb_eq in Hk|apply Z.eqb_neq in Hk].
  - destruct (read_ctrl_effect w Hg) as (r & w' & -> & Hr & Hcalm).
    pose proof Hcalm as [Hg' Hc' Ho' Hpe' Hr' Hw' Hd' Hmap'].
    assert (pending_ok fds w') as Hpend.
    { split_and!; [done|by rewrite Hc'|]. apply Forall_forall. intros fd' Hin.
      destruct (Hall _ Hin) as [Hcr|[_ Hno]]; [|set_solver]. left. apply Hr'; [set_solver|done]. }
    assert (serves [fd] w w') as Hsv by (apply serves_calm; [done|]; subst fd; by apply ctrl_not_mapped).
    assert (forall fd' x, fd' <> fd -> fd_map w !! fd' = Some x -> fd_map w' !! fd' = Some x) as Hst
      by (intros; by eapply lookup_weaken).
    destruct Hr as [->|[->|[c [-> Hend]]]].
    + exists (Ok tt), w'. split; [done|]. right. rewrite Ho'. split_and!; try done. lia.
    + rewrite get_bind. subst fd. rewrite <-Hc', (ctrl_not_mapped _ Hg').
      exists (Ok tt), w'. split; [done|]. right. rewrite Hc', Ho'. split_and!; try done. lia.
    + exists (Exit c), w'. eauto.
  - assert (ctrl w ∉ fd :: fds) as Hctf by set_solver.
    destruct (fd_map w !! fd) as [[id t]|] eqn:Hm.
    + assert (can_read fd (kernel w) = true) as Hcr by (destruct Hrd as [|[? _]]; [done|congruence]).
      destruct (on_pipe_readable_effect fd id t w (gd_inv _ Hg) (gd_req _ Hg) Hm Hcr)
        as (r & w' & -> & [[-> Hpe]|(-> & Hkept & fs & Hsent & He)]).
      { exists (Exit 0), w'. split; [done|]. left. exists 0. split; [done|]. by left. }
      exists (Ok tt), w'. split; [done|]. right. split; [done|].
      split; [by eapply good_kept; eauto using fd_map_id|]. pose proof (em_ctrl _ _ _ He) as Hc'.
      split; [|split_and!; [done|apply He| |by eapply serves_kept|]].
      2: { pose proof (em_out _ _ _ He). pose proof (proj2 Hsent). lia. }
      2: { intros fd' x Hne Hx. by rewrite (kp_stay _ _ _ Hkept). }
      split_and!; [done|by rewrite Hc'|]. apply Forall_forall. intros fd' Hin. rewrite Hc'.
      assert (fd' <> fd) by (intros ->; done).
      destruct (fd_map w' !! fd') as [x|] eqn:Hm'; [left|right; split; [done|set_solver]].
      apply Hkept; [done|by eauto|]. destruct (Hall _ Hin) as [|[Hno _]]; [done|].
      by rewrite (lookup_weaken _ _ _ _ Hm' (kp_map _ _ _ Hkept)) in Hno.
    + exists (Ok tt), w. split; [done|]. right. split; [done|]. split; [done|].
      split; [|split_and!; [done|done|lia| |done]].
      2: { apply serves_calm; [by apply calm_refl|done]. }
      split_and!; [done..|]. apply Forall_forall. intros fd' Hin. destruct (Hall _ Hin) as [|[? _]]; [by left|right]. set_solver.
Qed.

Lemma handle_fds_effect fds w : good w -> pending_ok fds w ->
  exists r w', handle_fds fds w = (r, w')
    /\ ((exists c, r = Exit c /\ end_cause c w w')
        \/ r = Ok tt /\ good w' /\ ctrl w' = ctrl w /\ peer_open (kernel w') = peer_open (kernel w)
           /\ len (out w') <= len (out w) + 65545 * len (filter (fun fd => fd <> ctrl w) fds)
           /\ serves fds w w').
Proof.
  revert w. induction fds as [|fd fds IH]; intros w Hg Hp.
  - exists (Ok tt), w. split; [done|]. right. split_and!; try done; [change (len _) with 0 at 3; lia|].
    split; [done|]. intros id i Hl Hd. split_and!; try done. intros (fd & t & Hin & _). set_solver.
  - pose proof (proj1 Hp) as [Hni _]%NoDup_cons. cbn [handle_fds]. rewrite M_bind_eq.
    destruct (handle_fd_effect fd fds w Hg Hp)
      as (r & w1 & -> & [[c [-> Hend]]|(-> & Hg1 & Hp1 & Hc1 & Hpe1 & Ho1 & Hsv1 & Hst1)]); [eauto 7|].
    destruct (IH w1 Hg1 Hp1) as (r & w2 & -> & [(c & -> & Hend)|(-> & Hg2 & Hc2 & Hpe2 & Ho2 & Hsv2)]).
    { exists (Exit c), w2. split; [done|]. left. exists c. split; [done|]. unfold end_cause in *. by rewrite <-Hpe1. }
    exists (Ok tt), w2. split; [done|]. right. split; [done|]. split; [done|]. split; [congruence|]. split; [congruence|].
    split; [|by eapply serves_trans]. rewrite Hc1 in Ho2.
    destruct (fd =? ctrl w) eqn:Hk; [apply Z.eqb_eq in Hk|apply Z.eqb_neq in Hk].
    + rewrite filter_cons_False by (intros E; done). lia.
    + rewrite filter_cons_True by done. rewrite len_cons. lia.
Qed.

(** A turn of the loop, with what [select] may report. *)
Lemma serve_turn_effect readable writable w : good w -> select_ok w readable writable ->
  exists r w', serve_turn readable writable w = (r, w')
    /\ ((exists c, r = Exit c /\ end_cause c w w')
        \/ r = Ok tt /\ good w' /\ ctrl w' = ctrl w /\ peer_open (kernel w') = peer_open (kernel w)
           /\ len (out w') <= len (out w) + 65545 * len (filter (fun fd => fd <> ctrl w) readable)
           /\ serves readable w w').
Proof.
  intros Hg (Hnd & Hall & Hct & _). unfold serve_turn. rewrite M_bind_eq.
  assert (exists r w1, (if writable then _flush else mret tt) w = (r, w1) /\ io_step w w1
    /\ (r = Ok tt \/ r = Exit 0 /\ peer_open (kernel w) = false)) as (r & w1 & -> & Hio & Hr).
  { destruct writable; [|exists (Ok tt), w; by auto using io_step_refl].
    destruct (flush_effect w) as (r & w1 & -> & ? & ?); eauto 6. }
  destruct Hr as [-> | [-> Hgone]]; [|exists (Exit 0), w1; split; [done|]; left; exists 0; split; [done|]; by left].
  pose proof Hio as [Hc Hk _ Hin Hpe _ _ Ho].
  destruct (handle_fds_effect readable w1) as (r & w2 & -> & [(c & -> & Hend)|(-> & Hg2 & Hc2 & Hpe2 & Ho2 & Hsv)]);
    [by eapply good_io| | |].
  - split_and!; [done|by rewrite Hk|]. eapply Forall_impl; [done|]. cbn. intros fd [_ Hcr]. left.
    revert Hcr. unfold can_read. by rewrite (f_equal c_table Hc : table (kernel w1) = _),
      (f_equal c_pipes Hc : pipes (kernel w1) = _), Hin, Hpe.
  - exists (Exit c), w2. split; [done|]. left. exists c. split; [done|]. unfold end_cause in *. by rewrite <-Hpe.
  - exists (Ok tt), w2. split; [done|]. right. split_and!; [done|done|congruence|congruence| |].
    + rewrite Hk in Ho2. unfold len in *. lia.
    + unfold serves in *. rewrite Hc in Hsv. by rewrite (f_equal c_fd_map Hc : fd_map w1 = _) in Hsv.
Qed.

End Worker.
