(* ===== verification/WorkerSpec.v ===== *)
(** * WorkerSpec: what the zygote worker guarantees

    The properties of the worker as a whole: the stream it sends, the life of
    a request, its bounds and its end, and the composition with the server's
    reader ([Reader]) into what a caller receives. *)

From S2P Require Import Prelude RustStd Wire Reader Models Runners Posix Worker WorkerInv.

#[local] Arguments frames_of : simpl never.
#[local] Arguments payloads : simpl never.

(** ** Lemmas: executions *)

Section Executions.
Context `{Os} `{PyJson}.

Lemma good_init ctrl_fd room : good (zygote (init ctrl_fd room)).
Proof.
  split; try done.
  - split; cbn; intros *; rewrite ?lookup_empty, ?lookup_nil, ?lookup_singleton_Some; try done; naive_solver.
  - intros fd. cbn. rewrite lookup_singleton_Some. naive_solver.
Qed.

Lemma good_env m w k : good w -> env_step m (kernel w) = Some k -> good (set_kernel k w).
Proof.
  intros Hg Hk. pose proof (env_step_evolves m w k (gd_inv _ Hg) Hk) as Hev. pose proof Hg as [Hi Hr Hs Hid Hf Ht Hin].
  destruct (ev_rest _ _ Hev) as (Et & _). cbn in Et.
  assert (wire k = wire (kernel w) /\ Forall (fun bs => bs <> []) (inbox k)) as [Ew Eb].
  { destruct (env_step_sock _ _ _ Hk) as [-> Hb]. split; [done|].
    destruct Hb as [->|(bs & Hne & ->)]; [done|]. by apply Forall_app_2; [|apply Forall_singleton]. }
  split; try done.
  - by eapply inv_evolves.
  - intros id. by eapply req_ok_evolves.
  - unfold produced. cbn. by rewrite Ew.
  - cbn. by rewrite Et.
Qed.

(** The invariant of executions: a worker that serves is in a good state, and
    no worker is stuck. *)
Definition sound (s : State) : Prop :=
  st_status s <> Stuck /\ (st_status s = Serving -> good (zygote s)).

Lemma exec_turn readable writable s s' : st_status s = Serving -> exec (Turn readable writable) s = Some s' ->
  (select_range (zygote s) = false /\ s' = mkState (zygote s) (Ended 1))
  \/ (select_ok (zygote s) readable writable
     /\ exists r, serve_turn readable writable (zygote s) = (r, zygote s')
        /\ st_status s' = match r with Ok _ => Serving | Raise => Ended 1 | Exit c => Ended c | Hang => Stuck end).
Proof.
  intros Hs. unfold exec. rewrite Hs. destruct (select_range (zygote s)); cbn [negb]; [|intros [= <-]; by left].
  case_bool_decide; [|done]. right. destruct (serve_turn readable writable (zygote s)) as [r w]. simplify_eq. eauto.
Qed.

Lemma select_range_false w : select_range w = false ->
  exists fd, FD_SETSIZE <= fd /\ (fd = ctrl w \/ is_Some (fd_map w !! fd)).
Proof.
  intros E%bool_decide_eq_false. apply (not_set_Forall_Exists _) in E as (fd & Hin & Hfd). cbn in Hfd.
  exists fd. split; [lia|]. unfold rlist in Hin. rewrite elem_of_union, elem_of_singleton in Hin.
  destruct Hin as [->|Hin]; [by left|right]. by case_match; [apply elem_of_dom in Hin|].
Qed.

Lemma sound_exec e s s' : sound s -> exec e s = Some s' -> sound s'.
Proof.
  intros [Hns Hg] He. destruct e as [readable writable|m].
  - destruct (st_status s) eqn:Hs; [|by unfold exec in He; rewrite Hs in He..].
    destruct (exec_turn _ _ _ _ Hs He) as [[_ ->]|(Hsel & r & Hr & Hst)]; [done|].
    destruct (serve_turn_effect readable writable (zygote s) (Hg eq_refl) Hsel)
      as (r' & w' & Ht & [(c & -> & _)|(-> & Hg' & _)]); rewrite Hr in Ht; injection Ht as -> Hw; split; congruence.
  - cbn in He. destruct (env_step m (kernel (zygote s))) as [k|] eqn:Hk; simplify_eq/=.
    split; [done|]. cbn. intros Hs. by eapply good_env; [apply Hg|].
Qed.

Lemma run_events_cons e es s : run_events (e :: es) s = exec e s ≫= run_events es.
Proof.
  unfold run_events. cbn. destruct (exec e s) as [s1|]; [done|]. cbn.
  induction es as [|e' es IH]; [done|]. cbn. done.
Qed.

Lemma sound_run es s s' : sound s -> run_events es s = Some s' -> sound s'.
Proof.
  revert s. induction es as [|e es IH]; intros s Hs; [by intros [= <-]|]. rewrite run_events_cons.
  destruct (exec e s) as [s1|] eqn:E; [|done]. apply IH. by eapply sound_exec.
Qed.

Lemma reachable_sound s : reachable s -> sound s.
Proof.
  intros (c & r & es & Hes). eapply sound_run; [|done]. split; [done|]. intros _. apply good_init.
Qed.

Lemma run_events_snoc es e s : run_events (es ++ [e]) s = run_events es s ≫= exec e.
Proof. unfold run_events. by rewrite foldl_app. Qed.

(** A worker that serves now served all along. *)
Lemma serving_before e s s' : exec e s = Some s' -> st_status s' = Serving -> st_status s = Serving.
Proof.
  destruct e as [readable writable|m]; cbn.
  - by destruct (st_status s).
  - destruct (env_step m (kernel (zygote s))); [|done]. by intros [= <-].
Qed.

Lemma turn_serving readable writable s s' : sound s -> st_status s = Serving ->
  exec (Turn readable writable) s = Some s' -> st_status s' = Serving ->
  good (zygote s') /\ len (out (zygote s'))
    <= len (out (zygote s)) + 65545 * len (filter (fun fd => fd <> ctrl (zygote s)) readable)
  /\ serves readable (zygote s) (zygote s').
Proof.
  intros [_ Hg] Hs He Hs'. destruct (exec_turn _ _ _ _ Hs He) as [[_ ->]|(Hsel & r & Hr & Hst)]; [done|].
  destruct (serve_turn_effect readable writable (zygote s) (Hg Hs) Hsel)
    as (r' & w' & Ht & [(c & -> & _)|(-> & Hg' & _ & _ & Ho & Hsv)]); rewrite Hr in Ht; injection Ht as -> Hw;
    [congruence|by subst w'].
Qed.

(** The pipes a turn handles are in [fd_map], and none when the buffer is full. *)
Lemma turn_fds readable writable w : select_ok w readable writable ->
  len (filter (fun fd => fd <> ctrl w) readable)
    <= if len (out w) <? _SEND_BUF_CAP then Z.of_nat (size (fd_map w)) else 0.
Proof.
  intros (Hnd & Hall & _). set (l := filter _ _).
  assert (forall fd, fd ∈ l -> len (out w) < _SEND_BUF_CAP /\ fd ∈ dom (fd_map w)) as Hl.
  { intros fd [Hne Hin]%list_elem_of_filter. rewrite Forall_forall in Hall. destruct (Hall _ Hin) as [Hr _].
    unfold rlist in Hr. destruct (len (out w) <? _SEND_BUF_CAP) eqn:E; [apply Z.ltb_lt in E|];
      apply elem_of_union in Hr as [->%elem_of_singleton|Hr]; done. }
  destruct (len (out w) <? _SEND_BUF_CAP) eqn:E.
  - unfold len. apply inj_le. rewrite <-size_dom, <-(size_list_to_set (C := gset Z) l) by (by apply NoDup_filter).
    apply subseteq_size. intros fd Hfd%elem_of_list_to_set. by apply Hl.
  - apply Z.ltb_ge in E. destruct l as [|fd l]; [done|]. destruct (Hl fd) as [Hlt _]; [left|lia].
Qed.

(** The turns of [es] that handle a stream of request [id]. *)
Fixpoint turns_for (id : Z) (es : list event) (s : State) : Z :=
  match es with
  | [] => 0
  | e :: es =>
    (match e with
     | Turn readable _ =>
       if existsb (fun fd => bool_decide (fst <$> fd_map (zygote s) !! fd = Some id)) readable then 1 else 0
     | Env _ => 0
     end)
    + match exec e s with Some s' => turns_for id es s' | None => 0 end
  end.

(** One event: a request with a dead child has no more work than before, and
    less after a turn that handled one of its streams. *)
Lemma exec_work e s s' id i : sound s -> exec e s = Some s' -> st_status s' = Serving ->
  dead i (core (zygote s)) ->
  dead i (core (zygote s'))
  /\ (only_launch id i (core (zygote s')) -> only_launch id i (core (zygote s))
     /\ work id i (core (zygote s')) + turns_for id [e] s <= work id i (core (zygote s))).
Proof.
  intros Hsd He Hs' Hd. pose proof (serving_before _ _ _ He Hs') as Hs. destruct e as [readable writable|m].
  - destruct (turn_serving _ _ _ _ Hsd Hs He Hs') as (_ & _ & Hsv).
    split; [by apply Hsv|]. intros Hl. destruct (proj2 Hsv id i Hl Hd) as (Hl0 & Hle & Hlt). split; [done|]. cbn [turns_for]. rewrite He.
    destruct (existsb _ readable) eqn:E; [|lia]. apply existsb_exists in E as (fd & Hin & E%bool_decide_eq_true).
    apply fmap_Some in E as ([id' t] & Hfd & ->). apply list_elem_of_In in Hin.
    assert (work id' i (core (zygote s')) < work id' i (core (zygote s))); [|cbn in *; lia]. apply Hlt. eauto.
  - cbn in He. destruct (env_step m (kernel (zygote s))) as [k|] eqn:Hk; [|done]. simplify_eq/=.
    pose proof (gd_inv _ (proj2 Hsd Hs)) as Hinv. pose proof (env_step_evolves m _ k Hinv Hk) as Hev.
    pose proof (same_face_evolves id i _ _ Hinv Hd Hev) as Hf. split; [by eapply same_face_dead|]. intros Hl.
    split; [done|]. unfold work. rewrite !(same_face_work _ _ _ _ Hinv Hd Hf). cbn. rewrite Hk. cbn. lia.
Qed.

Lemma run_work es s s' id i : sound s -> run_events es s = Some s' -> st_status s' = Serving ->
  dead i (core (zygote s)) -> only_launch id i (core (zygote s')) ->
  work id i (core (zygote s')) + turns_for id es s <= work id i (core (zygote s)).
Proof.
  intros Hsd Hrun Hs'.
  enough (dead i (core (zygote s)) -> only_launch id i (core (zygote s')) ->
    only_launch id i (core (zygote s)) /\ work id i (core (zygote s')) + turns_for id es s <= work id i (core (zygote s))) by naive_solver.
  revert s Hsd Hrun. induction es as [|e es IH]; intros s Hsd Hrun Hd Hl.
  - injection Hrun as ->. cbn. split; [done|lia].
  - rewrite run_events_cons in Hrun. destruct (exec e s) as [s1|] eqn:E1; [|done]. cbn in Hrun.
    pose proof (sound_exec _ _ _ Hsd E1) as Hsd1.
    assert (st_status s1 = Serving) as Hs1.
    { clear -Hrun Hs'. revert s1 Hrun. induction es as [|e es IH]; intros s1 Hrun; [by injection Hrun as ->|].
      rewrite run_events_cons in Hrun. destruct (exec e s1) as [s2|] eqn:E; [|done]. eapply serving_before; [done|]. by apply IH. }
    destruct (exec_work e s s1 id i Hsd E1 Hs1 Hd) as [Hd1 Hstep].
    destruct (IH s1 Hsd1 Hrun Hd1 Hl) as [Hl1 Hle]. destruct (Hstep Hl1) as [Hl0 Hle1].
    split; [done|]. cbn [turns_for] in Hle1 |- *. rewrite E1 in *. lia.
Qed.

End Executions.

(** ** Lemmas: what the reader makes of a request's frames *)

Lemma i32_roundtrip z : is_i32 z -> done_exit_code (i32_to_be_bytes z) = z.
Proof.
  intros Hz. unfold i32_to_be_bytes, u32_to_be_bytes, done_exit_code, i32_from_be_bytes.
  rewrite u32_be_bytes_roundtrip by apply i32_to_u32_range. unfold i32_to_u32, u32_to_i32, is_i32, i32_min, i32_max in *.
  pose proof (Z.mod_pos_bound z 4294967296 ltac:(lia)). case_match; Z.div_mod_to_equations; lia.
Qed.

Lemma view_run_app max v fs gs : view_run max v (fs ++ gs) = view_run max (view_run max v fs) gs.
Proof. apply foldl_app. Qed.

(** Output without an end, within the cap: it is collected. *)
Lemma view_run_output max fs o e : Forall (fun f => f_type f <> MSG_DONE) fs ->
  len o + len e + len (payloads MSG_STDOUT fs) + len (payloads MSG_STDERR fs) <= max ->
  view_run max (mkView (Some (o, e)) None false) fs
    = mkView (Some (o ++ payloads MSG_STDOUT fs, e ++ payloads MSG_STDERR fs)) None false.
Proof.
  intros Hf. revert o e. induction Hf as [|f fs Hf _ IH]; intros o e Hlen.
  - cbn. unfold payloads. cbn. by rewrite !app_nil_r.
  - change (f :: fs) with ([f] ++ fs) in *. rewrite !payloads_app, !len_app, !payloads_one in Hlen.
    rewrite !payloads_app, !payloads_one. rewrite view_run_app. change (view_run max ?v [f]) with (view_step max v f).
    unfold view_step. cbn [v_buf]. destruct (decide (f_type f = MSG_STDOUT)) as [E|E].
    + rewrite E in *. rewrite decide_False in Hlen by done. rewrite bool_decide_true, decide_False by done.
      unfold view_output. cbn [v_answer v_killed]. destruct (max <? _) eqn:Hmax; [exfalso; len_lia|].
      rewrite app_nil_l. rewrite IH; [by rewrite !app_assoc|len_lia].
    + rewrite bool_decide_false by done. destruct (decide (f_type f = MSG_STDERR)) as [E'|E'].
      * rewrite bool_decide_true by done. unfold view_output. cbn [v_answer v_killed].
        destruct (max <? _) eqn:Hmax; [exfalso; len_lia|]. rewrite app_nil_l.
        rewrite IH; [by rewrite !app_assoc|len_lia].
      * rewrite bool_decide_false by done. rewrite (bool_decide_false (f_type f = MSG_DONE)) by done.
        rewrite !app_nil_l. apply IH. len_lia.
Qed.

Lemma waitstatus_i32 st code : waitstatus_to_exitcode st = Some code -> is_i32 code.
Proof.
  unfold waitstatus_to_exitcode, status_code, status_signal. rewrite land_127, land_255.
  pose proof (Z.mod_pos_bound (Z.shiftr st 8) 256 ltac:(lia)). unfold is_i32, i32_min, i32_max.
  destruct (st mod 128 =? 0); [intros [= <-]; lia|].
  destruct ((1 <=? st mod 128) && (st mod 128 <=? 126)) eqn:E; [|done]. cbn. intros [= <-]. lia.
Qed.

Section Properties.
Context `{Os} `{PyJson}.

(** A request whose id was used once: its child and pipes, and what is known
    of them. *)
Lemma request_state w id i : good w -> only_launch id i (core w) ->
  exists pr pp, procs (kernel w) !! i = Some pr
    /\ (forall x, pipes (kernel w) !! pipe_of x pr = Some (pp x))
    /\ (forall x, (pp_off (pp x) <= length (pp_data (pp x)))%nat)
    /\ match reqs w !! id with
       | Some ri => in_flight id i pp ri (core w)
       | None => over id pr pp (core w)
       end.
Proof.
  intros Hg Hl. pose proof (gd_inv _ Hg) as Hinv.
  destruct (proj1 Hl) as [js Hi]. apply lookup_lt_Some in Hi as Hlt. rewrite (inv_len _ Hinv) in Hlt.
  apply lookup_lt_is_Some_2 in Hlt as [pr Hp].
  assert (exists pp, forall x, c_pipes (core w) !! pipe_of x pr = Some (pp x)
      /\ (pp_off (pp x) <= length (pp_data (pp x)))%nat) as [pp Hpp].
  { apply (stream_choice (fun x p => c_pipes (core w) !! pipe_of x pr = Some p /\ (pp_off p <= length (pp_data p))%nat)).
    intros x. destruct (inv_pipe _ Hinv _ _ x Hp) as (p & ? & _ & ? & _). eauto. }
  exists pr, pp. split; [done|]. split; [apply Hpp|]. split; [apply Hpp|].
  apply (gd_req _ Hg id i pr pp Hl Hp). apply Hpp.
Qed.

(** The same at any time of a serving worker. *)
Lemma request_known s id i : reachable s -> st_status s = Serving -> only_launch id i (core (zygote s)) ->
  exists pr pp, procs (kernel (zygote s)) !! i = Some pr
    /\ (forall x, pipes (kernel (zygote s)) !! pipe_of x pr = Some (pp x))
    /\ (forall x, (pp_off (pp x) <= length (pp_data (pp x)))%nat)
    /\ match reqs (zygote s) !! id with
       | Some ri => in_flight id i pp ri (core (zygote s))
       | None => over id pr pp (core (zygote s))
       end.
Proof. intros [_ Hg]%reachable_sound Hs Hl. by apply request_state; [apply Hg|]. Qed.

(** C7. The worker's side of the protocol. The bytes produced for the server
    are the encodings of the frames sent, in order. For a request whose id was
    used once: while it is in flight, its frames carry exactly what was read
    of its child's output, stream by stream, and no [MSG_DONE]; once it is
    over, its last frame, and no other, is a [MSG_DONE] with the exit code of
    the child's wait status, the child has been waited for, and its frames
    carry all its output; standard error may end with the worker's own
    "process terminated". *)
Theorem worker_protocol s id i :
  reachable s -> st_status s = Serving -> only_launch id i (core (zygote s)) ->
  let w := zygote s in
  let fs := frames_of id (frames w) in
  produced w = concat (encode <$> frames w)
  /\ exists pr po pe, procs (kernel w) !! i = Some pr
     /\ pipes (kernel w) !! pr_out pr = Some po /\ pipes (kernel w) !! pr_err pr = Some pe
     /\ payloads MSG_STDOUT fs = take (pp_off po) (pp_data po)
     /\ match reqs w !! id with
        | Some _ => payloads MSG_STDERR fs = take (pp_off pe) (pp_data pe) /\ Forall (fun f => f_type f <> MSG_DONE) fs
        | None => exists st code before extra,
            pr_state pr = Reaped st /\ waitstatus_to_exitcode st = Some code
            /\ fs = before ++ [closing id code] /\ Forall (fun f => f_type f <> MSG_DONE) before
            /\ (extra = [] \/ extra = TERMINATED)
            /\ payloads MSG_STDERR fs = take (pp_off pe) (pp_data pe) ++ extra
            /\ (no_read_error -> payloads MSG_STDOUT fs = pp_data po /\ payloads MSG_STDERR fs = pp_data pe ++ extra)
        end.
Proof.
  intros Hr Hs Hl w fs. split; [by apply reachable_sound|].
  destruct (request_known s id i Hr Hs Hl) as (pr & pp & Hp & Hpp & Hle & Hst).
  exists pr, (pp StdOut), (pp StdErr). split; [done|]. split; [apply (Hpp StdOut)|]. split; [apply (Hpp StdErr)|].
  fold w in Hst. destruct (reqs w !! id) as [ri|].
  - destruct Hst as (_ & _ & Hd & Hs'). split; [apply (Hs' StdOut)|]. split; [apply (Hs' StdErr)|done].
  - destruct Hst as (_ & st & f & before & extra & Hpr & (code & Hcode & ->) & Hf & Hd & Hex & Hs').
    change (frames_of id (c_frames (core w))) with fs in *.
    destruct (Hs' StdOut) as [Ho Hdo], (Hs' StdErr) as [He Hde]. cbn [mtype_of] in Ho, He. rewrite app_nil_r in Ho.
    split; [done|]. exists st, code, before, extra. split_and!; try done. intros Hn.
    rewrite Ho, He, (proj1 (Hdo Hn)), (proj1 (Hde Hn)), !firstn_all. done.
Qed.

(** End to end: when a request is over and the worker's buffer is empty,
    the server's reader, however the stream is cut into reads, has sent the
    caller waiting on the request exactly one answer: the child's standard
    output and standard error, decoded, and the exit code of its wait status,
    provided they are within the cap. *)
Theorem worker_to_caller `{DashIter} s id i max ds c sh :
  reachable s -> st_status s = Serving -> only_launch id i (core (zygote s)) -> no_read_error ->
  reqs (zygote s) !! id = None -> out (zygote s) = [] ->
  concat ds = wire (kernel (zygote s)) -> Forall (fun d => d <> []) ds ->
  65536 <= max < usize_max -> owns id c sh -> pending sh !! id = Some (mkPending [] [] (Some c)) ->
  sends_to c sh = [] -> kills_of id sh = [] ->
  exists pr po pe st code extra sh',
    procs (kernel (zygote s)) !! i = Some pr /\ pr_state pr = Reaped st /\ waitstatus_to_exitcode st = Some code
    /\ pipes (kernel (zygote s)) !! pr_out pr = Some po /\ pipes (kernel (zygote s)) !! pr_err pr = Some pe
    /\ (extra = [] \/ extra = TERMINATED)
    /\ read_loop max (ReadOk <$> ds) [] sh = (Some [], sh')
    /\ (len (pp_data po) + len (pp_data pe ++ extra) <= max ->
        sends_to c sh' = [(from_utf8_lossy (pp_data po), from_utf8_lossy (pp_data pe ++ extra), code)]
        /\ kills_of id sh' = []).
Proof.
  intros Hr Hs Hl Hn Hrq Hout Hds Hne Hmax Ho Hp Hsend Hkill.
  pose proof (reachable_sound s Hr) as [_ Hg]. specialize (Hg Hs).
  destruct (request_known s id i Hr Hs Hl) as (pr & pp & Hpr & Hpp & Hle & Hst). rewrite Hrq in Hst.
  destruct Hst as (_ & st & f & before & extra & Hps & (code & Hcode & ->) & Hf & Hd & Hex & Hpay).
  change (c_frames (core (zygote s))) with (frames (zygote s)) in *.
  exists pr, (pp StdOut), (pp StdErr), st, code, extra, (run_frames max (frames (zygote s)) sh).
  split_and!; try done; [apply (Hpp StdOut)|apply (Hpp StdErr)| |].
  - assert (concat ds = concat (encode <$> frames (zygote s))) as Hcat.
    { rewrite Hds, <-(gd_stream _ Hg). unfold produced. by rewrite Hout, app_nil_r. }
    assert (ds <> []) as Hds'.
    { intros ->. apply (f_equal len) in Hcat. destruct (frames (zygote s)) as [|g gs]; [by destruct before|].
      rewrite fmap_cons in Hcat. cbn [concat] in Hcat. rewrite len_app, len_encode in Hcat. unfold HEADER_SIZE in Hcat.
      len_lia. }
    rewrite read_loop_chunks, Hcat by done. cbn [app]. rewrite <-(app_nil_r (concat _)), drain_frames; [done|].
    eapply Forall_impl; [apply Hg|]. intros g (? & ? & ?). split_and!; try done; lia.
  - intros Hlen.
    assert (is_u32 id) as Hid.
    { destruct (proj1 Hl) as [js Hi]. pose proof (gd_ids _ Hg) as Hids. rewrite Forall_lookup in Hids. exact (Hids _ _ Hi). }
    assert (shows id c sh view_init) as Hsh.
    { split; [done|]. split; [done|]. split; done. }
    assert (Forall (fun f => is_u32 (f_req f)) (frames (zygote s))) as Hu.
    { eapply Forall_impl; [apply Hg|]. by intros g (? & _). }
    pose proof (shows_run_frames max id c (frames (zygote s)) sh view_init (proj2 Hmax) Hid Hu Ho Hsh) as Hfin.
    rewrite Hf in Hfin, Hpay. rewrite view_run_app in Hfin.
    destruct (Hpay StdOut) as [Eo Hdo], (Hpay StdErr) as [Ee Hde]. cbn [mtype_of] in Eo, Ee.
    rewrite payloads_app, payloads_one in Eo, Ee. cbn in Eo, Ee. rewrite !app_nil_r in *.
    rewrite (proj1 (Hdo Hn)), firstn_all in Eo. rewrite (proj1 (Hde Hn)), firstn_all in Ee.
    unfold view_init in Hfin. rewrite view_run_output in Hfin; [|done|rewrite Eo, Ee; rewrite (@len_nil byte); lia].
    rewrite Eo, Ee in Hfin. cbn in Hfin.
    rewrite i32_roundtrip in Hfin by (by eapply waitstatus_i32). destruct Hfin as (-> & -> & _). done.
Qed.

(** C24. Robustness: the loop never blocks outside [select] (a ready pipe is
    still ready when its turn comes, and a child is waited for only when it is
    dead or was sent SIGKILL), and it ends only when the server is gone (code
    0) or sent a frame longer than the cap (code 1), or with the exception of
    [select] on a descriptor of 1024 or more, which is the control socket or a
    stream of a request. *)
Theorem worker_survives s : reachable s ->
  st_status s <> Stuck
  /\ forall e s' c, st_status s = Serving -> exec e s = Some s' -> st_status s' = Ended c ->
     c = 0 /\ peer_open (kernel (zygote s)) = false
     \/ c = 1 /\ parse_frame _MAX_FRAME_PAYLOAD (recv_buf (zygote s')) = Oversized
     \/ c = 1 /\ exists fd, FD_SETSIZE <= fd /\ (fd = ctrl (zygote s) \/ is_Some (fd_map (zygote s) !! fd)).
Proof.
  intros [Hns Hg]%reachable_sound. split; [done|]. intros e s' c Hs He Hst. destruct e as [readable writable|m].
  - destruct (exec_turn _ _ _ _ Hs He) as [[Hrange ->]|(Hsel & r & Hr & Hst')].
    { injection Hst as <-. do 2 right. split; [done|]. by apply select_range_false. }
    destruct (serve_turn_effect readable writable (zygote s) (Hg Hs) Hsel)
      as (r' & w' & Ht & [(c' & -> & Hend)|(-> & _)]); rewrite Hr in Ht; injection Ht as -> <-; [|congruence].
    assert (c = c') as -> by congruence. destruct Hend as [?|?]; [by left|by right; left].
  - cbn in He. destruct (env_step m (kernel (zygote s))); simplify_eq/=. congruence.
Qed.

(** C25. Backpressure: the outgoing buffer is bounded. As long as at most [n]
    streams are open at any time, it never holds more than its cap and one
    read of every stream, whatever the children write and however slowly the
    server reads; and a turn that starts with a full buffer does not add to it. *)
Theorem worker_buffer_bound ctrl_fd room es s n :
  run_events es (init ctrl_fd room) = Some s -> st_status s = Serving ->
  (forall es1 es2 s1, es = es1 ++ es2 -> run_events es1 (init ctrl_fd room) = Some s1 ->
     Z.of_nat (size (fd_map (zygote s1))) <= n) ->
  len (out (zygote s)) <= _SEND_BUF_CAP + 65545 * n
  /\ forall readable writable s', exec (Turn readable writable) s = Some s' -> st_status s' = Serving ->
     _SEND_BUF_CAP <= len (out (zygote s)) -> len (out (zygote s')) <= len (out (zygote s)).
Proof.
  intros Hrun Hs Hn.
  assert (forall e s1 s', sound s1 -> exec e s1 = Some s' -> st_status s' = Serving ->
    len (out (zygote s')) <= len (out (zygote s1))
      + 65545 * (if len (out (zygote s1)) <? _SEND_BUF_CAP then Z.of_nat (size (fd_map (zygote s1))) else 0)) as Hstep.
  { intros e s1 s' Hsd He Hs'. pose proof (serving_before _ _ _ He Hs') as Hs1. destruct e as [readable writable|m].
    - destruct (turn_serving _ _ _ _ Hsd Hs1 He Hs') as (_ & Ho & _). destruct (exec_turn _ _ _ _ Hs1 He) as [[_ ->]|[Hsel _]]; [done|].
      pose proof (turn_fds _ _ _ Hsel). lia.
    - cbn in He. destruct (env_step m (kernel (zygote s1))); simplify_eq/=. case_match; lia. }
  split.
  - revert s Hrun Hs Hn. induction es as [|e es IH] using rev_ind; intros s Hrun Hs Hn.
    + injection Hrun as <-. specialize (Hn [] [] _ eq_refl eq_refl). cbn in Hn |- *. unfold len, _SEND_BUF_CAP. cbn. lia.
    + rewrite run_events_snoc in Hrun. destruct (run_events es (init ctrl_fd room)) as [s1|] eqn:E1; [|done]. cbn in Hrun.
      assert (len (out (zygote s1)) <= _SEND_BUF_CAP + 65545 * n) as Ho1.
      { apply IH; [done|by eapply serving_before|]. intros es1 es2 s2 -> E2. eapply (Hn es1 (es2 ++ [e])); [by rewrite app_assoc|done]. }
      pose proof (Hn es [e] s1 eq_refl E1) as Hn1.
      pose proof (Hstep e s1 s ltac:(by apply reachable_sound; exists ctrl_fd, room, es) Hrun Hs) as Ho.
      destruct (len (out (zygote s1)) <? _SEND_BUF_CAP) eqn:Ecap; [apply Z.ltb_lt in Ecap|]; lia.
  - intros readable writable s' He Hs' Hcap.
    pose proof (Hstep _ s s' ltac:(by apply reachable_sound; exists ctrl_fd, room, es) He Hs') as Ho.
    apply Z.ltb_ge in Hcap. rewrite Hcap in Ho. lia.
Qed.

(** C26. Nothing leaks and no signal goes astray. In a worker whose server uses
    every id once: the process of a request in flight is the child forked for
    it, not yet waited for (so that its number cannot have been reused); every
    child not waited for and every descriptor but the control socket belongs
    to a request in flight. An idle worker has neither. *)
Theorem worker_no_leak s : reachable s -> st_status s = Serving -> NoDup (launched (zygote s)).*1 ->
  let w := zygote s in
  (forall id ri, reqs w !! id = Some ri -> exists i js, launched w !! i = Some (id, js) /\ pids (kernel w) !! ri_pid ri = Some i)
  /\ (forall pid i, pids (kernel w) !! pid = Some i -> exists id ri, reqs w !! id = Some ri /\ ri_pid ri = pid)
  /\ (forall fd d, table (kernel w) !! fd = Some d -> fd = ctrl w \/ exists id ri, reqs w !! id = Some ri /\ fd ∈ ri_open ri)
  /\ (reqs w = ∅ -> pids (kernel w) = ∅ /\ fd_map w = ∅ /\ dom (table (kernel w)) = {[ctrl w]}).
Proof.
  intros Hr Hs Hnd w. pose proof (reachable_sound s Hr) as [_ Hg]. specialize (Hg Hs). pose proof (gd_inv _ Hg) as Hinv.
  assert (forall i id js, launched w !! i = Some (id, js) -> only_launch id i (core w)) as Honce.
  { intros i id js Hi. split; [eauto|]. intros j js' Hj. cbn in Hj.
    apply (NoDup_lookup (launched w).*1 j i id); [done|by rewrite list_lookup_fmap, Hj|by rewrite list_lookup_fmap, Hi]. }
  assert (forall pid i, pids (kernel w) !! pid = Some i -> exists id ri, reqs w !! id = Some ri /\ ri_pid ri = pid) as Hpids.
  { intros pid i Hi. destruct (inv_pids _ Hinv _ _ Hi) as (pr & Hp & Hw).
    apply lookup_lt_Some in Hp as Hlt. rewrite <-(inv_len _ Hinv) in Hlt. apply lookup_lt_is_Some_2 in Hlt as [[id js] Hl].
    destruct (request_known s id i Hr Hs (Honce _ _ _ Hl)) as (pr' & pp & Hp' & _ & _ & Hst).
    change (c_procs (core (zygote s))) with (procs (kernel (zygote s))) in Hp. simplify_eq. fold w in Hst.
    destruct (reqs w !! id) as [ri|] eqn:Hri.
    - exists id, ri. split; [done|]. eapply (inv_pids_inj _ Hinv); [apply Hst|done].
    - destruct Hst as (_ & st & ? & ? & ? & E & _). by rewrite E in Hw. }
  assert (forall fd id t, fd_map w !! fd = Some (id, t) -> exists ri, reqs w !! id = Some ri /\ fd ∈ ri_open ri) as Hfds.
  { intros fd id t Hm. destruct (inv_fd _ Hinv _ _ _ Hm) as (i & js & pr & x & Hl & _).
    destruct (request_known s id i Hr Hs (Honce _ _ _ Hl)) as (pr' & pp & _ & _ & _ & Hst). fold w in Hst.
    destruct (reqs w !! id) as [ri|]; [|by destruct (proj1 Hst fd t)]. exists ri. split; [done|]. by eapply Hst. }
  assert (forall fd d, table (kernel w) !! fd = Some d -> fd = ctrl w \/ exists id ri, reqs w !! id = Some ri /\ fd ∈ ri_open ri) as Htab.
  { intros fd d Hd. destruct (inv_table _ Hinv _ _ Hd) as [->|[[id t] Hm]]; [left; by apply (gd_ctrl _ Hg)|right].
    destruct (Hfds _ _ _ Hm) as (ri & ? & ?). eauto. }
  split_and!; [|done..|].
  - intros id ri Hri. destruct (inv_req _ Hinv _ _ Hri) as (i & js & _ & ? & _ & ? & _). eauto.
  - intros He. split_and!.
    + apply map_empty. intros pid. apply eq_None_not_Some. intros [i Hi].
      destruct (Hpids _ _ Hi) as (id & ri & Hri & _). by rewrite He in Hri.
    + apply map_empty. intros fd. apply eq_None_not_Some. intros [[id t] Hm].
      destruct (Hfds _ _ _ Hm) as (ri & Hri & _). by rewrite He in Hri.
    + apply set_eq. intros fd. rewrite elem_of_dom, elem_of_singleton. split.
      * intros [d Hd]. destruct (Htab _ _ Hd) as [|(id & ri & Hri & _)]; [done|]. by rewrite He in Hri.
      * intros ->. exists Sock. by apply (gd_ctrl _ Hg).
Qed.

(** C20. Every request comes to its end: once the child of a request is dead (by
    itself, or killed), a bounded number of turns that handle one of its
    streams, whatever else happens in between and around them, closes it with
    its [MSG_DONE]. The bound is the number of 64 KiB reads its unread output
    takes and one more for each stream. *)
Theorem worker_request_ends s es s' id i :
  reachable s -> dead i (core (zygote s)) -> run_events es s = Some s' -> st_status s' = Serving ->
  only_launch id i (core (zygote s')) -> work id i (core (zygote s)) <= turns_for id es s ->
  reqs (zygote s') !! id = None /\ exists code, closing id code ∈ frames (zygote s').
Proof.
  intros Hr Hd Hrun Hs' Hl Hw. pose proof (reachable_sound s Hr) as Hsd.
  pose proof (run_work es s s' id i Hsd Hrun Hs' Hd Hl) as Hle.
  assert (reachable s') as Hr'.
  { destruct Hr as (c & room & es0 & Hes0). exists c, room, (es0 ++ es). unfold run_events in *. by rewrite foldl_app, Hes0. }
  pose proof (gd_inv _ (proj2 (reachable_sound s' Hr') Hs')) as Hinv.
  destruct (request_known s' id i Hr' Hs' Hl) as (pr & pp & Hp & Hpp & _ & Hst).
  destruct (reqs (zygote s') !! id) as [ri|] eqn:Hri.
  - exfalso. destruct (inv_req _ Hinv _ _ Hri) as (j & js & pr' & _ & _ & _ & [Hop _] & Hfds).
    apply set_choose_L in Hop as [fd Hfd]. destruct (Hfds _ Hfd) as (x & Efd & _).
    rewrite Efd in Hfd. assert (1 <= stream_work id i x (core (zygote s'))) as Hone.
    { unfold stream_work. cbn. rewrite Hri, Hp, decide_True by done. rewrite Hpp. cbn. apply load_pos. }
    unfold work in Hle, Hw. pose proof (stream_work_nonneg id i StdOut (core (zygote s'))).
    pose proof (stream_work_nonneg id i StdErr (core (zygote s'))). destruct x; lia.
  - split; [done|]. destruct Hst as (_ & st & f & before & extra & _ & (code & _ & ->) & Hf & _). exists code.
    assert (closing id code ∈ frames_of id (frames (zygote s'))) as Hin.
    { cbn in Hf. rewrite Hf. apply elem_of_app. right. by apply list_elem_of_singleton. }
    by apply list_elem_of_filter in Hin as [_ ?].
Qed.

(** C40. A request that cannot be started fails silently and holds up what came
    with it. When [os.pipe] fails (too many open files) for a [MSG_RUN], the
    exception abandons the generator: no frame is sent for the request, so its
    caller waits for its whole timeout, and the frames already received behind
    it stay unread in the buffer although nothing makes the socket readable,
    until the server happens to send something else. *)
Theorem failed_run_stalls id payload rest w :
  let f := mkFrame MSG_RUN id payload in
  is_u32 id -> len (encode f ++ rest) <= 65536 -> recv_buf w = [] ->
  table (kernel w) !! ctrl w = Some Sock -> fd_map w !! ctrl w = None -> peer_open (kernel w) = true ->
  inbox (kernel w) = [encode f ++ rest] -> pipe_fds (set_inbox [] (kernel w)) = None ->
  exists w', handle_fd (ctrl w) w = (Ok tt, w')
    /\ recv_buf w' = rest /\ frames w' = frames w /\ reqs w' = reqs w /\ out w' = out w
    /\ can_read (ctrl w') (kernel w') = false.
Proof.
  intros f Hid Hlen Hbuf Ht Hm Hpeer Hin Hpipe.
  assert (frame_ok _MAX_FRAME_PAYLOAD f) as Hok.
  { pose proof (len_nonneg rest). rewrite len_app, len_encode in Hlen. unfold HEADER_SIZE in Hlen. cbn [f_payload f] in Hlen.
    split_and!; [done|..]; unfold _MAX_FRAME_PAYLOAD, u32_max; cbn [f_payload f]; lia. }
  set (w1 := set_recv_buf rest (set_recv_buf (encode f ++ rest) (set_kernel (set_inbox [] (kernel w)) w))).
  assert (_handle_run id payload w1 = (Raise, w1)) as Hrun.
  { unfold _handle_run. destruct (loads payload); [|done].
    rewrite (sys_bind _ _ w1 None (kernel w1)) by (unfold os_pipe; cbn [kernel w1 set_recv_buf set_kernel]; by rewrite Hpipe).
    done. }
  assert (_read_ctrl_frames dispatch w = (Raise, w1)) as Hread.
  { unfold _read_ctrl_frames.
    assert (sock_recv 65536 (kernel w) = (Received (encode f ++ rest), set_inbox [] (kernel w))) as Hrecv.
    { unfold sock_recv. rewrite Hin. rewrite take_ge, drop_ge by (unfold len in Hlen; lia). done. }
    rewrite (sys_bind _ _ _ _ _ Hrecv). destruct (encode f ++ rest) as [|b bs] eqn:E.
    { pose proof (f_equal len E) as El. rewrite len_app, len_encode in El. unfold HEADER_SIZE in El. len_lia. }
    rewrite modify_bind. cbn [recv_buf set_kernel]. rewrite Hbuf. cbn [app]. rewrite <-E.
    cbn [recv_buf set_recv_buf]. rewrite E at 1. cbn [length frame_loop]. cbn [recv_buf set_recv_buf].
    rewrite parse_encode by done. rewrite modify_bind, M_bind_eq. unfold dispatch. rewrite bool_decide_true by done.
    match goal with |- context [_handle_run _ _ ?x] => change x with w1 end. cbn [f_req f_payload f]. by rewrite Hrun. }
  exists w1. split.
  - unfold handle_fd, catch. rewrite get_bind, Z.eqb_refl, Hread, get_bind. cbn [fd_map w1 set_recv_buf set_kernel]. by rewrite Hm.
  - split_and!; try done. unfold can_read. cbn. by rewrite Ht, Hpeer.
Qed.

(** A child that ends by itself can be reported as terminated. The kernel
    closes a process's descriptors before its status can be waited for; when
    the worker sees the end of both streams in between, it takes the child for
    one that closed its output and goes on, and adds "process terminated" to
    its standard error, although the exit code it then reports is the child's
    own. The comment in the code takes [WNOHANG] to tell the two apart. *)
Theorem exiting_child_reported_terminated pid id w i pr st code :
  pids (kernel w) !! pid = Some i -> procs (kernel w) !! i = Some pr -> pr_state pr = Exiting st ->
  waitstatus_to_exitcode st = Some code -> peer_open (kernel w) = true ->
  exists w', finish_request pid id w = (Ok tt, w')
    /\ frames w' = frames w ++ [mkFrame MSG_STDERR id TERMINATED; closing id code].
Proof.
  intros Hpid Hp Hst Hcode Hpeer. unfold finish_request.
  rewrite (sys_bind _ _ _ WaitRunning (kernel w)) by (unfold os_waitpid_nohang; rewrite Hpid, Hp; cbn; by rewrite Hst).
  replace (set_kernel (kernel w) w) with w by (by destruct w). cbv beta iota. rewrite M_bind_eq.
  destruct (send_effect MSG_STDERR id (str "process terminated") w) as (r & w1 & -> & Hio & [->|[_ ?]]); [|congruence].
  pose proof (io_core _ _ Hio) as Hc.
  assert (pids (kernel w1) !! pid = Some i) as Hpid1 by (rewrite <-Hpid; exact (f_equal (fun c => c_pids c !! pid) Hc)).
  assert (procs (kernel w1) !! i = Some pr) as Hp1 by (rewrite <-Hp; exact (f_equal (fun c => c_procs c !! i) Hc)).
  erewrite sys_bind by (unfold os_kill; rewrite Hpid1; done). cbv beta iota.
  erewrite sys_bind by (unfold os_waitpid; cbn; rewrite Hpid1, list_lookup_alter_eq, Hp1; cbn; rewrite Hst; cbn; by rewrite Hst).
  cbv beta iota. rewrite Hcode.
  match goal with |- context [_send ?t ?i ?p ?w2] => destruct (send_effect t i p w2) as (r & w3 & -> & Hio3 & Hr) end.
  destruct Hr as [->|[_ Hpe]].
  - exists w3. split; [done|]. rewrite (em_frames _ _ _ (io_emits _ _ _ Hio3)). cbn.
    rewrite (em_frames _ _ _ (io_emits _ _ _ Hio)). by rewrite <-app_assoc.
  - cbn in Hpe. rewrite (io_peer _ _ Hio) in Hpe. cbn in Hpe. congruence.
Qed.

End Properties.

(** ** Witnesses *)

Module Demo.

(** A kernel that hands out the numbers after those in use, and fails to open
    a pipe when the table has more than [limit] descriptors. *)
Definition top {A} (m : gmap Z A) : Z := foldr Z.max 2 (map_to_list m).*1.

Lemma top_fresh {A} (m : gmap Z A) n : top m < n -> m !! n = None.
Proof.
  intros Hn. destruct (m !! n) as [x|] eqn:E; [|done]. exfalso.
  assert (n ∈ (map_to_list m).*1) as Hin.
  { apply list_elem_of_fmap. exists (n, x). split; [done|]. by apply elem_of_map_to_list. }
  unfold top in Hn. induction (map_to_list m).*1 as [|y l IH]; [set_solver|]. cbn in Hn.
  apply elem_of_cons in Hin as [->|Hin]; [lia|]. apply IH; [lia|done].
Qed.

Lemma top_ge {A} (m : gmap Z A) : 2 <= top m.
Proof. unfold top. induction (map_to_list m).*1; cbn; lia. Qed.

Definition pipe_fds (limit : nat) (k : Kernel) : option (Z * Z) :=
  if (size (table k) <=? limit)%nat then Some (top (table k) + 1, top (table k) + 2) else None.

Lemma pipe_fds_ok limit k r w : pipe_fds limit k = Some (r, w) ->
  0 <= r /\ 0 <= w /\ r <> w /\ table k !! r = None /\ table k !! w = None.
Proof.
  unfold pipe_fds. case_match; [|done]. intros [= <- <-]. pose proof (top_ge (table k)).
  split_and!; try lia; apply top_fresh; lia.
Qed.

Lemma fork_pid_ok k p : Some (100 + top (pids k)) = Some p -> pids k !! p = None.
Proof. intros [= <-]. apply top_fresh. lia. Qed.

Definition os (limit : nat) : Os := {|
  Posix.pipe_fds := pipe_fds limit;
  fork_pid := fun k => Some (100 + top (pids k));
  read_error := fun _ _ => false;
  exits_first := fun _ _ => None;
  pipe_fds_fresh := pipe_fds_ok limit;
  fork_pid_fresh := fork_pid_ok;
  exits_first_status := fun k p st (E : None = Some st) => match E in _ = o return match o with None => True | Some st => is_wait_status st end with eq_refl => I end
|}.

Definition json : PyJson := {| loads := fun _ => Some JNull |}.

#[local] Existing Instance json.
#[local] Instance os_demo : Os := os 100.

(** Request 7 prints and exits with code 3; request 8 is started and killed. *)
Definition events : list event :=
  [Env (Deliver (encode_frame MSG_RUN 7 (str "{}") ++ encode_frame MSG_RUN 8 (str "{}")));
   Turn [3] false;
   Env (ChildWrite 0 StdOut (str "hello")); Env (ChildWrite 0 StdErr (str "oops")); Env (ChildExit 0 (wait_exited 3));
   Env (ChildZombie 0);
   Turn [4; 6] false; Turn [4; 6] false].

Definition state : State := default (init 3 1000) (run_events events (init 3 1000)).

Lemma state_run : run_events events (init 3 1000) = Some state.
Proof. by vm_compute. Qed.

Lemma state_reachable : reachable state.
Proof. exists 3, 1000, events. apply state_run. Qed.

Lemma once (w : Zygote) (a b : Z) : (launched w).*1 = [a; b] -> a <> b ->
  only_launch a 0 (core w) /\ only_launch b 1 (core w).
Proof.
  intros E Hne. destruct (launched w) as [|[a' ja] [|[b' jb] [|? ?]]] eqn:El; simplify_eq/=.
  split; (split; [eexists; cbn; by rewrite El|]); intros [|[|j]] js Hj; cbn in Hj; rewrite El in Hj; simplify_eq/=; done.
Qed.

Lemma state_once : only_launch 7 0 (core (zygote state)).
Proof. apply (once (zygote state) 7 8); [by vm_compute|done]. Qed.

Lemma worker_protocol_witness :
  produced (zygote state) = concat (encode <$> frames (zygote state))
  /\ reqs (zygote state) !! 7 = None
  /\ frames_of 7 (frames (zygote state))
     = [mkFrame MSG_STDOUT 7 (str "hello"); mkFrame MSG_STDERR 7 (str "oops"); closing 7 3].
Proof.
  split; [|by vm_compute]. apply (worker_protocol state 7 0 state_reachable ltac:(by vm_compute) state_once).
Defined.

Definition shared : Shared := mkShared {[7 := mkPending [] [] (Some 0%nat)]} true [] [].

Lemma shared_owns : owns 7 0 shared.
Proof. intros k p Hp _. cbn in Hp. by apply lookup_singleton_Some in Hp as [<- _]. Qed.

Lemma worker_to_caller_witness : exists pr po pe st code extra sh',
  procs (kernel (zygote state)) !! 0%nat = Some pr /\ pr_state pr = Reaped st /\ waitstatus_to_exitcode st = Some code
  /\ pipes (kernel (zygote state)) !! pr_out pr = Some po /\ pipes (kernel (zygote state)) !! pr_err pr = Some pe
  /\ (extra = [] \/ extra = TERMINATED)
  /\ read_loop (H := dash_map_order) 65536 (ReadOk <$> [wire (kernel (zygote state))]) [] shared = (Some [], sh')
  /\ (len (pp_data po) + len (pp_data pe ++ extra) <= 65536 ->
      sends_to 0 sh' = [(from_utf8_lossy (pp_data po), from_utf8_lossy (pp_data pe ++ extra), code)]
      /\ kills_of 7 sh' = []).
Proof.
  apply (worker_to_caller (H1 := dash_map_order) state 7 0 65536 [wire (kernel (zygote state))] 0 shared).
  - exact state_reachable.
  - by vm_compute.
  - exact state_once.
  - done.
  - by vm_compute.
  - by vm_compute.
  - cbn [concat]. apply app_nil_r.
  - repeat constructor. by vm_compute.
  - by vm_compute.
  - exact shared_owns.
  - by vm_compute.
  - done.
  - done.
Defined.

Lemma worker_survives_witness : st_status state <> Stuck.
Proof. apply (worker_survives state state_reachable). Defined.

(** The number of streams after every prefix of the events. *)
Lemma state_streams es1 es2 s1 : events = es1 ++ es2 -> run_events es1 (init 3 1000) = Some s1 ->
  Z.of_nat (size (fd_map (zygote s1))) <= 4.
Proof.
  intros E Hr. assert (es1 = take (length es1) events) as Ht by (by rewrite E, take_app_length).
  assert (length es1 <= 8)%nat as Hlen by (apply (f_equal length) in E; rewrite length_app in E; cbn in E; lia).
  assert (forallb (fun n => match run_events (take n events) (init 3 1000) with
                            | Some s => (size (fd_map (zygote s)) <=? 4)%nat
                            | None => true
                            end) (seq 0 9) = true) as Hall by (by vm_compute).
  rewrite forallb_forall in Hall. specialize (Hall (length es1) ltac:(apply in_seq; lia)).
  rewrite <-Ht, Hr in Hall. apply Nat.leb_le in Hall. lia.
Qed.

Lemma worker_buffer_bound_witness : len (out (zygote state)) <= _SEND_BUF_CAP + 65545 * 4.
Proof. apply (worker_buffer_bound 3 1000 events state 4 state_run ltac:(by vm_compute) state_streams). Defined.

(** Request 8 is killed, dies, and both its streams end. *)
Definition later : list event := events ++
  [Env (Deliver (encode_frame MSG_KILL 8 [])); Turn [3] false; Env (ChildDie 1); Turn [7; 9] false].

(** Request 7 after its child is gone, and turns that read what it
    left and the ends of its streams. *)
Definition waiting : State := default (init 3 1000) (run_events (take 5 events) (init 3 1000)).

Lemma waiting_reachable : reachable waiting.
Proof. exists 3, 1000, (take 5 events). by vm_compute. Qed.

Definition reading : list event :=
  [Env (ChildZombie 0); Turn [4] false; Turn [6] false; Turn [6] false; Turn [4] false].

Definition finished : State := default waiting (run_events reading waiting).

Lemma worker_request_ends_witness :
  reqs (zygote waiting) !! 7 <> None /\ reqs (zygote finished) !! 7 = None
  /\ exists code, closing 7 code ∈ frames (zygote finished).
Proof.
  split; [vm_compute; discriminate|].
  apply (worker_request_ends waiting reading finished 7 0).
  - exact waiting_reachable.
  - exists (mkProc 0 1 (Exiting (wait_exited 3))). by vm_compute.
  - by vm_compute.
  - by vm_compute.
  - apply (once (zygote finished) 7 8); [by vm_compute|done].
  - by vm_compute.
Defined.

Definition idle : State := default (init 3 1000) (run_events later (init 3 1000)).

Lemma worker_no_leak_witness :
  frames_of 8 (frames (zygote idle)) = [mkFrame MSG_STDERR 8 TERMINATED; closing 8 (-9)]
  /\ pids (kernel (zygote idle)) = ∅ /\ fd_map (zygote idle) = ∅ /\ dom (table (kernel (zygote idle))) = {[3]}.
Proof.
  split; [by vm_compute|]. apply (worker_no_leak idle).
  - exists 3, 1000, later. by vm_compute.
  - by vm_compute.
  - vm_compute. repeat constructor; set_solver.
  - by vm_compute.
Defined.

(** A worker that may hold one descriptor only, with a kill order behind the
    request it cannot start. *)
Definition starved : Zygote :=
  mkZygote (mkKernel [] {[3 := Sock]} [] ∅
    [encode (mkFrame MSG_RUN 7 (str "{}")) ++ encode (mkFrame MSG_KILL 5 [])] true 1000 [] 0) 3 ∅ ∅ [] [] [] [].

Lemma failed_run_stalls_witness :
  exists w', handle_fd (H := os 0) 3 starved = (Ok tt, w')
    /\ recv_buf w' = encode (mkFrame MSG_KILL 5 []) /\ frames w' = [] /\ reqs w' = ∅ /\ out w' = []
    /\ can_read (ctrl w') (kernel w') = false.
Proof.
  apply (failed_run_stalls (H := os 0) 7 (str "{}") (encode (mkFrame MSG_KILL 5 [])) starved); by vm_compute.
Defined.

(** A child on its way out with code 0, its descriptors closed. *)
Definition leaving : Zygote :=
  mkZygote (mkKernel [] {[3 := Sock]} [mkProc 0 1 (Exiting 0)] {[101 := 0%nat]} [] true 1000 [] 0) 3 ∅ ∅ [] [] [(7, JNull)] [].

Lemma exiting_child_reported_terminated_witness :
  exists w', finish_request 101 7 leaving = (Ok tt, w')
    /\ frames w' = [] ++ [mkFrame MSG_STDERR 7 TERMINATED; closing 7 0].
Proof.
  apply (exiting_child_reported_terminated 101 7 leaving 0 (mkProc 0 1 (Exiting 0)) 0 0); by vm_compute.
Defined.

End Demo.
