(* ===== verification/WorkerInput.v ===== *)
(** * WorkerInput: what the zygote worker takes from its control socket

    The counterpart of [WorkerInv] for the worker's input.  A turn of the loop
    takes a list of whole frames off the received bytes and leaves the rest;
    every child it forks is for one of the [MSG_RUN] frames taken, in their
    order; and after a [MSG_KILL] frame was taken the child of that request is
    dead or has been sent SIGKILL.  The first two are properties of the
    programs alone, proved by rules for the monad's operations; the last one
    needs the invariant of the loop. *)

From S2P Require Import Prelude RustStd Wire Reader Models Runners Posix Worker WorkerInv.

Create HintDb input.

(** A child that is dead or has been sent SIGKILL. *)
Definition doomed (i : nat) (k : Kernel) : Prop :=
  exists pr, procs k !! i = Some pr /\ pr_state pr <> Alive false.

(** From [k] to [k'] no child comes back, and nothing is received. *)
Record kernel_silent (k k' : Kernel) : Prop := {
  ks_inbox : inbox k' = inbox k;
  ks_doomed : forall i, doomed i k -> doomed i k'
}.

(** From [w] to [w'] no input is taken and no child is forked. *)
Record silent (w w' : Zygote) : Prop := {
  sl_ctrl : ctrl w' = ctrl w;
  sl_recv : recv_buf w' = recv_buf w;
  sl_launched : launched w' = launched w;
  sl_kernel : kernel_silent (kernel w) (kernel w')
}.

#[global] Instance kernel_silent_preorder : PreOrder kernel_silent.
Proof. split; [by split|]. intros k1 k2 k3 [] []. split; [congruence|auto]. Qed.

#[global] Instance silent_preorder : PreOrder silent.
Proof. split; [by split|]. intros w1 w2 w3 [] []. split; [congruence..|]. by etrans. Qed.

(** From [w] to [w'] nothing that was sent is taken back. *)
Definition extends (w w' : Zygote) : Prop := frames w `prefix_of` frames w'.

#[global] Instance extends_preorder : PreOrder extends.
Proof. unfold extends. split; [by intros w|]. intros w1 w2 w3. by etrans. Qed.

(** ** Rules *)

(** The effect of a program, however it ends. *)
Definition effect {A} (R : Zygote -> Zygote -> Prop) (m : M A) : Prop := forall w, R w (m w).2.

Section Rules.
Context (R : Zygote -> Zygote -> Prop) `{!PreOrder R}.

Lemma effect_ret {A} (x : A) : effect R (mret x).
Proof. intros w. cbn. reflexivity. Qed.
Lemma effect_raise {A} : effect R (raise (A := A)).
Proof. intros w. cbn. reflexivity. Qed.
Lemma effect_exit {A} c : effect R (exit (A := A) c).
Proof. intros w. cbn. reflexivity. Qed.
Lemma effect_hang {A} : effect R (hang (A := A)).
Proof. intros w. cbn. reflexivity. Qed.
Lemma effect_get : effect R get.
Proof. intros w. cbn. reflexivity. Qed.
Lemma effect_modify f : (forall w, R w (f w)) -> effect R (modify f).
Proof. done. Qed.

Lemma effect_bind {A B} (m : M A) (f : A -> M B) : effect R m -> (forall x, effect R (f x)) -> effect R (m ≫= f).
Proof.
  intros Hm Hf w. rewrite M_bind_eq. specialize (Hm w). destruct (m w) as [[x| |c|] w']; try done.
  etrans; [exact Hm|apply Hf].
Qed.

Lemma effect_catch {A} (m h : M A) : effect R m -> effect R h -> effect R (catch m h).
Proof.
  intros Hm Hh w. unfold catch. specialize (Hm w). destruct (m w) as [[x| |c|] w']; try done. etrans; [exact Hm|apply Hh].
Qed.

End Rules.

#[export] Hint Resolve effect_ret effect_raise effect_exit effect_hang effect_get effect_bind effect_catch effect_modify
  silent_preorder extends_preorder : input.

(** ** The programs that take no input *)

Section Silent.
Context `{Os} `{PyJson}.

Lemma effect_sys {A} (f : Kernel -> A * Kernel) : (forall k, kernel_silent k (f k).2) -> effect silent (sys f).
Proof. intros Hf w. unfold sys. specialize (Hf (kernel w)). destruct (f (kernel w)) as [x k]. by split. Qed.

Lemma effect_sys_extends {A} (f : Kernel -> A * Kernel) : effect extends (sys f).
Proof. intros w. unfold sys, extends. by destruct (f (kernel w)). Qed.

Lemma doomed_alter i (f : Proc -> Proc) j k :
  (forall pr, pr_state pr <> Alive false -> pr_state (f pr) <> Alive false) ->
  doomed i k -> doomed i (set_procs (alter f j (procs k)) k).
Proof.
  intros Hf (pr & Hp & Hst). unfold doomed. cbn. destruct (decide (i = j)) as [->|Hne].
  - exists (f pr). rewrite list_lookup_alter_eq, Hp. split; [done|auto].
  - exists pr. by rewrite list_lookup_alter_ne.
Qed.

Lemma silent_pipe k : kernel_silent k (os_pipe k).2.
Proof. unfold os_pipe. destruct (pipe_fds k) as [[r w]|]; by split. Qed.

Lemma silent_close fd k : kernel_silent k (os_close fd k).2.
Proof. unfold os_close. destruct (table k !! fd) as [[]|]; by split. Qed.

Lemma silent_fork ow ew k : kernel_silent k (os_fork ow ew k).2.
Proof.
  unfold os_fork. destruct (fork_pid k), (table k !! ow) as [[]|], (table k !! ew) as [[]|]; try by split.
  split; [done|]. intros i (pr & Hp & Hst). exists pr. split; [|done]. cbn. by apply lookup_app_l_Some.
Qed.

Lemma silent_read fd n k : kernel_silent k (os_read fd n k).2.
Proof. unfold os_read. repeat case_match; by split. Qed.

Lemma silent_kill pid k : kernel_silent k (os_kill pid k).2.
Proof.
  unfold os_kill. destruct (pids k !! pid) as [i|]; [|done]. split; [done|]. intros j. apply doomed_alter.
  intros pr Hpr. destruct (pr_state pr) eqn:E; [done|by rewrite E..].
Qed.

Lemma silent_reap pid i st k : kernel_silent k (reap pid i st k).
Proof. split; [done|]. intros j Hj. apply (doomed_alter j (set_state (Reaped st)) i k); [done|]. exact Hj. Qed.

Lemma silent_proc_exit i st k : kernel_silent k (proc_exit i st k).
Proof.
  unfold proc_exit. destruct (procs k !! i) as [pr|]; [|done]. split; [done|].
  intros j Hj. apply (doomed_alter j (set_state (Exiting st)) i k); [done|]. exact Hj.
Qed.

Lemma silent_waitpid_nohang pid k : kernel_silent k (os_waitpid_nohang pid k).2.
Proof. unfold os_waitpid_nohang. repeat case_match; try done. apply silent_reap. Qed.

Lemma silent_waitpid pid k : kernel_silent k (os_waitpid pid k).2.
Proof.
  unfold os_waitpid. repeat case_match; try done; cbn [snd]; try apply silent_reap.
  etrans; [apply silent_proc_exit|apply silent_reap].
Qed.

Lemma silent_send bs k : kernel_silent k (sock_send bs k).2.
Proof. unfold sock_send. repeat case_match; by split. Qed.

Hint Resolve effect_sys effect_sys_extends silent_pipe silent_close silent_fork silent_read silent_kill silent_waitpid_nohang silent_waitpid
  silent_send : input.

(** Walk through a program: rules at the head, case analysis at a branch. *)
Ltac walk := repeat first
  [ progress intros
  | match goal with
    | |- effect _ (match ?x with _ => _ end) => destruct x
    | |- effect _ (if ?x then _ else _) => destruct x
    end
  | simple apply effect_bind; [typeclasses eauto| |]
  | simple apply effect_catch; [typeclasses eauto| |]
  | solve [apply effect_modify; intros; first [by split | unfold extends; cbn; by first [done | apply prefix_app_r]]]
  | solve [eauto with input] ].

Lemma flush_loop_silent fuel : effect silent (flush_loop fuel).
Proof.
  induction fuel as [|fuel IH]; intros w; cbn [flush_loop]; [done|]. case_bool_decide; [done|].
  match goal with |- silent _ (?m w).2 => enough (effect silent m) as Hm by apply Hm end. walk.
Qed.

Lemma flush_silent : effect silent _flush.
Proof. intros w. apply flush_loop_silent. Qed.

Hint Resolve flush_silent : input.

Lemma send_silent t id p : effect silent (_send t id p).
Proof. unfold _send. walk. Qed.

Hint Resolve send_silent : input.

Lemma close_all_silent fds : effect silent (close_all fds).
Proof. induction fds as [|fd fds IH]; cbn [close_all]; walk. Qed.

Hint Resolve close_all_silent : input.

Lemma cleanup_silent {A} a b c d : effect silent (cleanup (A := A) a b c d).
Proof. unfold cleanup. walk. Qed.

Lemma handle_kill_silent id : effect silent (_handle_kill id).
Proof. unfold _handle_kill. walk. Qed.

Lemma finish_request_silent pid id : effect silent (finish_request pid id).
Proof. unfold finish_request. walk. Qed.

Hint Resolve cleanup_silent handle_kill_silent finish_request_silent : input.

Lemma teardown_silent fd id : effect silent (_teardown_pipe_fd fd id).
Proof. unfold _teardown_pipe_fd. walk. Qed.

Hint Resolve teardown_silent : input.

Lemma on_pipe_readable_silent fd : effect silent (_on_pipe_readable fd).
Proof. unfold _on_pipe_readable. walk. Qed.

Hint Resolve on_pipe_readable_silent : input.

Lemma handle_fd_silent fd w : fd <> ctrl w -> silent w (handle_fd fd w).2.
Proof.
  intros Hne. unfold handle_fd.
  match goal with |- silent _ (catch _ ?h w).2 => assert (effect silent h) as Hh by walk end.
  unfold catch. rewrite M_bind_eq. cbn [get]. rewrite (proj2 (Z.eqb_neq _ _) Hne).
  assert (effect silent (match fd_map w !! fd with Some _ => _on_pipe_readable fd | None => mret tt end)) as Hm by walk.
  match type of Hm with effect _ ?m => pose proof (Hm w) as Hw; destruct (m w) as [[x| |c|] w'] end; try done.
  etrans; [exact Hw|apply Hh].
Qed.

Lemma handle_fds_silent fds w : ctrl w ∉ fds -> silent w (handle_fds fds w).2.
Proof.
  revert w. induction fds as [|fd fds IH]; intros w Hn; [done|]. apply not_elem_of_cons in Hn as [Hne Hn]. cbn [handle_fds].
  rewrite M_bind_eq. assert (silent w (handle_fd fd w).2) as Hs by (by apply handle_fd_silent).
  destruct (handle_fd fd w) as [[x| |c|] w']; cbn [snd] in *; try done. etrans; [exact Hs|]. apply IH. by rewrite (sl_ctrl _ _ Hs).
Qed.

(** ** Frames taken *)

(** The request a frame starts. *)
Definition run_of (f : Frame) : option (Z * Json) :=
  if bool_decide (f_type f = MSG_RUN) then (fun js => (f_req f, js)) <$> loads (f_payload f) else None.

(** From [w] to [w'] the frames [fs] were taken off the received bytes, and
    children forked for some of them. *)
Record takes (fs : list Frame) (w w' : Zygote) : Prop := {
  tk_ctrl : ctrl w' = ctrl w;
  tk_ok : Forall (frame_ok _MAX_FRAME_PAYLOAD) fs;
  tk_stream : recv_buf w ++ concat (inbox (kernel w))
              = concat (encode <$> fs) ++ recv_buf w' ++ concat (inbox (kernel w'));
  tk_launched : exists ls, launched w' = launched w ++ ls /\ ls `sublist_of` omap run_of fs;
  tk_doomed : forall i, doomed i (kernel w) -> doomed i (kernel w')
}.

Lemma takes_silent w w' : silent w w' -> takes [] w w'.
Proof.
  intros [? Hr Hl [Hi Hd]]. split; [done|done|by rewrite Hr, Hi| |done]. exists []. rewrite app_nil_r. by split.
Qed.

Lemma takes_trans fs1 fs2 w1 w2 w3 : takes fs1 w1 w2 -> takes fs2 w2 w3 -> takes (fs1 ++ fs2) w1 w3.
Proof.
  intros [? ? Hs1 (l1 & E1 & Hl1) ?] [? ? Hs2 (l2 & E2 & Hl2) ?]. split; [congruence|by apply Forall_app_2| | |auto].
  - by rewrite fmap_app, concat_app, <-app_assoc, <-Hs2.
  - exists (l1 ++ l2). rewrite E2, E1, <-app_assoc. split; [done|]. rewrite omap_app. by apply sublist_app.
Qed.

(** A frame dispatched: no more input, at most one child. *)
Record dispatched (f : Frame) (w w' : Zygote) : Prop := {
  di_ctrl : ctrl w' = ctrl w;
  di_recv : recv_buf w' = recv_buf w;
  di_kernel : kernel_silent (kernel w) (kernel w');
  di_launched : exists ls, launched w' = launched w ++ ls /\ ls `sublist_of` option_list (run_of f)
}.

Lemma dispatched_silent f w w' : silent w w' -> dispatched f w w'.
Proof. intros []. split; try done. exists []. rewrite app_nil_r. split; [done|apply sublist_nil_l]. Qed.

Lemma silent_dispatched f w1 w2 w3 : silent w1 w2 -> dispatched f w2 w3 -> dispatched f w1 w3.
Proof. intros [] []. split; [congruence..|by etrans|]. by rewrite <-sl_launched0. Qed.

Lemma sys_then {A B} f (g : Kernel -> A * Kernel) (h : A -> M B) w : (forall k, kernel_silent k (g k).2) ->
  (forall x w1, silent w w1 -> dispatched f w1 (h x w1).2) -> dispatched f w ((sys g ≫= h) w).2.
Proof.
  intros Hg Hh. rewrite M_bind_eq. pose proof (effect_sys g Hg w) as Hs. unfold sys in *.
  destruct (g (kernel w)) as [x k]. cbn [snd] in Hs. eapply silent_dispatched; [exact Hs|]. by apply Hh.
Qed.

Lemma handle_run_dispatched id payload w :
  dispatched (mkFrame MSG_RUN id payload) w (_handle_run id payload w).2.
Proof.
  unfold _handle_run. destruct (loads payload) as [js|] eqn:Hjs; [|by apply dispatched_silent].
  assert (forall a b c d w, dispatched (mkFrame MSG_RUN id payload) w (cleanup (A := unit) a b c d w).2) as Hclean.
  { intros. apply dispatched_silent, cleanup_silent. }
  apply sys_then; [apply silent_pipe|]. intros [[or ow]|] w1 _; [|apply Hclean].
  apply sys_then; [apply silent_pipe|]. intros [[er ew]|] w2 _; [|apply Hclean].
  apply sys_then; [apply silent_fork|]. intros [pid|] w3 _; [|apply Hclean].
  apply sys_then; [apply silent_close|]. intros _ w4 _. apply sys_then; [apply silent_close|]. intros _ w5 _.
  split; try done. exists [(id, js)]. split; [done|]. unfold run_of. rewrite bool_decide_true by done. cbn. by rewrite Hjs.
Qed.

Lemma dispatch_dispatched f w : dispatched f w (dispatch f w).2.
Proof.
  unfold dispatch. case_bool_decide as Ht.
  - destruct f as [t id p]. cbn in *. subst t. apply handle_run_dispatched.
  - case_bool_decide; apply dispatched_silent; [apply handle_kill_silent|done].
Qed.

Lemma takes_frame f rest w w' : frame_ok _MAX_FRAME_PAYLOAD f -> recv_buf w = encode f ++ rest ->
  dispatched f (set_recv_buf rest w) w' -> takes [f] w w'.
Proof.
  intros Hok Hr [Hc Hr' [Hi Hd] (ls & El & Hls)]. split; [done|by apply Forall_singleton| | |done].
  - cbn in *. by rewrite Hr, Hr', Hi, app_nil_r, <-app_assoc.
  - exists ls. split; [done|]. cbn. by destruct (run_of f).
Qed.

(** ** Kill orders *)

(** In [w], the child of every request of which a [MSG_KILL] is among the taken
    frames [fs], not followed by another [MSG_RUN] of its id, is doomed. *)
Definition killed (fs : list Frame) (w : Zygote) : Prop :=
  forall pre f post j, fs = pre ++ f :: post -> f_type f = MSG_KILL ->
  Forall (fun g => f_type g = MSG_RUN -> f_req g <> f_req f) post ->
  only_launch (f_req f) j (core w) -> doomed j (kernel w).

Lemma killed_nil w : killed [] w.
Proof. intros pre f post j E. by destruct pre. Qed.

Lemma killed_step fs w w' : launched w' = launched w -> (forall i, doomed i (kernel w) -> doomed i (kernel w')) ->
  killed fs w -> killed fs w'.
Proof.
  intros El Hd Hk pre f post j E Hf Hpost Hl. apply Hd. eapply Hk; [done..|].
  unfold only_launch in *. cbn in *. by rewrite <-El.
Qed.

(** Children forked for later frames have other ids. *)
Lemma only_launch_before fs w w' id j : takes fs w w' ->
  Forall (fun g => f_type g = MSG_RUN -> f_req g <> id) fs -> only_launch id j (core w') -> only_launch id j (core w).
Proof.
  intros [_ _ _ (ls & El & Hls) _] Hfs [[js Hj] Hu]. cbn in *. rewrite El in Hj, Hu.
  assert (forall x, (id, x) ∉ ls) as Hno.
  { intros x Hx. eapply elem_of_sublist in Hx; [|exact Hls]. apply list_elem_of_omap in Hx as (g & Hg & Er).
    rewrite Forall_forall in Hfs. unfold run_of in Er. case_bool_decide as Ht; [|done]. specialize (Hfs g Hg Ht).
    destruct (loads (f_payload g)); simplify_eq/=. }
  split.
  - apply lookup_app_Some in Hj as [Hj|[_ Hj]]; [by eexists|]. by apply list_elem_of_lookup_2, Hno in Hj.
  - intros j' js' Hj'. apply (Hu j' js'). by apply lookup_app_l_Some.
Qed.

Lemma killed_app fs1 fs2 w1 w2 : takes fs2 w1 w2 -> killed fs1 w1 -> killed fs2 w2 -> killed (fs1 ++ fs2) w2.
Proof.
  intros Ht Hk1 Hk2 pre f post j E Hf Hpost Hl. apply app_eq_inv in E as [(k & -> & E)|(k & -> & E)].
  - destruct k as [|g k]; cbn in E; [eapply (Hk2 []); done|]. injection E as <- ->.
    apply Forall_app in Hpost as [Hp1 Hp2]. apply (tk_doomed _ _ _ Ht). eapply Hk1; [done..|]. by eapply only_launch_before.
  - by eapply Hk2.
Qed.

Lemma dispatch_killed f w : good w -> killed [f] (dispatch f w).2.
Proof.
  intros Hg pre g post j E Hf _ Hl. assert (g = f) as -> by (destruct pre as [|? [|]]; by simplify_eq/=).
  unfold dispatch in *. rewrite (bool_decide_false (f_type f = MSG_RUN)), bool_decide_true in * by (by rewrite Hf).
  pose proof (handle_kill_silent (f_req f) w) as Hs.
  assert (only_launch (f_req f) j (core w)) as Hl0.
  { unfold only_launch in *. cbn in *. by rewrite (sl_launched _ _ Hs) in Hl. }
  pose proof (gd_inv _ Hg) as Hinv. destruct (proj1 Hl0) as [js Hj].
  apply lookup_lt_Some in Hj as Hlt. rewrite (inv_len _ Hinv) in Hlt. apply lookup_lt_is_Some_2 in Hlt as [pr Hp].
  destruct (stream_choice (fun x p => c_pipes (core w) !! pipe_of x pr = Some p)) as [pp Hpp].
  { intros x. destruct (inv_pipe _ Hinv _ _ x Hp) as (p & ? & _). eauto. }
  pose proof (gd_req _ Hg (f_req f) j pr pp Hl0 Hp Hpp) as Hst. cbn in Hst.
  destruct (reqs w !! f_req f) as [ri|] eqn:Hri.
  - unfold _handle_kill. rewrite get_bind, Hri. destruct Hst as [Hpid _]. cbn in Hpid, Hp.
    erewrite sys_bind by (unfold os_kill; by rewrite Hpid). cbn. eexists. cbn. rewrite list_lookup_alter_eq, Hp. split; [done|].
    destruct (pr_state pr) eqn:Est; [done|by rewrite Est..].
  - apply Hs. exists pr. split; [done|]. destruct Hst as (_ & st & ? & ? & ? & -> & _). done.
Qed.

(** ** A turn of the loop *)

(** What a program does to the input: frames taken off, and their effects. *)
Definition consumes (w w' : Zygote) : Prop := exists fs, takes fs w w' /\ (good w -> killed fs w').

Lemma consumes_silent w w' : silent w w' -> consumes w w'.
Proof. intros Hs. exists []. split; [by apply takes_silent|]. intros _. apply killed_nil. Qed.

Lemma consumes_trans w1 w2 w3 : (good w1 -> good w2) -> consumes w1 w2 -> consumes w2 w3 -> consumes w1 w3.
Proof.
  intros Hg (fs1 & Ht1 & Hk1) (fs2 & Ht2 & Hk2). exists (fs1 ++ fs2).
  split; [by eapply takes_trans|]. intros Hw. by eapply killed_app; [|apply Hk1|apply Hk2, Hg].
Qed.

Lemma frame_loop_consumes fuel w : consumes w (frame_loop fuel dispatch w).2.
Proof.
  revert w. induction fuel as [|fuel IH]; intros w; cbn [frame_loop]; [by apply consumes_silent|].
  destruct (parse_frame _ (recv_buf w)) as [| |f rest] eqn:Hp; [by apply consumes_silent..|].
  apply parse_frame_Parsed in Hp as [Hok Hr]. rewrite modify_bind, M_bind_eq.
  assert (good w -> good (set_recv_buf rest w)) as Hg0 by (intros Hg; apply (recv_buf_calm rest w Hg)).
  assert (consumes w (dispatch f (set_recv_buf rest w)).2) as Hc.
  { exists [f]. split; [eapply takes_frame; [done..|apply dispatch_dispatched]|].
    intros Hg. by apply dispatch_killed, Hg0. }
  assert (good w -> good (dispatch f (set_recv_buf rest w)).2) as Hg1.
  { intros Hg. destruct (dispatch_effect f (set_recv_buf rest w)) as (r & w' & -> & _ & Hcalm); [auto|apply Hok|apply Hcalm]. }
  destruct (dispatch f (set_recv_buf rest w)) as [[x| |c|] w1]; cbn [snd] in *; [|done..].
  eapply consumes_trans; [exact Hg1|done|apply IH].
Qed.

Lemma read_ctrl_consumes w : consumes w (_read_ctrl_frames dispatch w).2.
Proof.
  unfold _read_ctrl_frames. rewrite M_bind_eq. unfold sys, sock_recv.
  destruct (inbox (kernel w)) as [|bs rest] eqn:Hin.
  { destruct (peer_open (kernel w)); apply consumes_silent; split; try done; cbn; by rewrite ?Hin. }
  generalize (Z.to_nat 65536). intros n. cbv beta iota zeta.
  set (k := set_inbox _ (kernel w)).
  assert (take n bs ++ concat (inbox k) = concat (inbox (kernel w))) as Hk.
  { unfold k. cbn. rewrite Hin. cbn. case_bool_decide as Hd.
    - rewrite <-(take_drop n bs) at 2. by rewrite Hd, app_nil_r.
    - cbn. by rewrite app_assoc, take_drop. }
  assert (consumes w (set_recv_buf (recv_buf w ++ take n bs) (set_kernel k w))) as Hc.
  { exists []. split; [|intros _; apply killed_nil]. split; [done|done| | |done].
    - cbn [set_recv_buf set_kernel recv_buf kernel fmap list_fmap concat app]. by rewrite <-Hk, app_assoc.
    - exists []. by rewrite app_nil_r. }
  destruct (take n bs) as [|b bs'] eqn:Eb.
  - cbn. rewrite app_nil_r in Hc. by destruct w.
  - rewrite modify_bind. cbn [recv_buf set_kernel]. eapply consumes_trans; [|exact Hc|apply frame_loop_consumes].
    intros Hg. apply (good_core w); try done. cbn. pose proof (gd_inbox _ Hg) as Hf. rewrite Hin in Hf.
    apply Forall_cons in Hf as [Hb Hl]. case_bool_decide; [done|by constructor].
Qed.

Lemma handle_ctrl_consumes w : consumes w (handle_fd (ctrl w) w).2.
Proof.
  unfold handle_fd. match goal with |- consumes _ (catch _ ?h w).2 => assert (effect silent h) as Hh by walk end.
  unfold catch. rewrite M_bind_eq. cbn [get]. rewrite Z.eqb_refl.
  pose proof (read_ctrl_consumes w) as Hc. pose proof (read_ctrl_effect w) as He.
  destruct (_read_ctrl_frames dispatch w) as [[x| |c|] w']; try done.
  eapply consumes_trans; [|exact Hc|apply consumes_silent, Hh]. intros Hg.
  destruct (He Hg) as (r & w1 & [= _ <-] & _ & Hcalm). apply Hcalm.
Qed.

Lemma serve_turn_consumes readable writable w : select_ok w readable writable ->
  consumes w (serve_turn readable writable w).2.
Proof.
  intros (_ & _ & Hct & _). unfold serve_turn. rewrite M_bind_eq.
  assert (effect silent (if writable then _flush else mret tt)) as Hfl by walk.
  assert (good w -> good ((if writable then _flush else mret tt) w).2) as Hg1.
  { intros Hg. destruct writable; [|done]. destruct (flush_effect w) as (r & w' & -> & Hio & _). by eapply good_io. }
  specialize (Hfl w). destruct ((if writable then _flush else mret tt) w) as [[x| |c|] w1]; cbn [snd] in *;
    [|by apply consumes_silent..].
  eapply consumes_trans; [exact Hg1|by apply consumes_silent|]. rewrite <-(sl_ctrl _ _ Hfl) in Hct.
  destruct readable as [|fd fds]; [by apply consumes_silent|]. cbn [tail] in Hct. cbn [handle_fds].
  destruct (decide (fd = ctrl w1)) as [->|Hne]; [|apply consumes_silent, (handle_fds_silent (fd :: fds)); set_solver].
  rewrite M_bind_eq. pose proof (handle_ctrl_consumes w1) as Hc.
  destruct (handle_fd (ctrl w1) w1) as [[x'| |c|] w2]; cbn [snd] in *; try done.
  destruct Hc as (fs & Ht & Hk).
  assert (silent w2 (handle_fds fds w2).2) as Hs by (apply handle_fds_silent; by rewrite (tk_ctrl _ _ _ Ht)).
  exists (fs ++ []). split; [eapply takes_trans; [done|by apply takes_silent]|]. rewrite app_nil_r. intros Hg.
  eapply killed_step; [apply Hs|apply Hs|by apply Hk].
Qed.

(** ** Frames sent stay sent *)

Lemma flush_extends : effect extends _flush.
Proof.
  intros w. destruct (flush_effect w) as (r & w' & -> & Hio & _). unfold extends. cbn [snd].
  by rewrite (f_equal c_frames (io_core _ _ Hio) : frames w' = _).
Qed.

Hint Resolve flush_extends : input.

Lemma send_extends t id p : effect extends (_send t id p).
Proof. unfold _send. walk. Qed.

Lemma close_all_extends fds : effect extends (close_all fds).
Proof. induction fds as [|fd fds IH]; cbn [close_all]; walk. Qed.

Hint Resolve send_extends close_all_extends : input.

Lemma finish_request_extends pid id : effect extends (finish_request pid id).
Proof. unfold finish_request. walk. Qed.

Lemma handle_run_extends id payload : effect extends (_handle_run id payload).
Proof. unfold _handle_run, cleanup. walk. Qed.

Lemma handle_kill_extends id : effect extends (_handle_kill id).
Proof. unfold _handle_kill. walk. Qed.

Hint Resolve finish_request_extends handle_run_extends handle_kill_extends : input.

Lemma dispatch_extends f : effect extends (dispatch f).
Proof. unfold dispatch. walk. Qed.

Lemma teardown_extends fd id : effect extends (_teardown_pipe_fd fd id).
Proof. unfold _teardown_pipe_fd. walk. Qed.

Hint Resolve dispatch_extends teardown_extends : input.

Lemma frame_loop_extends fuel : effect extends (frame_loop fuel dispatch).
Proof.
  induction fuel as [|fuel IH]; intros w; cbn [frame_loop]; [done|]. destruct (parse_frame _ _); [done..|].
  match goal with |- extends _ (?m w).2 => enough (effect extends m) as Hm by apply Hm end. walk.
Qed.

Lemma read_ctrl_extends : effect extends (_read_ctrl_frames dispatch).
Proof. unfold _read_ctrl_frames. walk. intros w. apply frame_loop_extends. Qed.

Lemma on_pipe_readable_extends fd : effect extends (_on_pipe_readable fd).
Proof. unfold _on_pipe_readable. walk. Qed.

Hint Resolve read_ctrl_extends on_pipe_readable_extends : input.

Lemma handle_fd_extends fd : effect extends (handle_fd fd).
Proof. unfold handle_fd. walk. Qed.

Hint Resolve handle_fd_extends : input.

Lemma handle_fds_extends fds : effect extends (handle_fds fds).
Proof. induction fds as [|fd fds IH]; cbn [handle_fds]; walk. Qed.

Lemma serve_turn_extends readable writable : effect extends (serve_turn readable writable).
Proof. unfold serve_turn. walk. apply handle_fds_extends. Qed.

(** ** The environment *)

Lemma env_doomed m k k' i : env_step m k = Some k' -> doomed i k -> doomed i k'.
Proof.
  unfold env_step. intros (k1 & Hk & ->)%fmap_Some Hd. change (doomed i k1).
  destruct m as [j x bs|j x|j st|j|j|bs|n| |]; cbn in Hk; simplify_eq; try done.
  1-5: destruct (procs k !! j) as [pr|] eqn:Hj; [|done]; cbn in Hk.
  - destruct (pipes k !! pipe_of x pr) as [pp|]; [|done]. cbn in Hk. by case_match; simplify_eq.
  - by case_match; simplify_eq.
  - case_match; simplify_eq. by apply silent_proc_exit.
  - case_match; simplify_eq. by apply silent_proc_exit.
  - case_match; simplify_eq. by apply doomed_alter.
  - by case_match; simplify_eq.
Qed.

End Silent.
