(* ===== verification/System.v ===== *)
(** * System: the zygote manager and its worker, connected

    The composition of [Manager] (any number of concurrent calls of
    [ZygoteManager::run] and the reader task) with [Worker] (the select loop of
    zygote_worker.py, its children and the kernel) by the two directions of the
    control socket.  From the server, [write_all] hands a frame to the socket,
    which accepts all of it, a part, or nothing; accepted bytes travel in order
    and are delivered in pieces of any size.  To the server, the reader task
    handles a frame when its bytes have been sent by the worker.  An execution
    is a list of events of either side; the worker may be ended from outside
    at any time.

    What is assumed of the socket: once it took only a part of a frame, it
    takes nothing more (the write failed, the peer is gone). *)

From S2P Require Import Prelude RustStd Wire Reader Models Runners Manager Answers Posix Worker WorkerInv WorkerSpec WorkerInput.

(** ** Data *)

(** [up] holds the bytes in transit to the worker.  [accepted] (the frames the
    socket took whole) is history, and [part] what it took of a frame whose
    write failed. *)
Record System := mkSystem {
  mgr : Manager.Sys;
  wrk : Worker.State;
  up : bytes;
  accepted : list Frame;
  part : bytes
}.

(** [Server e n]: an event of the manager; when it writes, [n] bytes are
    accepted.  [Crash]: the worker is ended by something else. *)
Inductive event :=
| Server (e : Manager.event) (n : nat)
| Deliver (n : nat)
| Turn (readable : list Z) (writable : bool)
| Child (m : move)
| Crash (code : Z).

Definition set_mgr (m : Manager.Sys) (s : System) : System := mkSystem m (wrk s) (up s) (accepted s) (part s).
Definition set_wrk (w : Worker.State) (s : System) : System := mkSystem (mgr s) w (up s) (accepted s) (part s).

Section Model.
Context `{Os} `{PyJson} (payload : nat -> bytes) (max : Z).

(** ** Steps *)

(** The frame an event of the manager hands to [write_all]. *)
Definition frame_written (e : Manager.event) (m : Manager.Sys) : option Frame :=
  match e with
  | EvWrite i _ => match calls m !! i with Some (PcWriteRun id) => Some (mkFrame MSG_RUN id (payload i)) | _ => None end
  | EvKill i => match calls m !! i with Some (PcTimedOut id) => Some (mkFrame MSG_KILL id []) | _ => None end
  | EvLimitKill => match reader m with RdKill id => Some (mkFrame MSG_KILL id []) | _ => None end
  | _ => None
  end.

(** The socket takes [n] bytes of a frame. *)
Definition push (f : Frame) (n : nat) (s : System) : option System :=
  let bs := encode f in
  if bool_decide (n = 0)%nat then Some s
  else if bool_decide (part s = []) then
    if bool_decide (n = length bs) then Some (mkSystem (mgr s) (wrk s) (up s ++ bs) (accepted s ++ [f]) [])
    else if bool_decide (n < length bs)%nat then
      Some (mkSystem (mgr s) (wrk s) (up s ++ take n bs) (accepted s) (take n bs))
    else None
  else None.

(** What the reader finds behind the frames it has handled. *)
Definition next_frame (s : System) : parsed :=
  parse_frame max (drop (length (concat (encode <$> hist (mgr s)))) (wire (kernel (zygote (wrk s))))).

(** The reader handles what the worker sent; [write_all] succeeds when the
    whole frame was accepted. *)
Definition allowed (e : Manager.event) (n : nat) (s : System) : Prop :=
  match e with
  | EvFrame f => match next_frame s with Parsed g _ => g = f | _ => False end
  | EvWrite i ok =>
    match frame_written e (mgr s) with
    | Some f => ok = bool_decide (n = length (encode f))
    | None => False
    end
  | _ => True
  end.

#[global] Instance allowed_dec e n s : Decision (allowed e n s).
Proof. destruct e; cbn; repeat case_match; apply _. Defined.

Definition child_move (m : move) : bool :=
  match m with Posix.Deliver _ | PeerClose => false | _ => true end.

Definition exec (e : event) (s : System) : option System :=
  match e with
  | Server e n =>
    if bool_decide (allowed e n s) then
      m ← Manager.exec payload max e (mgr s);
      match frame_written e (mgr s) with
      | Some f => push f n (set_mgr m s)
      | None => Some (set_mgr m s)
      end
    else None
  | Deliver n =>
    w ← Worker.exec (Env (Posix.Deliver (take n (up s)))) (wrk s);
    Some (mkSystem (mgr s) w (drop n (up s)) (accepted s) (part s))
  | Turn readable writable => w ← Worker.exec (Worker.Turn readable writable) (wrk s); Some (set_wrk w s)
  | Child m => if child_move m then w ← Worker.exec (Env m) (wrk s); Some (set_wrk w s) else None
  | Crash code => Some (set_wrk (mkState (zygote (wrk s)) (Ended code)) s)
  end.

Fixpoint execs (es : list event) (s : System) : option System :=
  match es with
  | [] => Some s
  | e :: es => exec e s ≫= execs es
  end.

Definition start (ctrl_fd room : Z) : System := mkSystem sys_init (init ctrl_fd room) [] [] [].

Definition reachable (s : System) : Prop := exists ctrl_fd room es, execs es (start ctrl_fd room) = Some s.

End Model.

(** Bytes on their way to the worker's parser. *)
Definition in_transit (s : System) : bytes :=
  recv_buf (zygote (wrk s)) ++ concat (inbox (kernel (zygote (wrk s)))) ++ up s.

(** ** Lemmas: the stream to the worker *)

(** What may follow whole frames: nothing, or a part of a frame. *)
Definition fragment (max : Z) (bs : bytes) : Prop :=
  bs = [] \/ exists f x, frame_ok max f /\ x <> [] /\ bs ++ x = encode f.

(** Frames are a prefix code: what was taken off a stream of frames are the
    first of them. *)
Lemma taken_prefix max fs bs gs rest : Forall (frame_ok max) fs -> Forall (frame_ok max) gs -> fragment max bs ->
  concat (encode <$> fs) ++ bs = concat (encode <$> gs) ++ rest ->
  exists fs', fs = gs ++ fs' /\ rest = concat (encode <$> fs') ++ bs.
Proof.
  intros Hfs Hgs Hbs. revert fs Hfs. induction Hgs as [|g gs Hg _ IH]; intros fs Hfs E; [eauto|].
  destruct Hfs as [|f fs Hf Hfs].
  - exfalso. destruct Hbs as [->|(f & x & Hf & Hx & Ef)].
    + apply (f_equal len) in E. cbn in E. rewrite !len_app, len_encode in E. unfold HEADER_SIZE in E. len_lia.
    + cbn in E. rewrite E in Ef. rewrite <-!app_assoc in Ef. pose proof (parse_encode max f [] Hf) as Hp.
      rewrite app_nil_r, <-Ef, parse_encode in Hp by done. injection Hp as _ Hp.
      by apply app_nil in Hp as [_ [_ ?]%app_nil].
  - rewrite !fmap_cons in E. cbn [concat] in E. rewrite <-!app_assoc in E.
    pose proof (parse_encode max f (concat (encode <$> fs) ++ bs) Hf) as Hp.
    rewrite E, parse_encode in Hp by done. injection Hp as -> Hp.
    destruct (IH fs Hfs (eq_sym Hp)) as (fs' & -> & ->). by exists fs'.
Qed.

(** No frame of such a stream is over the cap. *)
Lemma stream_fits max fs bs buf rest : Forall (frame_ok max) fs -> fragment max bs ->
  buf ++ rest = concat (encode <$> fs) ++ bs -> parse_frame max buf <> Oversized.
Proof.
  intros Hfs Hbs E Ho. pose proof (parse_frame_app max buf rest) as Hp. rewrite Ho, E in Hp.
  destruct Hfs as [|f fs Hf _]; [|cbn in Hp; rewrite <-app_assoc, parse_encode in Hp by done; done].
  destruct Hbs as [->|(f & x & Hf & _ & Ef)]; [done|]. cbn in Hp. pose proof (parse_frame_app max bs x) as Hq.
  rewrite Hp, Ef in Hq. pose proof (parse_encode max f [] Hf) as Hok. rewrite app_nil_r in Hok. congruence.
Qed.

(** ** Lemmas: what an event of the manager changes *)

Section ManagerFacts.
Context (payload : nat -> bytes) (max : Z).

(** A call is past its request: [MSG_RUN] was written, or the write failed. *)
Definition past (id : Z) (m : Manager.Sys) : Prop :=
  exists i p, ids m !! i = Some id /\ calls m !! i = Some p /\ (call_rank p <= 3)%nat.

(** The request whose output limit the reader is acting on. *)
Definition limiting (r : rd) : option Z :=
  match r with RdLimit id _ _ | RdSend id _ _ | RdKill id => Some id | _ => None end.

Ltac manager_event := unfold Manager.exec in *; repeat (case_match; simplify_eq/=; try done);
  unfold do_check, do_frame in *; repeat (case_match; simplify_eq/=; try done).

Lemma send_opt_writes t r h : writes (send_opt t r h) = writes h.
Proof. by destruct t. Qed.

(** [frame_written] is what the manager's own record of writes says. *)
Lemma exec_writes e m m' : Manager.exec payload max e m = Some m' ->
  writes (sh m') = writes (sh m) ++ option_list (encode <$> frame_written payload e m).
Proof.
  intros E. destruct e; cbn in *; repeat (case_match; simplify_eq/=; try done); rewrite ?app_nil_r, ?send_opt_writes; try done.
  - unfold do_check. by case_match.
  - unfold do_frame, apply_frame, Reader.dispatch. repeat (case_match; simplify_eq/=; try done).
  - unfold fail_one. case_match; [|done]. by rewrite send_opt_writes.
Qed.

Lemma exec_ids e m m' i id : Manager.inv max m -> Manager.exec payload max e m = Some m' ->
  ids m !! i = Some id -> ids m' !! i = Some id.
Proof.
  intros Hinv E Hi. destruct e as [j|j|j|j|j ok|j|j|j|j|f| | | | |k|]; manager_event.
  apply lookup_insert_Some. right. split; [|done]. intros ->.
  match goal with Hf : calls m !! i = Some PcFetch |- _ => destruct (inv_calls _ _ Hinv i _ Hf) as [Hn _] end. congruence.
Qed.

Lemma past_exec e m m' id : Manager.inv max m -> Manager.exec payload max e m = Some m' -> past id m -> past id m'.
Proof.
  intros Hinv E (i & p & Hi & Hp & Hr). destruct (exec_rank _ _ _ _ _ _ _ E Hp) as (p' & Hp' & Hle & _).
  exists i, p'. split; [by eapply exec_ids|]. split; [done|lia].
Qed.

Lemma exec_hist e m m' : Manager.exec payload max e m = Some m' ->
  hist m' = hist m ++ match e with EvFrame f => [f] | _ => [] end.
Proof. intros E. destruct e; manager_event; by rewrite ?app_nil_r. Qed.

Lemma exec_born e m m' i b : Manager.exec payload max e m = Some m' -> born m' !! i = Some b ->
  born m !! i = Some b \/ b = length (hist m) /\ exists id, calls m !! i = Some (PcInsert id).
Proof.
  intros E Hb. destruct e; manager_event; try (by left). apply lookup_insert_Some in Hb as [[<- <-]|[_ ?]]; [right; eauto|by left].
Qed.

Lemma exec_limiting e m m' id : Manager.exec payload max e m = Some m' -> limiting (reader m') = Some id ->
  limiting (reader m) = Some id \/ exists f, e = EvFrame f /\ f_req f = id.
Proof. intros E Hr. destruct e; manager_event; eauto. Qed.

Lemma exec_ids_old e m m' i id : Manager.exec payload max e m = Some m' -> ids m' !! i = Some id ->
  ids m !! i = Some id \/ born m !! i = born m' !! i /\ calls m !! i = Some PcFetch.
Proof.
  intros E Hb. destruct e; manager_event; try (by left). apply lookup_insert_Some in Hb as [[<- <-]|[_ ?]]; [by right|by left].
Qed.

End ManagerFacts.

(** ** Invariant *)

Section Linked.
Context `{Os} `{PyJson} (payload : nat -> bytes) (max : Z).

(** The worker has taken the first frames of those accepted, [taken]: every
    child was forked for one of them, and the killed ones are doomed. *)
Record took (taken : list Frame) (s : System) : Prop := {
  to_stream : exists waiting, accepted s = taken ++ waiting
    /\ in_transit s = concat (encode <$> waiting) ++ part s;
  to_launched : launched (zygote (wrk s)) `sublist_of` omap run_of taken;
  to_killed : killed taken (zygote (wrk s))
}.

(** Every accepted frame is for a request past its write; a [MSG_RUN] carries
    the request of its call; no [MSG_RUN] comes behind a frame of its id. *)
Record orders_ok (s : System) : Prop := {
  or_ok : Forall (frame_ok _MAX_FRAME_PAYLOAD) (accepted s);
  or_part : fragment _MAX_FRAME_PAYLOAD (part s);
  or_past : Forall (fun f => past (f_req f) (mgr s)) (accepted s);
  or_run : Forall (fun f => f_type f = MSG_RUN ->
    exists i, ids (mgr s) !! i = Some (f_req f) /\ f_payload f = payload i) (accepted s);
  or_order : forall pre f post, accepted s = pre ++ f :: post ->
    Forall (fun g => f_type g = MSG_RUN -> f_req g <> f_req f) post
}.

Record linked (s : System) : Prop := {
  lk_mgr : Manager.inv max (mgr s);
  lk_heard : is_open (mgr s) -> heard max (mgr s);
  lk_wrk : good (zygote (wrk s));
  lk_peer : peer_open (kernel (zygote (wrk s))) = true;
  lk_orders : orders_ok s;
  lk_took : exists taken, took taken s;
  lk_hist : hist (mgr s) `prefix_of` frames (zygote (wrk s));
  lk_born : forall i id b, ids (mgr s) !! i = Some id -> born (mgr s) !! i = Some b ->
    frames_of id (take b (hist (mgr s))) = [];
  lk_limit : forall id, limiting (reader (mgr s)) = Some id -> past id (mgr s)
}.

(** ** Lemmas: what the invariant says *)

(** A frame the worker sent is for a child it forked. *)
Lemma sent_launched s f : linked s -> f ∈ frames (zygote (wrk s)) -> exists i js, launched (zygote (wrk s)) !! i = Some (f_req f, js).
Proof.
  intros Hl Hf. set (w := zygote (wrk s)) in *.
  destruct (decide (f_req f ∈ (launched w).*1)) as [([id js] & E & Hin)%list_elem_of_fmap|Hno].
  - apply list_elem_of_lookup in Hin as [i Hi]. cbn in E. rewrite E. eauto.
  - exfalso. assert (frames_of (f_req f) (frames w) = []) as E.
    { apply (inv_unborn _ (gd_inv _ (lk_wrk _ Hl))). intros i js Hi. apply Hno. apply list_elem_of_fmap.
      exists (f_req f, js). split; [done|]. by eapply list_elem_of_lookup_2. }
    apply (not_elem_of_nil f). rewrite <-E. by apply list_elem_of_filter.
Qed.

(** A child was forked for an accepted [MSG_RUN]. *)
Lemma launched_accepted s i id js : linked s -> launched (zygote (wrk s)) !! i = Some (id, js) ->
  exists f, f ∈ accepted s /\ f_type f = MSG_RUN /\ f_req f = id /\ loads (f_payload f) = Some js.
Proof.
  intros Hl Hi. destruct (lk_took _ Hl) as [taken [(waiting & Ea & _) Hla _]].
  apply list_elem_of_lookup_2 in Hi. eapply elem_of_sublist in Hi; [|exact Hla].
  apply list_elem_of_omap in Hi as (f & Hf & Er). unfold run_of in Er. case_bool_decide; [|done].
  destruct (loads (f_payload f)) as [js'|] eqn:Ej; [|done]. cbn in Er. simplify_eq. exists f. split_and!; try done.
  rewrite Ea. apply elem_of_app. by left.
Qed.

Lemma launched_past s i id js : linked s -> launched (zygote (wrk s)) !! i = Some (id, js) -> past id (mgr s).
Proof.
  intros Hl Hi. destruct (launched_accepted s i id js Hl Hi) as (f & Hf & _ & <- & _).
  pose proof (or_past _ (lk_orders _ Hl)) as Hp. rewrite Forall_forall in Hp. by apply Hp.
Qed.

(** Nothing was sent for a call that has not written its request. *)
Lemma not_past_unsent s i id p : linked s -> ids (mgr s) !! i = Some id -> calls (mgr s) !! i = Some p ->
  (3 < call_rank p)%nat -> ~ past id (mgr s).
Proof.
  intros Hl Hi Hp Hr (j & q & Hj & Hq & Hle). pose proof (ids_inj _ (inv_ids _ _ (lk_mgr _ Hl)) _ _ _ Hi Hj) as <-.
  simplify_eq. lia.
Qed.

Lemma unpast_frames s id : linked s -> ~ past id (mgr s) -> frames_of id (frames (zygote (wrk s))) = [].
Proof.
  intros Hl Hn. apply (inv_unborn _ (gd_inv _ (lk_wrk _ Hl))). intros i js Hi. by eapply Hn, launched_past.
Qed.

(** The [MSG_RUN] frames have distinct ids, so every id is launched once. *)
Lemma run_ids_nodup s fs : orders_ok s -> fs `prefix_of` accepted s -> NoDup (omap run_of fs).*1.
Proof.
  intros Ho [rest E]. assert (forall pre f post, fs = pre ++ f :: post ->
    Forall (fun g => f_type g = MSG_RUN -> f_req g <> f_req f) post) as Hord.
  { intros pre f post ->. rewrite <-app_assoc in E. cbn in E. specialize (or_order _ Ho _ _ _ E).
    by intros [? _]%Forall_app. }
  clear E. induction fs as [|f fs IH]; [constructor|].
  assert (NoDup (omap run_of fs).*1) as Hnd by (apply IH; intros pre g post ->; by apply (Hord (f :: pre))).
  cbn. destruct (run_of f) as [[id js]|] eqn:Er; [|done]. cbn. constructor; [|done].
  intros ([id' js'] & Ei & (g & Hg & Eg)%list_elem_of_omap)%list_elem_of_fmap. cbn in Ei. subst id'.
  specialize (Hord [] f fs eq_refl). rewrite Forall_forall in Hord. specialize (Hord g Hg).
  unfold run_of in *. repeat case_bool_decide; try done.
  destruct (loads (f_payload f)), (loads (f_payload g)); simplify_eq/=. by apply Hord.
Qed.

Lemma launched_once s : linked s -> NoDup (launched (zygote (wrk s))).*1.
Proof.
  intros Hl. destruct (lk_took _ Hl) as [taken [(waiting & Ea & _) Hla _]].
  eapply (sublist_NoDup _ (omap run_of taken).*1); [|by apply (fmap_sublist fst)]. eapply run_ids_nodup; [apply Hl|]. by exists waiting.
Qed.

Lemma linked_only s i id js : linked s -> launched (zygote (wrk s)) !! i = Some (id, js) ->
  only_launch id i (core (zygote (wrk s))).
Proof.
  intros Hl Hi. split; [by eexists|]. intros j js' Hj. cbn in Hj.
  apply (NoDup_lookup (launched (zygote (wrk s))).*1 j i id); [by apply launched_once|by rewrite list_lookup_fmap, Hj|by rewrite list_lookup_fmap, Hi].
Qed.

(** ** Lemmas: the worker's side keeps the invariant *)

Lemma linked_step s s' : linked s -> mgr s' = mgr s -> accepted s' = accepted s -> part s' = part s ->
  good (zygote (wrk s')) -> peer_open (kernel (zygote (wrk s'))) = peer_open (kernel (zygote (wrk s))) ->
  (exists taken, took taken s') -> extends (zygote (wrk s)) (zygote (wrk s')) -> linked s'.
Proof.
  intros [Hm Hhd _ Hp [] _ Hh Hb Hli] Em Ea Ep Hg Hpe Ht Hx. split; rewrite ?Em; try done.
  - congruence.
  - split; by rewrite ?Ea, ?Ep, ?Em.
  - by etrans.
Qed.

Lemma took_takes taken fs s w : orders_ok s -> took taken s -> takes fs (zygote (wrk s)) (zygote w) -> killed fs (zygote w) ->
  took (taken ++ fs) (set_wrk w s).
Proof.
  intros Ho [(waiting & Ea & Et) Hl Hk] Ht Hkf. pose proof Ht as [_ Hok Hs (ls & El & Hls) _].
  assert (concat (encode <$> waiting) ++ part s = concat (encode <$> fs) ++ in_transit (set_wrk w s)) as E.
  { rewrite <-Et. unfold in_transit. cbn. rewrite !app_assoc, Hs. by rewrite <-!app_assoc. }
  pose proof (or_ok _ Ho) as Hall. rewrite Ea in Hall. apply Forall_app in Hall as [_ Hall].
  apply taken_prefix with (max := _MAX_FRAME_PAYLOAD) in E as (waiting' & -> & E); [|done|done|apply Ho].
  split.
  - exists waiting'. by rewrite <-app_assoc.
  - cbn. rewrite El, omap_app. by apply sublist_app.
  - by eapply killed_app.
Qed.

(** A turn of a worker connected to a manager: it goes on serving. *)
Lemma linked_serve_turn readable writable s w r : linked s -> select_ok (zygote (wrk s)) readable writable ->
  serve_turn readable writable (zygote (wrk s)) = (r, zygote w) -> r = Ok tt /\ linked (set_wrk w s).
Proof.
  intros Hl Hsel Hr. destruct (lk_took _ Hl) as [taken Ht]. pose proof (lk_wrk _ Hl) as Hg.
  destruct (serve_turn_consumes _ _ _ Hsel) as (fs & Htk & Hk). rewrite Hr in Htk, Hk. cbn [snd] in *. specialize (Hk Hg).
  pose proof (took_takes taken fs s w (lk_orders _ Hl) Ht Htk Hk) as Ht'.
  pose proof (serve_turn_extends readable writable (zygote (wrk s))) as Hext. rewrite Hr in Hext.
  destruct (serve_turn_effect readable writable _ Hg Hsel) as (r' & w' & E & Hcase). rewrite Hr in E. injection E as <- <-.
  destruct Hcase as [(c & _ & [[_ Hpe]|[_ Hov]])|(Hok & Hg' & _ & Hpe & _)].
  - by rewrite (lk_peer _ Hl) in Hpe.
  - exfalso. destruct Ht' as [(waiting & Ea & Et) _ _]. cbn in Ea. pose proof (or_ok _ (lk_orders _ Hl)) as Hall.
    rewrite Ea in Hall. apply Forall_app in Hall as [_ Hall].
    revert Hov. eapply stream_fits; [exact Hall|apply (lk_orders _ Hl)|exact Et].
  - split; [done|]. apply (linked_step s); eauto.
Qed.

Lemma linked_turn readable writable s w : linked s -> Worker.exec (Worker.Turn readable writable) (wrk s) = Some w ->
  linked (set_wrk w s).
Proof.
  intros Hl Hx. destruct (st_status (wrk s)) eqn:Hst; [|by unfold Worker.exec in Hx; rewrite Hst in Hx..].
  destruct (exec_turn _ _ _ _ Hst Hx) as [[_ ->]|(Hsel & r & Hr & _)]; [|by eapply linked_serve_turn].
  destruct (lk_took _ Hl) as [taken Ht]. apply (linked_step s); try done; [apply Hl|]. exists taken. by destruct Ht.
Qed.

(** A move of the environment, and what it delivers. *)
Lemma linked_env m s k up' : linked s -> env_step m (kernel (zygote (wrk s))) = Some k ->
  concat (inbox k) ++ up' = concat (inbox (kernel (zygote (wrk s)))) ++ up s ->
  peer_open k = peer_open (kernel (zygote (wrk s))) ->
  linked (mkSystem (mgr s) (mkState (set_kernel k (zygote (wrk s))) (st_status (wrk s))) up' (accepted s) (part s)).
Proof.
  intros Hl Hk Hup Hpe. destruct (lk_took _ Hl) as [taken [(waiting & Ea & Et) Hla Hki]].
  apply (linked_step s); try done.
  - by eapply good_env; [apply Hl|].
  - exists taken. split; [|done|].
    + exists waiting. split; [done|]. unfold in_transit in *. cbn in *. by rewrite Hup.
    + apply (killed_step taken (zygote (wrk s))); [done| |done]. intros i. by eapply env_doomed.
  - unfold extends. done.
Qed.

Lemma linked_crash s code : linked s -> linked (set_wrk (mkState (zygote (wrk s)) (Ended code)) s).
Proof. intros Hl. destruct (lk_took _ Hl) as [taken []]. apply (linked_step s); try done; [apply Hl|by exists taken]. Qed.

Lemma child_move_sock m k k' : child_move m = true -> env_step m k = Some k' ->
  inbox k' = inbox k /\ peer_open k' = peer_open k.
Proof.
  unfold env_step. intros Hm (k1 & Hk & ->)%fmap_Some. cbn [tick inbox peer_open].
  destruct m as [i x bs|i x|i st|i|i|bs|n| |]; cbn in Hk, Hm; simplify_eq; try done.
  1-5: destruct (procs k !! i) as [pr|] eqn:Hi; [|done]; cbn in Hk.
  - destruct (pipes k !! _); [|done]. cbn in Hk. by case_match; simplify_eq.
  - by case_match; simplify_eq.
  - unfold proc_exit in Hk. rewrite Hi in Hk. by case_match; simplify_eq.
  - unfold proc_exit in Hk. rewrite Hi in Hk. by case_match; simplify_eq.
  - by case_match; simplify_eq.
Qed.

Lemma linked_child m s w : linked s -> child_move m = true -> Worker.exec (Env m) (wrk s) = Some w -> linked (set_wrk w s).
Proof.
  intros Hl Hm Hx. cbn in Hx. destruct (env_step m (kernel (zygote (wrk s)))) as [k|] eqn:Hk; simplify_eq/=.
  assert (inbox k = inbox (kernel (zygote (wrk s))) /\ peer_open k = peer_open (kernel (zygote (wrk s)))) as [Ei Ep].
  { by eapply child_move_sock. }
  eapply (linked_env m); [done..| |done]. by rewrite Ei.
Qed.

Lemma linked_deliver n s w : linked s -> Worker.exec (Env (Posix.Deliver (take n (up s)))) (wrk s) = Some w ->
  linked (mkSystem (mgr s) w (drop n (up s)) (accepted s) (part s)).
Proof.
  intros Hl Hx. unfold Worker.exec in Hx.
  destruct (env_step _ _) as [k|] eqn:Hk; simplify_eq/=. eapply linked_env; [done..| |].
  - unfold env_step in Hk. cbn in Hk. case_match; simplify_eq/=.
    rewrite concat_app, <-app_assoc. cbn. by rewrite app_nil_r, take_drop.
  - unfold env_step in Hk. cbn in Hk. by case_match; simplify_eq/=.
Qed.

(** ** Lemmas: the manager's side keeps the invariant *)

Lemma past_u32 m id : Manager.inv max m -> past id m -> is_u32 id.
Proof.
  intros Hinv (i & p & Hi & _). destruct (ids_index _ (inv_ids _ _ Hinv) _ _ Hi) as (n & _ & ->).
  unfold wrap_u32, is_u32, u32_max. pose proof (Z.mod_pos_bound (1 + n) 4294967296). lia.
Qed.

(** The next frame of the wire is the next frame the worker sent. *)
Lemma next_frame_sent s f rest : 65536 <= max -> linked s -> next_frame max s = Parsed f rest ->
  hist (mgr s) ++ [f] `prefix_of` frames (zygote (wrk s)).
Proof.
  intros Hmax Hl Hp. unfold next_frame in Hp. set (w := zygote (wrk s)) in *. set (n := length _) in Hp.
  destruct (lk_hist _ Hl) as [fs Efs]. fold w in Efs. pose proof (gd_stream _ (lk_wrk _ Hl)) as Hs. fold w in Hs.
  apply parse_frame_Parsed in Hp as [Hok Hd].
  assert (drop n (wire (kernel w)) ++ out w = concat (encode <$> fs)) as E.
  { assert (n <= length (wire (kernel w)))%nat as Hn.
    { destruct (decide (n <= length (wire (kernel w)))%nat); [done|]. rewrite drop_ge in Hd by lia.
      apply (f_equal len) in Hd. rewrite len_app, len_encode in Hd. unfold HEADER_SIZE in Hd. len_lia. }
    rewrite <-drop_app_le by done. unfold produced in Hs. rewrite Hs, Efs, fmap_app, concat_app.
    unfold n. by rewrite drop_app_length. }
  rewrite Hd, <-app_assoc in E. destruct fs as [|g fs].
  { apply (f_equal len) in E. cbn in E. rewrite !len_app, len_encode in E. unfold HEADER_SIZE in E. len_lia. }
  assert (frame_ok max g) as Hg.
  { pose proof (gd_frames _ (lk_wrk _ Hl)) as Hf. fold w in Hf. rewrite Efs in Hf.
    apply Forall_app in Hf as [_ (Hg & _)%Forall_cons]. destruct Hg as (? & ? & ?). split_and!; [done|lia|done]. }
  rewrite fmap_cons in E. cbn [concat] in E.
  pose proof (parse_encode max f (rest ++ out w) Hok) as Hp. rewrite E, parse_encode in Hp by done. injection Hp as -> _.
  exists fs. by rewrite <-app_assoc.
Qed.

Lemma linked_hist e n s m : 65536 <= max -> linked s -> allowed payload max e n s ->
  Manager.exec payload max e (mgr s) = Some m -> hist m `prefix_of` frames (zygote (wrk s)).
Proof.
  intros Hmax Hl Ha Hx. rewrite (exec_hist _ _ _ _ _ Hx). pose proof (lk_hist _ Hl) as Hh.
  destruct e; rewrite ?app_nil_r; try done. cbn in Ha. destruct (next_frame max s) eqn:Hn; try done. subst.
  by eapply next_frame_sent.
Qed.

Lemma linked_born e s m i id b : linked s -> Manager.exec payload max e (mgr s) = Some m ->
  ids m !! i = Some id -> born m !! i = Some b -> frames_of id (take b (hist m)) = [].
Proof.
  intros Hl Hx Hi Hb. pose proof (lk_mgr _ Hl) as Hinv. rewrite (exec_hist _ _ _ _ _ Hx).
  assert (ids (mgr s) !! i = Some id) as Hi0.
  { destruct (exec_ids_old _ _ _ _ _ _ _ Hx Hi) as [|[E Hf]]; [done|].
    destruct (inv_calls _ _ Hinv _ _ Hf) as [_ Hn]. congruence. }
  destruct (exec_born _ _ _ _ _ _ _ Hx Hb) as [Hb0|(-> & id' & Hc)].
  - rewrite take_app_le by (by eapply inv_born). by eapply lk_born.
  - rewrite take_app_length. destruct (lk_hist _ Hl) as [fs Efs].
    assert (frames_of id (frames (zygote (wrk s))) = []) as E.
    { apply unpast_frames; [done|]. eapply not_past_unsent; [done..|]. cbn. lia. }
    rewrite Efs, frames_of_app in E. by apply app_nil in E as [-> _].
Qed.

Lemma linked_limit e n s m id : 65536 <= max -> linked s -> allowed payload max e n s ->
  Manager.exec payload max e (mgr s) = Some m -> limiting (reader m) = Some id -> past id m.
Proof.
  intros Hmax Hl Ha Hx Hr. eapply past_exec; [apply Hl|done|].
  destruct (exec_limiting _ _ _ _ _ _ Hx Hr) as [|(f & -> & <-)]; [by apply Hl|].
  pose proof (linked_hist _ _ _ _ Hmax Hl Ha Hx) as Hh. rewrite (exec_hist _ _ _ _ _ Hx) in Hh.
  destruct (sent_launched s f Hl) as (i & js & Hi); [|by eapply launched_past].
  destruct Hh as [fs ->]. set_solver.
Qed.

Lemma linked_mgr e n s m : 65536 <= max -> linked s -> issued (mgr s) < 4294967296 -> allowed payload max e n s ->
  Manager.exec payload max e (mgr s) = Some m -> linked (set_mgr m s).
Proof.
  intros Hmax Hl Hi Ha Hx. pose proof Hl as [Hinv Hhd Hg Hpe [Hok Hpt Hpast Hrun Hord] (taken & [Hts Htl Htk]) _ _ _].
  split; cbn; try done.
  - by eapply inv_exec.
  - by eapply heard_exec.
  - split; try done; cbn.
    + eapply Forall_impl; [exact Hpast|]. cbn. intros f. by apply (past_exec payload max e (mgr s)).
    + eapply Forall_impl; [exact Hrun|]. cbn. intros f Hf Ht. destruct (Hf Ht) as (i & ? & ?). exists i. split; [|done]. by eapply exec_ids.
  - by exists taken.
  - by eapply linked_hist.
  - intros. by eapply linked_born.
  - intros. by eapply linked_limit.
Qed.

(** The frame an event writes. *)
Record writable_frame (f : Frame) (m m' : Manager.Sys) : Prop := {
  wf_ok : frame_ok _MAX_FRAME_PAYLOAD f;
  wf_past : past (f_req f) m';
  wf_run : f_type f = MSG_RUN -> exists i, ids m' !! i = Some (f_req f) /\ f_payload f = payload i;
  wf_new : f_type f = MSG_RUN -> ~ past (f_req f) m
}.

Lemma kill_writable id e m m' : Manager.inv max m -> Manager.inv max m' -> Manager.exec payload max e m = Some m' ->
  past id m -> writable_frame (mkFrame MSG_KILL id []) m m'.
Proof.
  intros Hm Hm' Hx Hp. split; try done; [|by apply (past_exec payload max e m)].
  split_and!; [by apply (past_u32 m)|..]; cbn; unfold len, _MAX_FRAME_PAYLOAD, u32_max; cbn; lia.
Qed.

Lemma frame_written_ok e s m f : (forall i, len (payload i) <= _MAX_FRAME_PAYLOAD) -> linked s -> Manager.inv max m ->
  Manager.exec payload max e (mgr s) = Some m -> frame_written payload e (mgr s) = Some f -> writable_frame f (mgr s) m.
Proof.
  intros Hpay Hl Hm Hx Hf. pose proof (lk_mgr _ Hl) as Hinv. destruct e; cbn in Hf; try done.
  - destruct (calls (mgr s) !! i) as [[]|] eqn:Hc; simplify_eq. pose proof (inv_calls _ _ Hinv _ _ Hc) as Hid. cbn in Hid.
    assert (past id m) as Hp.
    { exists i. cbn in Hx. rewrite Hc in Hx. simplify_eq/=. eexists. split; [done|]. rewrite lookup_insert_eq. split; [done|].
      destruct ok; cbn; lia. }
    split; cbn; [|done|intros _; exists i; split; [by eapply exec_ids|done]|].
    + split_and!; cbn; [by apply (past_u32 m)|done|]. specialize (Hpay i). unfold _MAX_FRAME_PAYLOAD, u32_max in *. lia.
    + intros _. eapply not_past_unsent; [done..|]. cbn. lia.
  - destruct (calls (mgr s) !! i) as [[]|] eqn:Hc; simplify_eq. pose proof (inv_calls _ _ Hinv _ _ Hc) as Hid. cbn in Hid.
    eapply kill_writable; [done..|]. exists i. eexists. split_and!; [done..|cbn; lia].
  - destruct (reader (mgr s)) eqn:Hr; simplify_eq. eapply kill_writable; [done..|]. apply (lk_limit _ Hl). by rewrite Hr.
Qed.

Lemma linked_push f n s s' m0 : linked s -> writable_frame f m0 (mgr s) -> Forall (fun g => past (f_req g) m0) (accepted s) ->
  push f n s = Some s' -> linked s'.
Proof.
  intros Hl [Hok Hpast Hrun Hnew] Hold Hp. unfold push in Hp. case_bool_decide; simplify_eq; [done|].
  case_bool_decide as Hpt; [|done].
  pose proof Hl as [Hinv Hhd Hg Hpe [Hoks _ Hpasts Hruns Hord] (taken & [(waiting & Ea & Et) Htl Htk]) Hh Hb Hli].
  rewrite Hpt, app_nil_r in Et. case_bool_decide as Hn; simplify_eq.
  - split; try done; cbn.
    + split; cbn; [by apply Forall_app_2; [|apply Forall_singleton]|by left|by apply Forall_app_2; [|apply Forall_singleton]
        |by apply Forall_app_2; [|apply Forall_singleton]|].
      intros pre g post E. destruct post as [|g' post _] using rev_ind; [constructor|].
      rewrite app_comm_cons, app_assoc in E. apply app_inj_tail in E as [E ->].
      apply Forall_app_2; [by eapply Hord|]. apply Forall_singleton. intros Ht Er. apply (Hnew Ht). rewrite Er.
      rewrite Forall_forall in Hold. apply Hold. rewrite E. set_solver.
    + exists taken. split; [|done|done]. exists (waiting ++ [f]). cbn. split; [by rewrite Ea, app_assoc|].
      unfold in_transit in *. cbn. rewrite fmap_app, concat_app, <-Et. cbn. by rewrite !app_nil_r, <-!app_assoc.
  - case_bool_decide as Hlt; simplify_eq. split; try done; cbn.
    + split; try done. right. exists f, (drop n (encode f)). split; [done|]. split; [|apply take_drop].
      intros E. apply (f_equal length) in E. rewrite length_drop in E. cbn in E. lia.
    + exists taken. split; [|done|done]. exists waiting. cbn. split; [done|].
      unfold in_transit in *. cbn. rewrite <-Et. by rewrite <-!app_assoc.
Qed.

(** ** Lemmas: executions *)

Lemma linked_exec e s s' : 65536 <= max -> (forall i, len (payload i) <= _MAX_FRAME_PAYLOAD) ->
  linked s -> issued (mgr s) < 4294967296 -> exec payload max e s = Some s' -> linked s'.
Proof.
  intros Hmax Hpay Hl Hi Hx. destruct e as [e n|n|readable writable|m|code]; cbn [exec] in Hx.
  - case_bool_decide as Ha; [|done]. destruct (Manager.exec payload max e (mgr s)) as [m|] eqn:Hm; [|done]. cbn in Hx.
    pose proof (linked_mgr e n s m Hmax Hl Hi Ha Hm) as Hl1.
    destruct (frame_written payload e (mgr s)) as [f|] eqn:Hf; [|by simplify_eq].
    eapply (linked_push f n (set_mgr m s) s' (mgr s)); [done| |apply (lk_orders _ Hl)|done].
    eapply frame_written_ok; [done..|apply Hl1|done|done].
  - destruct (Worker.exec _ _) as [w|] eqn:Hw; simplify_eq/=. by apply linked_deliver.
  - destruct (Worker.exec _ _) as [w|] eqn:Hw; simplify_eq/=. by eapply linked_turn.
  - destruct (child_move m) eqn:Hm; [|done]. destruct (Worker.exec _ _) as [w|] eqn:Hw; simplify_eq/=. by eapply linked_child.
  - simplify_eq. by apply linked_crash.
Qed.

Lemma step_issued e s s' : exec payload max e s = Some s' -> issued (mgr s) <= issued (mgr s').
Proof.
  intros Hx. destruct e as [e n|n|readable writable|m|code]; cbn [exec] in Hx.
  - case_bool_decide; [|done]. destruct (Manager.exec payload max e (mgr s)) as [m|] eqn:Hm; [|done]. cbn in Hx.
    apply issued_mono in Hm. unfold push in Hx. repeat (case_match; simplify_eq/=; try done).
  - destruct (Worker.exec _ _); simplify_eq/=. done.
  - destruct (Worker.exec _ _); simplify_eq/=. done.
  - destruct (child_move m); [|done]. destruct (Worker.exec _ _); simplify_eq/=. done.
  - simplify_eq/=. done.
Qed.

Lemma system_issued es s s' : execs payload max es s = Some s' -> issued (mgr s) <= issued (mgr s').
Proof.
  revert s. induction es as [|e es IH]; intros s; cbn; [by intros [= <-]|].
  destruct (exec payload max e s) as [s1|] eqn:E; [|done]. intros Hx%IH. apply step_issued in E. lia.
Qed.

Lemma linked_execs es s s' : 65536 <= max -> (forall i, len (payload i) <= _MAX_FRAME_PAYLOAD) ->
  linked s -> execs payload max es s = Some s' -> issued (mgr s') <= u32_max -> linked s'.
Proof.
  intros Hmax Hpay Hl Hx Hi. revert s Hl Hx. induction es as [|e es IH]; intros s Hl; cbn; [by intros [= <-]|].
  destruct (exec payload max e s) as [s1|] eqn:E; [|done]. cbn. intros Hx. eapply IH; [|done].
  eapply linked_exec; [done..| |done]. apply system_issued in Hx. apply step_issued in E. unfold u32_max in Hi. lia.
Qed.

Lemma exec_accepted e s s' : exec payload max e s = Some s' -> accepted s `prefix_of` accepted s'.
Proof.
  intros Hx. destruct e as [e n|n|readable writable|m|code]; cbn [exec] in Hx.
  - case_bool_decide; [|done]. destruct (Manager.exec payload max e (mgr s)) as [m|]; [|done]. cbn in Hx.
    unfold push in Hx. repeat (case_match; simplify_eq/=; try done). by apply prefix_app_r.
  - destruct (Worker.exec _ _); simplify_eq/=. done.
  - destruct (Worker.exec _ _); simplify_eq/=. done.
  - destruct (child_move m); [|done]. destruct (Worker.exec _ _); simplify_eq/=. done.
  - simplify_eq/=. done.
Qed.

Lemma execs_accepted es s s' : execs payload max es s = Some s' -> accepted s `prefix_of` accepted s'.
Proof.
  revert s. induction es as [|e es IH]; intros s; cbn; [by intros [= <-]|].
  destruct (exec payload max e s) as [s1|] eqn:E; [|done]. intros Hx%IH. apply exec_accepted in E. by etrans.
Qed.

Lemma execs_app es1 es2 s : execs payload max (es1 ++ es2) s = execs payload max es1 s ≫= execs payload max es2.
Proof. revert s. induction es1 as [|e es1 IH]; intros s; [done|]. cbn. destruct (exec payload max e s); [apply IH|done]. Qed.

Lemma reachable_execs es s s' : reachable payload max s -> execs payload max es s = Some s' -> reachable payload max s'.
Proof. intros (c & r & es0 & E) Hx. exists c, r, (es0 ++ es). by rewrite execs_app, E. Qed.

(** A write of which all bytes are accepted. *)
Lemma write_accepted e f s s' : frame_written payload e (mgr s) = Some f ->
  exec payload max (Server e (length (encode f))) s = Some s' -> f ∈ accepted s'.
Proof.
  intros Hf Hx. cbn [exec] in Hx. case_bool_decide; [|done]. destruct (Manager.exec payload max e (mgr s)) as [m|]; [|done].
  cbn in Hx. rewrite Hf in Hx. unfold push in Hx. case_bool_decide as Hn.
  { pose proof (len_encode f) as El. unfold len, HEADER_SIZE in El. lia. }
  case_bool_decide; [|done]. rewrite bool_decide_true in Hx by done. simplify_eq/=. set_solver.
Qed.

Lemma linked_start ctrl_fd room : linked (start ctrl_fd room).
Proof.
  split; try done.
  - apply inv_init.
  - intros _. apply heard_init.
  - apply good_init.
  - split; try done; cbn; [by left|]. intros pre f post E. by destruct pre.
  - exists []. split; [by exists []|done|apply killed_nil].
Qed.

Lemma linked_reachable s : 65536 <= max -> (forall i, len (payload i) <= _MAX_FRAME_PAYLOAD) ->
  reachable payload max s -> issued (mgr s) <= u32_max -> linked s.
Proof. intros Hmax Hpay (c & r & es & Hes) Hi. by eapply linked_execs; [..|apply linked_start| |]. Qed.

(** ** Lemmas: what the server received of a request *)

Lemma outs_payloads id h : outs id h = payloads MSG_STDOUT (frames_of id h).
Proof. unfold outs, payloads, frames_of. rewrite list_filter_filter. do 2 f_equal. apply list_filter_iff. naive_solver. Qed.

Lemma errs_payloads id h : errs id h = payloads MSG_STDERR (frames_of id h).
Proof. unfold errs, payloads, frames_of. rewrite list_filter_filter. do 2 f_equal. apply list_filter_iff. naive_solver. Qed.

Lemma payloads_prefix t fs gs : fs `prefix_of` gs -> payloads t fs `prefix_of` payloads t gs.
Proof. intros [x ->]. rewrite payloads_app. by eexists. Qed.

(** The frames received since a call registered are the first of its id. *)
Lemma received_prefix s i id b h : linked s -> ids (mgr s) !! i = Some id -> born (mgr s) !! i = Some b ->
  h `prefix_of` drop b (hist (mgr s)) -> frames_of id h `prefix_of` frames_of id (frames (zygote (wrk s))).
Proof.
  intros Hl Hi Hb [h2 Eh]. destruct (lk_hist _ Hl) as [fs ->].
  rewrite <-(take_drop b (hist (mgr s))), Eh, !frames_of_app, (lk_born _ Hl i id b) by done. cbn.
  rewrite <-app_assoc. by eexists.
Qed.

Lemma received_launched s i id b h : linked s -> ids (mgr s) !! i = Some id -> born (mgr s) !! i = Some b ->
  h `prefix_of` drop b (hist (mgr s)) -> frames_of id h <> [] ->
  exists j js, launched (zygote (wrk s)) !! j = Some (id, js).
Proof.
  intros Hl Hi Hb Hh Hne. pose proof (received_prefix s i id b h Hl Hi Hb Hh) as Hp.
  destruct (frames_of id h) as [|f fs]; [done|]. assert (f ∈ frames_of id (frames (zygote (wrk s)))) as Hf.
  { destruct Hp as [x ->]. left. }
  apply list_elem_of_filter in Hf as [<- Hf]. by apply sent_launched.
Qed.

(** A stream of frames that is over at its first [MSG_DONE]. *)
Lemma prefix_done (l before : list Frame) x y : l ++ [x] `prefix_of` before ++ [y] ->
  f_type x = MSG_DONE -> Forall (fun f => f_type f <> MSG_DONE) before -> l ++ [x] = before ++ [y].
Proof.
  intros [k E] Hx Hb. destruct k as [|z k _] using rev_ind; [by rewrite app_nil_r in E|].
  rewrite app_assoc in E. apply app_inj_tail in E as [-> _].
  apply Forall_app in Hb as [[_ Hb]%Forall_app _]. rewrite Forall_singleton in Hb. destruct (Hb Hx).
Qed.

(** What the child of a request printed and what the worker reported of it:
    [ro] and [re] are what was read of its two streams. *)
Definition child_report (j : nat) (w : Zygote) (ro re extra : bytes) (ended : option Z) : Prop :=
  exists pr po pe, procs (kernel w) !! j = Some pr
    /\ pipes (kernel w) !! pr_out pr = Some po /\ pipes (kernel w) !! pr_err pr = Some pe
    /\ ro `prefix_of` pp_data po /\ re `prefix_of` pp_data pe /\ (extra = [] \/ extra = TERMINATED)
    /\ forall code, ended = Some code ->
         (exists st, pr_state pr = Reaped st /\ waitstatus_to_exitcode st = Some code)
         /\ (no_read_error -> ro = pp_data po /\ re = pp_data pe).

Lemma child_frames w id j : good w -> only_launch id j (core w) ->
  exists ro re extra ended, child_report j w ro re extra ended
    /\ payloads MSG_STDOUT (frames_of id (frames w)) = ro
    /\ payloads MSG_STDERR (frames_of id (frames w)) = re ++ extra
    /\ match ended with
       | None => Forall (fun f => f_type f <> MSG_DONE) (frames_of id (frames w))
       | Some code => is_i32 code /\ exists before, frames_of id (frames w) = before ++ [closing id code]
                      /\ Forall (fun f => f_type f <> MSG_DONE) before
       end.
Proof.
  intros Hg Hl. destruct (request_state w id j Hg Hl) as (pr & pp & Hp & Hpp & Hle & Hst).
  exists (take (pp_off (pp StdOut)) (pp_data (pp StdOut))), (take (pp_off (pp StdErr)) (pp_data (pp StdErr))).
  destruct (reqs w !! id) as [ri|].
  - destruct Hst as (_ & _ & Hd & Hs). exists [], None. split.
    + exists pr, (pp StdOut), (pp StdErr). split_and!; try done; [apply (Hpp StdOut)|apply (Hpp StdErr)| |
        |by left]; apply prefix_take.
    + rewrite app_nil_r. split; [apply (Hs StdOut)|]. split; [apply (Hs StdErr)|done].
  - destruct Hst as (_ & st & f & before & extra & Hps & (code & Hcode & ->) & Hf & Hd & Hex & Hs).
    exists extra, (Some code). destruct (Hs StdOut) as [Eo Do], (Hs StdErr) as [Ee De]. cbn [mtype_of] in Eo, Ee.
    rewrite app_nil_r in Eo. split.
    + exists pr, (pp StdOut), (pp StdErr). split_and!; try done; [apply (Hpp StdOut)|apply (Hpp StdErr)|apply prefix_take..|].
      intros c [= <-]. split; [eauto|]. intros Hn. rewrite (proj1 (Do Hn)), (proj1 (De Hn)), !firstn_all. done.
    + split_and!; [done|done|by eapply waitstatus_i32|]. eauto.
Qed.

(** [r] is the report of a child: its output and exit code, or the limit error
    once its output exceeded the cap. *)
Definition reported (ro re extra : bytes) (ended : option Z) (r : run_result) : Prop :=
  (exists code, ended = Some code /\ r = (from_utf8_lossy ro, from_utf8_lossy (re ++ extra), code))
  \/ exists o e, o `prefix_of` ro /\ e `prefix_of` re ++ extra /\ max < len o + len e
       /\ r = (from_utf8_lossy o, limit_message max, -1).

(** The frames of a request, as the server received them, against those the
    worker sent. *)
Lemma outcome_reported id h fs ro re extra ended r : frames_of id h `prefix_of` fs -> Manager.outcome max id h r ->
  payloads MSG_STDOUT fs = ro -> payloads MSG_STDERR fs = re ++ extra ->
  match ended with
  | None => Forall (fun f => f_type f <> MSG_DONE) fs
  | Some code => is_i32 code /\ exists before, fs = before ++ [closing id code]
                 /\ Forall (fun f => f_type f <> MSG_DONE) before
  end -> reported ro re extra ended r.
Proof.
  intros Hpre Ho Eo Ee Hend. destruct Ho as [(h' & pl & -> & ->)|[Hlt ->]].
  - left. rewrite outs_payloads, errs_payloads. rewrite frames_of_app in Hpre |- *.
    change (frames_of id [mkFrame MSG_DONE id pl]) with (filter (fun f => f_req f = id) [mkFrame MSG_DONE id pl]) in *.
    rewrite filter_cons_True in * by done. cbn [filter list_filter] in *.
    destruct ended as [code|].
    + destruct Hend as (Hcode & before & Efs & Hd). rewrite Efs in *.
      pose proof (prefix_done _ _ _ _ Hpre eq_refl Hd) as E. exists code. split; [done|].
      rewrite E, Eo, Ee. apply app_inj_tail in E as [_ [= ->]]. by rewrite i32_roundtrip.
    + exfalso. destruct Hpre as [x E]. rewrite E in Hend. apply Forall_app in Hend as [[_ Hd]%Forall_app _].
      by rewrite Forall_singleton in Hd.
  - right. exists (outs id h), (errs id h). rewrite outs_payloads, errs_payloads in *. split_and!; try done.
    + rewrite <-Eo. by apply payloads_prefix.
    + rewrite <-Ee. by apply payloads_prefix.
Qed.

(** An outcome is not empty: a child ran. *)
Lemma outcome_frames id h r : 0 <= max -> Manager.outcome max id h r -> frames_of id h <> [].
Proof.
  intros Hmax Ho E. destruct Ho as [(h' & pl & -> & _)|[Hlt _]].
  - rewrite frames_of_app in E. apply app_nil in E as [_ E]. unfold frames_of in E. by rewrite filter_cons_True in E.
  - rewrite outs_payloads, errs_payloads, E in Hlt. unfold payloads, len in Hlt. cbn in Hlt. lia.
Qed.

(** The child a request was forked for ran the request of its call. *)
Lemma launched_payload s i id j js : linked s -> ids (mgr s) !! i = Some id ->
  launched (zygote (wrk s)) !! j = Some (id, js) -> loads (payload i) = Some js.
Proof.
  intros Hl Hid Hj. destruct (launched_accepted s j id js Hl Hj) as (f & Hf & Ht & Ereq & Hjs).
  pose proof (or_run _ (lk_orders _ Hl)) as Hrun. rewrite Forall_forall in Hrun.
  destruct (Hrun f Hf Ht) as (i' & Hi' & Epay). rewrite Ereq in Hi'.
  by rewrite (ids_inj _ (inv_ids _ _ (lk_mgr _ Hl)) _ _ _ Hid Hi'), <-Epay.
Qed.

(** The outcome of a call is the report of its child. *)
Lemma answered_reported s i r : 0 <= max -> linked s -> answered max i r (mgr s) ->
  exists id j js ro re extra ended,
    ids (mgr s) !! i = Some id /\ loads (payload i) = Some js
    /\ launched (zygote (wrk s)) !! j = Some (id, js) /\ only_launch id j (core (zygote (wrk s)))
    /\ child_report j (zygote (wrk s)) ro re extra ended /\ reported ro re extra ended r.
Proof.
  intros Hmax Hl (id & b & h & Hid & Hb & Hh & Ho).
  pose proof (outcome_frames _ _ _ Hmax Ho) as Hne.
  destruct (received_launched s i id b h Hl Hid Hb Hh Hne) as (j & js & Hj).
  pose proof (linked_only s j id js Hl Hj) as Honly.
  destruct (child_frames (zygote (wrk s)) id j (lk_wrk _ Hl) Honly) as (ro & re & extra & ended & Hrep & Eo & Ee & Hend).
  exists id, j, js, ro, re, extra, ended. split_and!; try done; [by eapply launched_payload|].
  eapply outcome_reported; [by eapply received_prefix|done..].
Qed.

(** ** Properties *)

(** C4. Isolation, from the caller to the child and back.  Whatever calls, kill
    orders, deliveries, turns of the worker, moves of the children and failures
    are interleaved: what a call of [run] returns is one of the manager's own
    four errors, or the report of one child, which was forked for this call's
    own request and is the only one ever forked for it: what the worker read of
    its two streams (all of it, when no read fails) and the exit code of its
    wait status, or, when that exceeded the cap, the limit error with a prefix
    of it. *)
Theorem run_end_to_end s i r :
  65536 <= max -> (forall i, len (payload i) <= _MAX_FRAME_PAYLOAD) ->
  reachable payload max s -> issued (mgr s) <= u32_max ->
  calls (mgr s) !! i = Some (PcReturned r) ->
  r = res_not_running \/ r = res_write_failed \/ r = res_timeout \/ r = res_lost
  \/ exists id j js ro re extra ended,
       ids (mgr s) !! i = Some id /\ loads (payload i) = Some js
       /\ launched (zygote (wrk s)) !! j = Some (id, js) /\ only_launch id j (core (zygote (wrk s)))
       /\ child_report j (zygote (wrk s)) ro re extra ended /\ reported ro re extra ended r.
Proof.
  intros Hmax Hpay Hr Hi Hc. pose proof (linked_reachable s Hmax Hpay Hr Hi) as Hl.
  destruct (inv_calls _ _ (lk_mgr _ Hl) i _ Hc) as [->|[->|[->|(id & b & Hid & Hb & [->|(h & Hh & Ho)])]]]; [by auto..|].
  do 4 right. apply answered_reported; [lia|done|]. exists id, b, h. by split_and!.
Qed.

(** C11. Progress, from the child to the caller.  When the child of a call that
    waits has come to its end and the reader has handled what the worker sent,
    the call returns with its own next two steps, and what it returns is the
    report of its child: no answer is lost on the way, in any interleaving. *)
Theorem run_completes s i id j js :
  65536 <= max -> (forall i, len (payload i) <= _MAX_FRAME_PAYLOAD) ->
  reachable payload max s -> issued (mgr s) <= u32_max ->
  calls (mgr s) !! i = Some (PcAwait id) -> reader (mgr s) = RdLoop ->
  launched (zygote (wrk s)) !! j = Some (id, js) -> reqs (zygote (wrk s)) !! id = None ->
  hist (mgr s) = frames (zygote (wrk s)) ->
  exists r s' ro re extra ended,
    execs payload max [Server (EvRecv i) 0; Server (EvRemove i) 0] s = Some s'
    /\ calls (mgr s') !! i = Some (PcReturned r)
    /\ child_report j (zygote (wrk s)) ro re extra ended /\ reported ro re extra ended r.
Proof.
  intros Hmax Hpay Hr Hi Hc Hrd Hj Hrq Hh. pose proof (linked_reachable s Hmax Hpay Hr Hi) as Hl.
  pose proof (lk_mgr _ Hl) as Hinv. pose proof (live_id payload max _ _ _ id Hinv Hc eq_refl) as Hid.
  pose proof (linked_only s j id js Hl Hj) as Honly.
  assert (exists code, closing id code ∈ hist (mgr s)) as [code Hin].
  { destruct (request_state _ _ _ (lk_wrk _ Hl) Honly) as (pr & pp & _ & _ & _ & Hst). rewrite Hrq in Hst.
    destruct Hst as (_ & st & f & before & ? & _ & (code & _ & ->) & Hf & _). exists code. rewrite Hh.
    assert (closing id code ∈ frames_of id (frames (zygote (wrk s)))) as Hin.
    { change (frames (zygote (wrk s))) with (c_frames (core (zygote (wrk s)))). rewrite Hf. set_solver. }
    by apply list_elem_of_filter in Hin as [_ ?]. }
  destruct (done_answered max (mgr s) i id (i32_to_be_bytes code)) as (r & rs & Es & Hans); [|done|done| |].
  { apply (lk_heard _ Hl). unfold is_open. by rewrite Hrd. }
  { intros b Hb. pose proof (lk_born _ Hl i id b Hid Hb) as Hno. rewrite <-(take_drop b (hist (mgr s))) in Hin.
    apply elem_of_app in Hin as [Hin|]; [|done]. exfalso. apply (not_elem_of_nil (closing id code)). rewrite <-Hno.
    by apply list_elem_of_filter. }
  destruct (answered_reported s i r ltac:(lia) Hl Hans) as (id' & j' & js' & ro & re & extra & ended & Hid' & _ & Hj' & _ & Hrep & Hres).
  assert (id' = id) as -> by congruence. assert (j' = j) as -> by (by eapply Honly).
  eexists r, _, ro, re, extra, ended. split; [|split; [|done]].
  - cbn [execs exec allowed]. rewrite bool_decide_true by done. cbn [Manager.exec frame_written]. rewrite Hc, Es. cbn.
    rewrite lookup_insert_eq. cbn. done.
  - cbn. by rewrite lookup_insert_eq.
Qed.

(** C12. A kill order reaches its child.  When a call times out, or the reader
    finds its output over the cap, and the [MSG_KILL] it writes is accepted by
    the socket: from the moment the worker has nothing more to take from the
    socket, whatever else happened in between, the child of that request is
    dead or has been sent SIGKILL.  (The order is never lost among the others,
    never applied to another child, and never comes before its request.) *)
Theorem kill_order_reaches s e id s1 es s2 j js :
  65536 <= max -> (forall i, len (payload i) <= _MAX_FRAME_PAYLOAD) ->
  reachable payload max s -> frame_written payload e (mgr s) = Some (mkFrame MSG_KILL id []) ->
  exec payload max (Server e (length (encode (mkFrame MSG_KILL id [])))) s = Some s1 ->
  execs payload max es s1 = Some s2 -> issued (mgr s2) <= u32_max -> in_transit s2 = [] ->
  launched (zygote (wrk s2)) !! j = Some (id, js) -> doomed j (kernel (zygote (wrk s2))).
Proof.
  intros Hmax Hpay Hr Hf Hx Hxs Hi Ht Hj.
  assert (linked s2) as Hl.
  { apply linked_reachable; try done. eapply (reachable_execs (_ :: es) s); [done|]. cbn [execs]. by rewrite Hx. }
  assert (mkFrame MSG_KILL id [] ∈ accepted s2) as Hin.
  { pose proof (write_accepted _ _ _ _ Hf Hx) as Hin. destruct (execs_accepted _ _ _ Hxs) as [x ->]. set_solver. }
  destruct (lk_took _ Hl) as [taken [(waiting & Ea & Et) _ Hk]].
  assert (waiting = []) as ->.
  { destruct waiting as [|g waiting]; [done|]. rewrite Ht in Et. apply (f_equal len) in Et. cbn in Et.
    rewrite !len_app, len_encode in Et. unfold HEADER_SIZE in Et. len_lia. }
  rewrite app_nil_r in Ea. rewrite Ea in Hin. apply list_elem_of_split in Hin as (pre & post & Ek).
  eapply (Hk pre _ post j Ek); [done| |by eapply linked_only].
  eapply (or_order _ (lk_orders _ Hl) pre). by rewrite Ea.
Qed.

(** Every request runs at most once, for its own caller, and the manager
    never breaks its worker.  The children were forked for distinct request
    ids, each for the request of the call that was given the id; and a turn of
    the loop leaves the worker serving (no frame is too long or out of step, the
    server is there), unless [select] was handed a descriptor of 1024 or more. *)
Theorem requests_run_once s :
  65536 <= max -> (forall i, len (payload i) <= _MAX_FRAME_PAYLOAD) ->
  reachable payload max s -> issued (mgr s) <= u32_max ->
  NoDup (launched (zygote (wrk s))).*1
  /\ (forall j id js, launched (zygote (wrk s)) !! j = Some (id, js) ->
       exists i, ids (mgr s) !! i = Some id /\ loads (payload i) = Some js)
  /\ (forall readable writable s', st_status (wrk s) = Serving -> exec payload max (Turn readable writable) s = Some s' ->
       st_status (wrk s') = Serving
       \/ exists fd, FD_SETSIZE <= fd /\ (fd = ctrl (zygote (wrk s)) \/ is_Some (fd_map (zygote (wrk s)) !! fd))).
Proof.
  intros Hmax Hpay Hr Hi. pose proof (linked_reachable s Hmax Hpay Hr Hi) as Hl.
  split; [by apply launched_once|]. split.
  - intros j id js Hj. destruct (launched_past s j id js Hl Hj) as (i & _ & Hid & _). exists i. split; [done|].
    by eapply launched_payload.
  - intros readable writable s' Hst Hx. cbn [exec] in Hx. destruct (Worker.exec _ _) as [w|] eqn:Hw; simplify_eq/=.
    destruct (exec_turn _ _ _ _ Hst Hw) as [[Hrange _]|(Hsel & r & Hrun & Est)]; [right; by apply select_range_false|left].
    destruct (linked_serve_turn _ _ _ _ _ Hl Hsel Hrun) as [-> _]. done.
Qed.

End Linked.

(** ** Witnesses *)

Module SystemDemo.

#[local] Existing Instance Demo.json.
#[local] Instance os_demo : Os := Demo.os 100.

Definition request (i : nat) : bytes := str "{}".

Lemma request_small i : len (request i) <= _MAX_FRAME_PAYLOAD.
Proof. by vm_compute. Qed.

Definition run := execs request 65536.

(** Two calls are started; the child of call 0 prints and exits with code 3. *)
Definition opening : list event :=
  [Server (EvInvoke 0) 0; Server (EvInvoke 1) 0; Server (EvCheck 0) 0; Server (EvCheck 1) 0;
   Server (EvFetch 0) 0; Server (EvFetch 1) 0; Server (EvInsert 0) 0; Server (EvInsert 1) 0;
   Server (EvWrite 0 true) 11; Server (EvWrite 1 true) 11;
   Deliver 15; Turn [3] false; Deliver 7; Turn [3] false;
   Child (ChildWrite 0 StdOut (str "hello")); Child (ChildExit 0 (wait_exited 3)); Child (ChildZombie 0);
   Turn [4; 6] false; Turn [4] false;
   Server (EvFrame (mkFrame MSG_STDOUT 1 (str "hello"))) 0; Server (EvFrame (closing 1 3)) 0].

Definition opened : System := default (start 3 1000) (run opening (start 3 1000)).

Lemma opened_reachable : reachable request 65536 opened.
Proof. exists 3, 1000, opening. by vm_compute. Qed.

Lemma run_completes_witness :
  exists r s' ro re extra ended,
    execs request 65536 [Server (EvRecv 0) 0; Server (EvRemove 0) 0] opened = Some s'
    /\ calls (mgr s') !! 0%nat = Some (PcReturned r)
    /\ child_report 0 (zygote (wrk opened)) ro re extra ended /\ reported 65536 ro re extra ended r.
Proof.
  apply (run_completes request 65536 opened 0 1 0 JNull).
  - done.
  - apply request_small.
  - apply opened_reachable.
  - by vm_compute.
  - by vm_compute.
  - by vm_compute.
  - by vm_compute.
  - by vm_compute.
  - by vm_compute.
Defined.

(** Call 0 returns; call 1 is given up and its kill order written. *)
Definition returned : System :=
  default opened (run [Server (EvRecv 0) 0; Server (EvRemove 0) 0; Server (EvTimeout 1) 0] opened).

Lemma returned_reachable : reachable request 65536 returned.
Proof.
  eapply (reachable_execs request 65536 [Server (EvRecv 0) 0; Server (EvRemove 0) 0; Server (EvTimeout 1) 0]);
    [apply opened_reachable|by vm_compute].
Qed.

Lemma run_end_to_end_witness :
  let r := (str "hello", [], 3) in
  calls (mgr returned) !! 0%nat = Some (PcReturned r)
  /\ (r = res_not_running \/ r = res_write_failed \/ r = res_timeout \/ r = res_lost
      \/ exists id j js ro re extra ended,
           ids (mgr returned) !! 0%nat = Some id /\ loads (request 0) = Some js
           /\ launched (zygote (wrk returned)) !! j = Some (id, js) /\ only_launch id j (core (zygote (wrk returned)))
           /\ child_report j (zygote (wrk returned)) ro re extra ended /\ reported 65536 ro re extra ended r).
Proof.
  split; [by vm_compute|]. apply (run_end_to_end request 65536 returned 0).
  - done.
  - apply request_small.
  - apply returned_reachable.
  - by vm_compute.
  - by vm_compute.
Defined.

Lemma requests_run_once_witness :
  (launched (zygote (wrk returned))).*1 = [1; 2] /\ NoDup (launched (zygote (wrk returned))).*1.
Proof.
  split; [by vm_compute|]. apply (requests_run_once request 65536 returned).
  - done.
  - apply request_small.
  - apply returned_reachable.
  - by vm_compute.
Defined.

Definition ordered : System := default returned (run [Server (EvKill 1) 9] returned).
Definition settled : System := default ordered (run [Deliver 9; Turn [3] false] ordered).

Lemma kill_order_reaches_witness : doomed 1 (kernel (zygote (wrk settled))).
Proof.
  apply (kill_order_reaches request 65536 returned (EvKill 1) 2 ordered [Deliver 9; Turn [3] false] settled 1 JNull).
  - done.
  - apply request_small.
  - apply returned_reachable.
  - by vm_compute.
  - by vm_compute.
  - by vm_compute.
  - by vm_compute.
  - by vm_compute.
  - by vm_compute.
Defined.

End SystemDemo.
