(* ===== verification/Child.v ===== *)
(** * Child: from a process to the user's code

    What an interpreter does before it runs the code of a request, up to its
    exit status: [_child_exec] of runtime/pool/zygote_worker.py (the forked
    child of the zygote), runtime/prescript.py (the slow Python path) and
    runtime/prescript.js (Node.js), on top of the entry points of the sandbox
    library of [Seccomp].

    A process is its memory and descriptors as far as the code touches them
    ([Image]), with the trace of what it did: calls of the sandbox library,
    kernel calls of that library, and texts run as code.  Interpreters, and
    what the user's code does, are the classes [Python] and [Node]; every
    theorem holds for all of their behaviours. *)

From S2P Require Import Prelude RustStd Config Crypto Models Seccomp Scripts Runners Posix Worker Zygote.

(** ** Data *)

(** An open file: one of the worker's, the null device, anything else. *)
Inductive file := WorkerFile (d : fdesc) | DevNull | OtherFile (n : nat).

(** [im_self] is the worker object a forked child has a copy of. *)
Record Image := mkImage {
  im_fds : gmap Z file;
  im_path : list bytes;       (* sys.path *)
  im_modules : gset bytes;    (* sys.modules *)
  im_self : option Zygote
}.

Inductive act :=
| AChdir (path : bytes)
| ALandlock (paths : list bytes)
| AKernel (k : kcall)
| ACode (src : bytes) (im : Image).

Record Process := mkProcess { image : Image; trace : list act }.

(** The argument of [sys.exit]. *)
Inductive exit_arg := ExitNone | ExitInt (z : Z) | ExitOther.

(** [EException] is an instance of [Exception], [EBase] of [BaseException] only. *)
Inductive exn := ESystemExit (a : exit_arg) | EException | EBase.

(** How a piece of code ends; [Dies] with the wait status of the process. *)
Inductive ending := Normal | Throws (e : exn) | Dies (status : Z).

(** How a process ends: an exit code, a wait status chosen by the code it ran,
    or, for a child of the worker, an exception that leaves [_child_exec]. *)
Inductive fate := Exited (code : Z) | Ended_by_code (status : Z) | Escapes (e : exn).

(** ** Interfaces *)

(** CPython: [int] on a string; the value of a triple-quoted literal; whether
    a descriptor is free for [os.open]; [os.chdir]; loading a library; [compile]; running code; flushing both
    standard streams; printing a traceback to standard error. [user_hook] is
    the exit code when the code has replaced [sys.excepthook], and
    [script_rest] how the slow path goes on when a preload has rebound a name
    the rest of the script uses. *)
Class Python := {
  int_str : bytes -> option Z;
  triple_quoted : bytes -> option bytes;
  open_fd : gmap Z file -> option Z;
  open_fd_fresh : forall t fd, open_fd t = Some fd -> 0 <= fd /\ t !! fd = None;
  chdir_ok : bytes -> bool;
  dlopen_ok : bytes -> bool;
  compiles : bytes -> bool;
  run_code : bytes -> Process -> ending;
  flush_std : Process -> ending;
  print_exc : Process -> ending;
  user_hook : Process -> option Z;
  script_rest : bytes -> Process -> option ending
}.

(** ** Python values *)

(** [d[k]] of an object read by [json.loads]: the last of equal keys counts. *)
Definition py_get (req : Json) (k : string) : option Json :=
  match req with
  | JObject l => snd <$> last (filter (fun kv => kv.1 = str k) l)
  | _ => None
  end.

(** [int(v)], [bool(v)]; [None] is an exception. *)
Definition py_int `{Python} (v : Json) : option Z :=
  match v with
  | JNumber z => Some z
  | JBool b => Some (if b then 1 else 0)
  | JString s => int_str s
  | _ => None
  end.

Definition py_bool (v : Json) : bool :=
  match v with
  | JNull => false
  | JBool b => b
  | JNumber z => negb (z =? 0)
  | JString s => negb (bool_decide (s = []))
  | JArray l => match l with [] => false | _ => true end
  | JObject l => match l with [] => false | _ => true end
  end.

(** The characters of a string, each as its UTF-8 text. *)
Fixpoint py_chars (fuel : nat) (s : bytes) : list bytes :=
  match fuel, s with
  | S fuel, b :: _ =>
    let n := Nat.max 1 (utf8_char_width b) in take n s :: py_chars fuel (drop n s)
  | _, _ => []
  end.

(** [[p.encode() for p in v]] *)
Definition py_paths (v : Json) : option (list bytes) :=
  match v with
  | JArray l => mapM (fun x => match x with JString s => Some s | _ => None end) l
  | JString s => Some (py_chars (length s) s)
  | JObject l => Some (reverse (remove_dups (reverse (fst <$> l))))   (* the keys, in order of insertion *)
  | _ => None
  end.

(** What C reads of a Python byte string, and of an int and a bool passed as
    [c_uint32], [c_uint64] and [c_bool]. *)
Fixpoint c_string (s : bytes) : bytes :=
  match s with
  | [] => []
  | b :: s => if bool_decide (b = Byte.x00) then [] else b :: c_string s
  end.
Definition c_uint32 (z : Z) : Z := z mod 2 ^ 32.
Definition c_uint64 (z : Z) : Z := z mod 2 ^ 64.
Definition c_bool (b : bool) : Z := if b then 1 else 0.

(** [base64.b64decode(v)] *)
Definition py_b64 `{PyBase64} (v : Json) : option bytes :=
  match v with
  | JString s => if py_b64_valid s then Some (py_b64decode s) else None
  | _ => None
  end.

(** ** Descriptors *)

(** The calls raise [OSError] on a descriptor that is not open;
    [os.closerange] does not. *)
Definition os_dup2 (old new : Z) (t : gmap Z file) : option (gmap Z file) :=
  f ← t !! old; Some (<[new := f]> t).
Definition os_close_fd (fd : Z) (t : gmap Z file) : option (gmap Z file) :=
  _ ← t !! fd; Some (delete fd t).
Definition os_closerange (lo hi : Z) (t : gmap Z file) : gmap Z file :=
  filter (fun kv => ~ (lo <= kv.1 < hi)) t.

(** [_MAX_FD]; [None] is an unlimited [RLIMIT_NOFILE]. *)
Definition _MAX_FD (soft_nofile : option Z) : Z :=
  Z.max (match soft_nofile with Some n => n | None => 65536 end) 4.

(** ** The monad *)

Inductive res (A : Type) :=
| Val (x : A)
| Throw (e : exn)
| Die (status : Z).
Arguments Val {A} x.
Arguments Throw {A} e.
Arguments Die {A} status.

Definition P (A : Type) : Type := Process -> res A * Process.

#[global] Instance P_ret : MRet P := fun A x p => (Val x, p).
#[global] Instance P_bind : MBind P := fun A B f m p =>
  match m p with
  | (Val x, p') => f x p'
  | (Throw e, p') => (Throw e, p')
  | (Die st, p') => (Die st, p')
  end.

Definition throw {A} (e : exn) : P A := fun p => (Throw e, p).
Definition require {A} (o : option A) : P A := match o with Some x => mret x | None => throw EException end.
Definition assert_ok (b : bool) : P unit := if b then mret tt else throw EException.
Definition on_image (f : Image -> Image) : P unit := fun p => (Val tt, mkProcess (f (image p)) (trace p)).
Definition log (l : list act) : P unit := fun p => (Val tt, mkProcess (image p) (trace p ++ l)).
Definition perform (f : Process -> ending) : P unit := fun p =>
  match f p with
  | Normal => (Val tt, p)
  | Throws e => (Throw e, p)
  | Dies st => (Die st, p)
  end.

Definition set_fds (t : gmap Z file) (im : Image) : Image := mkImage t (im_path im) (im_modules im) (im_self im).
Definition set_path (l : list bytes) (im : Image) : Image := mkImage (im_fds im) l (im_modules im) (im_self im).
Definition set_modules (m : gset bytes) (im : Image) : Image := mkImage (im_fds im) (im_path im) m (im_self im).
Definition set_self (o : option Zygote) (im : Image) : Image := mkImage (im_fds im) (im_path im) (im_modules im) o.

(** A call that changes the descriptor table, or raises. *)
Definition on_fds (f : gmap Z file -> option (gmap Z file)) : P unit := fun p =>
  match f (im_fds (image p)) with
  | Some t => on_image (set_fds t) p
  | None => (Throw EException, p)
  end.

(** A text becomes the running program. *)
Definition execute `{Python} (src : bytes) : P unit := fun p =>
  (log [ACode src (image p)] ≫= fun _ => perform (run_code src)) p.

Section Sandbox.
Context (world : list kcall -> kcall -> Z) (env : option bytes).
Context `{Libc} `{Landlock}.

(** The exported functions of the sandbox library, as called from outside. *)
Definition lib_apply_landlock (paths : list bytes) : P Z :=
  log [ALandlock (c_string <$> paths)] ≫= fun _ => mret (apply_landlock (Some (c_string <$> paths))).

Definition lib_init_seccomp (ft : Feature) (uid gid net max_as privilege : Z) : P Z :=
  let '(rc, tr) := init_seccomp world ft env uid gid net max_as privilege in
  log (AKernel <$> tr) ≫= fun _ => mret rc.

Section ZygoteChild.
Context `{PyBase64} `{Python} (soft_nofile : option Z) (self_dir lib_dir : bytes).

(** ** The child of the zygote *)

(** The standard streams, and every other descriptor closed. *)
Definition redirect (out_w err_w out_r err_r : Z) : P unit :=
  on_fds (os_dup2 out_w 1) ≫= fun _ =>
  on_fds (os_dup2 err_w 2) ≫= fun _ =>
  (fun p => (devnull ← require (open_fd (im_fds (image p)));
             on_fds (fun t => Some (<[devnull := DevNull]> t)) ≫= fun _ =>
             on_fds (os_dup2 devnull 0) ≫= fun _ =>
             on_fds (os_close_fd devnull)) p) ≫= fun _ =>
  on_fds (os_close_fd out_r) ≫= fun _ =>
  on_fds (os_close_fd err_r) ≫= fun _ =>
  on_fds (fun t => Some (os_closerange 3 (_MAX_FD soft_nofile) t)).

Definition scrub : P unit :=
  on_image (fun im => set_path (filter (fun q => q <> [] /\ q <> self_dir) (im_path im)) im) ≫= fun _ =>
  on_image (fun im => set_modules (im_modules im ∖ {[str "protocol"]}) im) ≫= fun _ =>
  on_image (fun im => set_self (set_recv_buf [] <$> im_self im) im).

Definition enter_sandbox (req : Json) : P unit :=
  uid ← require (py_get req "uid" ≫= py_int);
  gid ← require (py_get req "gid" ≫= py_int);
  net ← require (py_bool <$> py_get req "net");
  max_as ← require (match py_get req "max_as" with Some v => py_int v | None => Some 0 end);
  let privilege := match py_get req "privilege" with Some v => py_bool v | None => true end in
  (if negb privilege then
     allowed ← require (py_paths (default (JArray [JString lib_dir]) (py_get req "allowed_paths")));
     ll_rc ← lib_apply_landlock allowed;
     assert_ok (ll_rc =? 0)
   else mret tt) ≫= fun _ =>
  rc ← lib_init_seccomp python3 (c_uint32 uid) (c_uint32 gid) (c_bool net) (c_uint64 max_as) (c_bool privilege);
  assert_ok (rc =? 0).

Definition run_request (req : Json) : P unit :=
  data ← require (py_get req "code" ≫= py_b64);
  key ← require (py_get req "key" ≫= py_b64);
  code ← require (py_xor data key);
  assert_ok (compiles code) ≫= fun _ =>
  execute code ≫= fun _ =>
  perform flush_std.

(** [os._exit(z)]: the argument is a C int. *)
Definition os_exit (z : Z) : fate :=
  if (i32_min <=? z) && (z <=? i32_max) then Exited (z mod 256) else Escapes EException.

(** A handler whose [try] is followed by [except Exception: pass]. *)
Definition guarded_by (e : ending) (next : fate) : fate :=
  match e with
  | Normal | Throws EException => next
  | Throws e => Escapes e
  | Dies st => Ended_by_code st
  end.

Definition _child_exec (req : Json) (out_w err_w out_r err_r : Z) (p : Process) : fate * Process :=
  let body :=
    redirect out_w err_w out_r err_r ≫= fun _ =>
    scrub ≫= fun _ =>
    enter_sandbox req ≫= fun _ =>
    run_request req in
  match body p with
  | (Val _, p) => (os_exit 0, p)
  | (Throw (ESystemExit a), p) =>
    (guarded_by (flush_std p) (os_exit (match a with ExitInt z => z | _ => 0 end)), p)
  | (Throw _, p) => (guarded_by (print_exc p) (os_exit 1), p)
  | (Die st, p) => (Ended_by_code st, p)
  end.

End ZygoteChild.

(** ** The slow Python path *)

(** What the server put for the placeholders of prescript.py. *)
Record Filled := {
  f_uid : Z; f_gid : Z; f_net : Z; f_max_as : Z; f_privilege : Z;
  f_allowed : bytes; f_preload : bytes; f_code : bytes
}.

Section Prescript.
Context `{PyBase64} `{Python} `{PyJson}.

Definition prescript_sandbox (s : Filled) : P unit :=
  (if f_privilege s =? 0 then
     text ← require (triple_quoted (f_allowed s));
     v ← require (loads text);
     allowed ← require (py_paths v);
     rc ← lib_apply_landlock allowed;
     assert_ok (rc =? 0)
   else mret tt) ≫= fun _ =>
  init_status ← lib_init_seccomp python3 (c_uint32 (f_uid s)) (c_uint32 (f_gid s)) (c_bool (negb (f_net s =? 0)))
                  (c_uint64 (f_max_as s)) (c_bool (negb (f_privilege s =? 0)));
  assert_ok (init_status =? 0).

(** The script after the preload; [key] is still what was decoded before it. *)
Definition prescript_code (s : Filled) (key : bytes) : P unit :=
  data ← require (py_b64 (JString (f_code s)));
  code ← require (decrypt data key);
  assert_ok (compiles code) ≫= fun _ =>
  execute code.

Definition prescript_rest (s : Filled) (key : bytes) : P unit := fun p =>
  match script_rest (f_preload s) p with
  | Some e => perform (fun _ => e) p
  | None => prescript_code s key p
  end.

Definition prescript_main (argv : list bytes) (s : Filled) : P unit :=
  assert_ok (dlopen_ok (str "./libpython.so")) ≫= fun _ =>
  running_path ← require (argv !! 1%nat);
  (if is_empty running_path then throw (ESystemExit (ExitInt (-1))) else mret tt) ≫= fun _ =>
  key ← require (argv !! 2%nat);
  (if is_empty key then throw (ESystemExit (ExitInt (-1))) else mret tt) ≫= fun _ =>
  key ← require (py_b64 (JString key));
  assert_ok (chdir_ok running_path) ≫= fun _ =>
  log [AChdir running_path] ≫= fun _ =>
  on_image (fun im => set_path (filter (fun q => q <> []) (im_path im)) im) ≫= fun _ =>
  prescript_sandbox s ≫= fun _ =>
  execute (f_preload s) ≫= fun _ =>
  prescript_rest s key.

(** How CPython turns an exit argument into the process's code, and ends: a
    standard stream that cannot be flushed gives 120. *)
Definition exit_arg_code (a : exit_arg) : Z :=
  match a with
  | ExitNone => 0
  | ExitInt z => if (- 2 ^ 63 <=? z) && (z <? 2 ^ 63) then z mod 256 else 255
  | ExitOther => 1
  end.

Definition finalize (code : Z) (p : Process) : fate :=
  match flush_std p with
  | Normal => Exited code
  | Throws _ => Exited 120
  | Dies st => Ended_by_code st
  end.

(** The script is compiled as a whole, preload included; [excepthook] prints
    the traceback and calls [sys.exit(-1)]. *)
Definition prescript (argv : list bytes) (s : Filled) (p : Process) : fate * Process :=
  if negb (compiles (f_preload s)) then (Exited 1, p) else
  match prescript_main argv s p with
  | (Val _, p) => (finalize 0 p, p)
  | (Throw (ESystemExit a), p) => (finalize (exit_arg_code a) p, p)
  | (Throw _, p) =>
    (match user_hook p with
     | Some code => Exited code
     | None =>
       match print_exc p with
       | Normal => finalize (exit_arg_code (ExitInt (-1))) p
       | Throws (ESystemExit a) => finalize (exit_arg_code a) p
       | Throws _ => finalize 1 p
       | Dies st => Ended_by_code st
       end
     end, p)
  | (Die st, p) => (Ended_by_code st, p)
  end.

End Prescript.

(** ** Node.js *)

(** Node.js and koffi: [parseInt] ([None] is NaN), [JSON.parse], the base64 of
    [Buffer], and the conversion of a JavaScript value ([None] is [undefined])
    to a C argument, where [None] is an exception. The laws are for the values
    the server sends. *)
Class Node `{Base64} := {
  node_chdir : bytes -> bool;
  node_load : bytes -> bool;
  parse_int : bytes -> option Z;
  parse_int_digits : forall n, 0 <= n < 2 ^ 53 -> parse_int (to_string_unsigned n) = Some n;
  json_parse : bytes -> option Json;
  buffer_base64 : bytes -> bytes;
  buffer_base64_encode : forall d, buffer_base64 (b64_encode d) = d;
  koffi_int : option Z -> option Z;
  koffi_int_range : forall z, is_i32 z -> koffi_int (Some z) = Some z;
  koffi_bool : option Json -> option bool;
  koffi_bool_bool : forall b, koffi_bool (Some (JBool b)) = Some b;
  koffi_uint64 : option Json -> option Z;
  koffi_uint64_range : forall z, 0 <= z < 2 ^ 53 -> koffi_uint64 (Some (JNumber z)) = Some z;
  koffi_str : option bytes -> option bytes;
  koffi_str_bytes : forall s, koffi_str (Some s) = Some (c_string s);
  run_js : bytes -> Process -> ending
}.

Section NodePrescript.
Context `{Node}.

(** [options[k]]: [null] has no properties. *)
Definition js_get (v : Json) (k : string) : option (option Json) :=
  match v with JNull => None | _ => Some (py_get v k) end.

Definition lib_apply_landlock_one (path : bytes) : P Z :=
  log [ALandlock [path]] ≫= fun _ => mret (apply_landlock_one (Some path)).

Definition execute_js (src : bytes) : P unit := fun p =>
  (log [ACode src (image p)] ≫= fun _ => perform (run_js src)) p.

(** [uid] and [gid] are the values of [parseInt]. *)
Definition node_sandbox (dir : bytes) (uid gid : option Z) (options : Json) : P unit :=
  flag ← require (js_get options "privilege");
  let privilege := match flag with Some (JBool false) => false | _ => true end in
  (if negb privilege then
     path ← require (koffi_str (Some dir));
     ll_rc ← lib_apply_landlock_one path;
     assert_ok (ll_rc =? 0)
   else mret tt) ≫= fun _ =>
  c_uid ← require (koffi_int uid);
  c_gid ← require (koffi_int gid);
  c_net ← require (koffi_bool (py_get options "enable_network"));
  c_max_as ← require (koffi_uint64 (py_get options "max_as"));
  seccomp_init ← lib_init_seccomp nodejs (c_uint32 c_uid) (c_uint32 c_gid) (c_bool c_net) c_max_as (c_bool privilege);
  assert_ok (seccomp_init =? 0).

(** [argv] is [process.argv]; [code_b64] the text in the generated [eval]. *)
Definition prescript_js_main (argv : list bytes) (code_b64 : bytes) : P unit :=
  dir ← require (argv !! 2%nat);
  assert_ok (node_chdir dir) ≫= fun _ =>
  log [AChdir dir] ≫= fun _ =>
  assert_ok (node_load (str "./libnodejs.so")) ≫= fun _ =>
  let uid := argv !! 3%nat ≫= parse_int in
  let gid := argv !! 4%nat ≫= parse_int in
  options ← require (argv !! 5%nat ≫= json_parse);
  node_sandbox dir uid gid options ≫= fun _ =>
  execute_js (from_utf8_lossy (buffer_base64 code_b64)).

(** An uncaught exception ends Node.js with code 1. *)
Definition prescript_js (argv : list bytes) (code_b64 : bytes) (p : Process) : fate * Process :=
  match prescript_js_main argv code_b64 p with
  | (Val _, p) => (Exited 0, p)
  | (Throw _, p) => (Exited 1, p)
  | (Die st, p) => (Ended_by_code st, p)
  end.

End NodePrescript.
End Sandbox.
