(* ===== verification/ChildSpec.v ===== *)
(** * ChildSpec: no code before the sandbox

    The theorems on the processes of [Child]: whatever an interpreter, its
    libraries and the user's code do, code runs only after every step of the
    sandbox set-up succeeded, with nothing of the worker's descriptors left;
    under the server's own requests it is the submitted code that runs; and the
    exit codes both Python paths report for it. *)

From S2P Require Import Prelude RustStd Config Crypto Models Seccomp Scripts Runners Posix Worker WorkerSpec Zygote Child.

(** ** Specification *)

(** What a process asks of the sandbox: the arguments of [init_seccomp], as C
    sees them, and the paths of [apply_landlock]. *)
Record Entry := mkEntry {
  e_uid : Z; e_gid : Z; e_net : bool; e_max_as : Z; e_privilege : bool; e_paths : list bytes
}.

(** The request of the zygote, read the way [_child_exec] reads it. *)
Definition request_entry `{Python} (lib_dir : bytes) (req : Json) : option Entry :=
  uid ← py_get req "uid" ≫= py_int;
  gid ← py_get req "gid" ≫= py_int;
  net ← py_bool <$> py_get req "net";
  max_as ← (match py_get req "max_as" with Some v => py_int v | None => Some 0 end);
  let privilege := match py_get req "privilege" with Some v => py_bool v | None => true end in
  paths ← (if privilege then Some []
           else py_paths (default (JArray [JString lib_dir]) (py_get req "allowed_paths")));
  Some (mkEntry (c_uint32 uid) (c_uint32 gid) net (c_uint64 max_as) privilege (c_string <$> paths)).

(** The values put into the slow path's script. *)
Definition script_entry `{Python} `{PyJson} (s : Filled) : option Entry :=
  let privilege := negb (f_privilege s =? 0) in
  paths ← (if privilege then Some []
           else text ← triple_quoted (f_allowed s); v ← loads text; py_paths v);
  Some (mkEntry (c_uint32 (f_uid s)) (c_uint32 (f_gid s)) (negb (f_net s =? 0)) (c_uint64 (f_max_as s)) privilege
          (c_string <$> paths)).

(** The arguments of Node.js. *)
Definition node_entry `{Node} (dir : bytes) (uid gid : option Z) (options : Json) : option Entry :=
  flag ← js_get options "privilege";
  let privilege := match flag with Some (JBool false) => false | _ => true end in
  paths ← (if privilege then Some [] else path ← koffi_str (Some dir); Some [path]);
  c_uid ← koffi_int uid;
  c_gid ← koffi_int gid;
  c_net ← koffi_bool (py_get options "enable_network");
  c_max_as ← koffi_uint64 (py_get options "max_as");
  Some (mkEntry (c_uint32 c_uid) (c_uint32 c_gid) c_net c_max_as privilege paths).

Definition is_code (a : act) : bool := match a with ACode _ _ => true | _ => false end.

(** No user code among the actions. *)
Definition no_code (l : list act) : Prop := Forall (fun a => is_code a = false) l.

Definition extend (l : list act) (p : Process) : Process := mkProcess (image p) (trace p ++ l).

Section Spec.
Context (world : list kcall -> kcall -> Z) (env : option bytes).
Context `{Libc} `{Landlock}.

Definition entry_plan (ft : Feature) (e : Entry) : list step :=
  plan ft env (e_uid e) (e_gid e) (c_bool (e_net e)) (e_max_as e) (c_bool (e_privilege e)).

(** The calls of a complete entry into the sandbox, and that all succeeded. *)
Definition entry_acts (ft : Feature) (e : Entry) : list act :=
  (if e_privilege e then [] else [ALandlock (e_paths e)]) ++ (AKernel <$> (st_call <$> entry_plan ft e)).

Definition entered (ft : Feature) (e : Entry) : Prop :=
  (e_privilege e = false -> apply_landlock (Some (e_paths e)) = 0) /\ all_ok world [] (entry_plan ft e).

(** A piece of set-up code: it either enters the sandbox, or raises after
    calls none of which is user code. *)
Definition enters (ft : Feature) (o : option Entry) (m : P unit) : Prop := forall p,
  (exists e, o = Some e /\ entered ft e /\ m p = (Val tt, extend (entry_acts ft e) p))
  \/ ((forall e, o = Some e -> ~ entered ft e)
      /\ exists l, no_code l /\ m p = (Throw EException, extend l p)).
End Spec.

(** ** Lemmas: the monad *)

Lemma extend_nil p : extend [] p = p.
Proof. destruct p. unfold extend. cbn. by rewrite app_nil_r. Qed.

Lemma extend_extend l l' p : extend l' (extend l p) = extend (l ++ l') p.
Proof. unfold extend. cbn. by rewrite app_assoc. Qed.

Lemma P_bind_eq {A B} (m : P A) (f : A -> P B) p :
  (m ≫= f) p = match m p with
               | (Val x, p') => f x p'
               | (Throw e, p') => (Throw e, p')
               | (Die st, p') => (Die st, p')
               end.
Proof. done. Qed.

Lemma require_bind {A B} (o : option A) (f : A -> P B) p :
  (require o ≫= f) p = match o with Some x => f x p | None => (Throw EException, p) end.
Proof. by destruct o. Qed.

Lemma assert_bind {B} (b : bool) (f : unit -> P B) p :
  (assert_ok b ≫= f) p = if b then f tt p else (Throw EException, p).
Proof. by destruct b. Qed.

Lemma unless_bind {B} (b : bool) e (f : unit -> P B) p :
  ((if b then throw e else mret tt) ≫= f) p = if b then (Throw e, p) else f tt p.
Proof. by destruct b. Qed.

Lemma log_bind {B} l (f : unit -> P B) p : (log l ≫= f) p = f tt (extend l p).
Proof. done. Qed.

Lemma no_code_kernel l : no_code (AKernel <$> l).
Proof. unfold no_code. rewrite Forall_fmap. by apply Forall_true. Qed.

Lemma no_code_app l l' : no_code l -> no_code l' -> no_code (l ++ l').
Proof. apply Forall_app_2. Qed.

Lemma entry_acts_no_code env `{Libc} ft e : no_code (entry_acts env ft e).
Proof.
  apply no_code_app; [|apply no_code_kernel]. destruct (e_privilege e); by repeat constructor.
Qed.

Lemma code_not_in l src im : no_code l -> ACode src im ∉ l.
Proof. unfold no_code. rewrite Forall_forall. by intros Hl Hin%Hl. Qed.

Lemma fails_not_ok world l pre st : fails_at world [] l pre st -> ~ all_ok world [] l.
Proof.
  intros ((post & ->) & _ & Hbad) Hok. apply all_ok_app in Hok as [_ [Hst _]]. congruence.
Qed.

(** ** Lemmas: entering the sandbox *)

Section Entering.
Context (world : list kcall -> kcall -> Z) (env : option bytes).
Context `{Libc} `{Landlock}.

Definition checked (m : P Z) : P unit := rc ← m; assert_ok (rc =? 0).

Lemma seccomp_checked ft uid gid net max_as privilege p :
  let l := plan ft env uid gid net max_as privilege in
  let m := checked (lib_init_seccomp world env ft uid gid net max_as privilege) p in
  (all_ok world [] l /\ m = (Val tt, extend (AKernel <$> (st_call <$> l)) p))
  \/ (~ all_ok world [] l /\ exists ks, m = (Throw EException, extend (AKernel <$> ks) p)).
Proof.
  intros l m. subst m. unfold checked. rewrite P_bind_eq. unfold lib_init_seccomp.
  pose proof (init_seccomp_success world ft env uid gid net max_as privilege) as Hs. fold l in Hs.
  pose proof (init_seccomp_plan world ft env uid gid net max_as privilege) as Hplan. cbv zeta in Hplan. fold l in Hplan.
  destruct (init_seccomp world ft env uid gid net max_as privilege) as [rc tr].
  rewrite log_bind. unfold mret, P_ret, assert_ok. destruct (rc =? 0) eqn:E.
  - apply Z.eqb_eq in E as ->. destruct (Hs tr eq_refl) as [-> ?]. by left.
  - right. split; [|by eexists]. destruct Hplan as [[Eq _]|(pre & st & Hf & _)]; [by simplify_eq|]. by eapply fails_not_ok.
Qed.

Lemma landlock_checked paths p :
  checked (lib_apply_landlock paths) p
  = (if apply_landlock (Some (c_string <$> paths)) =? 0 then Val tt else Throw EException,
     extend [ALandlock (c_string <$> paths)] p).
Proof.
  unfold checked, lib_apply_landlock. rewrite P_bind_eq, log_bind. unfold mret, P_ret, assert_ok. by destruct (_ =? 0).
Qed.

Lemma landlock_one_checked path p :
  checked (lib_apply_landlock_one path) p
  = (if apply_landlock (Some [path]) =? 0 then Val tt else Throw EException, extend [ALandlock [path]] p).
Proof.
  unfold checked, lib_apply_landlock_one, apply_landlock_one. rewrite P_bind_eq, log_bind.
  unfold mret, P_ret, assert_ok. by destruct (_ =? 0).
Qed.

(** The shape the three programs share. *)
Lemma enters_intro ft e (first : P unit) :
  (forall p, first p = if e_privilege e then (Val tt, p) else
     (if apply_landlock (Some (e_paths e)) =? 0 then Val tt else Throw EException, extend [ALandlock (e_paths e)] p)) ->
  enters world env ft (Some e) (first ≫= fun _ =>
    checked (lib_init_seccomp world env ft (e_uid e) (e_gid e) (c_bool (e_net e)) (e_max_as e) (c_bool (e_privilege e)))).
Proof.
  intros Hfirst p. rewrite P_bind_eq, Hfirst. destruct (e_privilege e) eqn:Hp; cbv beta iota.
  - destruct (seccomp_checked ft (e_uid e) (e_gid e) (c_bool (e_net e)) (e_max_as e) (c_bool true) p)
      as [[Hok ->]|[Hno (ks & ->)]].
    + left. exists e. unfold entered, entry_acts, entry_plan. rewrite Hp. split_and!; try done; congruence.
    + right. split; [|exists (AKernel <$> ks); split; [apply no_code_kernel|done]].
      intros e' [= <-] [_ Hok]. unfold entry_plan in Hok. by rewrite Hp in Hok.
  - destruct (apply_landlock (Some (e_paths e)) =? 0) eqn:Hll; cbv beta iota.
    + apply Z.eqb_eq in Hll.
      destruct (seccomp_checked ft (e_uid e) (e_gid e) (c_bool (e_net e)) (e_max_as e) (c_bool false)
        (extend [ALandlock (e_paths e)] p)) as [[Hok ->]|[Hno (ks & ->)]]; rewrite extend_extend.
      * left. exists e. unfold entered, entry_acts, entry_plan. rewrite Hp. by split_and!.
      * right. split; [|eexists; split; [|done]; apply no_code_app; [by repeat constructor|apply no_code_kernel]].
        intros e' [= <-] [_ Hok]. unfold entry_plan in Hok. by rewrite Hp in Hok.
    + right. split; [|exists [ALandlock (e_paths e)]; split; [by repeat constructor|done]].
      intros e' [= <-] [Hl _]. rewrite Hl in Hll by done. done.
Qed.

Lemma enters_none ft (m : P unit) : (forall p, m p = (Throw EException, p)) -> enters world env ft None m.
Proof. intros Hm p. right. split; [done|]. exists []. rewrite extend_nil. split; [by constructor|done]. Qed.

Lemma enters_require {A} ft (o : option A) (f : A -> option Entry) (m : A -> P unit) :
  (forall x, o = Some x -> enters world env ft (f x) (m x)) -> enters world env ft (o ≫= f) (require o ≫= m).
Proof. destruct o as [x|]; intros Hx; [by apply Hx|by apply enters_none]. Qed.

(** The paths are only computed when landlock is used. *)
Lemma enters_guard ft uid gid net max_as (privilege : bool) (o : option (list bytes)) (first : P unit) :
  (forall p, first p = if privilege then (Val tt, p) else
     match o with
     | None => (Throw EException, p)
     | Some l => (if apply_landlock (Some (c_string <$> l)) =? 0 then Val tt else Throw EException,
                  extend [ALandlock (c_string <$> l)] p)
     end) ->
  enters world env ft
    ((if privilege then Some [] else o) ≫= fun l => Some (mkEntry uid gid net max_as privilege (c_string <$> l)))
    (first ≫= fun _ => checked (lib_init_seccomp world env ft uid gid (c_bool net) max_as (c_bool privilege))).
Proof.
  intros Hfirst. destruct privilege.
  - apply (enters_intro ft (mkEntry uid gid net max_as true (c_string <$> []))). done.
  - destruct o as [l|].
    + by apply (enters_intro ft (mkEntry uid gid net max_as false (c_string <$> l))).
    + apply enters_none. intros p. by rewrite P_bind_eq, Hfirst.
Qed.

Lemma enter_sandbox_enters `{Python} lib_dir req :
  enters world env python3 (request_entry lib_dir req) (enter_sandbox world env lib_dir req).
Proof.
  unfold request_entry, enter_sandbox. do 4 (apply enters_require; intros ? _).
  apply enters_guard. intros p.
  destruct (match py_get req "privilege" with Some v => py_bool v | None => true end); [done|].
  cbn [negb]. rewrite require_bind. case_match; [|done]. apply landlock_checked.
Qed.

Lemma prescript_sandbox_enters `{Python} `{PyJson} s :
  enters world env python3 (script_entry s) (prescript_sandbox world env s).
Proof.
  unfold script_entry, prescript_sandbox. apply enters_guard. intros p.
  destruct (f_privilege s =? 0); [|done]. cbn [negb]. rewrite require_bind.
  destruct (triple_quoted (f_allowed s)) as [t|]; [|done]. rewrite require_bind. cbn.
  destruct (loads t) as [v|]; [|done]. rewrite require_bind. cbn. destruct (py_paths v); [|done]. apply landlock_checked.
Qed.

(** Arguments converted between the two calls of the library. *)
Lemma enters_late {A} ft (privilege : bool) paths (first : P unit) (o : option A) (f : A -> option Entry) (m : A -> P unit) :
  (forall p, first p = if privilege then (Val tt, p) else
     (if apply_landlock (Some paths) =? 0 then Val tt else Throw EException, extend [ALandlock paths] p)) ->
  (forall x, o = Some x -> enters world env ft (f x) (first ≫= fun _ => m x)) ->
  enters world env ft (o ≫= f) (first ≫= fun _ => require o ≫= m).
Proof.
  intros Hfirst Hx. destruct o as [x|]; [by apply Hx|]. intros p. right. split; [done|]. rewrite P_bind_eq, Hfirst.
  destruct privilege; [exists []; rewrite extend_nil; split; [by constructor|done]|].
  exists [ALandlock paths]. split; [by repeat constructor|]. by destruct (_ =? 0).
Qed.

Lemma node_sandbox_enters `{Node} dir uid gid options :
  enters world env nodejs (node_entry dir uid gid options) (node_sandbox world env dir uid gid options).
Proof.
  unfold node_entry, node_sandbox. apply enters_require. intros flag _.
  set (privilege := match flag with Some (JBool false) => false | _ => true end). cbv zeta.
  destruct ((if privilege then Some [] else path ← koffi_str (Some dir); Some [path]) : option (list bytes)) as [paths|] eqn:E.
  2: { apply enters_none. intros p. destruct privilege; [done|]. rewrite P_bind_eq. cbn [negb]. rewrite require_bind.
       by destruct (koffi_str (Some dir)). }
  assert (forall p, ((if negb privilege then
     path ← require (koffi_str (Some dir)); ll_rc ← lib_apply_landlock_one path; assert_ok (ll_rc =? 0)
     else mret tt) : P unit) p = if privilege then (Val tt, p) else
     (if apply_landlock (Some paths) =? 0 then Val tt else Throw EException, extend [ALandlock paths] p)) as Hfirst.
  { intros p. destruct privilege; [done|]. cbn [negb]. rewrite require_bind.
    destruct (koffi_str (Some dir)) as [path|]; [|done]. injection E as <-. apply landlock_one_checked. }
  cbn [mbind option_bind]. do 4 (apply (enters_late nodejs privilege paths); [exact Hfirst|intros ? _]).
  by apply (enters_intro nodejs (mkEntry _ _ _ _ privilege paths)).
Qed.

End Entering.

(** ** Lemmas: the child of the zygote *)

Section ZygoteChild.
Context (world : list kcall -> kcall -> Z) (env : option bytes).
Context `{Libc} `{Landlock} `{PyBase64} `{Python} (soft_nofile : option Z) (self_dir lib_dir : bytes).

(** The descriptors [_handle_run] leaves to its child: the standard ones and
    the four ends of the two pipes, all below the limit on descriptors. *)
Record child_fds (out_w err_w out_r err_r : Z) (t : gmap Z file) (fo fe : file) : Prop := {
  cf_out : t !! out_w = Some fo;
  cf_err : t !! err_w = Some fe;
  cf_out_r : is_Some (t !! out_r);
  cf_err_r : is_Some (t !! err_r);
  cf_stdin : is_Some (t !! 0);
  cf_high : Forall (fun fd => 3 <= fd) [out_w; err_w; out_r; err_r];
  cf_distinct : out_r <> err_r;
  cf_range : forall fd f, t !! fd = Some f -> 0 <= fd < _MAX_FD soft_nofile
}.

(** The process when the code starts. *)
Definition child_image (fo fe : file) (im : Image) : Image :=
  mkImage {[0 := DevNull; 1 := fo; 2 := fe]}
    (filter (fun q => q <> [] /\ q <> self_dir) (im_path im))
    (im_modules im ∖ {[str "protocol"]})
    (set_recv_buf [] <$> im_self im).

(** The text the request carries, when it is one [compile] accepts. *)
Definition request_code (req : Json) : option bytes :=
  data ← py_get req "code" ≫= py_b64;
  key ← py_get req "key" ≫= py_b64;
  code ← py_xor data key;
  if compiles code then Some code else None.

Lemma closerange_only t fo fe dn :
  (forall fd f, t !! fd = Some f -> 0 <= fd < _MAX_FD soft_nofile) ->
  forall out_r err_r, 3 <= out_r -> 3 <= err_r -> 3 <= dn ->
  os_closerange 3 (_MAX_FD soft_nofile)
    (delete err_r (delete out_r (delete dn (<[0 := DevNull]> (<[dn := DevNull]> (<[2 := fe]> (<[1 := fo]> t)))))))
  = {[0 := DevNull; 1 := fo; 2 := fe]}.
Proof.
  intros Hr out_r err_r Ho He Hd. apply map_eq. intros k. unfold os_closerange.
  destruct (decide (0 <= k < 3)) as [Hk|Hk].
  - rewrite map_lookup_filter, !lookup_delete_ne by lia.
    destruct (decide (k = 0)) as [->|]; [|destruct (decide (k = 1)) as [->|]; [|assert (k = 2) as -> by lia]].
    + rewrite lookup_insert_eq. cbn. rewrite option_guard_True by (cbn; lia). by simplify_map_eq.
    + rewrite !lookup_insert_ne by lia. rewrite lookup_insert_eq. cbn. rewrite option_guard_True by (cbn; lia).
      by simplify_map_eq.
    + rewrite !lookup_insert_ne by lia. rewrite lookup_insert_eq. cbn. rewrite option_guard_True by (cbn; lia).
      by simplify_map_eq.
  - rewrite !(lookup_insert_ne _ _ k), lookup_singleton_ne by lia.
    apply map_lookup_filter_None. destruct (decide (3 <= k < _MAX_FD soft_nofile)) as [Hn|Hn]; [right; intros ? _ Hc; by apply Hc|].
    left. destruct (decide (k = dn)) as [->|]; [|rewrite !lookup_delete_None].
    + rewrite !lookup_delete_None. do 2 right. by left.
    + do 3 right. rewrite !lookup_insert_ne by lia. destruct (t !! k) as [f|] eqn:E; [|done]. destruct (Hr _ _ E). lia.
Qed.

Lemma on_fds_bind {B} (f : gmap Z file -> option (gmap Z file)) (g : unit -> P B) p :
  (on_fds f ≫= g) p = match f (im_fds (image p)) with
                      | Some t => g tt (mkProcess (set_fds t (image p)) (trace p))
                      | None => (Throw EException, p)
                      end.
Proof. rewrite P_bind_eq. unfold on_fds, on_image. by destruct (f _). Qed.

Ltac norm_image := unfold set_fds; cbn [mbind option_bind image trace im_fds im_path im_modules im_self].

Lemma redirect_spec out_w err_w out_r err_r fo fe p :
  child_fds out_w err_w out_r err_r (im_fds (image p)) fo fe ->
  redirect soft_nofile out_w err_w out_r err_r p
  = match open_fd (<[2 := fe]> (<[1 := fo]> (im_fds (image p)))) with
    | Some _ => (Val tt, mkProcess (set_fds {[0 := DevNull; 1 := fo; 2 := fe]} (image p)) (trace p))
    | None => (Throw EException, mkProcess (set_fds (<[2 := fe]> (<[1 := fo]> (im_fds (image p)))) (image p)) (trace p))
    end.
Proof.
  destruct p as [[t path mods self] tr]. norm_image.
  intros [Ho He [r1 Hor] [r2 Her] Hin Hhigh Hne Hr].
  rewrite !Forall_cons in Hhigh. destruct Hhigh as (? & ? & ? & ? & _). unfold redirect.
  rewrite on_fds_bind. unfold os_dup2 at 1. norm_image. rewrite Ho. norm_image.
  rewrite on_fds_bind. unfold os_dup2 at 1. norm_image. rewrite lookup_insert_ne, He by lia.
  norm_image.
  rewrite P_bind_eq. norm_image. rewrite require_bind.
  destruct (open_fd (<[2 := fe]> (<[1 := fo]> t))) as [dn|] eqn:Hdn; [|done]. apply open_fd_fresh in Hdn as [Hdn0 Hdn].
  assert (3 <= dn) as Hdn3.
  { destruct (decide (3 <= dn)); [done|]. exfalso.
    destruct (decide (dn = 0)) as [->|]; [|destruct (decide (dn = 1)) as [->|]; [|assert (dn = 2) as -> by lia]].
    - rewrite !lookup_insert_ne in Hdn by done. rewrite Hdn in Hin. by destruct Hin.
    - by rewrite lookup_insert_ne, lookup_insert_eq in Hdn by done.
    - by rewrite lookup_insert_eq in Hdn. }
  assert (dn <> out_r /\ dn <> err_r) as [Hdo Hde].
  { rewrite !lookup_insert_ne in Hdn by lia. split; intros ->; congruence. }
  rewrite on_fds_bind. norm_image.
  rewrite on_fds_bind. unfold os_dup2 at 1. norm_image. rewrite lookup_insert_eq.
  norm_image.
  unfold on_fds at 1. unfold os_close_fd at 1. norm_image. rewrite lookup_insert_ne, lookup_insert_eq by lia.
  norm_image. unfold on_image. norm_image.
  rewrite on_fds_bind. unfold os_close_fd at 1. norm_image.
  rewrite lookup_delete_ne, !lookup_insert_ne, Hor by lia.
  norm_image.
  rewrite on_fds_bind. unfold os_close_fd at 1. norm_image.
  rewrite !lookup_delete_ne, !lookup_insert_ne, Her by lia.
  norm_image.
  unfold on_fds, on_image. norm_image.
  by rewrite closerange_only.
Qed.

Lemma scrub_eq p :
  scrub self_dir p
  = (Val tt, mkProcess (mkImage (im_fds (image p)) (filter (fun q => q <> [] /\ q <> self_dir) (im_path (image p)))
       (im_modules (image p) ∖ {[str "protocol"]}) (set_recv_buf [] <$> im_self (image p))) (trace p)).
Proof. done. Qed.

(** A text run as code, and what follows it. *)
Lemma execute_eq src p :
  execute src p = perform (run_code src) (extend [ACode src (image p)] p).
Proof. done. Qed.

Lemma perform_state f p : exists r, perform f p = (r, p).
Proof. unfold perform. destruct (f p); eauto. Qed.

Definition code_result (code : bytes) (p : Process) : res unit :=
  match run_code code p with
  | Normal => fst (perform flush_std p)
  | Throws e => Throw e
  | Dies st => Die st
  end.

Lemma run_request_eq req p :
  run_request req p = match request_code req with
                      | Some code => let p' := extend [ACode code (image p)] p in (code_result code p', p')
                      | None => (Throw EException, p)
                      end.
Proof.
  unfold run_request, request_code. rewrite require_bind. destruct (py_get req "code" ≫= py_b64) as [data|]; [|done].
  rewrite require_bind. cbn [mbind option_bind]. destruct (py_get req "key" ≫= py_b64) as [key|]; [|done].
  rewrite require_bind. cbn [mbind option_bind]. destruct (py_xor data key) as [code|]; [|done].
  rewrite P_bind_eq. cbn [mbind option_bind]. unfold assert_ok. destruct (compiles code); [|done].
  cbv beta iota zeta delta [mret P_ret]. rewrite P_bind_eq, execute_eq. unfold code_result, perform at 1.
  destruct (run_code code _); try done.
  destruct (perform_state flush_std (extend [ACode code (image p)] p)) as [r E]. by rewrite E.
Qed.

(** The exit of a child whose code ended in [r]. *)
Definition child_fate (r : res unit) (p : Process) : fate :=
  match r with
  | Val _ => os_exit 0
  | Throw (ESystemExit a) => guarded_by (flush_std p) (os_exit (match a with ExitInt z => z | _ => 0 end))
  | Throw _ => guarded_by (print_exc p) (os_exit 1)
  | Die st => Ended_by_code st
  end.

Lemma child_exec_cases req out_w err_w out_r err_r fo fe p :
  child_fds out_w err_w out_r err_r (im_fds (image p)) fo fe ->
  let im := child_image fo fe (image p) in
  let '(f, p') := _child_exec world env soft_nofile self_dir lib_dir req out_w err_w out_r err_r p in
  (exists e code, request_entry lib_dir req = Some e /\ entered world env python3 e /\ request_code req = Some code
     /\ p' = mkProcess im (trace p ++ entry_acts env python3 e ++ [ACode code im])
     /\ f = child_fate (code_result code p') p')
  \/ ((forall e code, is_Some (open_fd (<[2 := fe]> (<[1 := fo]> (im_fds (image p))))) ->
         request_entry lib_dir req = Some e -> entered world env python3 e -> request_code req <> Some code)
      /\ (exists l, no_code l /\ trace p' = trace p ++ l) /\ f = guarded_by (print_exc p') (os_exit 1)).
Proof.
  intros Hfds im. unfold _child_exec. rewrite P_bind_eq, (redirect_spec _ _ _ _ _ _ _ Hfds).
  destruct (open_fd _) as [dn|] eqn:Hdn.
  2: { right. split; [intros ? ? [? ?]; congruence|]. split; [|done]. exists []. split; [by constructor|]. cbn. by rewrite app_nil_r. }
  rewrite P_bind_eq, scrub_eq. change (mkProcess _ _) with (mkProcess im (trace p)) at 1.
  rewrite P_bind_eq. destruct (enter_sandbox_enters world env lib_dir req (mkProcess im (trace p)))
    as [(e & He & Hin & ->)|[Hno (l & Hl & ->)]].
  - rewrite run_request_eq. destruct (request_code req) as [code|] eqn:Hc; cbv zeta.
    + rewrite extend_extend. change (image (extend _ _)) with im.
      change (extend _ _) with (mkProcess im (trace p ++ entry_acts env python3 e ++ [ACode code im])).
      set (p' := mkProcess im (_ ++ _)).
      destruct (code_result code p') as [?|[]|?] eqn:Er; left; exists e, code; rewrite Er; by split_and!.
    + right. split; [done|]. split; [|done]. exists (entry_acts env python3 e). split; [|done]. apply entry_acts_no_code.
  - right. split; [intros e code _ He Hin; by destruct (Hno e)|]. split; [|done]. by exists l.
Qed.

End ZygoteChild.

(** ** Lemmas: the slow Python path *)

Section SlowPath.
Context (world : list kcall -> kcall -> Z) (env : option bytes).
Context `{Libc} `{Landlock} `{PyBase64} `{Python} `{PyJson}.

Definition script_image (im : Image) : Image := set_path (filter (fun q => q <> []) (im_path im)) im.

(** Up to the sandbox: the arguments are checked, the directory changed. *)
Definition script_ready (argv : list bytes) (dir key : bytes) : Prop :=
  dlopen_ok (str "./libpython.so") = true /\ argv !! 1%nat = Some dir /\ dir <> [] /\ chdir_ok dir = true
  /\ exists k, argv !! 2%nat = Some k /\ k <> [] /\ py_b64 (JString k) = Some key.

Ltac refuse :=
  right; split; [intros ? ? (? & ? & ? & ? & ? & ? & ? & ?); congruence | by eexists].

Lemma prescript_front argv s p :
  (exists dir key, script_ready argv dir key /\ prescript_main world env argv s p
     = (prescript_sandbox world env s ≫= fun _ => execute (f_preload s) ≫= fun _ => prescript_rest s key)
         (mkProcess (script_image (image p)) (trace p ++ [AChdir dir])))
  \/ (forall dir key, ~ script_ready argv dir key) /\ exists e, prescript_main world env argv s p = (Throw e, p).
Proof.
  unfold prescript_main, script_ready. rewrite assert_bind.
  destruct (dlopen_ok _) eqn:Hlib; [|refuse]. rewrite require_bind.
  destruct (argv !! 1%nat) as [[|d dir]|] eqn:E1; [refuse| |refuse]. rewrite unless_bind. cbn [is_empty]. rewrite require_bind.
  destruct (argv !! 2%nat) as [[|c k]|] eqn:E2; [refuse| |refuse]. rewrite unless_bind. cbn [is_empty]. rewrite require_bind.
  destruct (py_b64 (JString (c :: k))) as [key|] eqn:Hk; [|refuse]. rewrite assert_bind.
  destruct (chdir_ok (d :: dir)) eqn:Hd; [|refuse]. left. exists (d :: dir), key. split; [|done].
  split_and!; try done. by exists (c :: k).
Qed.

(** The code a filled script runs: its preload, then what it decrypts. *)
Definition script_codes (s : Filled) (key : bytes) (im : Image) (codes : list act) : Prop :=
  codes = [ACode (f_preload s) im]
  \/ exists data code, py_b64 (JString (f_code s)) = Some data /\ decrypt data key = Some code
     /\ codes = [ACode (f_preload s) im; ACode code im].

Lemma script_codes_code s key im codes : script_codes s key im codes -> Forall (fun a => is_code a = true) codes.
Proof. intros [->|(data & code & _ & _ & ->)]; by repeat constructor. Qed.

Lemma prescript_tail s key p : exists r codes, script_codes s key (image p) codes
  /\ (execute (f_preload s) ≫= fun _ => prescript_rest s key) p = (r, extend codes p).
Proof.
  rewrite P_bind_eq, execute_eq. set (p1 := extend _ p).
  assert (forall r, exists r' codes, script_codes s key (image p) codes /\ (r, p1) = (r' : res unit, extend codes p)) as Hstop.
  { intros r. exists r, [ACode (f_preload s) (image p)]. split; [by left|done]. }
  unfold perform at 1. destruct (run_code (f_preload s) p1); [|apply Hstop..].
  unfold prescript_rest. destruct (script_rest _ p1) as [e|].
  { destruct (perform_state (fun _ => e) p1) as [r ->]. apply Hstop. }
  unfold prescript_code. rewrite require_bind. destruct (py_b64 _) as [data|] eqn:Hdata; [|apply Hstop].
  rewrite require_bind. destruct (decrypt data key) as [code|] eqn:Hcode; [|apply Hstop]. rewrite assert_bind.
  destruct (compiles code); [|apply Hstop]. rewrite execute_eq.
  destruct (perform_state (run_code code) (extend [ACode code (image p1)] p1)) as [r ->].
  exists r, [ACode (f_preload s) (image p); ACode code (image p)]. split; [right; by exists data, code|].
  unfold p1. by rewrite extend_extend.
Qed.

Lemma prescript_state argv s p : exists f, prescript world env argv s p
  = (f, if compiles (f_preload s) then snd (prescript_main world env argv s p) else p).
Proof.
  unfold prescript. destruct (compiles _); cbn [negb]; [|by eexists].
  destruct (prescript_main world env argv s p) as [[?|[]|?] ?]; by eexists.
Qed.

Lemma prescript_cases argv s p :
  let p' := snd (prescript world env argv s p) in
  (exists dir key e codes, script_ready argv dir key /\ script_entry s = Some e /\ entered world env python3 e
     /\ trace p' = trace p ++ AChdir dir :: entry_acts env python3 e ++ codes
     /\ script_codes s key (script_image (image p)) codes)
  \/ exists l, no_code l /\ trace p' = trace p ++ l.
Proof.
  intros p'. destruct (prescript_state argv s p) as [f E]. unfold p'. rewrite E. cbn [snd].
  destruct (compiles _); [|right; exists []; split; [by constructor|by rewrite app_nil_r]].
  destruct (prescript_front argv s p) as [(dir & key & Hr & ->)|[_ [e ->]]].
  2: { right. exists []. split; [by constructor|by rewrite app_nil_r]. }
  rewrite P_bind_eq. destruct (prescript_sandbox_enters world env s (mkProcess (script_image (image p)) (trace p ++ [AChdir dir])))
    as [(e & He & Hin & ->)|[_ (l & Hl & ->)]].
  - left. destruct (prescript_tail s key (extend (entry_acts env python3 e)
      (mkProcess (script_image (image p)) (trace p ++ [AChdir dir])))) as (r & codes & Hc & ->).
    exists dir, key, e, codes. split_and!; try done. cbn. by rewrite <-!app_assoc.
  - right. exists (AChdir dir :: l). split; [by constructor|]. cbn. by rewrite <-app_assoc.
Qed.

End SlowPath.

(** ** Lemmas: Node.js *)

Section NodePath.
Context (world : list kcall -> kcall -> Z) (env : option bytes).
Context `{Libc} `{Landlock} `{Node}.

Definition js_source (code_b64 : bytes) : bytes := from_utf8_lossy (buffer_base64 code_b64).

(** What the process reads from its arguments. *)
Definition js_entry (argv : list bytes) (dir : bytes) : option Entry :=
  options ← argv !! 5%nat ≫= json_parse;
  node_entry dir (argv !! 3%nat ≫= parse_int) (argv !! 4%nat ≫= parse_int) options.

Lemma prescript_js_cases argv code_b64 p :
  let '(f, p') := prescript_js world env argv code_b64 p in
  (exists dir e, argv !! 2%nat = Some dir /\ js_entry argv dir = Some e /\ entered world env nodejs e
     /\ p' = extend (AChdir dir :: entry_acts env nodejs e ++ [ACode (js_source code_b64) (image p)]) p
     /\ f = match run_js (js_source code_b64) p' with Normal => Exited 0 | Throws _ => Exited 1 | Dies st => Ended_by_code st end)
  \/ (forall dir e, argv !! 2%nat = Some dir -> node_chdir dir = true -> node_load (str "./libnodejs.so") = true ->
        js_entry argv dir = Some e -> ~ entered world env nodejs e)
     /\ (exists l, no_code l /\ p' = extend l p) /\ f = Exited 1.
Proof.
  assert (exists l, no_code l /\ p = extend l p) as Hnil.
  { exists []. split; [by constructor|by rewrite extend_nil]. }
  assert (forall dir, exists l, no_code l /\ extend [AChdir dir] p = extend l p) as Hdir.
  { intros dir. exists [AChdir dir]. split; [by repeat constructor|done]. }
  unfold prescript_js, prescript_js_main, js_entry. rewrite require_bind.
  destruct (argv !! 2%nat) as [dir|] eqn:E2; [|by right]. rewrite assert_bind.
  destruct (node_chdir dir) eqn:Hcd; [|right; split; [congruence|done]]. rewrite log_bind, assert_bind.
  destruct (node_load _) eqn:Hld; [|right; split; [congruence|split; [apply Hdir|done]]]. rewrite require_bind.
  destruct (argv !! 5%nat ≫= json_parse) as [options|] eqn:E5; [|right; split; [done|split; [apply Hdir|done]]].
  rewrite P_bind_eq. cbn [mbind option_bind].
  destruct (node_sandbox_enters world env dir (argv !! 3%nat ≫= parse_int) (argv !! 4%nat ≫= parse_int) options
    (extend [AChdir dir] p)) as [(e & He & Hin & ->)|[Hno (l & Hl & ->)]].
  - unfold execute_js. rewrite log_bind, !extend_extend. change (image (extend _ p)) with (image p).
    fold (js_source code_b64). set (p' := extend _ p).
    assert (p' = extend (AChdir dir :: entry_acts env nodejs e ++ [ACode (js_source code_b64) (image p)]) p) as Ep.
    { unfold p'. cbn. by rewrite <-?app_assoc. }
    unfold perform. destruct (run_js (js_source code_b64) p') eqn:Er; left; exists dir, e; by rewrite Er.
  - right. split; [|split; [|done]].
    + intros dir' e [= <-] _ _ He. by apply Hno.
    + exists (AChdir dir :: l). split; [by constructor|]. by rewrite extend_extend.
Qed.

End NodePath.

(** ** Lemmas: the server's own requests *)

Section Served.
Context (world : list kcall -> kcall -> Z) (env : option bytes).
Context `{Libc} `{Landlock} `{PyBase64} `{Python} `{PyJson} `{Rng} `{SerdeJson}.
Context (config : Config) (options : RunnerOptions).

(** The sandbox the configuration asks for: the network needs the request's
    consent and the configuration's, and no path is named in privileged mode. *)
Definition config_entry (paths : list bytes) : Entry :=
  mkEntry (sandbox_uid config) (sandbox_gid config) (opt_enable_network options && enable_network config)
    (python_max_as_bytes config)
    (privilege config) (if privilege config then [] else paths).

(** Its numbers fit their C types, and no path has a NUL. *)
Record fits (paths : list bytes) : Prop := {
  fit_uid : 0 <= sandbox_uid config < 2 ^ 32;
  fit_gid : 0 <= sandbox_gid config < 2 ^ 32;
  fit_max_as : 0 <= python_max_as_bytes config < 2 ^ 64;
  fit_paths : Forall (fun q => Byte.x00 ∉ q) paths
}.

(** The values the server puts for the placeholders ([Python.settings] are
    their texts). *)
Definition filled (checked enc : bytes) : Filled := {|
  f_uid := sandbox_uid config; f_gid := sandbox_gid config; f_net := c_bool (network config options);
  f_max_as := python_max_as_bytes config; f_privilege := c_bool (privilege config);
  f_allowed := Python.allowed_paths_json config; f_preload := checked ++ [byte_lf]; f_code := enc |}.

Lemma c_string_id q : Byte.x00 ∉ q -> c_string q = q.
Proof.
  induction q as [|b q IH]; [done|]. rewrite not_elem_of_cons. intros [Hb Hq]. cbn.
  rewrite bool_decide_false by done. by rewrite IH.
Qed.

Lemma c_strings_id l : Forall (fun q => Byte.x00 ∉ q) l -> c_string <$> l = l.
Proof. induction 1 as [|q l Hq _ IH]; [done|]. cbn. by rewrite c_string_id, IH. Qed.

Lemma py_paths_strings l : py_paths (JArray (JString <$> l)) = Some l.
Proof. unfold py_paths. induction l as [|q l IH]; [done|]. cbn in *. by rewrite IH. Qed.

Lemma request_json_entry lib_dir enc key :
  fits (Python.fast_paths config) ->
  request_entry lib_dir (request_json enc key (Python.limits config options)) = Some (config_entry (Python.fast_paths config)).
Proof.
  intros [Hu Hg Hm Hp]. unfold request_entry, request_json.
  set (j := JObject _).
  assert (py_get j "uid" = Some (JNumber (sandbox_uid config))) as -> by reflexivity.
  assert (py_get j "gid" = Some (JNumber (sandbox_gid config))) as -> by reflexivity.
  assert (py_get j "net" = Some (JBool (network config options))) as -> by reflexivity.
  assert (py_get j "max_as" = Some (JNumber (python_max_as_bytes config))) as -> by reflexivity.
  assert (py_get j "privilege" = Some (JBool (privilege config))) as -> by reflexivity.
  assert (py_get j "allowed_paths" = Some (JArray (JString <$> Python.fast_paths config))) as -> by reflexivity.
  change (default _ (Some ?x)) with x. rewrite py_paths_strings. generalize dependent (Python.fast_paths config). intros paths Hp.
  cbn [mbind option_bind py_int fmap option_fmap option_map py_bool]. unfold config_entry, c_uint32, c_uint64. rewrite !Z.mod_small by done.
  destruct (privilege config); cbn [mbind option_bind]; [done|]. by rewrite c_strings_id.
Qed.

Lemma request_json_code enc code :
  encrypt_code code (generate_key 64) = Some enc -> compiles code = true ->
  request_code (request_json enc (b64_encode (generate_key 64)) (Python.limits config options)) = Some code.
Proof.
  intros Henc Hc. destruct (encrypt_generated code) as (enc' & Henc' & E & _ & Hx). simplify_eq. unfold request_code, request_json.
  set (j := JObject _).
  assert (py_get j "code" = Some (JString (b64_encode (xor_stream (generate_key 64) code)))) as -> by reflexivity.
  assert (py_get j "key" = Some (JString (b64_encode (generate_key 64)))) as -> by reflexivity.
  cbn [mbind option_bind py_b64]. rewrite !py_b64_valid_encode. cbn [mbind option_bind]. rewrite Hx. cbn. by rewrite Hc.
Qed.

(** The text between the triple quotes is read back as the list of paths. *)
Definition paths_read : Prop :=
  (text ← triple_quoted (Python.allowed_paths_json config); loads text) = Some (JArray (JString <$> Python.slow_paths config)).

Lemma filled_entry checked enc :
  fits (Python.slow_paths config) -> (privilege config = false -> paths_read) ->
  script_entry (filled checked enc) = Some (config_entry (Python.slow_paths config)).
Proof.
  intros [Hu Hg Hm Hp] Hread. unfold script_entry, config_entry, filled, c_uint32, c_uint64.
  cbn [f_uid f_gid f_net f_max_as f_privilege f_allowed]. rewrite !Z.mod_small by done.
  replace (negb (c_bool (network config options) =? 0)) with (network config options) by (by destruct (network _ _)).
  destruct (privilege config); cbn [c_bool Z.eqb negb]; [done|]. specialize (Hread eq_refl). unfold paths_read in Hread.
  destruct (triple_quoted _) as [text|]; [|done]. cbn [mbind option_bind] in Hread |- *.
  rewrite Hread. cbn [mbind option_bind]. rewrite py_paths_strings. cbn [mbind option_bind]. by rewrite c_strings_id.
Qed.

End Served.

(** ** Lemmas: a script that gets to its code *)

Section Runs.
Context (world : list kcall -> kcall -> Z) (env : option bytes).
Context `{Libc} `{Landlock} `{PyBase64} `{Python} `{PyJson}.

(** The end of the interpreter after the code ended in [e]. *)
Definition script_fate (e : ending) (p : Process) : fate :=
  match e with
  | Normal => finalize 0 p
  | Throws (ESystemExit a) => finalize (exit_arg_code a) p
  | Throws _ =>
    match user_hook p with
    | Some code => Exited code
    | None =>
      match print_exc p with
      | Normal => finalize 255 p
      | Throws (ESystemExit a) => finalize (exit_arg_code a) p
      | Throws _ => finalize 1 p
      | Dies st => Ended_by_code st
      end
    end
  | Dies st => Ended_by_code st
  end.

Lemma script_ready_inj argv dir key dir' key' :
  script_ready argv dir key -> script_ready argv dir' key' -> dir' = dir /\ key' = key.
Proof. intros (_ & ? & _ & _ & k & ? & _ & ?) (_ & ? & _ & _ & k' & ? & _ & ?). split; congruence. Qed.

Lemma prescript_runs argv s p dir key e code data :
  script_ready argv dir key -> script_entry s = Some e -> entered world env python3 e ->
  compiles (f_preload s) = true -> (forall p, run_code (f_preload s) p = Normal) ->
  (forall p, script_rest (f_preload s) p = None) ->
  py_b64 (JString (f_code s)) = Some data -> decrypt data key = Some code -> compiles code = true ->
  let im := script_image (image p) in
  let p' := mkProcess im (trace p ++ AChdir dir :: entry_acts env python3 e ++ [ACode (f_preload s) im; ACode code im]) in
  prescript world env argv s p = (script_fate (run_code code p') p', p').
Proof.
  intros Hr He Hin Hpre Hnorm Hrest Hdata Hdec Hcomp im p'. unfold prescript. rewrite Hpre. cbn [negb].
  destruct (prescript_front world env argv s p) as [(dir' & key' & Hr' & ->)|[Hno _]]; [|by destruct (Hno dir key)].
  destruct (script_ready_inj _ _ _ _ _ Hr Hr') as [-> ->]. rewrite P_bind_eq.
  destruct (prescript_sandbox_enters world env s (mkProcess (script_image (image p)) (trace p ++ [AChdir dir])))
    as [(e' & He' & _ & ->)|[Hno _]]; [|by destruct (Hno e)]. rewrite He in He'. injection He' as <-.
  rewrite P_bind_eq, execute_eq. unfold perform at 1. rewrite Hnorm. unfold prescript_rest. rewrite Hrest.
  unfold prescript_code. rewrite require_bind, Hdata, require_bind, Hdec, assert_bind, Hcomp, execute_eq, !extend_extend.
  match goal with |- context [perform _ ?q] => replace q with p' by (unfold extend, p'; cbn; by rewrite <-!app_assoc) end.
  unfold perform, script_fate. destruct (run_code code p') as [|[]|]; done.
Qed.

End Runs.

(** ** Theorems *)

Section Theorems.
Context (world : list kcall -> kcall -> Z) (env : option bytes).
Context `{Libc} `{Landlock} `{PyBase64} `{Python}.

(** C13. The child of the zygote runs code inside the sandbox or not at all.
    Whatever the request holds, and however the kernel, the interpreter and
    the code behave: either the child made every call of the sandbox set-up for
    the request's limits, each with success (landlock first when it is not
    privileged), and then started the text of the request, with no descriptor
    but the null device and its two pipes, without the worker's module
    directory and [protocol] module, and without the frames the worker had
    received; or no code ran, and the child exits with code 1. The copy of the
    worker's output buffer, with frames of other requests, is still there. *)
Theorem child_code_sandboxed soft_nofile self_dir lib_dir req out_w err_w out_r err_r fo fe p :
  child_fds soft_nofile out_w err_w out_r err_r (im_fds (image p)) fo fe -> trace p = [] ->
  let '(f, p') := _child_exec world env soft_nofile self_dir lib_dir req out_w err_w out_r err_r p in
  (exists e src im, request_entry lib_dir req = Some e /\ request_code req = Some src
     /\ trace p' = entry_acts env python3 e ++ [ACode src im]
     /\ (e_privilege e = false -> apply_landlock (Some (e_paths e)) = 0)
     /\ all_ok world [] (entry_plan env python3 e)
     /\ im_fds im = {[0 := DevNull; 1 := fo; 2 := fe]}
     /\ [] ∉ im_path im /\ self_dir ∉ im_path im /\ str "protocol" ∉ im_modules im
     /\ forall w, im_self (image p) = Some w -> im_self im = Some (set_recv_buf [] w))
  \/ (no_code (trace p') /\ f = guarded_by (print_exc p') (Exited 1)).
Proof.
  intros Hfds Ht. pose proof (child_exec_cases world env soft_nofile self_dir lib_dir req _ _ _ _ _ _ p Hfds) as Hc.
  destruct (_child_exec _ _ _ _ _ _ _ _ _ _ p) as [f p']. rewrite Ht in Hc.
  destruct Hc as [(e & code & He & [Hl Ha] & Hcode & -> & ->)|(_ & (l & Hl & ->) & ->)]; [left|by right].
  exists e, code, (child_image self_dir fo fe (image p)).
  split_and!; try done; cbn [child_image im_path im_modules im_self].
  - rewrite list_elem_of_filter. by intros [[] ?].
  - rewrite list_elem_of_filter. by intros [[] ?].
  - rewrite elem_of_difference, elem_of_singleton. by intros [].
  - by intros w ->.
Qed.

(** C21. The two prescripts run code inside the sandbox or not at all: any text
    the slow Python path runs, the preload included, and any text Node.js
    runs, comes after the change of directory and every call of the sandbox
    set-up for the limits the server wrote, each with success. *)
Theorem prescripts_code_sandboxed `{PyJson} `{Node} argv s code_b64 p :
  trace p = [] ->
  (let tr := trace (snd (prescript world env argv s p)) in
   no_code tr \/ exists dir e codes, argv !! 1%nat = Some dir /\ script_entry s = Some e /\ entered world env python3 e
     /\ tr = AChdir dir :: entry_acts env python3 e ++ codes /\ Forall (fun a => is_code a = true) codes)
  /\ (let '(f, p') := prescript_js world env argv code_b64 p in
      (no_code (trace p') /\ f = Exited 1) \/ exists dir e, argv !! 2%nat = Some dir /\ js_entry argv dir = Some e
        /\ entered world env nodejs e
        /\ trace p' = AChdir dir :: entry_acts env nodejs e ++ [ACode (js_source code_b64) (image p)]).
Proof.
  intros Ht. split.
  - destruct (prescript_cases world env argv s p) as [(dir & key & e & codes & Hr & He & Hin & E & Hc)|(l & Hl & E)];
      rewrite E, Ht; [right|by left]. exists dir, e, codes. split_and!; try done; [by apply Hr|by eapply script_codes_code].
  - pose proof (prescript_js_cases world env argv code_b64 p) as Hc.
    destruct (prescript_js world env argv code_b64 p) as [f p'].
    destruct Hc as [(dir & e & Hd & He & Hin & -> & _)|(_ & (l & Hl & ->) & ->)].
    + right. exists dir, e. split_and!; try done. cbn. by rewrite Ht.
    + left. split; [|done]. cbn. by rewrite Ht.
Qed.

(** An interpreter in which nothing goes wrong around the code, which ends in
    [E]; a blank preload does nothing. *)
Record cooperative (code : bytes) (E : ending) : Prop := {
  co_open : forall t, is_Some (open_fd t);
  co_lib : dlopen_ok (str "./libpython.so") = true;
  co_chdir : chdir_ok LIB_PATH = true;
  co_compiles : compiles code = true;
  co_blank : compiles [byte_lf] = true;
  co_blank_run : forall p, run_code [byte_lf] p = Normal;
  co_blank_rest : forall p, script_rest [byte_lf] p = None;
  co_run : forall p, run_code code p = E;
  co_flush : forall p, flush_std p = Normal;
  co_print : forall p, print_exc p = Normal;
  co_hook : forall p, user_hook p = None
}.

(** The exit codes of the two paths. *)
Definition fast_exit (E : ending) : fate :=
  match E with
  | Normal => Exited 0
  | Throws (ESystemExit (ExitInt z)) => os_exit z
  | Throws (ESystemExit _) => Exited 0
  | Throws _ => Exited 1
  | Dies st => Ended_by_code st
  end.

Definition slow_exit (E : ending) : fate :=
  match E with
  | Normal => Exited 0
  | Throws (ESystemExit a) => Exited (exit_arg_code a)
  | Throws _ => Exited 255
  | Dies st => Ended_by_code st
  end.

Lemma child_fate_cooperative code E p : cooperative code E -> child_fate (code_result code p) p = fast_exit E.
Proof.
  intros Hco. unfold code_result. rewrite (co_run _ _ Hco). destruct E as [|[a| |]|st]; cbn.
  - unfold perform. by rewrite (co_flush _ _ Hco).
  - rewrite (co_flush _ _ Hco). by destruct a.
  - by rewrite (co_print _ _ Hco).
  - by rewrite (co_print _ _ Hco).
  - done.
Qed.

Lemma script_fate_cooperative code E p : cooperative code E -> script_fate E p = slow_exit E.
Proof.
  intros Hco. unfold script_fate, finalize. rewrite (co_hook _ _ Hco), (co_print _ _ Hco), (co_flush _ _ Hco).
  by destruct E as [|[]|].
Qed.

Lemma fits_fast `{SerdeJson} config : fits config (Python.slow_paths config) -> fits config (Python.fast_paths config).
Proof.
  intros [? ? ? Hp]. split; try done. unfold Python.fast_paths. destruct (privilege config); [by constructor|].
  unfold Python.slow_paths in Hp. apply Forall_app in Hp as [Hl Hp]. apply Forall_app_2; [done|].
  exact (Forall_take _ 5 _ Hp).
Qed.

Lemma paths_differ config options :
  let fast := config_entry config options (Python.fast_paths config) in
  let slow := config_entry config options (Python.slow_paths config) in
  slow = mkEntry (e_uid fast) (e_gid fast) (e_net fast) (e_max_as fast) (e_privilege fast)
           (e_paths fast ++ if privilege config then [] else [str "/usr/share/zoneinfo"]).
Proof.
  unfold config_entry, Python.fast_paths, Python.slow_paths. cbn [e_uid e_gid e_net e_max_as e_privilege e_paths].
  destruct (privilege config); [done|]. by rewrite <-app_assoc.
Qed.

(** C22. Both Python paths run the submitted code under the configured limits.
    For the request and the script the server makes of one program, with the
    kernel granting every step, the child of the zygote and the slow path enter
    the sandbox and then run exactly the submitted bytes. In privileged mode
    they enter it with the same arguments; otherwise the arguments are the same
    but for one landlock path, the last of the slow path's, which the zygote's
    child is not given. Their exit codes agree when the program ends normally
    or with a small integer, and differ otherwise: an uncaught exception is 1
    or 255, and [sys.exit] with a message is 0 or 1. *)
Theorem python_paths_compared `{PyJson} `{Rng} `{SerdeJson} host config options code enc E
    soft_nofile self_dir lib_dir out_w err_w out_r err_r fo fe p ps :
  encrypt_code code (generate_key 64) = Some enc -> cooperative code E ->
  fits config (Python.slow_paths config) -> (privilege config = false -> paths_read config) ->
  entered world env python3 (config_entry config options (Python.fast_paths config)) ->
  entered world env python3 (config_entry config options (Python.slow_paths config)) ->
  child_fds soft_nofile out_w err_w out_r err_r (im_fds (image p)) fo fe -> trace p = [] -> trace ps = [] ->
  let key := b64_encode (generate_key 64) in
  let '(f, p') := _child_exec world env soft_nofile self_dir lib_dir
    (request_json enc key (Python.limits config options)) out_w err_w out_r err_r p in
  let '(fs, ps') := prescript world env (drop 1 (args (Python.command host config key))) (filled config options [] enc) ps in
  (exists im, trace p' = entry_acts env python3 (config_entry config options (Python.fast_paths config)) ++ [ACode code im])
  /\ (exists im, trace ps' = AChdir LIB_PATH :: entry_acts env python3 (config_entry config options (Python.slow_paths config))
                               ++ [ACode [byte_lf] im; ACode code im])
  /\ f = fast_exit E /\ fs = slow_exit E
  /\ (let fast := config_entry config options (Python.fast_paths config) in
      let slow := config_entry config options (Python.slow_paths config) in
      slow = mkEntry (e_uid fast) (e_gid fast) (e_net fast) (e_max_as fast) (e_privilege fast)
               (e_paths fast ++ if privilege config then [] else [str "/usr/share/zoneinfo"])).
Proof.
  intros Henc Hco Hfit Hread Hin Hin' Hfds Ht Hts key.
  pose proof (child_exec_cases world env soft_nofile self_dir lib_dir (request_json enc key (Python.limits config options))
    _ _ _ _ _ _ p Hfds) as Hc.
  destruct (_child_exec _ _ _ _ _ _ _ _ _ _ p) as [f p'].
  destruct Hc as [(e & code' & He & _ & Hcode & -> & ->)|(Hno & _)].
  2: { exfalso. apply (Hno _ code (co_open _ _ Hco _) (request_json_entry config options lib_dir enc key (fits_fast _ Hfit)) Hin).
       apply request_json_code; [done|apply Hco]. }
  rewrite request_json_entry in He by (by apply fits_fast). injection He as <-.
  unfold key in Hcode. rewrite (request_json_code config options enc code Henc (co_compiles _ _ Hco)) in Hcode. injection Hcode as <-.
  destruct (encrypt_generated code) as (enc' & Henc' & Eenc & Hdec & _). simplify_eq.
  assert (script_ready (drop 1 (args (Python.command host config key))) LIB_PATH (py_b64decode key)) as Hready.
  { split_and!; try done; [apply Hco..|]. exists key. split; [done|]. split; [by apply b64_encode_nonempty, generated_key_nonempty|].
    cbn. unfold key. by rewrite py_b64_valid_encode. }
  erewrite prescript_runs; [|exact Hready| |exact Hin'|apply Hco..| |exact Hdec|apply Hco].
  - cbn [trace]. rewrite Ht, Hts, (co_run _ _ Hco). split_and!; [by eexists..| | |apply paths_differ].
    + by apply child_fate_cooperative.
    + by eapply script_fate_cooperative.
  - by apply filled_entry.
  - cbn. by rewrite py_b64_valid_encode.
Qed.

(** The sandbox the configuration asks of Node.js. *)
Definition node_config_entry (config : Config) (options : RunnerOptions) : Entry :=
  mkEntry (sandbox_uid config) (sandbox_gid config) (opt_enable_network options && enable_network config)
    (nodejs_max_as_bytes config)
    (privilege config) (if privilege config then [] else [LIB_PATH]).

(** C23. Node.js runs the submitted code under the configured limits: for the
    command line and the script text the server makes of a request, with the
    kernel granting every step, the process changes to the sandbox directory,
    makes exactly the calls of the configured sandbox and then evaluates the
    submitted bytes, read as UTF-8. *)
Theorem node_runs_submitted `{!Node} host config options code_b64 code canonical p :
  b64_decode code_b64 = inl code -> Nodejs.validate_base64 code_b64 = inl canonical ->
  node_chdir LIB_PATH = true -> node_load (str "./libnodejs.so") = true ->
  0 <= sandbox_uid config <= i32_max -> 0 <= sandbox_gid config <= i32_max -> 0 <= nodejs_max_as_bytes config < 2 ^ 53 ->
  json_parse (Nodejs.opts_json config options)
  = Some (JObject [field "enable_network" (JBool (network config options));
                   field "max_as" (JNumber (nodejs_max_as_bytes config)); field "privilege" (JBool (privilege config))]) ->
  entered world env nodejs (node_config_entry config options) -> trace p = [] ->
  let '(f, p') := prescript_js world env
    (nodejs_path config :: drop 4 (args (Nodejs.command host config options))) canonical p in
  trace p' = AChdir LIB_PATH :: entry_acts env nodejs (node_config_entry config options)
               ++ [ACode (from_utf8_lossy code) (image p)]
  /\ f = match run_js (from_utf8_lossy code) p' with Normal => Exited 0 | Throws _ => Exited 1 | Dies st => Ended_by_code st end.
Proof.
  intros Hcode Hcan Hcd Hld Hu Hg Hm Hopts Hin Ht. set (argv := _ :: _).
  assert (js_source canonical = from_utf8_lossy code) as Hsrc.
  { unfold Nodejs.validate_base64 in Hcan. rewrite Hcode in Hcan. injection Hcan as <-.
    unfold js_source. by rewrite buffer_base64_encode. }
  assert (js_entry argv LIB_PATH = Some (node_config_entry config options)) as He.
  { unfold js_entry, argv. cbn [Nodejs.command args drop lookup list_lookup mbind option_bind].
    rewrite Hopts, !parse_int_digits by (unfold i32_max in *; lia). cbn [mbind option_bind]. unfold node_entry. cbn [js_get].
    set (j := JObject _).
    assert (py_get j "privilege" = Some (JBool (privilege config))) as -> by reflexivity.
    assert (py_get j "enable_network" = Some (JBool (network config options))) as -> by reflexivity.
    assert (py_get j "max_as" = Some (JNumber (nodejs_max_as_bytes config))) as -> by reflexivity.
    rewrite koffi_bool_bool, koffi_uint64_range by done.
    rewrite !koffi_int_range by (unfold is_i32, i32_min; lia). rewrite koffi_str_bytes.
    unfold node_config_entry, c_uint32. destruct (privilege config); cbn [mbind option_bind];
      by rewrite !Z.mod_small by (unfold i32_max in *; lia). }
  pose proof (prescript_js_cases world env argv canonical p) as Hc.
  destruct (prescript_js world env argv canonical p) as [f p'].
  destruct Hc as [(dir & e & Hd & He' & _ & -> & ->)|(Hno & _)].
  - injection Hd as <-. change (default LIB_PATH (Some LIB_PATH)) with LIB_PATH in He'. rewrite He in He'. injection He' as <-.
    rewrite Hsrc. split; [|done]. cbn [extend trace]. by rewrite Ht.
  - exfalso. by apply (Hno LIB_PATH (node_config_entry config options)).
Qed.

End Theorems.

(** ** Witnesses *)

Module ChildDemo.

Lemma open_fd_ok (t : gmap Z file) fd : Some (WorkerSpec.Demo.top t + 1) = Some fd -> 0 <= fd /\ t !! fd = None.
Proof.
  intros [= <-]. pose proof (WorkerSpec.Demo.top_ge t). split; [lia|]. apply WorkerSpec.Demo.top_fresh. lia.
Qed.

(** A program that raises an exception; every other text ends normally. *)
Definition failing : bytes := str "1 / 0".

Definition python : Python := {|
  int_str := fun _ => None;
  triple_quoted := Some;
  open_fd := fun t => Some (WorkerSpec.Demo.top t + 1);
  open_fd_fresh := open_fd_ok;
  chdir_ok := fun _ => true;
  dlopen_ok := fun _ => true;
  compiles := fun _ => true;
  run_code := fun src _ => if bool_decide (src = failing) then Throws EException else Normal;
  flush_std := fun _ => Normal;
  print_exc := fun _ => Normal;
  user_hook := fun _ => None;
  script_rest := fun _ _ => None
|}.

Definition config : Config := Runners.Demo.config.
Definition options : RunnerOptions := Runners.Demo.options.

Definition landlock : Landlock := {| restrict_self := fun _ => Some FullyEnforced |}.

#[local] Existing Instance python.
#[local] Existing Instance landlock.
#[local] Instance libc_demo : Libc := libc_x86_64.
#[local] Instance base64_demo : Base64 := Rfc4648.base64.
#[local] Instance py_base64_demo : PyBase64 := Rfc4648.py_base64.
#[local] Instance rng_demo : Rng := Runners.Demo.rng.
#[local] Instance json_demo : SerdeJson := Runners.Demo.json.

(** A reader of JSON that knows the configured paths. *)
Definition py_json : PyJson := {| loads := fun _ => Some (JArray (JString <$> Python.slow_paths config)) |}.

#[local] Existing Instance py_json.

(** The descriptors after [os.fork]: the standard ones, the control socket and
    the two pipes. *)
Definition fds : gmap Z file :=
  {[0 := OtherFile 0; 1 := OtherFile 1; 2 := OtherFile 2; 3 := WorkerFile Sock;
    4 := WorkerFile (RdEnd 0); 5 := WorkerFile (WrEnd 0); 6 := WorkerFile (RdEnd 1); 7 := WorkerFile (WrEnd 1)]}.

Definition start : Process := mkProcess (mkImage fds [[]; str "/usr/lib/python3"] {[str "protocol"; str "json"]} None) [].

Lemma start_fds : child_fds (Some 1024) 5 7 4 6 (im_fds (image start)) (WorkerFile (WrEnd 0)) (WorkerFile (WrEnd 1)).
Proof.
  split; try by vm_compute; eauto.
  - repeat constructor; lia.
  - intros fd f Hf. assert (map_Forall (fun fd (_ : file) => 0 <= fd < 1024) fds) as Hall by (by apply (bool_decide_unpack _); vm_compute).
    by apply Hall in Hf.
Qed.

Definition enc : bytes := b64_encode (xor_stream (generate_key 64) failing).

Definition request : Json := request_json enc (b64_encode (generate_key 64)) (Python.limits config options).

Lemma entered_demo ft env e : all_ok kernel_ok [] (entry_plan env ft e) -> e_paths e <> [] \/ e_privilege e = true ->
  forallb utf8_valid (e_paths e) = true -> entered kernel_ok env ft e.
Proof.
  intros Hall He Hu. split; [|done]. intros Hp. destruct He as [He|]; [|congruence].
  unfold apply_landlock. destruct (e_paths e) as [|q l]; [done|]. cbn in Hu. apply andb_true_iff in Hu as [Hq _].
  rewrite filter_cons_True by done. by rewrite bool_decide_false by done.
Qed.

Lemma python_entered paths : forallb utf8_valid paths = true -> paths <> [] ->
  entered kernel_ok None python3 (config_entry config options paths).
Proof. intros Hu Hne. apply entered_demo; [vm_compute; by repeat split|by left|done]. Qed.

Lemma child_code_sandboxed_witness :
  let '(f, p') := _child_exec kernel_ok None (Some 1024) (str "/pool") LIB_PATH request 5 7 4 6 start in
  (exists e src im, request_entry LIB_PATH request = Some e /\ request_code request = Some src
     /\ trace p' = entry_acts None python3 e ++ [ACode src im]
     /\ (e_privilege e = false -> apply_landlock (Some (e_paths e)) = 0)
     /\ all_ok kernel_ok [] (entry_plan None python3 e)
     /\ im_fds im = {[0 := DevNull; 1 := WorkerFile (WrEnd 0); 2 := WorkerFile (WrEnd 1)]}
     /\ [] ∉ im_path im /\ str "/pool" ∉ im_path im /\ str "protocol" ∉ im_modules im
     /\ forall w, im_self (image start) = Some w -> im_self im = Some (set_recv_buf [] w))
  \/ (no_code (trace p') /\ f = guarded_by (print_exc p') (Exited 1)).
Proof.
  pose proof (child_code_sandboxed kernel_ok None (Some 1024) (str "/pool") LIB_PATH request 5 7 4 6
    (WorkerFile (WrEnd 0)) (WorkerFile (WrEnd 1)) start start_fds eq_refl) as W.
  revert W. destruct (_child_exec _ _ _ _ _ _ _ _ _ _ start) as [f p']. exact (fun W => W).
Defined.

Lemma failing_cooperative : cooperative failing (Throws EException).
Proof. split; try done; intros; by vm_compute. Qed.

Lemma config_fits : fits config (Python.slow_paths config).
Proof.
  split; [by vm_compute..|]. apply (bool_decide_unpack _). by vm_compute.
Qed.

(** The same uncaught exception: exit code 1 from the zygote, 255 from the
    slow path. *)
Lemma python_paths_compared_witness :
  let key := b64_encode (generate_key 64) in
  let '(f, p') := _child_exec kernel_ok None (Some 1024) (str "/pool") LIB_PATH
    (request_json enc key (Python.limits config options)) 5 7 4 6 start in
  let '(fs, ps') := prescript kernel_ok None (drop 1 (args (Python.command (Runners.Demo.host false) config key)))
                      (filled config options [] enc) start in
  (exists im, trace p' = entry_acts None python3 (config_entry config options (Python.fast_paths config)) ++ [ACode failing im])
  /\ (exists im, trace ps' = AChdir LIB_PATH :: entry_acts None python3 (config_entry config options (Python.slow_paths config))
                               ++ [ACode [byte_lf] im; ACode failing im])
  /\ f = Exited 1 /\ fs = Exited 255
  /\ e_paths (config_entry config options (Python.slow_paths config))
     = e_paths (config_entry config options (Python.fast_paths config)) ++ [str "/usr/share/zoneinfo"].
Proof.
  pose proof (python_paths_compared kernel_ok None (Runners.Demo.host false) config options failing enc (Throws EException)
    (Some 1024) (str "/pool") LIB_PATH 5 7 4 6 (WorkerFile (WrEnd 0)) (WorkerFile (WrEnd 1)) start start ltac:(by vm_compute) failing_cooperative config_fits
    (fun _ => eq_refl) (python_entered (Python.fast_paths config) ltac:(by vm_compute) ltac:(by vm_compute))
    (python_entered (Python.slow_paths config) ltac:(by vm_compute) ltac:(by vm_compute)) start_fds eq_refl eq_refl) as W.
  cbv zeta in W |- *. revert W. destruct (_child_exec _ _ _ _ _ _ _ _ _ _ start) as [f p'].
  destruct (prescript _ _ _ _ start) as [fs ps']. intros (Wf & Ws & Wef & Wes & We).
  split; [exact Wf|]. split; [exact Ws|]. split; [exact Wef|]. split; [exact Wes|].
  rewrite We. vm_compute. reflexivity.
Defined.

(** *** Node.js *)

Definition js_options : Json :=
  JObject [field "enable_network" (JBool (network config options));
           field "max_as" (JNumber (nodejs_max_as_bytes config)); field "privilege" (JBool (privilege config))].

Definition parse_js (s : bytes) : option Z := parse_unsigned (2 ^ 53) s.

Lemma parse_js_digits n : 0 <= n < 2 ^ 53 -> parse_js (to_string_unsigned n) = Some n.
Proof. intros Hn. apply parse_to_string. lia. Qed.

Definition node : @Node base64_demo := {|
  node_chdir := fun _ => true;
  node_load := fun _ => true;
  parse_int := parse_js;
  parse_int_digits := parse_js_digits;
  json_parse := fun _ => Some js_options;
  buffer_base64 := Rfc4648.lenient;
  buffer_base64_encode := Rfc4648.lenient_encode;
  koffi_int := fun o => o;
  koffi_int_range := fun z _ => eq_refl;
  koffi_bool := fun o => match o with Some (JBool b) => Some b | _ => None end;
  koffi_bool_bool := fun b => eq_refl;
  koffi_uint64 := fun o => match o with Some (JNumber z) => Some z | _ => None end;
  koffi_uint64_range := fun z _ => eq_refl;
  koffi_str := option_map c_string;
  koffi_str_bytes := fun s => eq_refl;
  run_js := fun _ _ => Normal
|}.

#[local] Existing Instance node.

Lemma node_runs_submitted_witness :
  let '(f, p') := prescript_js kernel_ok None
    (nodejs_path config :: drop 4 (args (Nodejs.command (Runners.Demo.host false) config options))) Runners.Demo.code_b64 start in
  trace p' = AChdir LIB_PATH :: entry_acts None nodejs (node_config_entry config options)
               ++ [ACode (str "print(1 + 2)") (image start)]
  /\ f = Exited 0.
Proof.
  pose proof (node_runs_submitted kernel_ok None (Runners.Demo.host false) config options Runners.Demo.code_b64
    (str "print(1 + 2)") Runners.Demo.code_b64 start ltac:(by vm_compute) ltac:(by vm_compute) eq_refl eq_refl
    ltac:(by vm_compute) ltac:(by vm_compute) ltac:(by vm_compute) eq_refl) as W.
  assert (entered kernel_ok None nodejs (node_config_entry config options)) as Hin.
  { apply entered_demo; [vm_compute; by repeat split|by left|by vm_compute]. }
  specialize (W Hin eq_refl). revert W. destruct (prescript_js _ _ _ _ start) as [f p'].
  replace (from_utf8_lossy (str "print(1 + 2)")) with (str "print(1 + 2)") by (by vm_compute). exact (fun W => W).
Defined.

(** A slow-path script and a Node.js command line in the same process image. *)
Lemma prescripts_code_sandboxed_witness :
  let argv := [str "-"; LIB_PATH; b64_encode (generate_key 64)] in
  let tr := trace (snd (prescript kernel_ok None argv (filled config options [] enc) start)) in
  no_code tr \/ exists dir e codes, argv !! 1%nat = Some dir /\ script_entry (filled config options [] enc) = Some e
    /\ entered kernel_ok None python3 e
    /\ tr = AChdir dir :: entry_acts None python3 e ++ codes /\ Forall (fun a => is_code a = true) codes.
Proof.
  intros argv tr.
  exact (proj1 (prescripts_code_sandboxed kernel_ok None argv (filled config options [] enc) [] start eq_refl)).
Defined.

End ChildDemo.
