(* ===== verification/Pipeline.v ===== *)
(** * Pipeline: from the submitted code to the child that runs it

    The fast Python path as a whole: [run_fast] of services/python.rs encrypts
    the code and calls the zygote manager ([Runners]), whose request text
    ([Zygote.request_json]) travels to the worker ([System]), where a child is
    forked that decrypts and runs it ([Child]).  Any number of such calls run
    concurrently, each with its own code, options and random key.  The theorem
    joins the components' own ones: what the caller gets is the report of a
    child, and if that child runs any code, it is the caller's.  [own_script]
    says the same of the fresh interpreter of the slow path. *)

From S2P Require Import Prelude RustStd Wire Reader Config Crypto Models Seccomp Scripts Runners Manager Zygote Posix Worker WorkerInv WorkerSpec WorkerInput System Child ChildSpec.

Section FastPath.
Context `{Os} `{PyJson} `{PyBase64} `{Python} `{Libc} `{Landlock}.
Context (dumps : Json -> bytes) (config : Config) (max : Z).
Context (rngs : nat -> Rng) (code : nat -> bytes) (options : nat -> RunnerOptions).

(** A running manager whose call returns [r]. *)
Definition returning (r : bytes * bytes * Z) : ZygoteHandle := {| z_is_running := true; z_run := fun _ _ _ => r |}.

(** [run_fast] of call [i], when its call of the manager returns [r]. *)
Definition fast_call (i : nat) (r : bytes * bytes * Z) : option run_outcome :=
  Python.run_fast (H0 := rngs i) (returning r) config (code i) (options i).

(** The text of its request. *)
Definition request_text (i : nat) : bytes :=
  match fast_call i ([], [], 0) with
  | Some (_, [RunZygote c k l]) => dumps (request_json c k l)
  | _ => []
  end.

(** The request of call [i]. *)
Definition call_request (i : nat) : Json :=
  let key := generate_key (H := rngs i) 64 in
  request_json (b64_encode (xor_stream key (code i))) (b64_encode key) (Python.limits config (options i)).

Lemma fast_call_eq i r : exists acts,
  fast_call i r = Some (inl {| stdout := r.1.1; stderr := r.1.2; exit_code := r.2 |}, acts).
Proof.
  unfold fast_call, Python.run_fast. destruct (@encrypt_generated _ _ (rngs i) (code i)) as (enc & Henc & _).
  rewrite Henc. destruct r as [[o e] c]. by eexists.
Qed.

Lemma request_text_eq i : request_text i = dumps (call_request i).
Proof.
  unfold request_text, fast_call, Python.run_fast, call_request.
  destruct (@encrypt_generated _ _ (rngs i) (code i)) as (enc & Henc & -> & _). by rewrite Henc.
Qed.

Lemma call_request_code i src : request_code (call_request i) = Some src -> src = code i.
Proof.
  destruct (@encrypt_generated _ _ (rngs i) (code i)) as (enc & _ & Eenc & _ & Hx).
  unfold request_code, call_request, request_json. rewrite <-Eenc. set (j := JObject _).
  assert (py_get j "code" = Some (JString enc)) as -> by reflexivity.
  assert (py_get j "key" = Some (JString (b64_encode (generate_key (H := rngs i) 64)))) as -> by reflexivity.
  cbn [mbind option_bind py_b64]. rewrite Eenc in Hx |- *. rewrite !py_b64_valid_encode. cbn [mbind option_bind].
  rewrite Hx. cbn. destruct (compiles (code i)); [|done]. by intros [= <-].
Qed.

(** The result [r] of call [i] is the report of one child, forked once and for
    this call, and any code that child runs is this call's, in the sandbox. *)
Definition own_child (s : System) (i : nat) (r : run_result) : Prop :=
  exists id j req ro re extra ended,
    launched (zygote (wrk s)) !! j = Some (id, req) /\ only_launch id j (core (zygote (wrk s)))
    /\ child_report j (zygote (wrk s)) ro re extra ended /\ reported max ro re extra ended r
    /\ forall world env soft_nofile self_dir lib_dir out_w err_w out_r err_r fo fe p,
         child_fds soft_nofile out_w err_w out_r err_r (im_fds (image p)) fo fe -> trace p = [] ->
         let '(_, p') := _child_exec world env soft_nofile self_dir lib_dir req out_w err_w out_r err_r p in
         let entry := config_entry config (options i) (Python.fast_paths config) in
         (entered world env python3 entry /\ exists im, trace p' = entry_acts env python3 entry ++ [ACode (code i) im])
         \/ no_code (trace p').

(** One of the manager's own errors. *)
Definition manager_error (r : run_result) : Prop :=
  r = res_not_running \/ r = res_write_failed \/ r = res_timeout \/ r = res_lost.

Lemma linked_own_child s i r :
  (forall i, loads (dumps (call_request i)) = Some (call_request i)) -> 0 <= max -> fits config (Python.fast_paths config) ->
  linked request_text max s -> calls (mgr s) !! i = Some (PcReturned r) -> manager_error r \/ own_child s i r.
Proof.
  intros Hld Hmax Hfit Hl Hc. unfold manager_error.
  destruct (inv_calls _ _ (lk_mgr _ _ _ Hl) i _ Hc) as [->|[->|[->|(id & b & Hid & Hb & [->|(h & Hh & Ho)])]]]; [by auto 6..|].
  right. destruct (answered_reported request_text max s i r Hmax Hl) as (id' & j & js & ro & re & extra & ended & Hid' & Hjs & Hj & Hon & Hrep & Hres).
  { exists id, b, h. by split_and!. }
  rewrite request_text_eq, Hld in Hjs. injection Hjs as <-.
  exists id', j, (call_request i), ro, re, extra, ended. split_and!; try done.
  intros world env soft_nofile self_dir lib_dir out_w err_w out_r err_r fo fe p Hfds Ht.
  pose proof (child_exec_cases world env soft_nofile self_dir lib_dir (call_request i) _ _ _ _ _ _ p Hfds) as Hcase.
  destruct (_child_exec _ _ _ _ _ _ _ _ _ _ p) as [f p']. rewrite Ht in Hcase.
  destruct Hcase as [(e & src & He & Hent & Hcode & -> & ->)|(_ & (l & Hno & ->) & _)]; [left|by right].
  apply call_request_code in Hcode as ->. unfold call_request in He.
  rewrite request_json_entry in He by done. injection He as <-. split; [done|]. by eexists.
Qed.

(** From the caller to the code and back.  Any number of fast Python runs
    are interleaved with each other, the reader, the socket, the worker and its
    children.  When a run returns, its result is what its call of the manager
    returned, and that is one of the manager's errors, or the report of one
    child, forked once and for this run, with the request this run made: if
    that child runs any code at all, however the kernel and the interpreter
    behave, it is the code submitted to this run, inside the sandbox the
    configuration asks for. *)
Theorem fast_path_end_to_end s i r :
  (forall i, loads (dumps (call_request i)) = Some (call_request i)) -> 65536 <= max ->
  (forall i, len (request_text i) <= _MAX_FRAME_PAYLOAD) -> fits config (Python.fast_paths config) ->
  reachable request_text max s -> issued (mgr s) <= u32_max ->
  calls (mgr s) !! i = Some (PcReturned r) ->
  (exists acts, fast_call i r = Some (inl {| stdout := r.1.1; stderr := r.1.2; exit_code := r.2 |}, acts))
  /\ (r = res_not_running \/ r = res_write_failed \/ r = res_timeout \/ r = res_lost
      \/ exists id j req ro re extra ended,
           launched (zygote (wrk s)) !! j = Some (id, req) /\ only_launch id j (core (zygote (wrk s)))
           /\ child_report j (zygote (wrk s)) ro re extra ended /\ reported max ro re extra ended r
           /\ forall world env soft_nofile self_dir lib_dir out_w err_w out_r err_r fo fe p,
                child_fds soft_nofile out_w err_w out_r err_r (im_fds (image p)) fo fe -> trace p = [] ->
                let '(_, p') := _child_exec world env soft_nofile self_dir lib_dir req out_w err_w out_r err_r p in
                let entry := config_entry config (options i) (Python.fast_paths config) in
                (entered world env python3 entry /\ exists im, trace p' = entry_acts env python3 entry ++ [ACode (code i) im])
                \/ no_code (trace p')).
Proof.
  intros Hld Hmax Hpay Hfit Hr Hi Hc. split; [apply fast_call_eq|].
  pose proof (linked_reachable _ _ s Hmax Hpay Hr Hi) as Hl.
  destruct (linked_own_child s i r Hld ltac:(lia) Hfit Hl Hc) as [[|[|[|]]]|]; auto 6.
Qed.

End FastPath.

(** ** The slow path *)

Section SlowPath.
Context `{PyJson} `{PyBase64} `{SerdeJson} `{Python} `{Libc} `{Landlock} `{Rng} (config : Config).

(** A process given the script of [code], with [checked] as its preload, runs
    nothing, or runs the preload and then nothing but [code], in the sandbox the
    configuration asks for. *)
Definition own_script (options : RunnerOptions) (host : Host) (checked code enc : bytes) : Prop :=
  forall world env p, trace p = [] ->
    let argv := drop 1 (args (Python.command host config (b64_encode (generate_key 64)))) in
    let tr := trace (snd (prescript world env argv (filled config options checked enc) p)) in
    let entry := config_entry config options (Python.slow_paths config) in
    no_code tr
    \/ entered world env python3 entry /\ exists im codes,
         tr = AChdir LIB_PATH :: entry_acts env python3 entry ++ ACode (checked ++ [byte_lf]) im :: codes
         /\ (codes = [] \/ codes = [ACode code im]).

Lemma script_own options host checked code enc :
  encrypt_code code (generate_key 64) = Some enc ->
  fits config (Python.slow_paths config) -> (privilege config = false -> paths_read config) ->
  own_script options host checked code enc.
Proof.
  intros Henc Hfit Hread world env p Ht. cbv zeta.
  destruct (prescript_cases world env (drop 1 (args (Python.command host config (b64_encode (generate_key 64)))))
    (filled config options checked enc) p) as [(dir & key & e & codes & Hr & He & Hin & -> & Hc)|(l & Hl & ->)];
    rewrite Ht; [right|by left].
  rewrite filled_entry in He by done. injection He as <-. split; [done|].
  destruct Hr as (_ & Hdir & _ & _ & k & Hk & _ & Hkey). cbn in Hdir, Hk. injection Hdir as <-. injection Hk as <-.
  cbn in Hkey. rewrite py_b64_valid_encode in Hkey. injection Hkey as <-.
  destruct (encrypt_generated code) as (enc' & Henc' & Eenc & Hdec & _). rewrite Henc in Henc'. injection Henc' as <-.
  eexists. destruct Hc as [->|(data & src & Hdata & Hsrc & ->)]; [exists []; split; [done|by left]|].
  exists [ACode code (script_image (image p))]. cbn in Hdata. rewrite Eenc, py_b64_valid_encode in Hdata. injection Hdata as <-.
  rewrite <-Eenc, Hdec in Hsrc. injection Hsrc as <-. split; [done|by right].
Qed.

End SlowPath.

(** ** Witness *)

Module PipelineDemo.

#[local] Existing Instance ChildDemo.python.
#[local] Existing Instance ChildDemo.landlock.
#[local] Instance libc_demo : Libc := libc_x86_64.
#[local] Instance base64_demo : Base64 := Rfc4648.base64.
#[local] Instance py_base64_demo : PyBase64 := Rfc4648.py_base64.
#[local] Instance os_demo : Os := WorkerSpec.Demo.os 100.

Definition config : Config := Runners.Demo.config.
Definition options (i : nat) : RunnerOptions := Runners.Demo.options.
Definition rngs (i : nat) : Rng := Runners.Demo.rng.

(** Call 0 submits one program, every other call another. *)
Definition code (i : nat) : bytes := match i with O => str "print(1)" | _ => str "1 / 0" end.

(** A text that tells the requests of these calls apart, and its reader. *)
Definition dumps (j : Json) : bytes := match py_get j "code" with Some (JString c) => c | _ => [] end.

Definition requests (i : nat) : Json := call_request config rngs code options i.

#[local] Instance json : PyJson :=
  {| loads := fun bs => Some (if bool_decide (bs = dumps (requests 0)) then requests 0 else requests 1) |}.

Definition text (i : nat) : bytes := request_text dumps config rngs code options i.

Lemma text_read i : loads (dumps (requests i)) = Some (requests i).
Proof. destruct i as [|i]; by vm_compute. Qed.

Lemma text_small i : len (text i) <= _MAX_FRAME_PAYLOAD.
Proof. destruct i as [|i]; by vm_compute. Qed.

Definition written (i : nat) : nat := length (encode (mkFrame MSG_RUN (Z.of_nat (i + 1)) (text i))).

(** Both calls are made; the child of call 0 prints and exits. *)
Definition events : list System.event :=
  [Server (EvInvoke 0) 0; Server (EvInvoke 1) 0; Server (EvCheck 0) 0; Server (EvCheck 1) 0;
   Server (EvFetch 0) 0; Server (EvFetch 1) 0; Server (EvInsert 0) 0; Server (EvInsert 1) 0;
   Server (EvWrite 1 true) (written 1); Server (EvWrite 0 true) (written 0);
   System.Deliver 1000; System.Turn [3] false;
   System.Child (ChildWrite 1 StdOut (str "1")); System.Child (ChildExit 1 0); System.Child (ChildZombie 1);
   System.Turn [7; 9] false; System.Turn [7] false;
   Server (EvFrame (mkFrame MSG_STDOUT 1 (str "1"))) 0; Server (EvFrame (closing 1 0)) 0;
   Server (EvRecv 0) 0; Server (EvRemove 0) 0].

Definition final : System := default (System.start 3 1000) (System.execs text 65536 events (System.start 3 1000)).

Lemma final_reachable : System.reachable text 65536 final.
Proof. exists 3, 1000, events. by vm_compute. Qed.

Lemma fast_config_fits : fits config (Python.fast_paths config).
Proof. split; [by vm_compute..|]. apply (bool_decide_unpack _). by vm_compute. Qed.

Lemma fast_path_end_to_end_witness :
  let r := (str "1", [], 0) in
  calls (mgr final) !! 0%nat = Some (PcReturned r)
  /\ (exists acts, fast_call config rngs code options 0 r
        = Some (inl {| stdout := str "1"; stderr := []; exit_code := 0 |}, acts))
  /\ exists id j req ro re extra ended, launched (zygote (wrk final)) !! j = Some (id, req)
       /\ only_launch id j (core (zygote (wrk final))) /\ child_report j (zygote (wrk final)) ro re extra ended
       /\ reported 65536 ro re extra ended r.
Proof.
  intros r. assert (calls (mgr final) !! 0%nat = Some (PcReturned r)) as Hc by (by vm_compute). split; [exact Hc|].
  destruct (fast_path_end_to_end dumps config 65536 rngs code options final 0 r) as [Hf Hrest].
  - exact text_read.
  - done.
  - exact text_small.
  - exact fast_config_fits.
  - exact final_reachable.
  - by vm_compute.
  - exact Hc.
  - split; [exact Hf|]. destruct Hrest as [E|[E|[E|[E|(id & j & req & ro & re & extra & ended & ? & ? & ? & ? & _)]]]];
      [by vm_compute in E..|]. exists id, j, req, ro, re, extra, ended. by split_and!.
Defined.

End PipelineDemo.
