(* ===== verification/Generations.v ===== *)
(** * Generations: the server's successive zygotes, with everything inside

    The composition of [Restart] with [System]: the global slot and the gate of
    server/src/main.rs, the fast-path requests of services/python.rs and the
    restart tasks, where a manager is no longer a name but the whole of
    [System] (its concurrent calls, its reader, the socket, its worker and that
    worker's children), built by [Zygote.new].  Its [running] flag is the one
    its own reader clears, and a manager lives as long as a handle to it: the
    slot, a request between [get_zygote] and its return, or the task that built
    it.  The last handle dropped runs [Drop], which kills the worker.  Any
    number of generations may be alive side by side. *)

From S2P Require Import Restart Prelude RustStd Wire Reader Config Crypto Models Seccomp Scripts Runners Manager Zygote Posix Worker WorkerInv WorkerSpec WorkerInput System Child ChildSpec Pipeline.

(** ** Data *)

(** A request on the fast path of services/python.rs. *)
Inductive run_state :=
| RunStart                              (* before [get_zygote] *)
| RunGot (z : nat)                      (* holds a handle; before [is_running] *)
| RunFast (z : nat)                     (* in [zygote.run] *)
| RunDead                               (* dropped the handle; before [request_zygote_restart] *)
| RunSlow                               (* the fresh interpreter *)
| RunReturned (z : nat) (r : run_result). (* returned what [zygote.run] returned *)

(** [gens] has every manager ever built; [dropped] those whose last handle is
    gone. *)
Record Fleet := mkFleet {
  slot : option nat;
  gate : bool;
  gens : gmap nat System;
  dropped : gset nat;
  runs : gmap nat run_state;
  restarts : gmap nat task
}.

Definition set_slot (z : option nat) (s : Fleet) : Fleet :=
  mkFleet z (gate s) (gens s) (dropped s) (runs s) (restarts s).
Definition set_gate (b : bool) (s : Fleet) : Fleet :=
  mkFleet (slot s) b (gens s) (dropped s) (runs s) (restarts s).
Definition set_gen (z : nat) (y : System) (s : Fleet) : Fleet :=
  mkFleet (slot s) (gate s) (<[z := y]> (gens s)) (dropped s) (runs s) (restarts s).
Definition set_run (i : nat) (q : run_state) (s : Fleet) : Fleet :=
  mkFleet (slot s) (gate s) (gens s) (dropped s) (<[i := q]> (runs s)) (restarts s).
Definition set_restart (t : nat) (k : task) (s : Fleet) : Fleet :=
  mkFleet (slot s) (gate s) (gens s) (dropped s) (runs s) (<[t := k]> (restarts s)).

(** ** Handles *)

Definition flag (y : System) : bool := running (sh (mgr y)).

(** [ZygoteManager::is_running]. *)
Definition is_running (z : nat) (s : Fleet) : bool :=
  match gens s !! z with Some y => flag y | None => false end.

Definition run_handle (q : run_state) : option nat :=
  match q with RunGot z | RunFast z => Some z | _ => None end.
Definition task_handle (k : task) : option nat := match k with TkSwap z => Some z | _ => None end.

(** No handle to [z] is left. *)
Definition free (z : nat) (s : Fleet) : Prop :=
  slot s <> Some z /\ map_Forall (fun _ q => run_handle q <> Some z) (runs s)
  /\ map_Forall (fun _ k => task_handle k <> Some z) (restarts s).

#[global] Instance free_dec z s : Decision (free z s).
Proof. unfold free. apply _. Defined.

(** [Drop]: the flag is cleared, the reader aborted, the worker killed. *)
Definition kill_gen (y : System) : System :=
  let '(h, alive) := drop_manager (sh (mgr y)) in
  let y := set_mgr (set_sh h (mgr y)) y in
  if alive then y else set_wrk (mkState (Worker.zygote (wrk y)) (Ended (-9))) y.

Definition dispose (z : nat) (s : Fleet) : Fleet :=
  mkFleet (slot s) (gate s) (alter kill_gen z (gens s)) ({[z]} ∪ dropped s) (runs s) (restarts s).

(** A handle to [z] was given up: the last one disposes of the manager. *)
Definition release (z : nat) (s : Fleet) : Fleet := if bool_decide (free z s) then dispose z s else s.

(** ** Steps *)

Inductive event :=
| Arrive (i : nat)
| Get (i : nat)
| Observe (i : nat)
| Return (i : nat)
| Request (i t : nat)
| Probe (t : nat)
| Build (t z : nat) (host : NewHost) (room : Z)
| Swap (t : nat)
| Finish (t : nat)
| Inside (z : nat) (e : System.event).

Section Model.
Context `{Os} `{PyJson} (payload : nat -> bytes) (config : Config) (max_env : option bytes).

(** The output cap, read from the environment by every [new]. *)
Definition cap : Z := max_output_bytes max_env.

(** What [ZygoteManager::new] leaves running; [room] is the worker's socket
    buffer.  The descriptor table does not enter into it. *)
Definition build (host : NewHost) (room : Z) : option System :=
  match (new host max_env (python_path config) (str "./libpython.so") LIB_PATH
           (python_zygote_preload_modules config) (proxy config) ∅).1.1, nh_pair host with
  | inl m, Some (_, worker_fd) => Some (mkSystem (set_sh (shared m) sys_init) (init worker_fd room) [] [] [])
  | _, _ => None
  end.

(** [if zygote.is_running() { .. zygote.run(..) }], else the handle is dropped. *)
Definition observe (i z : nat) (s : Fleet) : option Fleet :=
  y ← gens s !! z;
  if flag y then
    y ← System.exec payload cap (Server (EvInvoke i) 0) y;
    Some (set_run i (RunFast z) (set_gen z y s))
  else Some (release z (set_run i RunDead s)).

(** [zygote.run] has returned: so does the request, dropping its handle. *)
Definition finish (i z : nat) (s : Fleet) : option Fleet :=
  y ← gens s !! z;
  match calls (mgr y) !! i with
  | Some (PcReturned r) => Some (release z (set_run i (RunReturned z r) s))
  | _ => None
  end.

Definition request_restart (t : nat) (s : Fleet) : Fleet :=
  if gate s then s else set_restart t TkStart (set_gate true s).

Definition check (t : nat) (s : Fleet) : Fleet :=
  match slot s with
  | Some z => if is_running z s then set_restart t (TkReturned true) s else set_restart t TkBuild s
  | None => set_restart t TkBuild s
  end.

(** Under the write lock: [new_z] is dropped when a live manager is installed;
    otherwise the slot gives up its handle to the old one. *)
Definition swap (t new_z : nat) (s : Fleet) : Fleet :=
  let installed := set_restart t (TkReturned true) (set_slot (Some new_z) s) in
  match slot s with
  | Some z => if is_running z s then dispose new_z (set_restart t (TkReturned true) s) else release z installed
  | None => installed
  end.

(** Calls are made by requests only. *)
Definition inner (e : System.event) : bool :=
  match e with Server (EvInvoke _) _ => false | _ => true end.

Definition exec (e : event) (s : Fleet) : option Fleet :=
  match e with
  | Arrive i => match runs s !! i with None => Some (set_run i RunStart s) | Some _ => None end
  | Get i =>
    match runs s !! i with
    | Some RunStart => Some (set_run i (match slot s with Some z => RunGot z | None => RunSlow end) s)
    | _ => None
    end
  | Observe i => match runs s !! i with Some (RunGot z) => observe i z s | _ => None end
  | Return i => match runs s !! i with Some (RunFast z) => finish i z s | _ => None end
  | Request i t =>
    match runs s !! i, restarts s !! t with
    | Some RunDead, None => Some (set_run i RunSlow (request_restart t s))
    | _, _ => None
    end
  | Probe t => match restarts s !! t with Some TkStart => Some (check t s) | _ => None end
  | Build t z host room =>
    match restarts s !! t, gens s !! z with
    | Some TkBuild, None =>
      Some (match build host room with
            | Some y => set_restart t (TkSwap z) (set_gen z y s)
            | None => set_restart t (TkReturned false) s
            end)
    | _, _ => None
    end
  | Swap t => match restarts s !! t with Some (TkSwap z) => Some (swap t z s) | _ => None end
  | Finish t =>
    match restarts s !! t with Some (TkReturned _) => Some (set_restart t TkDone (set_gate false s)) | _ => None end
  | Inside z e =>
    if bool_decide (z ∈ dropped s) then None
    else if inner e then y ← gens s !! z; y ← System.exec payload cap e y; Some (set_gen z y s)
    else None
  end.

Fixpoint execs (es : list event) (s : Fleet) : option Fleet :=
  match es with
  | [] => Some s
  | e :: es => exec e s ≫= execs es
  end.

(** The zygote part of [main]. *)
Definition startup (host : NewHost) (room : Z) : Fleet :=
  let s := mkFleet None false ∅ ∅ ∅ ∅ in
  if python_zygote config then
    match build host room with
    | Some y => set_slot (Some 0%nat) (set_gen 0 y s)
    | None => s
    end
  else s.

Definition reachable (s : Fleet) : Prop :=
  exists host room es, execs es (startup host room) = Some s.

End Model.

(** ** Abstraction: the slot, the gate and the flags, as [Restart] has them *)

Definition abs_run (q : run_state) : request :=
  match q with
  | RunStart => RqStart
  | RunGot z => RqGot z
  | RunFast z | RunReturned z _ => RqFast z
  | RunDead => RqDead
  | RunSlow => RqSlow
  end.

Definition abs (s : Fleet) : Restart.State :=
  Restart.mkState (slot s) (gate s) (flag <$> gens s) (abs_run <$> runs s) (restarts s).

(** ** Lemmas: operations under the abstraction *)

Lemma abs_is_running z s : Restart.is_running z (abs s) = is_running z s.
Proof. unfold Restart.is_running, is_running. cbn. rewrite lookup_fmap. by destruct (gens s !! z). Qed.

Lemma abs_set_run i q s : abs (set_run i q s) = Restart.set_request i (abs_run q) (abs s).
Proof. unfold abs, Restart.set_request. cbn. by rewrite fmap_insert. Qed.

Lemma abs_set_gen z y s : abs (set_gen z y s) = Restart.set_running z (flag y) (abs s).
Proof. unfold abs, Restart.set_running. cbn. by rewrite fmap_insert. Qed.

Lemma set_running_same z b s : Restart.running s !! z = Some b -> Restart.set_running z b s = s.
Proof. intros E. destruct s. unfold Restart.set_running. cbn in *. by rewrite insert_id. Qed.

Lemma abs_set_gen_same z y y' s : gens s !! z = Some y -> flag y' = flag y -> abs (set_gen z y' s) = abs s.
Proof. intros Hy E. rewrite abs_set_gen. apply set_running_same. cbn. by rewrite lookup_fmap, Hy, E. Qed.

Lemma abs_dispose z s : is_Some (gens s !! z) -> abs (dispose z s) = Restart.set_running z false (abs s).
Proof.
  intros [y Hy]. unfold abs, dispose, Restart.set_running. cbn. f_equal. apply map_eq. intros z'. rewrite lookup_fmap.
  destruct (decide (z' = z)) as [->|Hne].
  - by rewrite lookup_alter_eq, Hy, lookup_insert_eq.
  - by rewrite lookup_alter_ne, lookup_insert_ne, lookup_fmap.
Qed.

Lemma abs_release z s : (free z s -> is_running z s = false) -> abs (release z s) = abs s.
Proof.
  intros Hd. unfold release. case_bool_decide as Hf; [|done]. specialize (Hd Hf). unfold is_running in Hd.
  destruct (gens s !! z) as [y|] eqn:Hy.
  - rewrite abs_dispose by eauto. apply set_running_same. cbn. by rewrite lookup_fmap, Hy, <-Hd.
  - unfold dispose, abs. cbn. by rewrite alter_id by (intros ?; congruence).
Qed.

(** A manager nobody holds is dead: a live one is installed or about to be. *)
Lemma free_dead z s i q : Restart.inv (abs s) -> free z (set_run i q s) -> is_running z (set_run i q s) = false.
Proof.
  intros Hi (Hs & _ & Ht). unfold is_running. cbn in *. destruct (gens s !! z) as [y|] eqn:Hy; [|done].
  destruct (flag y) eqn:Hf; [|done]. exfalso. destruct (iv_live _ Hi z) as [?|[t E]]; [|done|].
  - cbn. by rewrite lookup_fmap, Hy, <-Hf.
  - by apply (Ht _ _ E).
Qed.

(** ** Lemmas: the flag inside a system *)

Section Flag.
Context `{Os} `{PyJson} (payload : nat -> bytes) (max : Z).

Lemma send_opt_running t r h : running (send_opt t r h) = running h.
Proof. by destruct t. Qed.

Lemma manager_running e m m' : Manager.exec payload max e m = Some m' ->
  running (sh m') = running (sh m) \/ running (sh m') = false.
Proof.
  intros E. destruct e; cbn in E; repeat (case_match; simplify_eq/=; try (by auto));
    unfold do_check, do_frame, apply_frame, Reader.dispatch, fail_one in *;
    repeat (case_match; simplify_eq/=; try (by auto)); rewrite ?send_opt_running; by auto.
Qed.

(** Only an invocation makes a call. *)
Lemma manager_absent e m m' i : (forall j, e <> EvInvoke j) -> Manager.exec payload max e m = Some m' ->
  calls m !! i = None -> calls m' !! i = None.
Proof.
  intros He E Hi. destruct e; try (by destruct (He i0)); cbn in E; repeat (case_match; simplify_eq/=; try done);
    unfold do_check, do_frame in *; repeat (case_match; simplify_eq/=; try done); apply lookup_insert_None; split; congruence.
Qed.

Lemma system_manager e y y' : System.exec payload max e y = Some y' ->
  mgr y' = mgr y \/ exists me n, e = Server me n /\ Manager.exec payload max me (mgr y) = Some (mgr y').
Proof.
  intros E. destruct e as [me n|n|rd wr|m|c]; cbn [System.exec] in E.
  - case_bool_decide; [|done]. destruct (Manager.exec payload max me (mgr y)) as [m|] eqn:Hm; [|done]. cbn in E.
    right. exists me, n. split; [done|]. unfold push in E. repeat (case_match; simplify_eq/=; try done).
  - destruct (Worker.exec _ _); simplify_eq/=. by left.
  - destruct (Worker.exec _ _); simplify_eq/=. by left.
  - destruct (child_move m); [|done]. destruct (Worker.exec _ _); simplify_eq/=. by left.
  - simplify_eq. by left.
Qed.

Lemma system_flag e y y' : System.exec payload max e y = Some y' -> flag y' = flag y \/ flag y' = false.
Proof.
  intros [E|(me & n & _ & E)]%system_manager; [left; unfold flag; by rewrite E|]. by eapply manager_running.
Qed.

Lemma invoke_mgr i y y' : System.exec payload max (Server (EvInvoke i) 0) y = Some y' ->
  calls (mgr y) !! i = None /\ mgr y' = set_call i PcStart (mgr y).
Proof. cbn [System.exec allowed]. rewrite bool_decide_true by done. cbn. intros E. repeat (case_match; simplify_eq/=; try done). Qed.

End Flag.

(** ** Lemmas: every step is a step of [Restart], or none *)

Section Simulation.
Context `{Os} `{PyJson} (payload : nat -> bytes) (config : Config) (max_env : option bytes).

Lemma abs_run_at i s q : runs s !! i = Some q -> Restart.requests (abs s) !! i = Some (abs_run q).
Proof. intros E. cbn. by rewrite lookup_fmap, E. Qed.

Lemma build_start host room y : build config max_env host room = Some y -> exists fd, y = start fd room.
Proof.
  unfold build, new. destruct (socketpair _ _) as [[[a b]|] ?] eqn:Ep; [|done].
  destruct (nh_pair host) as [[a' b']|]; [|by intros; repeat case_match].
  destruct (nh_spawn host _), (nh_nonblocking host), (nh_from_std host); cbn [negb fst]; intros E; simplify_eq. by exists b'.
Qed.

Lemma observe_sim i z s s' : Restart.inv (abs s) -> runs s !! i = Some (RunGot z) -> observe payload max_env i z s = Some s' ->
  Restart.execs [EvObserve i] (abs s) = Some (abs s').
Proof.
  intros Hi Hq Hx. cbn. rewrite lookup_fmap, Hq. cbn. rewrite abs_is_running. unfold observe, is_running in *.
  destruct (gens s !! z) as [y|] eqn:Hy; [|done]. cbn [mbind option_bind] in Hx. destruct (flag y) eqn:Hf.
  - destruct (System.exec payload (cap max_env) (Server (EvInvoke i) 0) y) as [y'|] eqn:Ey; [|done]. injection Hx as <-. apply invoke_mgr in Ey as [_ Em].
    rewrite abs_set_run, (abs_set_gen_same z y); [done..|]. unfold flag. by rewrite Em.
  - simplify_eq. rewrite abs_release; [by rewrite abs_set_run|]. by apply free_dead.
Qed.

Lemma swap_sim t z s : Restart.inv (abs s) -> restarts s !! t = Some (TkSwap z) ->
  Restart.execs [EvSwap t] (abs s) = Some (abs (swap t z s)).
Proof.
  intros Hi Ht. cbn. rewrite Ht. f_equal. unfold restart_swap, swap. cbn. destruct (slot s) as [z0|] eqn:Es; [|done].
  rewrite abs_is_running. destruct (is_running z0 s) eqn:Hr.
  - rewrite abs_dispose; [done|]. destruct (iv_swap _ Hi _ _ Ht) as [Hz _]. cbn in Hz |- *.
    rewrite lookup_fmap in Hz. by apply fmap_is_Some in Hz.
  - by rewrite abs_release by done.
Qed.

(** The abstract steps of a step: one, or none. *)
Lemma generations_step e s s' : Restart.inv (abs s) -> exec payload config max_env e s = Some s' ->
  exists es, Restart.execs es (abs s) = Some (abs s').
Proof.
  intros Hi Hx. destruct e as [i|i|i|i|i t|t|t z host room|t|t|z e]; cbn [exec] in Hx.
  - exists [EvArrive i]. destruct (runs s !! i) eqn:E; simplify_eq. cbn. by rewrite lookup_fmap, E, abs_set_run.
  - exists [EvGet i]. destruct (runs s !! i) as [[]|] eqn:E; simplify_eq. cbn. rewrite lookup_fmap, E, abs_set_run. cbn.
    unfold get_zygote. cbn. by destruct (slot s).
  - exists [EvObserve i]. destruct (runs s !! i) as [[]|] eqn:E; try done. by eapply observe_sim.
  - exists []. destruct (runs s !! i) as [[| |z| | |]|] eqn:E; try done. unfold finish in Hx.
    destruct (gens s !! z) as [y|]; [|done]. cbn in Hx. repeat (case_match; try done). simplify_eq. cbn.
    rewrite abs_release by (by apply free_dead). rewrite abs_set_run. f_equal. unfold Restart.set_request, abs. cbn.
    by rewrite insert_id by (by rewrite lookup_fmap, E).
  - exists [EvRequest i t]. destruct (runs s !! i) as [[]|] eqn:E; try done. destruct (restarts s !! t) eqn:Et; simplify_eq.
    cbn. rewrite lookup_fmap, E, Et, abs_set_run. cbn. do 2 f_equal.
    unfold request_restart, request_zygote_restart, try_begin_restart. cbn. by destruct (gate s).
  - exists [Restart.EvCheck t]. destruct (restarts s !! t) as [[]|] eqn:Et; simplify_eq. cbn. rewrite Et. f_equal.
    unfold restart_check, check, get_zygote. cbn. destruct (slot s) as [z|]; [|done]. rewrite abs_is_running. by case_match.
  - destruct (restarts s !! t) as [[]|] eqn:Et; try done. destruct (gens s !! z) eqn:Ez; [done|]. simplify_eq.
    destruct (build config max_env host room) as [y|] eqn:Ey.
    + exists [EvBuild t (Some z)]. cbn. rewrite Et. cbn. rewrite bool_decide_true by (by rewrite lookup_fmap, Ez).
      unfold restart_build. f_equal. destruct (build_start _ _ _ Ey) as [fd ->].
      change (abs (set_restart t (TkSwap z) (set_gen z (start fd room) s)))
        with (Restart.set_task t (TkSwap z) (abs (set_gen z (start fd room) s))). by rewrite abs_set_gen.
    + exists [EvBuild t None]. cbn. by rewrite Et.
  - exists [EvSwap t]. destruct (restarts s !! t) as [[]|] eqn:Et; simplify_eq. by apply swap_sim.
  - exists [EvEnd t]. destruct (restarts s !! t) as [[]|] eqn:Et; simplify_eq. cbn. by rewrite Et.
  - repeat (case_match; try done). destruct (gens s !! z) as [y|] eqn:Ey; [|done]. cbn [mbind option_bind] in Hx.
    destruct (System.exec payload (cap max_env) e y) as [y'|] eqn:Ex; [|done]. injection Hx as <-. apply system_flag in Ex.
    destruct (decide (flag y' = flag y)) as [E|Hne]; [exists []; by rewrite (abs_set_gen_same z y)|].
    exists [EvDie z]. destruct (flag y) eqn:Hf, Ex; try congruence. cbn. rewrite lookup_fmap, Ey. cbn. rewrite Hf, abs_set_gen.
    by repeat f_equal.
Qed.

End Simulation.

(** ** Lemmas: handles *)

Lemma free_set_run z i q q0 s : runs s !! i = q0 -> (q0 ≫= run_handle) <> Some z -> run_handle q <> Some z ->
  free z (set_run i q s) <-> free z s.
Proof.
  intros Hq Hq0 Hz. unfold free. cbn. split; intros (Hs & Hr & Ht); split_and!; try done.
  - intros j q' Hj. destruct (decide (j = i)) as [->|Hne]; [intros E; apply Hq0; by rewrite <-Hq, Hj|].
    apply (Hr j). by rewrite lookup_insert_ne.
  - intros j q' [[_ <-]|[_ Hj]]%lookup_insert_Some; [done|by apply (Hr j)].
Qed.

Lemma free_set_restart z t k k0 s : restarts s !! t = k0 -> (k0 ≫= task_handle) <> Some z -> task_handle k <> Some z ->
  free z (set_restart t k s) <-> free z s.
Proof.
  intros Hk Hk0 Hz. unfold free. cbn. split; intros (Hs & Hr & Ht); split_and!; try done.
  - intros j k' Hj. destruct (decide (j = t)) as [->|Hne]; [intros E; apply Hk0; by rewrite <-Hk, Hj|].
    apply (Ht j). by rewrite lookup_insert_ne.
  - intros j k' [[_ <-]|[_ Hj]]%lookup_insert_Some; [done|by apply (Ht j)].
Qed.

(** Dropped are exactly the managers nobody holds. *)
Definition tidy_at (z : nat) (s : Fleet) : Prop := z ∈ dropped s <-> is_Some (gens s !! z) /\ free z s.
Definition tidy (s : Fleet) : Prop := forall z, tidy_at z s.

(** So it is, but perhaps for the handle to [z] just given up. *)
Definition tidy_except (z : nat) (s : Fleet) : Prop :=
  (forall z', z' <> z -> tidy_at z' s) /\ is_Some (gens s !! z) /\ z ∉ dropped s.

Lemma tidy_release z s : tidy_except z s -> tidy (release z s).
Proof.
  intros (Ht & Hz & Hd) z'. unfold release. case_bool_decide as Hf.
  - destruct (decide (z' = z)) as [->|Hne].
    + unfold tidy_at, dispose. cbn. split; [intros _|set_solver]. split; [|done]. rewrite lookup_alter_eq. by apply fmap_is_Some.
    + specialize (Ht z' Hne). unfold tidy_at, dispose in *. cbn. rewrite lookup_alter_ne by done.
      rewrite elem_of_union, elem_of_singleton. unfold free in *. cbn in *. tauto.
  - destruct (decide (z' = z)) as [->|Hne]; [|by apply Ht]. unfold tidy_at. tauto.
Qed.

Lemma tidy_set_run i q s : tidy s -> (runs s !! i ≫= run_handle) = run_handle q \/ (exists z, slot s = Some z /\ run_handle q = Some z /\ (runs s !! i ≫= run_handle) = None) ->
  tidy (set_run i q s).
Proof.
  intros Ht Hq z. specialize (Ht z). unfold tidy_at in *. cbn. rewrite Ht.
  destruct (decide (run_handle q = Some z)) as [Hz|Hz].
  - assert (~ free z (set_run i q s)) as Hn.
    { intros (_ & Hr & _). eapply (Hr i q); [cbn; apply lookup_insert_eq|done]. }
    destruct Hq as [Hq|(z' & Hs & Hz' & _)]; [|assert (z' = z) as -> by congruence; unfold free in *; tauto].
    assert (~ free z s) as Hn'; [|tauto]. intros (_ & Hr & _). rewrite Hz in Hq. destruct (runs s !! i) as [q0|] eqn:E; [|done].
    by apply (Hr i q0).
  - rewrite free_set_run; [done..| |done]. destruct Hq as [->|(z' & _ & _ & ->)]; congruence.
Qed.

Lemma tidy_drop_run i q q0 z s : tidy s -> runs s !! i = Some q0 -> run_handle q0 = Some z -> run_handle q = None ->
  is_Some (gens s !! z) -> tidy_except z (set_run i q s).
Proof.
  intros Ht Hi Hz Hq Hy. split; [|split; [done|]].
  - intros z' Hne. specialize (Ht z'). unfold tidy_at in *. cbn. rewrite Ht, free_set_run; [done|done|cbn; congruence|congruence].
  - cbn. intros Hd%Ht. destruct Hd as (_ & _ & Hr & _). by apply (Hr i q0).
Qed.

Lemma tidy_set_restart t k s : tidy s -> (restarts s !! t ≫= task_handle) = None -> task_handle k = None -> tidy (set_restart t k s).
Proof.
  intros Ht Hk0 Hk z. specialize (Ht z). unfold tidy_at in *. cbn. rewrite Ht, free_set_restart; [done|done|congruence..].
Qed.

(** The manager a call of [set_gen] replaces was there. *)
Lemma tidy_set_gen z y y' s : tidy s -> gens s !! z = Some y -> tidy (set_gen z y' s).
Proof.
  intros Ht Hy z'. specialize (Ht z'). unfold tidy_at in *. cbn. destruct (decide (z' = z)) as [->|Hne].
  - rewrite lookup_insert_eq, Ht, Hy. unfold free. cbn. split; intros [_ ?]; eauto.
  - by rewrite lookup_insert_ne.
Qed.

Lemma tidy_build t z y s : tidy s -> gens s !! z = None -> (restarts s !! t ≫= task_handle) = None ->
  tidy (set_restart t (TkSwap z) (set_gen z y s)).
Proof.
  intros Ht Hz Hk z'. specialize (Ht z'). unfold tidy_at in *. cbn. destruct (decide (z' = z)) as [->|Hne].
  - rewrite Ht, Hz. split; [intros [[] _]; done|]. intros (_ & _ & _ & Hr). exfalso.
    eapply (Hr t (TkSwap z)); [cbn; apply lookup_insert_eq|done].
  - rewrite lookup_insert_ne by done. rewrite Ht, (free_set_restart z' t _ _ (set_gen z y s) eq_refl); [done| |].
    + change ((restarts s !! t ≫= task_handle) <> Some z'). congruence.
    + cbn. congruence.
Qed.

Lemma tidy_swap_dead t z z0 s : tidy s -> restarts s !! t = Some (TkSwap z) -> slot s = Some z0 -> z <> z0 ->
  is_Some (gens s !! z0) -> tidy_except z0 (set_restart t (TkReturned true) (set_slot (Some z) s)).
Proof.
  intros Ht Hk Hs Hne Hz0. split; [|split; [done|]].
  - intros z' Hz'. specialize (Ht z'). unfold tidy_at in *. cbn. rewrite Ht. destruct (decide (z' = z)) as [->|Hzz].
    + split; intros [_ (Hsl & _ & Hr)]; exfalso; [by eapply (Hr t)|done].
    + rewrite (free_set_restart z' t _ _ (set_slot (Some z) s) Hk); [|cbn; congruence|done].
      unfold free. cbn. split; intros (? & ? & ? & ?); split_and!; congruence || done.
  - cbn. intros [_ [Hd _]]%Ht. done.
Qed.

Lemma tidy_swap_live t z s : tidy s -> restarts s !! t = Some (TkSwap z) -> is_Some (gens s !! z) ->
  tidy_except z (set_restart t (TkReturned true) s).
Proof.
  intros Ht Hk Hz. split; [|split; [done|]].
  - intros z' Hne. specialize (Ht z'). unfold tidy_at in *. cbn. rewrite Ht, (free_set_restart z' t _ _ s Hk); [done|cbn; congruence|done].
  - cbn. intros [_ (_ & _ & Hr)]%Ht. by eapply (Hr t).
Qed.

(** ** Invariant *)

Section Invariant.
Context `{Os} `{PyJson} (payload : nat -> bytes) (config : Config) (max_env : option bytes).

Abbreviation sys_reachable := (System.reachable payload (cap max_env)).

(** A manager is in a state of its own history, or was dropped in one. *)
Definition lived (gone : bool) (y : System) : Prop :=
  exists y0, sys_reachable y0 /\ y = if gone then kill_gen y0 else y0.

(** Call [i] of manager [z] is that of request [i], in progress or returned. *)
Definition belongs (z i : nat) (p : pc) (s : Fleet) : Prop :=
  runs s !! i = Some (RunFast z) \/ exists r, p = PcReturned r /\ runs s !! i = Some (RunReturned z r).

Record core (s : Fleet) : Prop := {
  co_lived : forall z y, gens s !! z = Some y -> lived (bool_decide (z ∈ dropped s)) y;
  co_calls : forall z y i p, gens s !! z = Some y -> calls (mgr y) !! i = Some p -> belongs z i p s;
  co_fast : forall i z, runs s !! i = Some (RunFast z) ->
    exists y p, gens s !! z = Some y /\ calls (mgr y) !! i = Some p;
  co_returned : forall i z r, runs s !! i = Some (RunReturned z r) ->
    exists y, gens s !! z = Some y /\ calls (mgr y) !! i = Some (PcReturned r);
  co_known : forall i q z, runs s !! i = Some q -> run_handle q = Some z -> is_Some (gens s !! z);
  (** a manager not yet installed is the building task's alone *)
  co_unshared : forall t z i q, restarts s !! t = Some (TkSwap z) -> runs s !! i = Some q -> run_handle q <> Some z
}.

(** ** Lemmas: preservation *)

(** Requests outside [zygote.run]. *)
Definition outside (q : run_state) : Prop :=
  match q with RunFast _ | RunReturned _ _ => False | _ => True end.

Lemma belongs_set_run z i p j q s : belongs z i p s ->
  (forall q0, runs s !! j = Some q0 -> outside q0) -> belongs z i p (set_run j q s).
Proof.
  intros Hb Hq0. assert (i <> j) as Hne.
  { intros ->. destruct Hb as [E|(r & _ & E)]; by apply Hq0 in E. }
  unfold belongs. cbn. by rewrite lookup_insert_ne.
Qed.

Lemma core_set_run i q s : core s -> (forall q0, runs s !! i = Some q0 -> outside q0) -> outside q ->
  (forall z, run_handle q = Some z -> is_Some (gens s !! z) /\ forall t, restarts s !! t <> Some (TkSwap z)) ->
  core (set_run i q s).
Proof.
  intros [Hl Hc Hf Hr Hk Hu] Hq0 Hq Hh. split; cbn; try done.
  - intros z y j p Hy Hp. eapply belongs_set_run; eauto.
  - intros j z [[_ ->]|[_ E]]%lookup_insert_Some; [done|eauto].
  - intros j z r [[_ ->]|[_ E]]%lookup_insert_Some; [done|eauto].
  - intros j q' z [[_ <-]|[_ E]]%lookup_insert_Some Hz; [by apply Hh|eauto].
  - intros t z j q' Ht [[_ <-]|[_ E]]%lookup_insert_Some Hz; [|by eapply Hu]. by destruct (Hh z Hz) as [_ Hn]; apply (Hn t).
Qed.

Lemma core_release z s : core s -> z ∉ dropped s -> core (release z s).
Proof.
  intros [Hl Hc Hf Hr Hk Hu] Hd. unfold release. case_bool_decide; [|done].
  assert (forall z' y', alter kill_gen z (gens s) !! z' = Some y' ->
    exists y, gens s !! z' = Some y /\ calls (mgr y') = calls (mgr y) /\ y' = if decide (z' = z) then kill_gen y else y) as Hback.
  { intros z' y' E. case_decide as Ez; [subst z'; rewrite lookup_alter_eq in E|rewrite lookup_alter_ne in E by done; by exists y'].
    destruct (gens s !! z) as [y|]; simplify_eq/=. by exists y. }
  assert (forall z' y, gens s !! z' = Some y ->
    exists y', alter kill_gen z (gens s) !! z' = Some y' /\ calls (mgr y') = calls (mgr y)) as Hforth.
  { intros z' y E. destruct (decide (z' = z)) as [->|Hne].
    - exists (kill_gen y). by rewrite lookup_alter_eq, E.
    - exists y. by rewrite lookup_alter_ne. }
  split; cbn; try done.
  - intros z' y' (y & Hy & _ & ->)%Hback. destruct (Hl z' y Hy) as (y0 & Hy0 & Ey). exists y0. split; [done|].
    destruct (decide (z' = z)) as [->|Hne].
    + rewrite bool_decide_false in Ey by done. rewrite bool_decide_true by set_solver. by rewrite Ey.
    + rewrite Ey. by rewrite (bool_decide_ext (z' ∈ {[z]} ∪ dropped s) (z' ∈ dropped s)) by set_solver.
  - intros z' y' i p (y & Hy & -> & _)%Hback Hp. eauto.
  - intros i z' E. destruct (Hf i z' E) as (y & p & Hy & Hp). destruct (Hforth z' y Hy) as (y' & Hy' & E'). exists y', p. by rewrite E'.
  - intros i z' r E. destruct (Hr i z' r E) as (y & Hy & Hp). destruct (Hforth z' y Hy) as (y' & Hy' & E'). exists y'. by rewrite E'.
  - intros i q z' Hq Hz. destruct (Hk i q z' Hq Hz) as [y Hy]. destruct (Hforth z' y Hy) as (y' & Hy' & _). eauto.
Qed.

Lemma core_invoke i z y y' s : core s -> gens s !! z = Some y -> z ∉ dropped s -> runs s !! i = Some (RunGot z) ->
  System.exec payload (cap max_env) (Server (EvInvoke i) 0) y = Some y' ->
  core (set_run i (RunFast z) (set_gen z y' s)).
Proof.
  intros [Hl Hc Hf Hr Hk Hu] Hy Hd Hi Hx. destruct (invoke_mgr _ _ _ _ _ Hx) as [Hn Em].
  assert (forall j z' y1 p, gens s !! z' = Some y1 -> calls (mgr y1) !! j = Some p ->
    exists y2, <[z := y']> (gens s) !! z' = Some y2 /\ calls (mgr y2) !! j = Some p) as Hforth.
  { intros j z' y1 p E Ep. destruct (decide (z' = z)) as [->|Hne]; [|exists y1; by rewrite lookup_insert_ne].
    exists y'. rewrite lookup_insert_eq, Em. simplify_eq. split; [done|]. cbn. rewrite lookup_insert_ne; [done|]. congruence. }
  split; cbn.
  - intros z' y1 [[<- <-]|[Hne E]]%lookup_insert_Some; [|eauto]. rewrite bool_decide_false by done. exists y'. split; [|done].
    destruct (Hl z y Hy) as (y0 & Hy0 & Ey). rewrite bool_decide_false in Ey by done. subst y0.
    eapply (System.reachable_execs _ _ [_] y); [done|]. cbn [System.execs]. by rewrite Hx.
  - intros z' y1 j p [[<- <-]|[Hne E]]%lookup_insert_Some Hp.
    + rewrite Em in Hp. cbn in Hp. apply lookup_insert_Some in Hp as [[<- <-]|[Hij Hp]]; [left; cbn; apply lookup_insert_eq|].
      eapply (belongs_set_run z j p i _ (set_gen z y' s)); [by apply (Hc z y)|]. cbn. intros q0. rewrite Hi. by intros [= <-].
    + eapply (belongs_set_run z' j p i _ (set_gen z y' s)); [by apply (Hc z' y1)|]. cbn. intros q0. rewrite Hi. by intros [= <-].
  - intros j z' [[<- E]|[Hne E]]%lookup_insert_Some.
    + simplify_eq. exists y', PcStart. rewrite lookup_insert_eq, Em. cbn. by rewrite lookup_insert_eq.
    + destruct (Hf j z' E) as (y1 & p & Hy1 & Hp). destruct (Hforth j z' y1 p Hy1 Hp) as (y2 & ? & ?). eauto.
  - intros j z' r [[_ E]|[Hne E]]%lookup_insert_Some; [done|].
    destruct (Hr j z' r E) as (y1 & Hy1 & Hp). destruct (Hforth j z' y1 _ Hy1 Hp) as (y2 & ? & ?). eauto.
  - intros j q z' [[_ <-]|[_ E]]%lookup_insert_Some Hz; apply lookup_insert_is_Some'; [injection Hz as <-; by left|right; eauto].
  - intros t z' j q Ht [[_ <-]|[_ E]]%lookup_insert_Some; [|by eapply Hu]. by apply (Hu t z' i (RunGot z) Ht Hi).
Qed.

Lemma core_return i z y r s : core s -> gens s !! z = Some y -> runs s !! i = Some (RunFast z) ->
  calls (mgr y) !! i = Some (PcReturned r) -> core (set_run i (RunReturned z r) s).
Proof.
  intros [Hl Hc Hf Hr Hk Hu] Hy Hi Hp. split; cbn; try done.
  - intros z' y' j p Hy' Hp'. destruct (decide (j = i)) as [->|Hne].
    + destruct (Hc z' y' i p Hy' Hp') as [E|(r' & _ & E)]; [|congruence]. assert (z' = z) as -> by congruence.
      right. exists r. cbn. rewrite lookup_insert_eq. split; [congruence|done].
    + unfold belongs. cbn. rewrite lookup_insert_ne by done. by eapply Hc.
  - intros j z' [[_ E]|[_ E]]%lookup_insert_Some; [done|eauto].
  - intros j z' r' [[<- E]|[_ E]]%lookup_insert_Some; [|eauto]. simplify_eq. eauto.
  - intros j q z' [[_ <-]|[_ E]]%lookup_insert_Some Hz; [done|eauto].
  - intros t z' j q Ht [[_ <-]|[_ E]]%lookup_insert_Some; [done|by eapply Hu].
Qed.

(** What happens inside a manager leaves its calls those of the same requests. *)
Lemma inner_calls e y y' i : inner e = true -> System.exec payload (cap max_env) e y = Some y' ->
  match calls (mgr y) !! i with
  | None => calls (mgr y') !! i = None
  | Some p => exists p', calls (mgr y') !! i = Some p' /\ (is_returned p -> p' = p)
  end.
Proof.
  intros Hin [->|(me & n & -> & Hm)]%system_manager; [destruct (calls (mgr y) !! i); eauto|].
  destruct (calls (mgr y) !! i) as [p|] eqn:Hp.
  - destruct (exec_rank _ _ _ _ _ _ _ Hm Hp) as (p' & Hp' & _ & Hlt & Heq). exists p'. split; [done|].
    intros Hr. apply Heq. intros E%Hlt. destruct p; try done. cbn in E. lia.
  - eapply manager_absent; [|done..]. by destruct me.
Qed.

Lemma core_inner e z y y' s : core s -> gens s !! z = Some y -> z ∉ dropped s -> inner e = true ->
  System.exec payload (cap max_env) e y = Some y' -> core (set_gen z y' s).
Proof.
  intros [Hl Hc Hf Hr Hk Hu] Hy Hd Hin Hx. pose proof (fun i => inner_calls e y y' i Hin Hx) as Hcall.
  split; cbn; try done.
  - intros z' y1 [[<- <-]|[Hne E]]%lookup_insert_Some; [|eauto]. rewrite bool_decide_false by done. exists y'. split; [|done].
    destruct (Hl z y Hy) as (y0 & Hy0 & Ey). rewrite bool_decide_false in Ey by done. subst y0.
    eapply (System.reachable_execs _ _ [_] y); [done|]. cbn [System.execs]. by rewrite Hx.
  - intros z' y1 i p [[<- <-]|[Hne E]]%lookup_insert_Some Hp; [|by eapply Hc]. specialize (Hcall i).
    destruct (calls (mgr y) !! i) as [p0|] eqn:Hp0; [|congruence]. destruct Hcall as (p' & Hp' & Hret).
    destruct (Hc z y i p0 Hy Hp0) as [|(r & -> & ?)]; [by left|right]. exists r. split; [|done].
    rewrite Hret in Hp' by done. congruence.
  - intros i z' E. destruct (Hf i z' E) as (y1 & p & Hy1 & Hp). destruct (decide (z' = z)) as [->|Hne].
    + assert (y1 = y) as -> by congruence. specialize (Hcall i). rewrite Hp in Hcall. destruct Hcall as (p' & Hp' & _).
      exists y', p'. by rewrite lookup_insert_eq.
    + exists y1, p. by rewrite lookup_insert_ne.
  - intros i z' r E. destruct (Hr i z' r E) as (y1 & Hy1 & Hp). destruct (decide (z' = z)) as [->|Hne].
    + assert (y1 = y) as -> by congruence. specialize (Hcall i). rewrite Hp in Hcall. destruct Hcall as (p' & Hp' & Hret).
      exists y'. rewrite lookup_insert_eq. rewrite Hret in Hp' by done. done.
    + exists y1. by rewrite lookup_insert_ne.
  - intros i q z' Hq Hz. apply lookup_insert_is_Some'. eauto.
Qed.

(** Steps of a task that hand over no manager. *)
Lemma core_same s s' : core s -> gens s' = gens s -> dropped s' = dropped s -> runs s' = runs s ->
  (forall t z, restarts s' !! t = Some (TkSwap z) -> exists t', restarts s !! t' = Some (TkSwap z)) -> core s'.
Proof.
  intros [Hl Hc Hf Hr Hk Hu] Eg Ed Er Ht. split; rewrite ?Eg, ?Ed, ?Er; try done.
  - intros z y i p Hy Hp. unfold belongs. rewrite Er. by eapply Hc.
  - intros t z i q Hz. destruct (Ht t z Hz) as [t' Hz']. by eapply Hu.
Qed.

Lemma core_set_restart t k s : core s -> task_handle k = None -> core (set_restart t k s).
Proof. intros Hco Hk. apply (core_same s); try done. cbn. intros t' z [[_ ->]|[_ E]]%lookup_insert_Some; [done|eauto]. Qed.

Lemma core_build t z fd room s : core s -> gens s !! z = None -> z ∉ dropped s ->
  core (set_restart t (TkSwap z) (set_gen z (start fd room) s)).
Proof.
  intros [Hl Hc Hf Hr Hk Hu] Hz Hd.
  assert (forall z' y, gens s !! z' = Some y -> <[z := start fd room]> (gens s) !! z' = Some y) as Hforth.
  { intros z' y E. rewrite lookup_insert_ne; [done|]. congruence. }
  split; cbn.
  - intros z' y [[<- <-]|[Hne E]]%lookup_insert_Some; [|eauto]. rewrite bool_decide_false by done.
    exists (start fd room). split; [|done]. by exists fd, room, [].
  - intros z' y i p [[<- <-]|[Hne E]]%lookup_insert_Some Hp; [done|by eapply Hc].
  - intros i z' E. destruct (Hf i z' E) as (y & p & Hy & Hp). eauto.
  - intros i z' r E. destruct (Hr i z' r E) as (y & Hy & Hp). eauto.
  - intros i q z' Hq Hz'. apply lookup_insert_is_Some'. eauto.
  - intros t' z' i q [[_ E]|[_ E]]%lookup_insert_Some Hq; [|by eapply Hu]. injection E as <-.
    intros Hz'. destruct (Hk i q z Hq Hz') as [y Hy]. congruence.
Qed.

Record wf (s : Fleet) : Prop := {
  wf_restart : Restart.inv (abs s);
  wf_core : core s;
  wf_tidy : tidy s
}.

Lemma held_kept z s i q : tidy s -> runs s !! i = Some q -> run_handle q = Some z -> z ∉ dropped s.
Proof. intros Ht Hi Hq [_ (_ & Hr & _)]%Ht. by apply (Hr i q). Qed.

Lemma slot_known s z : Restart.inv (abs s) -> slot s = Some z -> is_Some (gens s !! z).
Proof. intros Hi Hs. pose proof (iv_known _ Hi z Hs) as Hk. cbn in Hk. by rewrite lookup_fmap, fmap_is_Some in Hk. Qed.

Lemma wf_observe i z s s' : Restart.inv (abs s) -> core s -> tidy s -> runs s !! i = Some (RunGot z) ->
  observe payload max_env i z s = Some s' -> core s' /\ tidy s'.
Proof.
  intros Hi Hc Ht Hq Hx. unfold observe in Hx. destruct (gens s !! z) as [y|] eqn:Hy; [|done]. cbn [mbind option_bind] in Hx.
  pose proof (held_kept z s i _ Ht Hq eq_refl) as Hd. destruct (flag y).
  - destruct (System.exec payload (cap max_env) (Server (EvInvoke i) 0) y) as [y'|] eqn:Ey; [|done]. injection Hx as <-.
    split; [by eapply core_invoke|]. apply tidy_set_run; [by eapply tidy_set_gen|]. left. cbn. by rewrite Hq.
  - injection Hx as <-. split.
    + apply core_release; [|done]. apply core_set_run; [done| |done|done]. intros q0. rewrite Hq. by intros [= <-].
    + apply tidy_release. eapply tidy_drop_run; [done..|]. by rewrite Hy.
Qed.

Lemma wf_finish i z s s' : core s -> tidy s -> runs s !! i = Some (RunFast z) ->
  finish i z s = Some s' -> core s' /\ tidy s'.
Proof.
  intros Hc Ht Hq Hx. unfold finish in Hx. destruct (gens s !! z) as [y|] eqn:Hy; [|done]. cbn [mbind option_bind] in Hx.
  pose proof (held_kept z s i _ Ht Hq eq_refl) as Hd. destruct (calls (mgr y) !! i) as [[]|] eqn:Hp; try done. injection Hx as <-.
  split; [apply core_release; [by eapply core_return|done]|]. apply tidy_release. eapply tidy_drop_run; [done..|]. by rewrite Hy.
Qed.

Lemma wf_swap t z s : Restart.inv (abs s) -> core s -> tidy s -> restarts s !! t = Some (TkSwap z) ->
  core (swap t z s) /\ tidy (swap t z s).
Proof.
  intros Hi Hc Ht Hk. destruct (iv_swap _ Hi t z Hk) as [Hz Hne]. cbn in Hz, Hne. rewrite lookup_fmap, fmap_is_Some in Hz.
  unfold swap. destruct (slot s) as [z0|] eqn:Hs; [|by destruct (some_zygote _ _ _ Hi Hk)]. destruct (is_running z0 s).
  - set (s1 := set_restart t (TkReturned true) s).
    assert (dispose z s1 = release z s1) as ->.
    { unfold release. rewrite bool_decide_true; [done|]. split_and!; cbn; [congruence| |].
      - intros i q Hq. by eapply (co_unshared _ Hc).
      - intros t' k [[_ <-]|[Hn E]]%lookup_insert_Some; [done|]. destruct k; try done. cbn. intros [= ->].
        apply Hn. symmetry. by eapply swap_only. }
    destruct (tidy_swap_live t z s Ht Hk Hz) as (Hex & ? & Hnd).
    split; [apply core_release; [by apply core_set_restart|done]|by apply tidy_release].
  - destruct (tidy_swap_dead t z z0 s Ht Hk Hs) as (Hex & ? & Hnd); [congruence|by apply slot_known|].
    split; [|by apply tidy_release]. apply core_release; [|done]. apply core_set_restart; [|done].
    apply (core_same s); eauto.
Qed.

Lemma wf_request t s : core s -> tidy s -> restarts s !! t = None ->
  runs (request_restart t s) = runs s /\ core (request_restart t s) /\ tidy (request_restart t s).
Proof.
  intros Hc Ht Et. unfold request_restart. destruct (gate s); [done|]. split; [done|]. split.
  - apply core_set_restart; [|done]. apply (core_same s); eauto.
  - apply tidy_set_restart; [exact Ht|cbn; by rewrite Et|done].
Qed.

Lemma wf_exec e s s' : wf s -> exec payload config max_env e s = Some s' -> wf s'.
Proof.
  intros [Hi Hc Ht] Hx.
  assert (Restart.inv (abs s')) as Hi'.
  { destruct (generations_step _ _ _ _ _ _ Hi Hx) as [es He]. by eapply restart_inv_execs. }
  assert (core s' /\ tidy s') as [? ?]; [|done]. clear Hi'.
  destruct e as [i|i|i|i|i t|t|t z host room|t|t|z e]; cbn [exec] in Hx.
  - destruct (runs s !! i) eqn:E; simplify_eq. split; [apply core_set_run; try done; by rewrite E|].
    apply tidy_set_run; [done|]. left. by rewrite E.
  - destruct (runs s !! i) as [[]|] eqn:E; simplify_eq. split.
    + apply core_set_run; [done|rewrite E; by intros q0 [= <-]|by destruct (slot s)|]. destruct (slot s) as [z0|] eqn:Es; [|done].
      intros z [= <-]. split; [by apply slot_known|]. intros t Hz. by destruct (iv_swap _ Hi t z0 Hz) as [_ []].
    + apply tidy_set_run; [done|]. rewrite E. destruct (slot s) as [z0|]; [right; by exists z0|by left].
  - destruct (runs s !! i) as [[]|] eqn:E; try done. by eapply wf_observe.
  - destruct (runs s !! i) as [[]|] eqn:E; try done. by eapply wf_finish.
  - destruct (runs s !! i) as [[]|] eqn:E; try done. destruct (restarts s !! t) eqn:Et; simplify_eq.
    destruct (wf_request t s Hc Ht Et) as (Er & Hc' & Ht').
    split; [apply core_set_run; try done; rewrite Er, E; by intros q0 [= <-]|]. apply tidy_set_run; [done|]. left. by rewrite Er, E.
  - destruct (restarts s !! t) as [[]|] eqn:Et; simplify_eq. unfold check.
    repeat case_match; (split; [by apply core_set_restart|apply tidy_set_restart; [done|by rewrite Et|done]]).
  - destruct (restarts s !! t) as [[]|] eqn:Et; try done. destruct (gens s !! z) eqn:Ez; [done|]. injection Hx as <-.
    destruct (build config max_env host room) as [y|] eqn:Ey.
    + destruct (build_start _ _ _ _ _ Ey) as [fd ->]. split; [|apply tidy_build; [done..|by rewrite Et]].
      apply core_build; [done..|]. intros [[y Hy] _]%Ht. congruence.
    + split; [by apply core_set_restart|apply tidy_set_restart; [done|by rewrite Et|done]].
  - destruct (restarts s !! t) as [[]|] eqn:Et; simplify_eq. by apply wf_swap.
  - destruct (restarts s !! t) as [[]|] eqn:Et; simplify_eq. split.
    + apply core_set_restart; [|done]. apply (core_same s); eauto.
    + apply tidy_set_restart; [exact Ht|cbn; by rewrite Et|done].
  - case_bool_decide as Hd; [done|]. destruct (inner e) eqn:Hin; [|done]. destruct (gens s !! z) as [y|] eqn:Ey; [|done].
    cbn [mbind option_bind] in Hx. destruct (System.exec payload (cap max_env) e y) as [y'|] eqn:Ex; [|done]. injection Hx as <-.
    split; [by eapply core_inner|by eapply tidy_set_gen].
Qed.

End Invariant.

(** ** Lemmas: reachable fleets *)

Section Reachable.
Context `{Os} `{PyJson} (payload : nat -> bytes) (config : Config) (max_env : option bytes).

(** The outcome of [new] as [Restart] sees it. *)
Definition first_manager (host : NewHost) (room : Z) : option nat :=
  match build config max_env host room with Some _ => Some 0%nat | None => None end.

Lemma abs_startup host room :
  abs (startup config max_env host room) = Restart.startup (python_zygote config) (first_manager host room).
Proof.
  unfold startup, first_manager, Restart.startup. destruct (python_zygote config); [|done].
  destruct (build config max_env host room) as [y|] eqn:E; [|done]. destruct (build_start _ _ _ _ _ E) as [fd ->].
  unfold abs. cbn. by rewrite fmap_insert, fmap_empty.
Qed.

Lemma wf_startup host room : wf payload max_env (startup config max_env host room).
Proof.
  assert (Restart.inv (abs (startup config max_env host room))) as Hi by (rewrite abs_startup; apply inv_startup).
  split; [done| |]; clear Hi; unfold startup; destruct (python_zygote config);
    try destruct (build config max_env host room) as [y|] eqn:E;
    try (split; cbn; by intros); try (intros z; unfold tidy_at; cbn; split; [done|by intros [[] _]]);
    destruct (build_start _ _ _ _ _ E) as [fd ->].
  - split; cbn; try by intros.
    + intros z y [[<- <-]|[_ ?]]%lookup_insert_Some; [|done]. exists (start fd room). split; [by exists fd, room, []|done].
    + by intros z y i p [[<- <-]|[_ ?]]%lookup_insert_Some.
  - intros z. unfold tidy_at. cbn. split; [done|]. intros [[y [[<- _]|[_ ?]]%lookup_insert_Some] (Hs & _)]; [|done]. by destruct Hs.
Qed.

Lemma wf_execs es s s' : wf payload max_env s -> execs payload config max_env es s = Some s' -> wf payload max_env s'.
Proof.
  revert s. induction es as [|e es IH]; intros s Hw; cbn; [by intros [= <-]|].
  destruct (exec payload config max_env e s) as [s1|] eqn:E; [|done]. apply IH. by eapply wf_exec.
Qed.

Lemma fleet_execs_app es1 es2 s s1 : execs payload config max_env es1 s = Some s1 ->
  execs payload config max_env (es1 ++ es2) s = execs payload config max_env es2 s1.
Proof.
  revert s. induction es1 as [|e es1 IH]; cbn; intros s; [by intros [= <-]|].
  destruct (exec payload config max_env e s); [apply IH|done].
Qed.

Lemma generations_sim es s s' : Restart.inv (abs s) -> execs payload config max_env es s = Some s' ->
  exists es', Restart.execs es' (abs s) = Some (abs s').
Proof.
  revert s. induction es as [|e es IH]; intros s Hi; cbn; [intros [= <-]; by exists []|].
  destruct (exec payload config max_env e s) as [s1|] eqn:E; [|done]. intros Hx.
  destruct (generations_step _ _ _ _ _ _ Hi E) as [es1 H1]. pose proof (restart_inv_execs _ _ _ Hi H1) as Hi1.
  destruct (IH s1 Hi1 Hx) as [es2 H2]. exists (es1 ++ es2). by rewrite (restart_execs_app _ _ _ _ H1).
Qed.

Lemma wf_reachable s : reachable payload config max_env s -> wf payload max_env s.
Proof. intros (host & room & es & Hes). eapply wf_execs; [apply wf_startup|done]. Qed.

(** A manager not dropped is held. *)
Lemma kept_held s z : tidy s -> is_Some (gens s !! z) -> z ∉ dropped s ->
  slot s = Some z \/ (exists t k, restarts s !! t = Some k /\ task_handle k = Some z)
  \/ exists i q, runs s !! i = Some q /\ run_handle q = Some z.
Proof.
  intros Ht Hz Hd. destruct (decide (slot s = Some z)) as [|Hs]; [by left|right].
  destruct (decide (map_Forall (fun _ q => run_handle q <> Some z) (runs s))) as [Hr|Hr]; [|right].
  - left. destruct (decide (map_Forall (fun _ k => task_handle k <> Some z) (restarts s))) as [Hk|Hk]; [by destruct Hd; apply Ht|].
    apply map_not_Forall in Hk as (t & k & Hk & Hn); [|apply _]. exists t, k. split; [done|]. by apply dec_stable in Hn.
  - apply map_not_Forall in Hr as (i & q & Hq & Hn); [|apply _]. exists i, q. split; [done|]. by apply dec_stable in Hn.
Qed.

(** ** Theorems *)

(** C9. The server's restarts, with all that happens inside the managers,
    refine the single-flight protocol of [Restart]: every execution is one of
    the protocol, in which a manager's flag falls exactly when its reader
    exits or its last handle is dropped.  In particular, in every reachable
    state the gate is closed exactly while one restart task is in flight, never
    two are, and a manager that is running is the installed one or in the hands
    of that task. *)
Theorem generations_refine_restart host room es s :
  execs payload config max_env es (startup config max_env host room) = Some s ->
  (exists es', Restart.execs es' (Restart.startup (python_zygote config) (first_manager host room)) = Some (abs s))
  /\ (gate s = true <-> exists t k, restarts s !! t = Some k /\ active k = true)
  /\ (forall t1 t2 k1 k2, restarts s !! t1 = Some k1 -> restarts s !! t2 = Some k2 ->
        active k1 = true -> active k2 = true -> t1 = t2)
  /\ (forall z y, gens s !! z = Some y -> running (sh (mgr y)) = true ->
        slot s = Some z \/ exists t, restarts s !! t = Some (TkSwap z) /\ gate s = true).
Proof.
  intros Hes. pose proof (wf_startup host room) as H0w.
  destruct (generations_sim es _ s (wf_restart _ _ _ H0w) Hes) as [es' Hsim]. rewrite abs_startup in Hsim.
  assert (Restart.inv (abs s)) as Hi by (by eapply wf_restart, wf_execs).
  split; [by exists es'|]. split; [apply (iv_gate _ Hi)|]. split; [apply (iv_single _ Hi)|].
  intros z y Hy Hr. destruct (iv_live _ Hi z) as [|[t Ht]]; [cbn; rewrite lookup_fmap, Hy; cbn; by f_equal|by left|].
  right. exists t. split; [done|]. apply (iv_gate _ Hi). by exists t, (TkSwap z).
Qed.

(** C8. The life of a manager.  One that was dropped has its worker killed and
    its flag cleared, and no call of it was in progress: every call it ever
    took has returned.  One that was not is held by the slot, by the restart
    task in flight, or by a request that will return its handle: no worker is
    left behind, whatever restarts, failures and requests are interleaved. *)
Theorem managers_dropped_idle s :
  reachable payload config max_env s ->
  (forall z y, gens s !! z = Some y -> z ∈ dropped s ->
     running (sh (mgr y)) = false /\ st_status (wrk y) = Ended (-9)
     /\ forall i p, calls (mgr y) !! i = Some p -> exists r, p = PcReturned r /\ runs s !! i = Some (RunReturned z r))
  /\ (forall z, is_Some (gens s !! z) -> z ∉ dropped s ->
        slot s = Some z \/ (exists t, restarts s !! t = Some (TkSwap z) /\ gate s = true)
        \/ exists i q, runs s !! i = Some q /\ run_handle q = Some z).
Proof.
  intros [Hi Hc Ht]%wf_reachable. split.
  - intros z y Hy Hd. destruct (co_lived _ _ _ Hc z y Hy) as (y0 & _ & Ey). rewrite bool_decide_true in Ey by done.
    split; [by rewrite Ey|]. split; [by rewrite Ey|]. intros i p Hp.
    destruct (co_calls _ _ _ Hc z y i p Hy Hp) as [E|(r & -> & E)]; [|eauto]. by destruct (held_kept z s i _ Ht E).
  - intros z Hz Hd. destruct (kept_held s z Ht Hz Hd) as [|[(t & k & Hk & E)|]]; [by left| |by auto].
    right. left. exists t. destruct k; simplify_eq/=. split; [done|]. apply (iv_gate _ Hi). by eexists _, _.
Qed.

(** The managers in use by requests, one entry per request. *)
Definition in_use (s : Fleet) : gmap nat nat := omap run_handle (runs s).

Lemma swaps_single s : Restart.inv (abs s) -> (size (omap task_handle (restarts s)) <= if gate s then 1 else 0)%nat.
Proof.
  intros Hi. assert (forall t z, omap task_handle (restarts s) !! t = Some z -> restarts s !! t = Some (TkSwap z)) as Hsw.
  { intros t z (k & Hk & E)%lookup_omap_Some. by destruct k; simplify_eq/=. }
  destruct (decide (omap task_handle (restarts s) = ∅)) as [->|Hne]; [rewrite map_size_empty; lia|].
  destruct (map_choose _ Hne) as (t & z & Ht).
  assert (gate s = true) as -> by (apply (iv_gate _ Hi); by exists t, (TkSwap z); auto).
  rewrite <-(size_dom (D := gset nat)), <-(size_singleton (C := gset nat) t). apply subseteq_size. intros t' [z' Ht']%elem_of_dom.
  apply elem_of_singleton. by eapply (iv_single _ Hi); [apply Hsw, Ht'|apply Hsw, Ht|..].
Qed.

(** How many interpreters there are: the workers not yet killed number at
    most one for the slot, one for the restart task while the gate is closed,
    and one for each request that still holds a handle, however often the
    zygote died before. *)
Theorem interpreters_bounded s :
  reachable payload config max_env s ->
  (size (dom (gens s) ∖ dropped s) <= 1 + (if gate s then 1 else 0) + size (in_use s))%nat.
Proof.
  intros [Hi Hc Ht]%wf_reachable. pose proof (swaps_single s Hi) as Hsw.
  etrans; [apply (size_covered _ (option_list (slot s) ++ (map_to_list (omap task_handle (restarts s))).*2 ++ (map_to_list (in_use s)).*2))|].
  - intros z [[y Hy]%elem_of_dom Hd]%elem_of_difference. rewrite !elem_of_app.
    destruct (kept_held s z Ht ltac:(eauto) Hd) as [->|[(t & k & Hk & E)|(i & q & Hq & E)]]; [left; cbn; set_solver|right..].
    + left. apply list_elem_of_fmap. exists (t, z). split; [done|]. apply elem_of_map_to_list, lookup_omap_Some. eauto.
    + right. apply list_elem_of_fmap. exists (i, z). split; [done|]. apply elem_of_map_to_list, lookup_omap_Some. eauto.
  - rewrite !length_app, !length_fmap, !length_map_to_list. 
    assert (length (option_list (slot s)) <= 1)%nat by (by destruct (slot s); simpl; lia). lia.
Qed.

(** What a request that finds the manager dead sets in motion, and a later one. *)
Definition heal (i t z : nat) (host : NewHost) (room : Z) : list event :=
  [Arrive i; Get i; Observe i; Request i t; Probe t; Build t z host room; Swap t; Finish t].
Definition served (i : nat) : list event := [Arrive i; Get i; Observe i].

Lemma release_slot z s : slot s = Some z -> release z s = s.
Proof. intros Hs. unfold release. rewrite bool_decide_false; [done|]. by intros []. Qed.

(** The restart up to the swap, when the installed manager is dead. *)
Lemma heal_request s i t z0 y0 z host room y : slot s = Some z0 -> gens s !! z0 = Some y0 -> flag y0 = false -> gate s = false ->
  runs s !! i = None -> restarts s !! t = None -> gens s !! z = None -> build config max_env host room = Some y ->
  execs payload config max_env [Arrive i; Get i; Observe i; Request i t; Probe t; Build t z host room] s
  = Some (mkFleet (Some z0) true (<[z := y]> (gens s)) (dropped s) (<[i := RunSlow]> (runs s)) (<[t := TkSwap z]> (restarts s))).
Proof.
  intros Hs Hy0 Hf Hg Hi Ht Hz Hb. destruct s as [sl gt gs dr rs ts]. cbn in *. subst sl gt. rewrite Hi. cbn.
  rewrite lookup_insert_eq. cbn. rewrite lookup_insert_eq. unfold observe. cbn. rewrite Hy0. cbn. rewrite Hf. cbn.
  rewrite release_slot by done. cbn. rewrite lookup_insert_eq, Ht. cbn. rewrite lookup_insert_eq. cbn. unfold check, is_running. cbn.
  rewrite Hy0, Hf. cbn. rewrite lookup_insert_eq, Hz, Hb. unfold set_restart, set_gen. cbn. by rewrite !insert_insert_eq.
Qed.

(** The dead manager goes with the slot's handle, unless a request holds it. *)
Lemma heal_free s i t z0 z gs : Restart.inv (abs s) -> runs s !! i = None -> slot s = Some z0 -> z <> z0 ->
  free z0 (mkFleet (Some z) true gs (dropped s) (<[i := RunSlow]> (runs s)) (<[t := TkReturned true]> (restarts s)))
  <-> map_Forall (fun _ q => run_handle q <> Some z0) (runs s).
Proof.
  intros Hi Hq Hs Hne. unfold free. cbn. rewrite (map_Forall_insert _ (runs s)) by done. split; [tauto|]. intros Hrs.
  split; [congruence|]. split; [done|]. intros t' k [[_ <-]|[_ Hk']]%lookup_insert_Some; [done|].
  destruct k; try done. cbn. intros [= ->]. by destruct (iv_swap _ Hi t' z0 Hk') as [_ []].
Qed.

Lemma serve_call s j z y : slot s = Some z -> gens s !! z = Some y -> flag y = true -> calls (mgr y) !! j = None ->
  runs s !! j = None ->
  execs payload config max_env (served j) s
  = Some (mkFleet (Some z) (gate s) (<[z := set_mgr (set_call j PcStart (mgr y)) y]> (gens s)) (dropped s)
            (<[j := RunFast z]> (runs s)) (restarts s)).
Proof.
  intros Hs Hy Hf Hc Hj. destruct s as [sl gt gs dr rs ts]. cbn in *. subst sl. rewrite Hj. cbn. rewrite lookup_insert_eq. cbn.
  rewrite lookup_insert_eq. unfold observe. cbn -[System.exec]. rewrite Hy. cbn -[System.exec]. rewrite Hf.
  cbn [System.exec allowed]. rewrite bool_decide_true by done. cbn. rewrite Hc. cbn. unfold set_run, set_gen. cbn.
  by rewrite !insert_insert_eq.
Qed.

(** C10. Recovery.  From any reachable state whose installed manager is dead and
    whose gate is open, one request suffices: it takes the slow path itself,
    and when [new] succeeds its restart task leaves a fresh running manager
    installed and the gate open; the dead one is dropped unless a request still
    holds it.  The next request is a call of the new manager. *)
Theorem generations_heal s i t z0 z host room j :
  reachable payload config max_env s -> slot s = Some z0 -> is_running z0 s = false -> gate s = false ->
  runs s !! i = None -> restarts s !! t = None -> gens s !! z = None -> is_Some (build config max_env host room) ->
  runs s !! j = None -> i <> j ->
  exists s1 s2 y, execs payload config max_env (heal i t z host room) s = Some s1
    /\ slot s1 = Some z /\ is_running z s1 = true /\ gate s1 = false /\ runs s1 !! i = Some RunSlow
    /\ (z0 ∈ dropped s1 <-> map_Forall (fun _ q => run_handle q <> Some z0) (runs s))
    /\ execs payload config max_env (served j) s1 = Some s2
    /\ runs s2 !! j = Some (RunFast z) /\ gens s2 !! z = Some y /\ calls (mgr y) = {[j := PcStart]}.
Proof.
  intros [Hi Hc Ht]%wf_reachable Hs Hr Hg Hq Hk Hz [y Hb] Hj Hij.
  destruct (slot_known s z0 Hi Hs) as [y0 Hy0]. unfold is_running in Hr. rewrite Hy0 in Hr.
  assert (z <> z0) as Hne by congruence. destruct (build_start _ _ _ _ _ Hb) as [fd Ey].
  pose proof (heal_request s i t z0 y0 z host room y Hs Hy0 Hr Hg Hq Hk Hz Hb) as Hx.
  set (installed := mkFleet (Some z) true (<[z := y]> (gens s)) (dropped s) (<[i := RunSlow]> (runs s)) (<[t := TkReturned true]> (restarts s))).
  set (s1 := set_restart t TkDone (set_gate false (release z0 installed))).
  assert (execs payload config max_env (heal i t z host room) s = Some s1) as Hx1.
  { change (heal i t z host room) with ([Arrive i; Get i; Observe i; Request i t; Probe t; Build t z host room] ++ [Swap t; Finish t]).
    rewrite (fleet_execs_app _ _ _ _ Hx). cbn [execs exec restarts]. rewrite lookup_insert_eq. cbn [mbind option_bind]. unfold swap, is_running.
    cbn [slot gens]. rewrite lookup_insert_ne, Hy0, Hr by done. unfold set_restart at 1 2 3, set_slot.
    cbn [slot gate gens dropped runs restarts]. rewrite insert_insert_eq. fold installed.
    replace (restarts (release z0 installed) !! t) with (Some (TkReturned true)); [done|].
    unfold release. case_bool_decide; symmetry; apply lookup_insert_eq. }
  assert (slot s1 = Some z /\ gate s1 = false /\ gens s1 !! z = Some y /\ runs s1 = <[i := RunSlow]> (runs s)) as (Hs1 & Hg1 & Hy1 & Hr1).
  { unfold s1, release. case_bool_decide; cbn; rewrite ?lookup_alter_ne, lookup_insert_eq by done; done. }
  assert (z0 ∈ dropped s1 <-> map_Forall (fun _ q => run_handle q <> Some z0) (runs s)) as Hd.
  { rewrite <-(heal_free s i t z0 z (<[z := y]> (gens s)) Hi Hq Hs Hne). fold installed.
    assert (z0 ∉ dropped s) by (intros [_ []]%Ht; congruence).
    unfold s1, release. case_bool_decide; cbn; [split; [done|set_solver]|tauto]. }
  assert (runs s1 !! j = None) as Hj1 by (by rewrite Hr1, lookup_insert_ne).
  pose proof (serve_call s1 j z y Hs1 Hy1 ltac:(by rewrite Ey) ltac:(by rewrite Ey) Hj1) as Hx2.
  eexists s1, _, _. split_and!; [exact Hx1|exact Hs1| |exact Hg1| |exact Hd|exact Hx2|apply lookup_insert_eq..|].
  - unfold is_running. by rewrite Hy1, Ey.
  - rewrite Hr1. apply lookup_insert_eq.
  - by rewrite Ey.
Qed.

(** What a manager of a fleet has gone through: the invariant of [System] holds
    of the state it is in, or was dropped in. *)
Lemma gen_linked s z y :
  65536 <= cap max_env -> (forall i, len (payload i) <= _MAX_FRAME_PAYLOAD) ->
  wf payload max_env s -> gens s !! z = Some y -> issued (mgr y) <= u32_max ->
  exists y0, linked payload (cap max_env) y0 /\ Worker.zygote (wrk y) = Worker.zygote (wrk y0)
    /\ calls (mgr y) = calls (mgr y0) /\ ids (mgr y) = ids (mgr y0).
Proof.
  intros Hmax Hpay Hw Hy Hiss. destruct (co_lived _ _ _ (wf_core _ _ _ Hw) z y Hy) as (y0 & Hr & ->). exists y0.
  assert (issued (mgr y0) <= u32_max) as Hi0 by (by destruct (bool_decide _)).
  split; [by apply linked_reachable|]. by destruct (bool_decide _).
Qed.

(** C3. A request is executed at most once in the life of the server.  Every
    child of every generation was forked for a request, with that request's
    text, and the request is one that called this very generation; no two
    children, of the same or of different generations, were forked for the same
    request, and none for a request that went on to the slow path. *)
Theorem request_runs_once s :
  65536 <= cap max_env -> (forall i, len (payload i) <= _MAX_FRAME_PAYLOAD) ->
  reachable payload config max_env s -> map_Forall (fun _ y => issued (mgr y) <= u32_max) (gens s) ->
  (forall z y j id js, gens s !! z = Some y -> launched (Worker.zygote (wrk y)) !! j = Some (id, js) ->
     exists i, ids (mgr y) !! i = Some id /\ loads (payload i) = Some js
       /\ (runs s !! i = Some (RunFast z) \/ exists r, runs s !! i = Some (RunReturned z r)))
  /\ (forall i z1 y1 j1 id1 js1 z2 y2 j2 id2 js2,
        gens s !! z1 = Some y1 -> launched (Worker.zygote (wrk y1)) !! j1 = Some (id1, js1) -> ids (mgr y1) !! i = Some id1 ->
        gens s !! z2 = Some y2 -> launched (Worker.zygote (wrk y2)) !! j2 = Some (id2, js2) -> ids (mgr y2) !! i = Some id2 ->
        z1 = z2 /\ j1 = j2).
Proof.
  intros Hmax Hpay Hw%wf_reachable Hiss.
  assert (forall z y i id, gens s !! z = Some y -> ids (mgr y) !! i = Some id ->
    runs s !! i = Some (RunFast z) \/ exists r, runs s !! i = Some (RunReturned z r)) as Hown.
  { intros z y i id Hy Hid. destruct (gen_linked s z y Hmax Hpay Hw Hy (Hiss z y Hy)) as (y0 & Hl & _ & Ec & Ei).
    rewrite Ei in Hid. destruct (calls (mgr y0) !! i) as [p|] eqn:Hp.
    - rewrite <-Ec in Hp. destruct (co_calls _ _ _ (wf_core _ _ _ Hw) z y i p Hy Hp) as [|(r & _ & ?)]; eauto.
    - destruct (inv_fresh _ _ (lk_mgr _ _ _ Hl) i Hp). congruence. }
  split.
  - intros z y j id js Hy Hj. destruct (gen_linked s z y Hmax Hpay Hw Hy (Hiss z y Hy)) as (y0 & Hl & Ez & _ & Ei).
    rewrite Ez in Hj. destruct (launched_past _ _ y0 j id js Hl Hj) as (i & _ & Hid & _). exists i.
    rewrite Ei. split; [done|]. split; [by eapply launched_payload|]. eapply Hown; [done|]. by rewrite Ei.
  - intros i z1 y1 j1 id1 js1 z2 y2 j2 id2 js2 Hy1 Hj1 Hid1 Hy2 Hj2 Hid2.
    assert (z1 = z2) as <- by (destruct (Hown _ _ _ _ Hy1 Hid1) as [|[? ?]], (Hown _ _ _ _ Hy2 Hid2) as [|[? ?]]; congruence).
    split; [done|]. assert (y2 = y1) as -> by congruence. assert (id2 = id1) as -> by congruence.
    destruct (gen_linked s z1 y1 Hmax Hpay Hw Hy1 (Hiss z1 y1 Hy1)) as (y0 & Hl & Ez & _). rewrite Ez in Hj1, Hj2.
    pose proof (launched_once _ _ y0 Hl) as Hnd. eapply (NoDup_lookup _ _ _ id1 Hnd); rewrite list_lookup_fmap.
    + by rewrite Hj1.
    + by rewrite Hj2.
Qed.

End Reachable.

(** A request that is over stays as it is. *)
Definition settled (q : run_state) : bool := match q with RunSlow | RunReturned _ _ => true | _ => false end.

Lemma release_runs z s : runs (release z s) = runs s.
Proof. unfold release. by case_bool_decide. Qed.

(** A step moves one request at most, one that arrives or is not over. *)
Lemma exec_runs `{Os} `{PyJson} payload config max_env e s s' : exec payload config max_env e s = Some s' ->
  runs s' = runs s \/ exists j q, runs s' = <[j := q]> (runs s)
    /\ (e = Arrive j /\ runs s !! j = None \/ exists q0, runs s !! j = Some q0 /\ settled q0 = false).
Proof.
  intros Hx. destruct e as [j|j|j|j|j t|t|t z host room|t|t|z e]; cbn [exec] in Hx.
  - right. destruct (runs s !! j) eqn:E; simplify_eq. exists j, RunStart. rewrite E. auto.
  - right. destruct (runs s !! j) as [[]|] eqn:E; simplify_eq. eexists j, _. rewrite E. eauto.
  - right. destruct (runs s !! j) as [[]|] eqn:E; try done. unfold observe in Hx. destruct (gens s !! z) as [y|]; [|done].
    cbn [mbind option_bind] in Hx. exists j. rewrite E.
    destruct (flag y); [destruct (System.exec _ _ _ _); [|done]|]; injection Hx as <-; rewrite ?release_runs; eexists; eauto.
  - right. destruct (runs s !! j) as [[]|] eqn:E; try done. unfold finish in Hx. destruct (gens s !! z) as [y|]; [|done].
    cbn [mbind option_bind] in Hx. repeat (case_match; try done). simplify_eq. eexists j, _. rewrite release_runs, E. eauto.
  - right. destruct (runs s !! j) as [[]|] eqn:E; try done. destruct (restarts s !! t); simplify_eq. exists j, RunSlow. rewrite E.
    unfold request_restart. destruct (gate s); eauto.
  - left. destruct (restarts s !! t) as [[]|]; simplify_eq. unfold check. by repeat case_match.
  - left. destruct (restarts s !! t) as [[]|]; try done. destruct (gens s !! z); simplify_eq. by case_match.
  - left. destruct (restarts s !! t) as [[]|]; simplify_eq. unfold swap. repeat case_match; by rewrite ?release_runs.
  - left. by destruct (restarts s !! t) as [[]|]; simplify_eq.
  - left. repeat (case_match; try done). destruct (gens s !! z); [|done]. cbn [mbind option_bind] in Hx.
    by destruct (System.exec _ _ _ _); simplify_eq/=.
Qed.

Lemma run_settled `{Os} `{PyJson} payload config max_env e s s' i q : runs s !! i = Some q -> settled q = true ->
  exec payload config max_env e s = Some s' -> runs s' !! i = Some q.
Proof.
  intros Hi Hq [->|(j & q' & -> & Hj)]%exec_runs; [done|]. rewrite lookup_insert_ne; [done|]. intros ->.
  destruct Hj as [[_ ?]|(q0 & ? & ?)]; congruence.
Qed.

Lemma run_arrives `{Os} `{PyJson} payload config max_env e s s' i : exec payload config max_env e s = Some s' ->
  e <> Arrive i -> runs s !! i = None -> runs s' !! i = None.
Proof.
  intros [->|(j & q' & -> & Hj)]%exec_runs He Hi; [done|]. apply lookup_insert_None. split; [done|]. intros ->.
  destruct Hj as [[? _]|(q0 & ? & ?)]; congruence.
Qed.

(** ** The fast path, across restarts *)

Section FastPath.
Context `{Os} `{PyJson} `{PyBase64} `{Python} `{Libc} `{Landlock}.
Context (dumps : Json -> bytes) (config : Config) (max_env : option bytes).
Context (rngs : nat -> Rng) (code : nat -> bytes) (options : nat -> RunnerOptions).

Abbreviation text := (request_text dumps config rngs code options).

Lemma fast_path_returned s i z r :
  (forall i, loads (dumps (call_request config rngs code options i)) = Some (call_request config rngs code options i)) ->
  65536 <= cap max_env -> (forall i, len (text i) <= _MAX_FRAME_PAYLOAD) -> fits config (Python.fast_paths config) ->
  reachable text config max_env s -> map_Forall (fun _ y => issued (mgr y) <= u32_max) (gens s) ->
  runs s !! i = Some (RunReturned z r) ->
  exists y, gens s !! z = Some y /\ calls (mgr y) !! i = Some (PcReturned r)
    /\ (manager_error r \/ own_child config (cap max_env) code options y i r).
Proof.
  intros Hld Hmax Hpay Hfit Hw%wf_reachable Hiss Hr.
  destruct (co_returned _ _ _ (wf_core _ _ _ Hw) i z r Hr) as (y & Hy & Hc). exists y. split; [done|]. split; [done|].
  destruct (gen_linked _ _ s z y Hmax Hpay Hw Hy (Hiss z y Hy)) as (y0 & Hl & Ez & Ec & _). rewrite Ec in Hc.
  unfold own_child. rewrite Ez. by apply (linked_own_child dumps config (cap max_env) rngs); [|lia|..].
Qed.

(** C2. The fast Python path of a server that restarts its zygote.  Any number
    of runs, restarts and generations are interleaved, workers die at any time,
    managers are replaced and dropped.  A run that returned from the fast path
    has what its call of one manager returned: one of the manager's errors, or
    the report of the one child which that manager's worker forked for this
    run, and if that child runs any code, it is the code submitted to this run,
    inside the sandbox the configuration asks for. *)
Theorem fast_path_across_restarts s i z r :
  (forall i, loads (dumps (call_request config rngs code options i)) = Some (call_request config rngs code options i)) ->
  65536 <= cap max_env -> (forall i, len (text i) <= _MAX_FRAME_PAYLOAD) -> fits config (Python.fast_paths config) ->
  reachable text config max_env s -> map_Forall (fun _ y => issued (mgr y) <= u32_max) (gens s) ->
  runs s !! i = Some (RunReturned z r) ->
  (exists acts, fast_call config rngs code options i r
     = Some (inl {| stdout := r.1.1; stderr := r.1.2; exit_code := r.2 |}, acts))
  /\ exists y, gens s !! z = Some y /\ calls (mgr y) !! i = Some (PcReturned r)
     /\ (manager_error r \/ own_child config (cap max_env) code options y i r).
Proof. intros. split; [apply fast_call_eq|]. by apply fast_path_returned. Qed.

End FastPath.

(** ** Witnesses *)

Module GenerationsDemo.

#[local] Existing Instance ChildDemo.python.
#[local] Existing Instance ChildDemo.landlock.
#[local] Instance libc_demo : Libc := libc_x86_64.
#[local] Instance base64_demo : Base64 := Rfc4648.base64.
#[local] Instance py_base64_demo : PyBase64 := Rfc4648.py_base64.
#[local] Instance os_demo : Os := WorkerSpec.Demo.os 100.
#[local] Existing Instance PipelineDemo.json.

Definition config : Config := PipelineDemo.config.
Definition text : nat -> bytes := PipelineDemo.text.

Definition host : NewHost := {|
  nh_path := None; nh_pair := Some (9, 3); nh_spawn := fun _ => true; nh_nonblocking := true; nh_from_std := true |}.

Definition written (i : nat) : nat := length (encode (mkFrame MSG_RUN 1 (text i))).

(** The first call of manager [z] is that of request [i]: its child prints. *)
Definition call (z i : nat) (output : bytes) : list event :=
  Inside z <$>
  [Server (EvCheck i) 0; Server (EvFetch i) 0; Server (EvInsert i) 0; Server (EvWrite i true) (written i);
   System.Deliver 1000; System.Turn [3] false;
   System.Child (ChildWrite 0 StdOut output); System.Child (ChildExit 0 0); System.Child (ChildZombie 0);
   System.Turn [4; 6] false; System.Turn [4] false;
   Server (EvFrame (mkFrame MSG_STDOUT 1 output)) 0; Server (EvFrame (closing 1 0)) 0;
   Server (EvRecv i) 0; Server (EvRemove i) 0].

Definition run : list event -> Fleet -> option Fleet := execs text config None.
Definition first : Fleet := startup config None host 1000.

(** Request 0 is served; request 1 holds a handle when the worker dies. *)
Definition dying : list event := served 0 ++ call 0 0 (str "1") ++ [Return 0; Arrive 1; Get 1; Inside 0 (Server EvClose 0)].
Definition dead : Fleet := default first (run dying first).

(** Request 1 has the zygote restarted; request 2 is served by the new one. *)
Definition replaced : list event := dying ++ [Observe 1; Request 1 0; Probe 0; Build 0 1 host 1000; Swap 0; Finish 0]
  ++ served 2 ++ call 1 2 (str "2") ++ [Return 2].
Definition final : Fleet := default first (run replaced first).

Lemma fleet_dead_reachable : reachable text config None dead.
Proof. exists host, 1000, dying. by vm_compute. Qed.

Lemma final_run : execs text config None replaced (startup config None host 1000) = Some final.
Proof. by vm_compute. Qed.

Lemma fleet_final_reachable : reachable text config None final.
Proof. exists host, 1000, replaced. exact final_run. Qed.

Lemma fleet_final_issued : map_Forall (fun _ y => issued (mgr y) <= u32_max) (gens final).
Proof. apply (bool_decide_unpack _). by vm_compute. Qed.

Lemma generations_refine_restart_witness :
  slot final = Some 1%nat /\ restarts final !! 0%nat = Some TkDone
  /\ exists es', Restart.execs es' (Restart.startup true (Some 0%nat)) = Some (abs final).
Proof.
  split; [by vm_compute|]. split; [by vm_compute|].
  destruct (generations_refine_restart text config None host 1000 replaced final final_run) as [[es' Hes] _].
  replace (python_zygote config) with true in Hes by (by vm_compute).
  replace (first_manager config None host 1000) with (Some 0%nat) in Hes by (by vm_compute). by exists es'.
Defined.

Lemma managers_dropped_idle_witness :
  0%nat ∈ dropped final /\ (1%nat ∉ dropped final)
  /\ (forall y, gens final !! 0%nat = Some y -> running (sh (mgr y)) = false /\ st_status (wrk y) = Ended (-9))
  /\ (slot final = Some 1%nat \/ (exists t, restarts final !! t = Some (TkSwap 1) /\ gate final = true)
      \/ exists i q, runs final !! i = Some q /\ run_handle q = Some 1%nat).
Proof.
  assert (0%nat ∈ dropped final) as H0d by (apply (bool_decide_unpack _); by vm_compute).
  assert (1%nat ∉ dropped final) as H1d by (apply (bool_decide_unpack _); by vm_compute).
  destruct (managers_dropped_idle text config None final fleet_final_reachable) as [Hd Hk].
  split; [exact H0d|]. split; [exact H1d|]. split; [intros y Hy; destruct (Hd 0%nat y Hy H0d) as (Hr & Hs & _); exact (conj Hr Hs)|].
  apply Hk; [|exact H1d]. apply (bool_decide_unpack _). by vm_compute.
Defined.

Lemma interpreters_bounded_witness :
  size (dom (gens final) ∖ dropped final) = 1%nat
  /\ (size (dom (gens final) ∖ dropped final) <= 1 + (if gate final then 1 else 0) + size (in_use final))%nat.
Proof. split; [by vm_compute|]. apply (interpreters_bounded text config None final fleet_final_reachable). Defined.

Definition count (y : System) : nat := length (launched (Worker.zygote (wrk y))).

Lemma request_runs_once_witness :
  (exists y0 y1, gens final !! 0%nat = Some y0 /\ gens final !! 1%nat = Some y1
     /\ count y0 = 1%nat /\ count y1 = 1%nat)
  /\ forall z y j id js, gens final !! z = Some y -> launched (Worker.zygote (wrk y)) !! j = Some (id, js) ->
       exists i, ids (mgr y) !! i = Some id /\ loads (text i) = Some js
         /\ (runs final !! i = Some (RunFast z) \/ exists r, runs final !! i = Some (RunReturned z r)).
Proof.
  split.
  - destruct (gens final !! 0%nat) as [y0|] eqn:E0; [|by vm_compute in E0].
    destruct (gens final !! 1%nat) as [y1|] eqn:E1; [|by vm_compute in E1]. exists y0, y1. split; [exact eq_refl|]. split; [exact eq_refl|].
    assert (count <$> (gens final !! 0%nat) = Some 1%nat) as Hl0 by (by vm_compute).
    assert (count <$> (gens final !! 1%nat) = Some 1%nat) as Hl1 by (by vm_compute).
    rewrite E0 in Hl0. rewrite E1 in Hl1. injection Hl0 as Hl0. injection Hl1 as Hl1. exact (conj Hl0 Hl1).
  - apply (request_runs_once text config None final).
    + done.
    + exact PipelineDemo.text_small.
    + exact fleet_final_reachable.
    + exact fleet_final_issued.
Defined.

Lemma fast_path_across_restarts_witness :
  let r := (str "2", [], 0) in
  runs final !! 2%nat = Some (RunReturned 1 r)
  /\ (exists acts, fast_call config PipelineDemo.rngs PipelineDemo.code PipelineDemo.options 2 r
        = Some (inl {| stdout := str "2"; stderr := []; exit_code := 0 |}, acts))
  /\ exists y, gens final !! 1%nat = Some y /\ calls (mgr y) !! 2%nat = Some (PcReturned r)
       /\ own_child config (cap None) PipelineDemo.code PipelineDemo.options y 2 r.
Proof.
  intros r. assert (runs final !! 2%nat = Some (RunReturned 1 r)) as Hr by (by vm_compute). split; [exact Hr|].
  destruct (fast_path_across_restarts PipelineDemo.dumps config None PipelineDemo.rngs PipelineDemo.code PipelineDemo.options
    final 2 1 r) as [Hf (y & Hy & Hc & [E|Ho])].
  - exact PipelineDemo.text_read.
  - done.
  - exact PipelineDemo.text_small.
  - exact PipelineDemo.fast_config_fits.
  - exact fleet_final_reachable.
  - exact fleet_final_issued.
  - exact Hr.
  - by destruct E as [E|[E|[E|E]]]; vm_compute in E.
  - split; [exact Hf|]. exists y. exact (conj Hy (conj Hc Ho)).
Defined.

(** Request 1 still holds the dead manager when request 3 has it replaced. *)
Lemma generations_heal_witness :
  exists s1 s2, run (heal 3 5 1 host 1000) dead = Some s1 /\ slot s1 = Some 1%nat /\ is_running 1 s1 = true /\ gate s1 = false
    /\ (0%nat ∉ dropped s1) /\ run (served 4) s1 = Some s2 /\ runs s2 !! 4%nat = Some (RunFast 1).
Proof.
  destruct (generations_heal text config None dead 3 5 0 1 host 1000 4)
    as (s1 & s2 & y & H1 & H2 & H3 & H4 & _ & H6 & H7 & H8 & _).
  - exact fleet_dead_reachable.
  - by vm_compute.
  - by vm_compute.
  - by vm_compute.
  - by vm_compute.
  - by vm_compute.
  - by vm_compute.
  - apply (bool_decide_unpack _). by vm_compute.
  - by vm_compute.
  - done.
  - exists s1, s2. split_and!; [exact H1|exact H2|exact H3|exact H4| |exact H7|exact H8]. intros Hd%H6. revert Hd. apply (bool_decide_unpack _). by vm_compute.
Defined.

End GenerationsDemo.
