(* ===== verification/Service.v ===== *)
(** * Service: a client's request, from the handler to the child and back

    The composition of [Queue] (the pool of server/src/queue.rs), the closure
    [run_code] submits ([Http.run_code_job]), the Python runner ([Runners]) and
    [Generations] (the slot, the restarts and every zygote with all that is
    inside).  While a pool worker runs the job of request [i], that request may
    enter the fast path, where it is request [i] of the fleet; the job ends
    when the fleet's request has returned or was sent to the slow path, and
    what the runner found in the slot is what the fleet gave it.  Requests of
    other kinds (JavaScript, preloads, unreadable code) never reach the fleet.
    The process a slow or JavaScript run spawns is answered by the event that
    ends the job. *)

From S2P Require Import Restart Queue Prelude RustStd Wire Reader Config Crypto Models Seccomp Scripts Runners Setup Http Manager Zygote Posix Worker WorkerInv WorkerSpec WorkerInput System Child ChildSpec Pipeline Generations.

(** ** Data *)

Section Model.
Context `{Mpmc} `{Os} `{PyJson} `{PyBase64} `{SerdeJson} (dumps : Json -> bytes) (config : Config) (max_env : option bytes).
Context (rngs : nat -> Rng) (request : nat -> RunCodeRequest).

Record Service := mkService { pool : Queue.Pool (World := Host); fleet : Fleet }.

(** What the client submitted. *)
Definition source (i : nat) : bytes := match b64_decode (Models.code (request i)) with inl src => src | inr _ => [] end.

(** The text of the fast run of request [i]. *)
Definition text : nat -> bytes := request_text dumps config rngs source (fun i => Models.options (request i)).

Definition job (i : nat) : Queue.Job (World := Host) := run_code_job (H0 := rngs i) config (request i).

(** Whether the runner of request [i] looks into the slot. *)
Definition eligible (i : nat) : bool :=
  bool_decide (Models.language (request i) = str "python3")
  && (match b64_decode (Models.code (request i)) with inl _ => true | inr _ => false end)
  && python_zygote config && is_empty (checked_preload config (Models.preload (request i))).

(** A pool worker is in the job of request [i]. *)
Definition in_job (i : nat) (w : Queue.worker (World := Host)) : bool :=
  match w with Queue.WRunning m => bool_decide (Queue.m_call m = i) | _ => false end.

(** A handle whose manager is no longer running. *)
Definition dead_handle : ZygoteHandle := {| z_is_running := false; z_run := fun _ _ _ => res_not_running |}.

(** What the runner of request [i] found in the slot; [None] while it is in
    the fleet. *)
Definition view (i : nat) (s : Service) : option (option ZygoteHandle) :=
  if eligible i then
    match runs (fleet s) !! i with
    | Some (RunReturned _ r) => Some (Some (returning r))
    | Some RunSlow => Some (match slot (fleet s) with Some _ => Some dead_handle | None => None end)
    | _ => None
    end
  else Some None.

(** ** Steps *)

(** [RunJob w path proc]: the job of worker [w] ends; [path] is the [PATH]
    variable and [proc] what the processes it spawned did. *)
Inductive event :=
| Submit (i : nat)
| PoolStep (e : Queue.event (World := Host))
| RunJob (w : nat) (path : option bytes) (proc : Command -> bytes -> Z -> ProcOutcome)
| FleetStep (e : Generations.event).

Definition plain (e : Queue.event (World := Host)) : bool :=
  match e with Queue.EvSubmit _ _ _ | Queue.EvRun _ _ => false | _ => true end.

(** A request enters the fleet from a pool worker that runs it. *)
Definition admitted (e : Generations.event) (s : Service) : bool :=
  match e with
  | Arrive i => eligible i && existsb (in_job i) (Queue.workers (pool s))
  | _ => true
  end.

Definition exec (e : event) (s : Service) : option Service :=
  match e with
  | Submit i =>
    p ← Queue.exec (Queue.EvSubmit i (Models.language (request i)) (job i)) (pool s); Some (mkService p (fleet s))
  | PoolStep e => if plain e then p ← Queue.exec e (pool s); Some (mkService p (fleet s)) else None
  | RunJob w path proc =>
    match Queue.workers (pool s) !! w with
    | Some (Queue.WRunning m) =>
      z ← view (Queue.m_call m) s;
      p ← Queue.exec (Queue.EvRun w {| h_zygote := z; h_path := path; h_proc := proc |}) (pool s);
      Some (mkService p (fleet s))
    | _ => None
    end
  | FleetStep e => if admitted e s then f ← Generations.exec text config max_env e (fleet s); Some (mkService (pool s) f) else None
  end.

Fixpoint execs (es : list event) (s : Service) : option Service :=
  match es with
  | [] => Some s
  | e :: es => exec e s ≫= execs es
  end.

(** [main] with [n] pool workers. *)
Definition boot (n : nat) (host : NewHost) (room : Z) : Service :=
  mkService (Queue.start n) (startup config max_env host room).

Definition reachable (n : nat) (s : Service) : Prop :=
  exists host room es, execs es (boot n host room) = Some s.

(** ** Lemmas *)

(** The pool and the fleet each run on their own. *)
Lemma service_pool es s s' : execs es s = Some s' ->
  exists es', Queue.execs es' (pool s) = Some (pool s')
    /\ forall j lang f, Queue.EvSubmit j lang f ∈ es' -> f = job j.
Proof.
  revert s. induction es as [|e es IH]; intros s; cbn; [intros [= <-]; exists []; split; [done|set_solver]|].
  destruct (exec e s) as [s1|] eqn:E; [|done]. cbn. intros (es' & Hx & Hes)%IH.
  assert (pool s1 = pool s \/ exists pe, Queue.exec pe (pool s) = Some (pool s1)
    /\ forall j lang f, pe = Queue.EvSubmit j lang f -> f = job j) as [Ep|(pe & Hp & Hj)].
  { destruct e as [i|pe|w path proc|fe]; cbn [exec] in E.
    - right. exists (Queue.EvSubmit i (Models.language (request i)) (job i)). destruct (Queue.exec _ (pool s)) as [p|]; simplify_eq/=.
      split; [done|]. by intros; simplify_eq.
    - destruct (plain pe) eqn:Hpl; [|done]. right. exists pe. destruct (Queue.exec pe (pool s)) as [p|]; simplify_eq/=.
      split; [done|]. by intros j lang f ->.
    - right. repeat (case_match; try done). destruct (view _ s) as [z|]; [|done]. cbn [mbind option_bind] in E.
      exists (Queue.EvRun w {| h_zygote := z; h_path := path; h_proc := proc |}).
      destruct (Queue.exec _ (pool s)) as [p|]; simplify_eq/=. done.
    - left. destruct (admitted fe s); [|done]. by destruct (Generations.exec _ _ _ _ _); simplify_eq/=. }
  - exists es'. by rewrite <-Ep.
  - exists (pe :: es'). cbn [Queue.execs]. rewrite Hp. split; [done|]. intros j lang f [E1|Hin]%elem_of_cons; [by eapply Hj|by eapply Hes].
Qed.

Lemma service_fleet es s s' : execs es s = Some s' ->
  exists es', Generations.execs text config max_env es' (fleet s) = Some (fleet s').
Proof.
  revert s. induction es as [|e es IH]; intros s; cbn; [intros [= <-]; by exists []|].
  destruct (exec e s) as [s1|] eqn:E; [|done]. cbn. intros (es' & Hx)%IH.
  destruct e as [i|pe|w path proc|fe]; cbn [exec] in E.
  - destruct (Queue.exec _ _); simplify_eq/=. by exists es'.
  - destruct (plain pe); [|done]. destruct (Queue.exec _ _); simplify_eq/=. by exists es'.
  - repeat (case_match; try done). destruct (view _ s); [|done]. cbn [mbind option_bind] in E. destruct (Queue.exec _ _); simplify_eq/=. by exists es'.
  - destruct (admitted fe s); [|done]. destruct (Generations.exec _ _ _ _ _) as [f|] eqn:Ef; simplify_eq/=.
    exists (fe :: es'). cbn. by rewrite Ef.
Qed.

(** What the runner of request [i] met is what the fleet gave it. *)
Definition explained (i : nat) (host : Host) (f : Fleet) : Prop :=
  eligible i = true ->
  (exists z r, runs f !! i = Some (RunReturned z r) /\ h_zygote host = Some (returning r))
  \/ (runs f !! i = Some RunSlow /\ (h_zygote host = None \/ h_zygote host = Some dead_handle)).

Lemma explained_exec e f f' i host : Generations.exec text config max_env e f = Some f' -> explained i host f -> explained i host f'.
Proof.
  intros Hx He Hel. destruct (He Hel) as [(z & r & Hr & Hz)|[Hr Hz]]; [left; exists z, r|right]; (split; [|done]);
    by eapply run_settled.
Qed.

Lemma view_explained i z s path proc : view i s = Some z ->
  explained i {| h_zygote := z; h_path := path; h_proc := proc |} (fleet s).
Proof.
  intros Hv Hel. unfold view in Hv. rewrite Hel in Hv. destruct (runs (fleet s) !! i) as [[]|] eqn:E; simplify_eq.
  - right. split; [done|]. destruct (slot (fleet s)); auto.
  - left. eauto.
Qed.

(** Only the end of a job adds to the jobs that were run. *)
Lemma plain_ran e p p' : plain e = true -> Queue.exec e p = Some p' -> Queue.ran p' = Queue.ran p.
Proof.
  intros Hp Hx. destruct e; try done; cbn in Hx; repeat (case_match; simplify_eq/=; try done);
    unfold Queue.do_send; by case_match.
Qed.

Lemma ran_explained es s s' : execs es s = Some s' ->
  Forall (fun x => explained x.1 x.2 (fleet s)) (Queue.ran (pool s)) ->
  Forall (fun x => explained x.1 x.2 (fleet s')) (Queue.ran (pool s')).
Proof.
  revert s. induction es as [|e es IH]; intros s; cbn; [by intros [= <-]|].
  destruct (exec e s) as [s1|] eqn:E; [|done]. cbn. intros Hx Hf. apply (IH s1 Hx).
  destruct e as [i|pe|w path proc|fe]; cbn [exec] in E.
  - cbn in E. destruct (Queue.submits (pool s) !! i); simplify_eq/=. done.
  - destruct (plain pe) eqn:Hp; [|done]. destruct (Queue.exec pe (pool s)) as [p|] eqn:Ep; simplify_eq/=. by rewrite (plain_ran _ _ _ Hp Ep).
  - destruct (Queue.workers (pool s) !! w) as [[| |m| |]|] eqn:Ew; try done. destruct (view _ s) as [z|] eqn:Ev; [|done].
    cbn in E. rewrite Ew in E. simplify_eq/=. assert (forall x, Queue.ran (Queue.do_run w m x (pool s)) = Queue.ran (pool s) ++ [(Queue.m_call m, x)]) as ->.
    { intros x. unfold Queue.do_run. by case_match. }
    apply Forall_app. split; [done|]. constructor; [|done]. by apply view_explained.
  - destruct (admitted fe s); [|done]. destruct (Generations.exec _ _ _ _ _) as [f|] eqn:Ef; simplify_eq/=.
    eapply Forall_impl; [exact Hf|]. intros x. by apply (explained_exec fe).
Qed.

(** Requests of other kinds never enter the fleet. *)
Lemma ineligible_absent es s s' i : execs es s = Some s' -> eligible i = false ->
  runs (fleet s) !! i = None -> runs (fleet s') !! i = None.
Proof.
  intros Hx Hel. revert s Hx. induction es as [|e es IH]; intros s; cbn; [by intros [= <-]|].
  destruct (exec e s) as [s1|] eqn:E; [|done]. cbn. intros Hx Hi. apply (IH s1 Hx).
  destruct e as [j|pe|w path proc|fe]; cbn [exec] in E.
  - destruct (Queue.exec _ _); simplify_eq/=. done.
  - destruct (plain pe); [|done]. destruct (Queue.exec _ _); simplify_eq/=. done.
  - repeat (case_match; try done). destruct (view _ s); [|done]. cbn [mbind option_bind] in E. destruct (Queue.exec _ _); simplify_eq/=. done.
  - destruct (admitted fe s) eqn:Ha; [|done]. destruct (Generations.exec _ _ _ _ _) as [f|] eqn:Ef; simplify_eq/=.
    eapply run_arrives; [done| |done]. intros ->. cbn in Ha. by rewrite Hel in Ha.
Qed.

Lemma runs_startup host room i : runs (startup config max_env host room) !! i = None.
Proof. unfold startup. by repeat case_match. Qed.

(** What a reachable service answers, and where the host came from. *)
Lemma service_answer n s i a : (0 < n)%nat -> reachable n s -> Queue.submits (pool s) !! i = Some (Queue.SubReturned a) ->
  exists host acts, (i, host) ∈ Queue.ran (pool s) /\ Http.dispatch (H0 := rngs i) config (request i) host = Some (a, acts)
    /\ explained i host (fleet s) /\ (eligible i = false -> runs (fleet s) !! i = None).
Proof.
  intros Hn (h & room & es & Hx) Ha. destruct (service_pool _ _ _ Hx) as (es' & Hp & Hes). cbn in Hp.
  assert (Forall Queue.safe_event es') as Hsafe.
  { apply Forall_forall. intros [] Hin; cbn; try done. rewrite (Hes _ _ _ Hin). apply run_code_job_safe. }
  destruct (Queue.healthy_answer n es' (pool s) i a Hn Hsafe Hp Ha) as (f & host & Hf & Hran & Hh).
  destruct (Queue.jobs_submitted es' (Queue.start n) (pool s) i f Hp Hf) as [?|[lang Hin]]; [done|].
  rewrite (Hes _ _ _ Hin) in Hh. unfold job, run_code_job in Hh.
  destruct (Http.dispatch config (request i) host) as [[a' acts]|] eqn:Ed; [|done]. injection Hh as ->.
  exists host, acts. split; [done|]. split; [done|]. split.
  - pose proof (ran_explained es _ s Hx ltac:(constructor)) as Hex. rewrite Forall_forall in Hex. by apply (Hex (i, host)).
  - intros Hel. eapply ineligible_absent; [done..|]. apply runs_startup.
Qed.

(** The Python runner of request [i], by what it found. *)
Lemma python_run_cases host i src : b64_decode (Models.code (request i)) = inl src ->
  Models.language (request i) = str "python3" ->
  let req := request i in
  let slow before := Python.run_slow (H0 := rngs i) host config src (checked_preload config (preload req)) (options req) before in
  let run := Python.run (H0 := rngs i) host config (Models.code req) (preload req) (options req) in
  (eligible i = false -> run = slow [])
  /\ (eligible i = true -> (h_zygote host = None -> run = slow []) /\ (h_zygote host = Some dead_handle -> run = slow [RequestRestart])
      /\ forall r, h_zygote host = Some (returning r) -> run = fast_call config rngs source (fun i => options (request i)) i r).
Proof.
  intros Hd Hl req slow run. unfold run, Python.run, eligible, fast_call, source, req. rewrite Hd, bool_decide_true by done.
  cbn [andb]. destruct (python_zygote config && is_empty (checked_preload config (preload (request i)))); split; try done.
  intros _. split; [by intros ->|]. split; [by intros ->|]. by intros r ->.
Qed.

End Model.

(** ** Theorem *)

Section EndToEnd.
Context `{Mpmc} `{Os} `{PyJson} `{PyBase64} `{SerdeJson} `{Python} `{Libc} `{Landlock}.
Context (dumps : Json -> bytes) (config : Config) (max_env : option bytes).
Context (rngs : nat -> Rng) (request : nat -> RunCodeRequest).

(** C1. What a client gets.  Any number of clients, pool workers, restarts and
    zygotes, with their workers and children, are interleaved.  The answer to a
    Python request is 500 when its code is not base64.  Otherwise it is made
    from one execution of this client's own request and of no other: either
    the result of its call of one zygote, which is one of the manager's errors
    or the report of the one child forked for it, and any code that child runs
    is the code this client sent, inside the configured sandbox; or the outcome
    of one fresh interpreter given the script of that code, which runs the
    preload and then nothing but this client's code, inside the configured
    sandbox, and then no zygote was ever called for it. *)
Theorem client_gets_own_run n s i a :
  let opts i := options (request i) in
  let sent := call_request config rngs (source request) opts in
  (forall i, loads (dumps (sent i)) = Some (sent i)) -> 65536 <= cap max_env ->
  (forall i, len (text dumps config rngs request i) <= _MAX_FRAME_PAYLOAD) ->
  fits config (Python.slow_paths config) -> (privilege config = false -> paths_read config) ->
  (0 < n)%nat -> reachable dumps config max_env rngs request n s ->
  map_Forall (fun _ y => issued (mgr y) <= u32_max) (gens (fleet s)) ->
  Queue.submits (pool s) !! i = Some (Queue.SubReturned a) -> Models.language (request i) = str "python3" ->
  match b64_decode (Models.code (request i)) with
  | inr e => a = error 500 (str "base64 decode: " ++ e)
  | inl src =>
    (exists z r y, runs (fleet s) !! i = Some (RunReturned z r)
       /\ a = answer_of (inl {| stdout := r.1.1; stderr := r.1.2; exit_code := r.2 |})
       /\ gens (fleet s) !! z = Some y /\ calls (mgr y) !! i = Some (PcReturned r)
       /\ (manager_error r \/ own_child config (cap max_env) (source request) opts y i r))
    \/ (exists host script key enc, (i, host) ∈ Queue.ran (pool s)
         /\ Python.build_script (H0 := rngs i) config src (checked_preload config (preload (request i))) (opts i) = Some (script, key)
         /\ a = answer_of (finish_process (str "spawn python: ") host (Python.command host config key) script (worker_timeout config))
         /\ encrypt_code src (generate_key (H := rngs i) 64) = Some enc
         /\ own_script (H6 := rngs i) config (opts i) host (checked_preload config (preload (request i))) src enc
         /\ (runs (fleet s) !! i = None \/ runs (fleet s) !! i = Some RunSlow))
  end.
Proof.
  intros opts sent Hld Hmax Hpay Hfits Hread Hn Hr Hiss Ha Hlang. pose proof (fits_fast config Hfits) as Hfit.
  destruct (service_answer _ _ _ _ _ n s i a Hn Hr Ha) as (host & acts & Hran & Hd & Hex & Habs).
  rewrite dispatch_outcome in Hd. unfold Http.outcome in Hd. rewrite bool_decide_true in Hd by done.
  destruct (b64_decode (Models.code (request i))) as [src|e] eqn:Eb.
  2: { unfold Python.run in Hd. rewrite Eb in Hd. by injection Hd as <- _. }
  destruct (python_run_cases config rngs request host i src Eb Hlang) as [Hno Hyes].
  assert (forall before, Python.run (H0 := rngs i) host config (Models.code (request i)) (preload (request i)) (options (request i))
      = Python.run_slow (H0 := rngs i) host config src (checked_preload config (preload (request i))) (options (request i)) before ->
    exists script key enc, Python.build_script (H0 := rngs i) config src (checked_preload config (preload (request i))) (opts i) = Some (script, key)
      /\ a = answer_of (finish_process (str "spawn python: ") host (Python.command host config key) script (worker_timeout config))
      /\ encrypt_code src (generate_key (H := rngs i) 64) = Some enc
      /\ own_script (H6 := rngs i) config (opts i) host (checked_preload config (preload (request i))) src enc) as Hslow.
  { intros before Hrun. rewrite Hrun in Hd. unfold Python.run_slow in Hd.
    destruct (Python.build_script _ _ _ _) as [[script key]|] eqn:Es; [|done]. injection Hd as <- _.
    destruct (encrypt_generated (H1 := rngs i) src) as (enc & Henc & _). exists script, key, enc. split_and!; try done. by apply script_own. }
  destruct (eligible config request i) eqn:Hel.
  - destruct (Hyes eq_refl) as (Hnone & Hdead & Hfast). destruct (Hex Hel) as [(z & r & Hrun & Hz)|[Hrun Hz]].
    + left. destruct Hr as (h & room & es & Hx). destruct (service_fleet _ _ _ _ _ _ _ _ Hx) as [es' Hf].
      destruct (fast_path_returned dumps config max_env rngs (source request) opts (fleet s) i z r) as (y & Hy & Hc & Ho); try done.
      { by exists h, room, es'. }
      exists z, r, y. split_and!; try done. rewrite (Hfast r Hz) in Hd.
      destruct (fast_call_eq config rngs (source request) (fun i => options (request i)) i r) as [acts' E]. rewrite E in Hd. by injection Hd as <- _.
    + right. exists host. destruct Hz as [Hz|Hz]; [destruct (Hslow _ (Hnone Hz)) as (script & key & enc & ? & ? & ? & ?)
        |destruct (Hslow _ (Hdead Hz)) as (script & key & enc & ? & ? & ? & ?)]; exists script, key, enc; by split_and!; auto.
  - right. exists host. destruct (Hslow _ (Hno eq_refl)) as (script & key & enc & ? & ? & ? & ?). exists script, key, enc. by split_and!; auto.
Qed.

End EndToEnd.

(** ** Witness *)

Module ServiceDemo.

#[local] Existing Instance ChildDemo.python.
#[local] Existing Instance ChildDemo.landlock.
#[local] Existing Instance Runners.Demo.json.
#[local] Instance libc_demo : Libc := libc_x86_64.
#[local] Instance base64_demo : Base64 := Rfc4648.base64.
#[local] Instance py_base64_demo : PyBase64 := Rfc4648.py_base64.
#[local] Instance os_demo : Os := WorkerSpec.Demo.os 100.
#[local] Instance mpmc_demo : Mpmc := Queue.list_mpmc.

(** The shipped configuration, privileged. *)
Definition config : Config := Shipped.config.
Definition dumps : Json -> bytes := PipelineDemo.dumps.
Definition rngs : nat -> Rng := PipelineDemo.rngs.

(** The programs of [PipelineDemo], as clients send them. *)
Definition request (i : nat) : RunCodeRequest := {|
  language := str "python3"; Models.code := b64_encode (PipelineDemo.code i); preload := [];
  options := PipelineDemo.options i |}.

Definition sent : nat -> Json := call_request config rngs (source request) (fun i => options (request i)).

#[local] Instance json : PyJson :=
  {| loads := fun bs => Some (if bool_decide (bs = dumps (sent 0)) then sent 0 else sent 1) |}.

(** Nothing is spawned. *)
Definition proc : Command -> bytes -> Z -> ProcOutcome := fun _ _ _ => SpawnFailed [].

(** Client 0's job is taken by the pool's worker and served by the zygote. *)
Definition events : list event :=
  [Submit 0; PoolStep (Queue.EvSend 0); PoolStep (Queue.EvRecv 0); PoolStep (Queue.EvSub 0)]
  ++ (FleetStep <$> served 0 ++ GenerationsDemo.call 0 0 (str "1") ++ [Return 0])
  ++ [RunJob 0 None proc; PoolStep (Queue.EvReply 0); PoolStep (Queue.EvReceive 0)].

Definition started : Service := boot config None 1 GenerationsDemo.host 1000.
Definition final : Service := default started (execs dumps config None rngs request events started).

Definition answer : ApiResponse := success (run_data {| stdout := str "1"; stderr := []; exit_code := 0 |}).

Lemma service_reachable : reachable dumps config None rngs request 1 final.
Proof. exists GenerationsDemo.host, 1000, events. by vm_compute. Qed.

Lemma service_fits : fits config (Python.slow_paths config).
Proof. split; [by vm_compute..|]. apply (bool_decide_unpack _). by vm_compute. Qed.

Lemma sent_read i : loads (dumps (sent i)) = Some (sent i).
Proof. destruct i as [|i]; by vm_compute. Qed.

Lemma sent_small i : len (text dumps config rngs request i) <= _MAX_FRAME_PAYLOAD.
Proof. destruct i as [|i]; by vm_compute. Qed.

Lemma service_issued : map_Forall (fun _ y => issued (mgr y) <= u32_max) (gens (fleet final)).
Proof. apply (bool_decide_unpack _). by vm_compute. Qed.

Lemma client_gets_own_run_witness :
  Queue.submits (pool final) !! 0%nat = Some (Queue.SubReturned answer)
  /\ exists z r y, runs (fleet final) !! 0%nat = Some (RunReturned z r)
       /\ answer = answer_of (inl {| stdout := r.1.1; stderr := r.1.2; exit_code := r.2 |})
       /\ gens (fleet final) !! z = Some y /\ calls (mgr y) !! 0%nat = Some (PcReturned r)
       /\ (manager_error r \/ own_child config (cap None) (source request) (fun i => options (request i)) y 0 r).
Proof.
  assert (Queue.submits (pool final) !! 0%nat = Some (Queue.SubReturned answer)) as Ha by (by vm_compute). split; [exact Ha|].
  pose proof (client_gets_own_run dumps config None rngs request 1 final 0 answer sent_read
    ltac:(done) sent_small service_fits ltac:(by vm_compute) ltac:(lia) service_reachable service_issued Ha ltac:(by vm_compute)) as Hc.
  cbv zeta in Hc. destruct (b64_decode _) as [src|e] eqn:Eb; [|by vm_compute in Eb].
  destruct Hc as [Hc|(host & script & key & enc & _ & _ & _ & _ & _ & [E|E])]; [exact Hc|by vm_compute in E..].
Defined.

End ServiceDemo.
