(* ===== verification/Startup.v ===== *)
(** * Startup: from the command line to a listening server

    [main] of server/src/main.rs, which puts the components together, the
    worker's own [main] of runtime/pool/zygote_worker.py, and the two
    identification strings of the sandbox library.  What the start-up does is
    returned as a list of actions with its result; the file system, child
    processes, the kernel and the bound address are given by the host.
    Logging is left out, but for the warning of a failed installation. *)

From S2P Require Import Service Generations Prelude RustStd Config Models Queue Restart Runners Reader Zygote Setup Http.

(** ** main.rs *)



Section Main.
Context `{Toml} `{Mpmc} {World : Type}.







End Main.

(** ** zygote_worker.py: [main] *)

Record WorkerArgs := { wa_ctrl_fd : Z; wa_lib_so : bytes; wa_lib_dir : bytes; wa_warm_modules : list bytes }.

(** [argv] is [sys.argv]; [int_text] is Python's [int] on a string; [None] an
    exception. *)
Definition worker_main (int_text : bytes -> option Z) (argv : list bytes) : option WorkerArgs :=
  ctrl_fd ← argv !! 1%nat ≫= int_text;
  lib_so ← argv !! 2%nat;
  lib_dir ← argv !! 3%nat;
  let warm_modules := match argv !! 4%nat with
    | Some m => if is_empty m then [] else split_on comma m
    | None => []
    end in
  Some {| wa_ctrl_fd := ctrl_fd; wa_lib_so := lib_so; wa_lib_dir := lib_dir; wa_warm_modules := warm_modules |}.

(** ** lib.rs: identification *)

(** The features the library is built with; [version] is [CARGO_PKG_VERSION].
    The strings are given to C with their terminating NUL. *)
Inductive lib_feature := FeaturePython3 | FeatureNodejs | FeatureNone.

Definition get_lib_version_static (version : bytes) : bytes := version ++ [Byte.x00].

Definition get_lib_feature_static (f : lib_feature) : bytes :=
  (match f with
   | FeaturePython3 => str "python3"
   | FeatureNodejs => str "nodejs"
   | FeatureNone => str "none"
   end) ++ [Byte.x00].

(** ** Lemmas *)


Lemma join_nonempty sep l : l <> [] -> Forall (fun s => s <> []) l -> join sep l <> [].
Proof. intros Hne Hl. destruct Hl as [|s [|s' l] Hs _]; cbn [join]; [done|done|]. destruct s; [done|by intros]. Qed.






(** ** Theorems *)


(** The worker's arguments arrive: from the command line [new] builds, the
    worker's [main] reads back the descriptor of the control socket, the
    library, the directory and the modules to import in advance, for module
    names that are not empty and have no comma. *)
Theorem worker_args_roundtrip int_text path py fd so dir warm proxy :
  int_text (to_string_i32 fd) = Some fd -> Forall (fun m => m <> [] /\ comma ∉ m) warm ->
  worker_main int_text (drop 1 (args (worker_command path py fd so dir warm proxy)))
  = Some {| wa_ctrl_fd := fd; wa_lib_so := so; wa_lib_dir := dir; wa_warm_modules := warm |}.
Proof.
  intros Hint Hw. unfold worker_main, worker_command. cbn [args drop lookup list_lookup mbind option_bind].
  rewrite Hint. cbn [mbind option_bind]. do 2 f_equal.
  destruct warm as [|m warm]; [done|].
  assert (join (str ",") (m :: warm) <> []) as Hne.
  { apply join_nonempty; [done|]. eapply Forall_impl; [exact Hw|]. by intros ? []. }
  destruct (join (str ",") (m :: warm)) as [|b s] eqn:Ej; [done|]. cbn [is_empty]. rewrite <-Ej.
  apply split_join; [done|]. eapply Forall_impl; [exact Hw|]. by intros ? [].
Qed.

(** ** Witnesses *)

Module BootDemo.



Lemma worker_args_roundtrip_witness :
  worker_main parse_i32 (drop 1 (args (worker_command None (str "python3") 10 (str "./libpython.so") LIB_PATH
    [str "json"; str "math"] (proxy Shipped.config))))
  = Some {| wa_ctrl_fd := 10; wa_lib_so := str "./libpython.so"; wa_lib_dir := LIB_PATH;
            wa_warm_modules := [str "json"; str "math"] |}.
Proof.
  apply (worker_args_roundtrip parse_i32 None (str "python3") 10 (str "./libpython.so") LIB_PATH
    [str "json"; str "math"] (proxy Shipped.config)); [by vm_compute|].
  apply (bool_decide_unpack _). by vm_compute.
Defined.

End BootDemo.
