(* ===== verification/UnitTests.v ===== *)
(** * UnitTests: the repository's unit tests, run on the model

    The [#[test]] functions of the server and of the sandbox library whose
    subject is modelled, each as a [bool] function with the test's inputs and
    assertions.  A test that spawns tasks is run in one schedule; what holds in
    every schedule is proved in the components' files.  The test that a timeout
    kills the child is followed over what it reads of /proc, and shown to decide
    whether the child survives.  The test of tokio's split stream has no
    counterpart. *)

From S2P Require Import Prelude RustStd Wire Reader Seccomp Crypto Config Models Queue Restart Scripts Runners.

(** [str::contains] *)
Fixpoint contains (pat s : bytes) : bool :=
  starts_with pat s || match s with [] => false | _ :: s => contains pat s end.

(** [f] holds of the value, and there is one: [unwrap] or [expect] before an
    assertion. *)
Definition unwrap_and {A} (o : option A) (f : A -> bool) : bool := match o with Some x => f x | None => false end.

(** ** services/zygote.rs *)

Module ZygoteTests.

Definition empty_pending (tx : nat) : Pending := mkPending [] [] (Some tx).

(** The chunk of 60 bytes, twice: 120 bytes under a cap of 100. *)
Definition chunk : bytes := repeat Byte.x78 60.
Definition over_limit_reads : list read_event :=
  [ReadOk (encode_frame MSG_STDOUT 7 chunk); ReadOk (encode_frame MSG_STDOUT 7 chunk)].

Definition limit_error (r : run_result) : bool :=
  let '(_, err, code) := r in (code =? -1) && contains (str "output limit exceeded") err.

Definition killed_7 (s : Shared) : bool := bool_decide (writes s = [encode_frame MSG_KILL 7 []]).

Definition per_request_output_cap_kills_child : bool :=
  let pending := {[7 := empty_pending 0]} in
  let s := snd (read_loop (H := dash_map_order) 100 over_limit_reads [] (mkShared pending true [] [])) in
  unwrap_and (head (sends_to 0 s)) limit_error && killed_7 s && bool_decide (Reader.pending s !! 7 = None).

Definition output_limit_does_not_hang_reader : bool :=
  let pending := {[7 := empty_pending 7; 8 := empty_pending 8]} in
  let reads := over_limit_reads
    ++ [ReadOk (encode_frame MSG_STDOUT 8 (str "hello")); ReadOk (encode_frame MSG_DONE 8 (i32_to_be_bytes 1))] in
  let s := snd (read_loop (H := dash_map_order) 100 reads [] (mkShared pending true [] [])) in
  unwrap_and (head (sends_to 7 s)) limit_error && bool_decide (Reader.pending s !! 7 = None) && killed_7 s
  && bool_decide (head (sends_to 8 s) = Some (str "hello", [], 1)).

Definition max_output_env_parsing : bool :=
  (DEFAULT_MAX_OUTPUT_BYTES =? 10 * 1024 * 1024) && (max_output_bytes None =? DEFAULT_MAX_OUTPUT_BYTES).

End ZygoteTests.

(** ** services/nodejs.rs, with the engine of RFC 4648 *)

Module NodejsTests.
#[local] Instance engine : Base64 := Rfc4648.base64.

Definition is_err {A B} (r : A + B) : bool := match r with inl _ => false | inr _ => true end.
Definition ok {A B} (r : A + B) : option A := match r with inl x => Some x | inr _ => None end.

Definition build_script_splices_raw_code_verbatim : bool :=
  let payload := str "'); globalThis.PWNED=1; //" in
  let script := Nodejs.build_script payload [] in
  contains (str "globalThis.PWNED=1") script && contains (str "eval(Buffer.from('');") script.

Definition validate_rejects_injection_payload : bool :=
  is_err (Nodejs.validate_base64 (str "'); require('child_process').execSync('id'); //")).

Definition validate_rejects_quote_and_control_chars : bool :=
  is_err (Nodejs.validate_base64 (str "abc'def"))
  && is_err (Nodejs.validate_base64 (str "abc\def"))
  && is_err (Nodejs.validate_base64 (str "abc" ++ [byte_lf] ++ str "def")).

Definition validate_accepts_valid_base64 : bool :=
  let src := str "console.log('hi')" in
  unwrap_and (ok (Nodejs.validate_base64 (b64_encode src))) (fun canonical =>
    unwrap_and (ok (b64_decode canonical)) (fun back => bool_decide (back = src))).

Definition validated_code_produces_safe_wrapper : bool :=
  unwrap_and (ok (Nodejs.validate_base64 (b64_encode (str "1+1")))) (fun canonical =>
    let script := Nodejs.build_script canonical [] in
    contains (str "eval(Buffer.from('" ++ canonical ++ str "', 'base64').toString('utf-8'))") script
    && negb (contains (str "'") canonical)).

End NodejsTests.

(** ** crypto.rs *)

(** The recovering iterator of the test is the byte loop of the prescript. *)
Definition crypto_roundtrip (rng : Rng) : bool :=
  let plain := str "hello world" in
  let key := generate_key (H := rng) 64 in
  unwrap_and (encrypt_code (H := Rfc4648.base64) plain key) (fun enc =>
    unwrap_and (NodejsTests.ok (b64_decode (Base64 := Rfc4648.base64) enc)) (fun dec =>
      bool_decide (imap (fun i b => byte_xor b (key_at key i)) dec = plain))).

(** ** config.rs *)

Module ConfigTests.

Definition sandbox_gid_default_is_not_root_group : bool :=
  negb (default_sandbox_gid =? 0) && (default_sandbox_gid =? 65537).

(** The document of the test: only [app.port] and [app.key]. *)
Definition minimal : Document := {|
  d_app := Some (Some 8194, None, Some (str "test"));
  d_max_workers := None; d_worker_timeout := None; d_enable_network := None; d_enable_preload := None;
  d_privilege := None; d_python_zygote := None; d_python_zygote_preload_modules := None; d_python_path := None;
  d_nodejs_path := None; d_python_lib_paths := None; d_nodejs_lib_paths := None; d_sandbox_user := None;
  d_sandbox_uid := None; d_sandbox_gid := None; d_python_max_as_bytes := None; d_nodejs_max_as_bytes := None;
  d_nodejs_max_old_space_mb := None; d_proxy := None |}.

Definition omitted_gid_defaults_to_nonroot : bool :=
  unwrap_and (config_of minimal) (fun cfg => negb (sandbox_gid cfg =? 0) && (sandbox_gid cfg =? 65537)).

Definition shipped_config_zygote_enabled : bool := unwrap_and (config_of Shipped.document) python_zygote.

Definition shipped_config_gid_is_not_root : bool :=
  unwrap_and (config_of Shipped.document) (fun cfg => negb (sandbox_gid cfg =? 0)).

End ConfigTests.

(** ** queue.rs *)

Module QueueTests.
#[local] Existing Instance list_mpmc.

Definition job (i : nat) : Job (World := unit) :=
  fun _ => Some (success (JObject [field "i" (JNumber (Z.of_nat i))])).

(** Fifty calls, all queued, then served by the four workers in turn. *)
Definition schedule : list (Queue.event (World := unit)) :=
  concat ((fun i => [EvSubmit i (str "test") (job i); EvSend i]) <$> seq 0 50)
  ++ concat ((fun i => let w := (i mod 4)%nat in [EvRecv w; EvSub w; EvRun w tt; EvReply w; EvReceive i]) <$> seq 0 50).

Definition queue_processes_concurrent_jobs : bool :=
  unwrap_and (Queue.execs schedule (start 4)) (fun s =>
    forallb (fun i => match submits s !! i with Some (SubReturned r) => r_code r =? 0 | _ => false end) (seq 0 50)
    && (queue_depth s =? 0)).

End QueueTests.

(** ** main.rs *)

Module RestartTests.

(** [n] callers of [try_begin_restart], and how many won. *)
Fixpoint callers (n : nat) (s : State) : nat * State :=
  match n with
  | O => (O, s)
  | S n => let '(b, s) := try_begin_restart s in
           let '(winners, s) := callers n s in ((if b then 1 else 0) + winners, s)%nat
  end.

Definition single_flight_admits_exactly_one : bool :=
  let s := end_restart (startup false None) in
  let '(winners, s) := callers 32 s in
  (winners =? 1)%nat && fst (try_begin_restart (end_restart s)).

End RestartTests.

(** ** services.rs: a timeout kills the child *)

Module ProcTests.

Definition paren : byte := Byte.x29.
Definition zombie : bytes := str "Z".

(** [rfind]: what follows the last [c]. *)
Fixpoint after_last (c : byte) (s : bytes) : option bytes :=
  match s with
  | [] => None
  | b :: s =>
    match after_last c s with
    | Some r => Some r
    | None => if bool_decide (b = c) then Some s else None
    end
  end.

(** [chars().next()] *)
Definition first_char (s : bytes) : option bytes :=
  match s with [] => None | b :: _ => Some (take (utf8_char_width b) s) end.

(** [stat] is what [read_to_string] of the process's stat file gives. *)
Definition proc_state (stat : option bytes) : option bytes :=
  s ← stat; rest ← after_last paren s; first_char (trim_start rest).

(** [None | Some('Z')] *)
Definition dead (stat : option bytes) : bool :=
  match proc_state stat with Some c => bool_decide (c = zombie) | None => true end.

(** The loop of [n] reads, from the [k]th on. *)
Fixpoint poll (stat : nat -> option bytes) (n k : nat) : bool :=
  match n with
  | O => false
  | S n => if dead (stat k) then true else poll stat n (S k)
  end.

(** [stat k] is the [k]th read of the child's stat file; [elapsed] is whether
    the timeout elapsed before the child ended. *)
Definition timeout_kills_child (stat : nat -> option bytes) (elapsed : bool) : bool :=
  negb (dead (stat 0%nat)) && elapsed && poll stat 100 1.

(** A line of the kernel: the command name is any text, what follows the state
    are numbers. *)
Definition stat_line (pid comm : bytes) (state : byte) (fields : bytes) : bytes :=
  pid ++ str " (" ++ comm ++ str ") " ++ state :: fields.

Lemma after_last_none c s : c ∉ s -> after_last c s = None.
Proof.
  induction s as [|b s IH]; [done|]. intros [Hb Hs]%not_elem_of_cons. cbn. rewrite IH by done. by rewrite bool_decide_false by done.
Qed.

Lemma after_last_app c s t : c ∉ t -> after_last c (s ++ c :: t) = Some t.
Proof.
  intros Ht. induction s as [|b s IH]; cbn; [|by rewrite IH]. rewrite after_last_none by done. by rewrite bool_decide_true.
Qed.

(** The state is read right whatever the command is called, closing
    parentheses and blanks included. *)
Lemma proc_state_line pid comm state fields :
  in_range 33 127 state = true -> paren ∉ state :: fields -> proc_state (Some (stat_line pid comm state fields)) = Some [state].
Proof.
  intros Hr Hp. unfold proc_state, stat_line.
  replace (pid ++ str " (" ++ comm ++ str ") " ++ state :: fields)
    with ((pid ++ str " (" ++ comm) ++ paren :: Byte.x20 :: state :: fields) by (by rewrite <-!app_assoc).
  cbn [mbind option_bind]. rewrite after_last_app; [|by intros [|]%elem_of_cons].
  cbn [mbind option_bind]. unfold in_range in Hr. apply andb_true_iff in Hr as [Hlo Hhi].
  assert (trim_start (Byte.x20 :: state :: fields) = state :: fields) as ->.
  { change (trim_start (state :: fields) = state :: fields). cbn.
    assert (ws1 state = false) as -> by (unfold ws1, in_range; lia). destruct fields as [|b1 fields]; [done|].
    assert (ws2 state b1 = false) as -> by (unfold ws2, in_range; lia). destruct fields as [|b2 fields]; [done|].
    by assert (ws3 state b1 b2 = false) as -> by (unfold ws3, in_range; lia). }
  unfold first_char, utf8_char_width. by assert (in_range 0 127 state = true) as -> by (unfold in_range; lia).
Qed.

Lemma poll_spec stat n k : poll stat n k = true <-> exists j, (k <= j < k + n)%nat /\ dead (stat j) = true.
Proof.
  revert k. induction n as [|n IH]; intros k; cbn; [split; [done|intros (j & ? & _); lia]|].
  destruct (dead (stat k)) eqn:E.
  - split; [|done]. intros _. exists k. split; [lia|done].
  - rewrite IH. split; intros (j & Hj & Hd); exists j; (split; [|done]); [lia|].
    assert (j <> k) by (intros ->; congruence). lia.
Qed.

(** The test is an exact check: it passes just when the child was there before
    the timeout, the timeout elapsed, and the child is gone or a zombie at one
    of the hundred reads that follow. *)
Theorem timeout_test_exact stat elapsed :
  timeout_kills_child stat elapsed = true
  <-> dead (stat 0%nat) = false /\ elapsed = true /\ exists j, (1 <= j <= 100)%nat /\ dead (stat j) = true.
Proof.
  unfold timeout_kills_child. rewrite !andb_true_iff, negb_true_iff, poll_spec.
  split; [intros [[? ?] (j & ? & ?)]|intros (? & ? & j & ? & ?)]; split_and!; try done; exists j; (split; [lia|done]).
Qed.

End ProcTests.

(** ** lib.rs of the sandbox library *)

Definition zero_cap_is_disabled_noop (world : list kcall -> kcall -> Z) : bool :=
  match set_memory_limit world 0 [] with (inl _, []) => true | _ => false end.

(** ** Theorem *)

Lemma crypto_roundtrip_passes rng : crypto_roundtrip rng = true.
Proof.
  unfold crypto_roundtrip. pose proof (generated_key_nonempty (H := rng)) as Hk.
  generalize dependent (generate_key (H := rng) 64). intros key Hk.
  assert (encrypt_code (H := Rfc4648.base64) (str "hello world") key
    = Some (b64_encode (Base64 := Rfc4648.base64) (xor_stream key (str "hello world")))) as -> by (by destruct key).
  cbn [unwrap_and]. rewrite b64_decode_encode. cbn [NodejsTests.ok unwrap_and].
  apply bool_decide_eq_true_2. apply xor_stream_involutive.
Qed.

(** The repository's unit tests pass on the model: the output cap kills the
    child and answers its caller while the reader goes on; the defaults and the
    shipped configuration are as asserted; base64 validation rejects the
    injection payloads; encryption round-trips under any key source; fifty
    calls through four workers all succeed and leave the depth at zero; one of
    32 callers wins the restart gate; and a zero memory cap makes no call,
    whatever the kernel answers. *)
Theorem unit_tests_pass rng world :
  ZygoteTests.per_request_output_cap_kills_child = true
  /\ ZygoteTests.output_limit_does_not_hang_reader = true
  /\ ZygoteTests.max_output_env_parsing = true
  /\ NodejsTests.build_script_splices_raw_code_verbatim = true
  /\ NodejsTests.validate_rejects_injection_payload = true
  /\ NodejsTests.validate_rejects_quote_and_control_chars = true
  /\ NodejsTests.validate_accepts_valid_base64 = true
  /\ NodejsTests.validated_code_produces_safe_wrapper = true
  /\ crypto_roundtrip rng = true
  /\ ConfigTests.sandbox_gid_default_is_not_root_group = true
  /\ ConfigTests.omitted_gid_defaults_to_nonroot = true
  /\ ConfigTests.shipped_config_zygote_enabled = true
  /\ ConfigTests.shipped_config_gid_is_not_root = true
  /\ QueueTests.queue_processes_concurrent_jobs = true
  /\ RestartTests.single_flight_admits_exactly_one = true
  /\ zero_cap_is_disabled_noop world = true.
Proof.
  do 8 (split; [by vm_compute|]). split; [apply crypto_roundtrip_passes|]. split_and!; by vm_compute.
Qed.
